(* ===== verification/_CoqProject ===== *)
-Q . S2P
Prelude.v
Printk.v
Kargs.v
Rvm.v
RamUtil.v
Physalloc.v
BlockTable.v
PhysallocSpec.v
PhysallocFree.v
PhysallocInv.v
PhysallocExpand.v
PhysallocThms.v
RvmFacts.v
Glacier.v
RvmRegs.v
GlacierSpec.v
GlacierThms.v
GlacierRange.v
GlacierUnmap.v
GlacierDrop.v
PhysInit.v
Heap.v
GlacierMaps.v
HeapThms.v
Bytes.v
Memory.v
Elf.v
Flint.v
Block.v
BlockThms.v
Gpt.v
Fat.v
FatThms.v
FatDir.v
FatTerm.v
FatDemo.v
Vfs.v
VfsPath.v
VfsThms.v
VfsFiles.v
VfsWf.v
VfsDemo.v
Pci.v
Vga.v
Aps.v
Nvme.v
Acpi.v
Hw.v
Intc.v
Cpu.v
Device.v
Reloc.v
ImageThms.v
FlintThms.v
RelocThms.v
RelocDemo.v
Locks.v
Kreq.v
Amd64.v
Amd64Exc.v
Amd64Facts.v
Amd64ExcThms.v
Amd64Trap.v
Amd64Ctxt.v
Amd64Demo.v
Aleph.v
A64.v
A64Exc.v
A64Facts.v
A64Thms.v
A64Trap.v
A64Ctxt.v
A64Demo.v
Proc.v
ProcTable.v
ProcThms.v
ProcDrop.v
ProcDemo.v
AcpiDemo.v
Entry.v
