(* ===== verification/Prelude.v ===== *)
(** * A verification library for the unix-v11 kernel

    The program is a small operating-system kernel in Rust for AMD64 and
    AArch64 (src/kernel), started by a UEFI loader (src/efi).  This library
    translates the kernel's own logic into executable definitions, operation
    by operation, and proves what each part promises.  Definitions keep the
    names of the source ([PhysAlloc::alloc] is [PhysAlloc_alloc]); a method
    that changes [self] returns the new state.

    ** How Rust is modelled (Prelude, Bytes)

    A machine integer of width [w] is a [Z] in [0 .. 2^w); every operator that
    can overflow is [uadd], [usub], [umul], ... and panics or wraps according
    to the class [Build] ([overflow_checks]: the two Cargo profiles).
    Theorems hold in both builds unless they say which.  Running code gives an
    [outcome]: [Ret], [Panic] or [NoFuel].  [Result] is [result].  Loops
    without a structural measure have a fuel; theorems prove that a stated
    fuel is enough ([returns], termination theorems), never only that a
    result is right if there is one.  Memory is a map from the address of a
    word to its value; memory that holds a Rust slice is a list; the bytes that
    the loader and new programs are made of are a map from addresses to bytes
    (Memory).

    ** The parts of the program

    - Boot information (Kargs; kernel/src/kargs.rs): RAM types, descriptors of
      the firmware's memory map and of the kernel's segments; the list of
      processors (Aps).
    - Paging geometry (Rvm, RvmFacts; ram/glacier.rs, arch/*/rvm.rs): page
      sizes, levels, indices, flag words and their detection on both
      architectures; [Platform] collects what is fixed while the kernel runs.
    - Memory arithmetic (RamUtil; ram/mod.rs) and text (Printk): the formats of
      numbers and [dump_bytes].
    - The registers of the address translation (RvmRegs; arch/*/rvm.rs), with
      what the two architectures make of the flags of a page.
    - Physical memory (ram/physalloc.rs).  Physalloc holds the data and all
      operations; [alloc], [free], [add], [expand] and [shrink] call each
      other and are tied by [ops] with a fuel for the depth of the calls, of
      which eight are enough.  BlockTable is the theory of lists of blocks,
      PhysallocSpec, PhysallocFree, PhysallocInv and PhysallocExpand relate
      every operation to a map from addresses to (type, used), PhysallocThms
      has the contract.  PhysInit: the construction from the
      firmware's map.
    - Page tables (Glacier, GlacierSpec, GlacierThms, GlacierRange,
      GlacierMaps, GlacierUnmap, GlacierDrop; ram/glacier.rs): a tree of tables in a memory of words.
      The class [FrameAlloc] is what the tables call of an allocator,
      [FrameLaws] what they rely on; GlacierRange shows that the physical
      allocator has these laws.
    - Kernel heap and page buffers (Heap, HeapThms; ram/mod.rs): the
      out-of-memory handler between the physical allocator, the page tables
      and the heap allocator (talc, an interface).
    - Locks (Locks; ram/mutex.rs): processors, interrupts and locks
      interleave; the lock_api crate is an interface.
    - Block devices and files over them (Block, BlockThms; device/block.rs,
      filesys/dev.rs), the partition table (Gpt; filesys/gpt.rs), FAT (Fat,
      FatThms, FatDir, FatTerm, FatDemo; filesys/parts/fat.rs).
    - The virtual file system (Vfs, VfsPath, VfsThms, VfsFiles,
      VfsWf, VfsDemo; filesys/mod.rs, vfn.rs, parts/vpart.rs): a store of
      shared nodes, path resolution, mount points, [init_filesys].
    - PCI (Pci; device/mod.rs) and the framebuffer (Vga;
      device/vga.rs).
    - Disks and USB (Nvme; device/nvme.rs, usb.rs), the handler of
      the ACPI interpreter (Acpi, AcpiDemo; device/acpi.rs), the
      table of the processors (Cpu; device/cpu.rs) and the start of
      all devices (Device; device/mod.rs).
    - Registers of devices and the serial port (Hw; arch/*/mod.rs), interrupt
      controllers and timers (Intc; arch/*/intc.rs).
    - Kernel requests (Kreq; kreq.rs): the system calls, over a memory whose
      accesses can fault.
    - Interrupts, system calls and context switches on AMD64 (arch/amd64/exc.rs,
      proc.rs).  Amd64 is a processor with the instructions that the kernel's
      assembly uses; Amd64Exc the assembly, as lists of instructions, the
      frame, [exc_handler] and the tables; Amd64Facts, Amd64ExcThms, Amd64Trap
      and Amd64Ctxt the theorems; Amd64Demo runs a program that prints.
      Aleph (corecli/aleph) is the first program, on that processor.

    - The same on AArch64 (arch/aarch64/exc.rs, proc.rs): A64, A64Exc, A64Facts,
      A64Thms, A64Trap, A64Ctxt and A64Demo.
    - The boot loader (Elf, Flint, FlintThms; efi/src/main.rs) over an interface
      of the firmware and of the ELF parser, and the move of the running kernel
      to the upper half (Reloc, RelocThms, RelocDemo; ram/reloc.rs).  ImageThms
      is about images with relocations, for both.
    - Processes (proc/).  Proc: what a new process is made of and what is given
      back; ProcTable: the table, process numbers, what runs on each processor;
      ProcThms, ProcDrop, ProcDemo.  The instructions that enter
      a program are [rstr_ctxt] of the two architectures.
    - The entry (Entry; main.rs): [ignite], which builds the allocator and the
      first tables and moves the kernel, and [spark], which goes on in the
      upper half, composed of the operations above over one state; and the
      number of the processor (arch/*/mod.rs).

    The parts meet in interfaces: page tables see the allocator through
    [FrameAlloc], the heap sees both through [vm_map], [vm_unmap] and
    [FrameAlloc], file systems see disks through [BlockDevice] with
    [DiskLaws], the trap code sees the requests through [exc_handler], and
    processes see frames of both architectures through [ExcCtxt], allocator and
    heap through [KernelMem].

    ** What the theorems show

    - Physical memory: [alloc_spec], [free_spec], [alloc_complete],
      [reclaim_spec], [boot_map_spec] - refinement of an address
      map, also when the table moves, grows or shrinks on the way.
    - Page tables: [map_range_spec] (and the lemmas of GlacierUnmap, GlacierDrop)
      - a map from pages to entries, with the flushes of the TLB and the
      tables given back.
    - Heap and locks: [handle_oom_spec], [locks_safe].
    - Traps: [syscall_refines], [interrupt_refines], [el0_exception_refines],
      [el1_exception_refines], [code_typed], [rstr_ctxt_spec];
      requests: [kreq_confined],
      [print_spec].
    - Starting up: [ignite_spec] (from the loader to [spark]: allocator, tables,
      copy, nothing else mapped, or which allocation failed),
      [spark_memory_spec] (from there to the devices without a panic: no page
      writable and executable, the loader's memory free, the kernel's not) -
      both from the contracts of the parts; [flint_spec] (the image in memory,
      relocated, and the arguments), [reloc_spec] (the kernel mapped, moved and linked at its new
      address), [move_as_loaded] (moving is loading at the new address).
    - Processes: [program_spec] (the address space, memory, context and kernel
      stack of a new process), [proc_drop_spec] (what its end gives back),
      [aleph_runs] (the first program, from its requests through the entry code
      and the handler to the serial port), [exec_spec] (numbers), [procs_safe] (an invariant of any number of
      processors that start and end programs).
    - Files: byte-exact reads and writes over blocks, confinement of
      partitions, the partition table round trip, FAT chains and directories
      with termination, and for the virtual file system the equivalence of
      path resolution with a reference, an invariant of all reachable states,
      and what writing changes (lemmas: create, unlink).
    - Devices: [nvme_refines] (requests of any length against the bytes of the
      disk), [acpi_refcounts] (the counted mapping of regions),
      [init_cpu_spec] (what is mapped and kept of the table of the processors),
      [start_devs_spec] (which block devices there are), [gic_line_spec]
      (which interrupts are enabled).  Lemmas and theorems beside the
      components say more: [draw_line_spec] (Bresenham's line), the scan of the PCI buses, the numbers of the
      processors, [unmap_range_spec], [grow_heap_maps], [exc_init_spec],
      [write_str_sends] (the serial port), [send_ipi_target],
      [data_grants] (what the flags of a page grant), [dump_hex_roundtrip].

    Theorems that show defects of the code are beside the component they
    concern; their names say what happens ([shrink_frees_foreign],
    [noncanonical_mount_inert], [rstr_ctxt_clobbers], ...).

    ** Parameters

    The sort of wikisort (it permutes), the locks of lock_api, talc's
    spans and heap, the hardware behind a block device, a PCI register or the
    framebuffer (reads and writes of a memory), the registers of other devices
    ([Hardware]), the drivers nvme_oxide and usb_oxide ([NvmeNs], [NvmeDriver],
    [UsbDriver]), the parsers acpi and fdt ([Firmware]), the physical number of a
    processor, the firmware's services and the ELF parser xmas_elf, and the code
    that the compiler generates for a Rust function
    called from assembly, which keeps what the calling convention says
    ([abi_ok]).

    ** Not modelled

    Panics' messages and some of what is printed (what the start of the
    devices, [spark], [init_filesys], [dump_bytes] and the EDID print is modelled;
    what [init_filesys] printed before an error is not kept), barriers and
    flushes of whole caches, and, in Entry, the heap: the growth that
    [AP_LIST.assign] and the first boxes cause is that of HeapThms and is not
    threaded through [ignite] and [spark].  PROJECT.json lists every part and what is left of it. *)

From stdpp Require Export base tactics list numbers strings gmap sets.
From Stdlib Require Export ZArith Lia.

#[global] Open Scope Z_scope.

(** ** Outcomes

    The result of running Rust code: a value, a panic (overflow in a build
    with overflow checks, an index out of range, a division by zero, an
    [unwrap] of nothing, [unreachable!]), or the exhaustion of the fuel that
    bounds the recursion of the model. *)

Inductive outcome (A : Type) : Type :=
  | Ret (a : A)
  | Panic
  | NoFuel.
Global Arguments Ret {A} a.
Global Arguments Panic {A}.
Global Arguments NoFuel {A}.

#[global] Instance outcome_ret : MRet outcome := fun A a => Ret a.
#[global] Instance outcome_bind : MBind outcome := fun A B f m =>
  match m with Ret a => f a | Panic => Panic | NoFuel => NoFuel end.
#[global] Instance outcome_fmap : FMap outcome := fun A B f m =>
  match m with Ret a => Ret (f a) | Panic => Panic | NoFuel => NoFuel end.

Definition unwrap {A} (o : option A) : outcome A :=
  match o with Some a => Ret a | None => Panic end.

(** [Result<T, E>] of the standard library. *)
Inductive result (E A : Type) : Type :=
  | Ok (a : A)
  | Err (e : E).
Global Arguments Ok {E A} a.
Global Arguments Err {E A} e.

(** Code that may panic and otherwise returns a [Result]: the [?] operator. *)
Definition try_bind {E A B} (m : outcome (result E A))
    (f : A -> outcome (result E B)) : outcome (result E B) :=
  r ← m; match r with Ok a => f a | Err e => Ret (Err e) end.

Declare Scope rust_scope.
Delimit Scope rust_scope with rust.
Notation "x '←?' m ; k" := (try_bind m (fun x => k))
  (at level 20, m at level 100, k at level 200, only parsing) : rust_scope.
Notation "' p '←?' m ; k" := (try_bind m (fun x => match x with p => k end))
  (at level 20, p pattern, m at level 100, k at level 200, only parsing) : rust_scope.
#[global] Open Scope rust_scope.

(** A value satisfying [Q], with no panic. *)
Definition returns {A} (m : outcome A) (Q : A -> Prop) : Prop :=
  match m with Ret a => Q a | _ => False end.

(** ** Machine integers

    An unsigned integer of width [w] is a [Z] in [0 .. 2^w).  Whether an
    overflowing operation panics or wraps is a property of the build: Cargo's
    [dev] profile checks, its [release] profile does not (exec/build builds
    either). *)

Class Build : Type := { overflow_checks : bool }.

Definition fits (w x : Z) : bool := (0 <=? x) && (x <? 2 ^ w).

Definition arith `{Build} (w x : Z) : outcome Z :=
  if fits w x then Ret x
  else if overflow_checks then Panic else Ret (x mod 2 ^ w).

Definition uadd `{Build} (w a b : Z) : outcome Z := arith w (a + b).
Definition usub `{Build} (w a b : Z) : outcome Z := arith w (a - b).
Definition umul `{Build} (w a b : Z) : outcome Z := arith w (a * b).

(** Division and remainder panic on a zero divisor in every build. *)
Definition udiv (a b : Z) : outcome Z := if b =? 0 then Panic else Ret (a / b).
Definition urem (a b : Z) : outcome Z := if b =? 0 then Panic else Ret (a mod b).

(** [a.div_ceil(b)] *)
Definition udiv_ceil (a b : Z) : outcome Z :=
  if b =? 0 then Panic
  else Ret (if 0 <? a mod b then a / b + 1 else a / b).

(** [a << k] and [a >> k]: the bits shifted out are dropped; a shift amount
    that is not below the width overflows. *)
Definition ushl `{Build} (w a k : Z) : outcome Z :=
  if k <? w then Ret (Z.shiftl a k mod 2 ^ w)
  else if overflow_checks then Panic else Ret (Z.shiftl a (k mod w) mod 2 ^ w).
Definition ushr `{Build} (w a k : Z) : outcome Z :=
  if k <? w then Ret (Z.shiftr a k)
  else if overflow_checks then Panic else Ret (Z.shiftr a (k mod w)).

(** [!a], [a as uW], [a.saturating_sub(b)], [a.saturating_add(b)],
    [a.saturating_mul(b)], [a.wrapping_sub(b)], [a.wrapping_add(b)]. *)
Definition unot (w a : Z) : Z := 2 ^ w - 1 - a.
Definition ucast (w a : Z) : Z := a mod 2 ^ w.
Definition usat_sub (a b : Z) : Z := Z.max 0 (a - b).
Definition usat_add (w a b : Z) : Z := Z.min (2 ^ w - 1) (a + b).
Definition usat_mul (w a b : Z) : Z := Z.min (2 ^ w - 1) (a * b).
Definition uwrap_sub (w a b : Z) : Z := (a - b) mod 2 ^ w.
Definition uwrap_add (w a b : Z) : Z := (a + b) mod 2 ^ w.

(** [a.next_power_of_two()] *)
Definition next_pow2 (a : Z) : Z := 2 ^ Z.log2_up a.

(** Slicing [l[i..i+n]]: a panic when the range leaves the slice. *)
Definition slice {A} (l : list A) (i n : Z) : outcome (list A) :=
  if (0 <=? i) && (0 <=? n) && (i + n <=? Z.of_nat (length l))
  then Ret (take (Z.to_nat n) (drop (Z.to_nat i) l)) else Panic.

(** Copying [src] over [l[i..i+src.len()]]. *)
Definition splice {A} (l : list A) (i : Z) (src : list A) : outcome (list A) :=
  if (0 <=? i) && (i + Z.of_nat (length src) <=? Z.of_nat (length l))
  then Ret (take (Z.to_nat i) l ++ src ++ drop (Z.to_nat i + length src) l)
  else Panic.

(** ** Memory

    A memory gives every address its contents (a byte or a word, as the
    component says): [ptr.write_bytes(0, n)] and [dst.copy_from(src, n)]. *)

Definition zero_bytes (m : Z -> Z) (ptr n : Z) : Z -> Z :=
  fun a => if (ptr <=? a) && (a <? ptr + n) then 0 else m a.
Definition copy_bytes (m : Z -> Z) (dst src n : Z) : Z -> Z :=
  fun a => if (dst <=? a) && (a <? dst + n) then m (src + (a - dst)) else m a.

(** ** Lemmas on outcomes and machine integers *)

Lemma fits_true w x : fits w x = true <-> 0 <= x < 2 ^ w.
Proof. unfold fits. rewrite andb_true_iff, Z.leb_le, Z.ltb_lt. lia. Qed.

Lemma arith_ok `{Build} w x : 0 <= x < 2 ^ w -> arith w x = Ret x.
Proof. intros Hx. unfold arith. apply fits_true in Hx. by rewrite Hx. Qed.

Lemma arith_wrap `{Build} w x : overflow_checks = false -> arith w x = Ret (x mod 2 ^ w).
Proof.
  intros Hoff. unfold arith. rewrite Hoff. destruct (fits w x) eqn:Hf; [|done].
  apply fits_true in Hf. by rewrite Z.mod_small.
Qed.

Lemma arith_range `{Build} w x y : 0 <= w -> arith w x = Ret y -> 0 <= y < 2 ^ w.
Proof.
  intros Hw. unfold arith. destruct (fits w x) eqn:Hf.
  - intros [= <-]. by apply fits_true.
  - destruct overflow_checks; [done|]. intros [= <-]. apply Z.mod_pos_bound.
    apply Z.pow_pos_nonneg; lia.
Qed.

Lemma uadd_ok `{Build} w a b : 0 <= a + b < 2 ^ w -> uadd w a b = Ret (a + b).
Proof. apply arith_ok. Qed.
Lemma usub_ok `{Build} w a b : 0 <= a - b < 2 ^ w -> usub w a b = Ret (a - b).
Proof. apply arith_ok. Qed.
Lemma umul_ok `{Build} w a b : 0 <= a * b < 2 ^ w -> umul w a b = Ret (a * b).
Proof. apply arith_ok. Qed.
Lemma udiv_ok a b : b <> 0 -> udiv a b = Ret (a / b).
Proof. intros Hb. unfold udiv. destruct (Z.eqb_spec b 0); [lia|done]. Qed.
Lemma urem_ok a b : b <> 0 -> urem a b = Ret (a mod b).
Proof. intros Hb. unfold urem. destruct (Z.eqb_spec b 0); [lia|done]. Qed.
Lemma ushl_ok `{Build} w a k :
  0 <= k < w -> 0 <= a * 2 ^ k < 2 ^ w -> ushl w a k = Ret (a * 2 ^ k).
Proof.
  intros Hk Ha. unfold ushl. destruct (Z.ltb_spec k w); [|lia].
  rewrite Z.shiftl_mul_pow2 by lia. by rewrite Z.mod_small.
Qed.
Lemma ushr_ok `{Build} w a k : 0 <= k < w -> ushr w a k = Ret (a / 2 ^ k).
Proof.
  intros Hk. unfold ushr. destruct (Z.ltb_spec k w); [|lia].
  by rewrite Z.shiftr_div_pow2 by lia.
Qed.

(** [div_ceil] is the ceiling of the quotient. *)
Lemma udiv_ceil_ok a b :
  0 < b -> 0 <= a -> udiv_ceil a b = Ret ((a + b - 1) / b).
Proof.
  intros Hb Ha. unfold udiv_ceil. destruct (Z.eqb_spec b 0); [lia|]. f_equal.
  pose proof (Z.div_mod a b ltac:(lia)) as Hd.
  pose proof (Z.mod_pos_bound a b Hb) as Hm.
  destruct (Z.ltb_spec 0 (a mod b)).
  - apply Z.div_unique with (r := a mod b - 1); lia.
  - apply Z.div_unique with (r := b - 1); lia.
Qed.

(** The power of two that [next_power_of_two] returns. *)
Lemma next_pow2_spec a : 1 <= a -> a <= next_pow2 a < 2 * a.
Proof.
  intros Ha. unfold next_pow2. destruct (decide (a = 1)) as [->|Hne].
  { vm_compute. split; [discriminate|done]. }
  pose proof (Z.log2_up_spec a ltac:(lia)) as [Hlo Hhi].
  pose proof (Z.log2_up_pos a ltac:(lia)) as Hpos.
  split; [done|].
  replace (2 ^ Z.log2_up a) with (2 * 2 ^ Z.pred (Z.log2_up a)); [lia|].
  rewrite <- Z.pow_succ_r by lia. f_equal; lia.
Qed.

Lemma lor_range a b : 0 <= a < 2 ^ 64 -> 0 <= b < 2 ^ 64 -> 0 <= Z.lor a b < 2 ^ 64.
Proof.
  intros Ha Hb. split; [apply Z.lor_nonneg; lia|].
  rewrite <- (Z.mod_small a (2 ^ 64)), <- (Z.mod_small b (2 ^ 64)) by done.
  rewrite <- !Z.land_ones by lia. rewrite <- Z.land_lor_distr_l, Z.land_ones by lia. by apply Z.mod_pos_bound.
Qed.

Lemma land_range a b : 0 <= a -> 0 <= b < 2 ^ 64 -> 0 <= Z.land a b < 2 ^ 64.
Proof.
  intros Ha Hb. split; [apply Z.land_nonneg; lia|].
  rewrite <- (Z.mod_small b (2 ^ 64)), <- Z.land_ones, Z.land_assoc, Z.land_ones by lia. by apply Z.mod_pos_bound.
Qed.

Lemma ldiff_range a b : 0 <= a < 2 ^ 64 -> 0 <= Z.ldiff a b < 2 ^ 64.
Proof.
  intros Ha. split; [apply Z.ldiff_nonneg; lia|].
  rewrite <- (Z.mod_small a (2 ^ 64)), <- Z.land_ones, !Z.ldiff_land by lia.
  rewrite <- Z.land_assoc, (Z.land_comm (Z.ones 64)), Z.land_assoc, <- Z.ldiff_land, Z.land_ones by lia.
  apply Z.mod_pos_bound. lia.
Qed.

Lemma bind_Ret {A B} (m : outcome A) (f : A -> outcome B) b :
  m ≫= f = Ret b <-> exists a, m = Ret a /\ f a = Ret b.
Proof.
  destruct m; simpl; split.
  - eauto.
  - intros (? & [= <-] & ?); done.
  - done.
  - intros (? & ? & ?); done.
  - done.
  - intros (? & ? & ?); done.
Qed.

Lemma returns_bind {A B} (m : outcome A) (f : A -> outcome B) (Q : B -> Prop) :
  returns m (fun a => returns (f a) Q) -> returns (m ≫= f) Q.
Proof. by destruct m. Qed.

Lemma returns_weaken {A} (m : outcome A) (Q R : A -> Prop) :
  returns m Q -> (forall a, Q a -> R a) -> returns m R.
Proof. destruct m; simpl; auto. Qed.

Lemma returns_exists {A} (m : outcome A) (Q : A -> Prop) :
  returns m Q <-> exists a, m = Ret a /\ Q a.
Proof.
  destruct m; simpl; split; try done.
  - eauto.
  - by intros (? & [= <-] & ?).
  - by intros (? & ? & ?).
  - by intros (? & ? & ?).
Qed.

#[global] Arguments mbind : simpl never.
#[global] Arguments arith : simpl never.
#[global] Arguments Z.shiftl : simpl never.
#[global] Arguments Z.shiftr : simpl never.
#[global] Arguments Z.pow : simpl never.
#[global] Arguments Z.mul : simpl never.
#[global] Arguments Z.sub : simpl never.

Lemma Ret_bind {A B} (a : A) (f : A -> outcome B) : Ret a ≫= f = f a.
Proof. done. Qed.
Lemma Panic_bind {A B} (f : A -> outcome B) : Panic ≫= f = Panic.
Proof. done. Qed.
Lemma mret_bind {A B} (a : A) (f : A -> outcome B) : mret a ≫= f = f a.
Proof. done. Qed.
Lemma Ok_try {E A B} (a : A) (f : A -> outcome (result E B)) :
  try_bind (Ret (Ok a)) f = f a.
Proof. done. Qed.
Lemma try_Ok {E A} (r : outcome (result E A)) : try_bind r (fun a => Ret (Ok a)) = r.
Proof. by destruct r as [[a|e]| |]. Qed.
Lemma Err_try {E A B} (e : E) (f : A -> outcome (result E B)) :
  try_bind (Ret (Err e)) f = Ret (Err e).
Proof. done. Qed.

Create Rewrite HintDb rust.
#[export] Hint Rewrite @Ret_bind @Panic_bind @mret_bind @Ok_try @Err_try : rust.

(** Run the machine arithmetic of the goal: every operation whose result is
    in range by [lia] returns its exact value. *)
Ltac ustep :=
  first
    [ progress autorewrite with rust
    | rewrite uadd_ok by lia | rewrite usub_ok by lia | rewrite umul_ok by lia
    | rewrite udiv_ok by lia | rewrite urem_ok by lia
    | rewrite ushl_ok by lia | rewrite ushr_ok by lia ].
Ltac urun := repeat ustep.

(** Decompose a hypothesis [m ≫= f = Ret b]. *)
Ltac inv_bind :=
  repeat match goal with
  | H : _ ≫= _ = Ret _ |- _ =>
      let a := fresh "v" in let E := fresh "E" in
      apply bind_Ret in H as (a & E & H)
  end.

Ltac zbool :=
  repeat match goal with
  | H : (_ && _)%bool = true |- _ => apply andb_true_iff in H as [? ?]
  | H : (_ && _)%bool = false |- _ => apply andb_false_iff in H
  | H : (_ || _)%bool = true |- _ => apply orb_true_iff in H
  | H : (_ || _)%bool = false |- _ => apply orb_false_iff in H as [? ?]
  | H : negb _ = true |- _ => apply negb_true_iff in H
  | H : negb _ = false |- _ => apply negb_false_iff in H
  | H : (_ =? _)%Z = true |- _ => apply Z.eqb_eq in H
  | H : (_ =? _)%Z = false |- _ => apply Z.eqb_neq in H
  | H : (_ <? _)%Z = true |- _ => apply Z.ltb_lt in H
  | H : (_ <? _)%Z = false |- _ => apply Z.ltb_ge in H
  | H : (_ <=? _)%Z = true |- _ => apply Z.leb_le in H
  | H : (_ <=? _)%Z = false |- _ => apply Z.leb_gt in H
  | H : bool_decide _ = true |- _ => apply bool_decide_eq_true in H
  | H : bool_decide _ = false |- _ => apply bool_decide_eq_false in H
  end.

(** ** Code around a computation

    The run has the outcome of [h], and its result stands in [P] to that of [h]. *)

Definition follows {A B} (h : outcome (result Z A)) (run : outcome (result Z B)) (P : A -> B -> Prop) : Prop :=
  match h with
  | Ret (Ok a) => exists b, run = Ret (Ok b) /\ P a b
  | Ret (Err code) => run = Ret (Err code)
  | Panic => run = Panic
  | NoFuel => run = NoFuel
  end.

Lemma follows_bind {A B C} (h : outcome (result Z A)) run (k : B -> outcome (result Z C)) (P : A -> B -> Prop) (Q : A -> C -> Prop) :
  follows h run P -> (forall a b, h = Ret (Ok a) -> P a b -> exists c, k b = Ret (Ok c) /\ Q a c) ->
  follows h (try_bind run k) Q.
Proof.
  intros Hf Hk. destruct h as [[a|e]| |]; cbn in *; try (by rewrite Hf).
  destruct Hf as (b & -> & Hp). rewrite Ok_try. by apply Hk.
Qed.
