(* ===== verification/Printk.v ===== *)
(** * Printk: what the kernel prints (ram/mod.rs, device/vga.rs)

    Text is a string; what sends it is the serial port (Hw). *)

From Stdlib Require Import Ascii.
From stdpp Require Import pretty.
From S2P Require Import Prelude.
#[local] Open Scope Z_scope.

Definition newline : string := String "010"%char EmptyString.
Definition chr (b : Z) : string := String (ascii_of_N (Z.to_N b)) EmptyString.

(** [{:02x}], [{:04x}] of a number that has no more digits; [{:08x}], [{:#06x}]
    of any number. *)
Definition hex_digit (n : Z) : ascii := default "0"%char (String.get (Z.to_nat n) "0123456789abcdef").
Fixpoint hex (digits : nat) (x : Z) : string :=
  match digits with O => EmptyString | S k => (hex k (x / 16) +:+ String (hex_digit (x mod 16)) EmptyString)%string end.
Definition hex_len (x : Z) : nat := if x <=? 0 then 1%nat else S (Z.to_nat (Z.log2 x / 4)).
Definition hex_min (digits : nat) (x : Z) : string := hex (Nat.max digits (hex_len x)) x.

(** ** [dump_bytes] *)

Definition LINE : nat := 16.
(** The loops over the bytes of a line from the [i]-th on, and over the gap
    behind the last line. *)
Fixpoint dump_hex (i : nat) (line : list Z) : string :=
  match line with
  | [] => EmptyString
  | byte :: line => ((if Nat.eqb i (LINE / 2) then " " else "") +:+ hex 2 byte +:+ " " +:+ dump_hex (S i) line)%string
  end.
Fixpoint dump_gap (n i : nat) : string :=
  match n with
  | O => EmptyString
  | S n => ((if Nat.eqb i (LINE / 2) then " " else "") +:+ "   " +:+ dump_gap n (S i))%string
  end.
Definition dump_char (byte : Z) : string := if (0x20 <=? byte) && (byte <? 0x7f) then chr byte else "."%string.
Definition dump_line (offset : Z) (line : list Z) : string :=
  (hex_min 8 offset +:+ "  " +:+ dump_hex 0 line +:+ dump_gap (LINE - length line) (length line) +:+ "   |" +:+
   String.concat "" (dump_char <$> line) +:+ "|" +:+ newline)%string.
(** [buf.chunks(LINE)] *)
Fixpoint dump_lines (n : nat) (offset : Z) (buf : list Z) : string :=
  match n, buf with
  | S n, _ :: _ =>
      let line := take LINE buf in
      (dump_line offset line +:+ dump_lines n (offset + Z.of_nat (length line)) (drop LINE buf))%string
  | _, _ => (hex_min 8 offset +:+ newline)%string
  end.
Definition dump_bytes (buf : list Z) : string := dump_lines (length buf) 0 buf.

Example dump_hello :
  dump_bytes [0x48; 0x65; 0x6c; 0x6c; 0x6f; 0x0a; 0; 1; 2; 3; 0x21] =
    ("00000000  48 65 6c 6c 6f 0a 00 01  02 03 21                   |Hello.....!|" +:+ newline +:+ "0000000b" +:+ newline)%string.
Proof. vm_compute. reflexivity. Qed.

(** ** The bytes can be read off a line *)

Definition undigit (a : ascii) : option Z :=
  let n := Z.of_N (N_of_ascii a) in
  if (0x30 <=? n) && (n <? 0x3a) then Some (n - 0x30)
  else if (0x61 <=? n) && (n <? 0x67) then Some (n - 0x61 + 10)
  else None.
(** The pairs of digits, [n] of them, with the blanks between. *)
Fixpoint unhex (fuel n : nat) (s : string) : option (list Z) :=
  match fuel, n, s with
  | _, O, _ => Some []
  | S fuel, S m, String a s' =>
      if Ascii.eqb a " " then unhex fuel n s'
      else match s' with
           | String b s => h ← undigit a; l ← undigit b; bs ← unhex fuel m s; Some (16 * h + l :: bs)
           | _ => None
           end
  | _, _, _ => None
  end.

Lemma undigit_digit n : 0 <= n < 16 -> undigit (hex_digit n) = Some n /\ Ascii.eqb (hex_digit n) " " = false.
Proof.
  intros Hn. assert (Hall : forallb (fun n => bool_decide (undigit (hex_digit n) = Some n) && negb (Ascii.eqb (hex_digit n) " ")) (seqZ 0 16) = true) by done.
  rewrite forallb_forall in Hall. specialize (Hall n). rewrite andb_true_iff, negb_true_iff in Hall.
  destruct Hall as [H1 H2]; [apply list_elem_of_In, elem_of_seqZ; lia|]. split; [by apply bool_decide_eq_true in H1|done].
Qed.

Lemma hex_2 b : hex 2 b = String (hex_digit (b / 16 mod 16)) (String (hex_digit (b mod 16)) EmptyString).
Proof. done. Qed.

Lemma app_string (a : ascii) (s t : string) : (String a s +:+ t)%string = String a (s +:+ t)%string.
Proof. done. Qed.

Lemma app_string_assoc (s t u : string) : ((s +:+ t) +:+ u)%string = (s +:+ (t +:+ u))%string.
Proof. induction s as [|a s IH]; [done|]. by rewrite !app_string, IH. Qed.

Lemma unhex_byte f n b s : 0 <= b < 256 -> unhex (S f) (S n) (hex 2 b +:+ s)%string = (bs ← unhex f n s; Some (b :: bs)).
Proof.
  intros Hb. rewrite hex_2, !app_string. change (("" +:+ s)%string) with s.
  assert (Hd : 0 <= b / 16 < 16) by (split; [apply Z.div_pos; lia|apply Z.div_lt_upper_bound; lia]).
  rewrite (Z.mod_small (b / 16)) by done. pose proof (Z.mod_pos_bound b 16 ltac:(lia)) as Hm.
  destruct (undigit_digit (b / 16) Hd) as [H1 H2], (undigit_digit (b mod 16) Hm) as [H3 _].
  cbn [unhex]. rewrite H2, H1, H3. unfold mbind, option_bind.
  destruct (unhex f n s) as [bs|]; [|done]. pose proof (Z.div_mod b 16). do 2 f_equal. lia.
Qed.

(** The hexadecimal part of a line determines its bytes, whatever follows. *)
Theorem dump_hex_roundtrip i line rest fuel :
  Forall (fun b => 0 <= b < 256) line -> (3 * length line < fuel)%nat ->
  unhex fuel (length line) (dump_hex i line +:+ rest)%string = Some line.
Proof.
  intros Hb. revert i rest fuel. induction Hb as [|b line Hb _ IH]; intros i rest fuel Hf; [by destruct fuel|].
  cbn [length] in *. destruct fuel as [|[|[|fuel]]]; [lia..|]. cbn [dump_hex].
  assert (Hline : forall f, (3 * length line + 1 < f)%nat ->
    unhex (S f) (S (length line)) ((hex 2 b +:+ " " +:+ dump_hex (S i) line) +:+ rest)%string = Some (b :: line)).
  { intros f Hl. rewrite !app_string_assoc. rewrite unhex_byte by done. destruct f as [|f]; [lia|].
    change ((" " +:+ (dump_hex (S i) line +:+ rest))%string) with (String " " (dump_hex (S i) line +:+ rest)).
    destruct line as [|b' line]; [done|].
    cbn [length] in *. change (unhex (S f) (S (length line)) (String " " ?s)) with (unhex f (S (length line)) s).
    rewrite (IH (S i) rest f) by lia. done. }
  destruct (Nat.eqb i (LINE / 2)).
  - change ((" " +:+ ?s)%string) with (String " " s). rewrite app_string.
    change (unhex (S (S (S fuel))) (S (length line)) (String " " ?s)) with (unhex (S (S fuel)) (S (length line)) s).
    apply Hline. lia.
  - change (("" +:+ ?s)%string) with s. apply Hline. lia.
Qed.
