(* ===== verification/Kargs.v ===== *)
(** * Kargs: what the boot loader hands to the kernel (kernel/src/kargs.rs)

    RAM types and the two classifications of them, the descriptors of the EFI
    memory map and of the kernel's ELF segments. *)

From S2P Require Import Prelude.

(** [enum RAMType] *)
Inductive RAMType : Type :=
  | Reserved | LoaderCode | LoaderData | BootSvcCode | BootSvcData
  | RtSvcCode | RtSvcData | Conv | Unusable | ACPIReclaim | ACPINonVolatile
  | MMIO | MMIOPortSpace | PALCode | PersistentRAM | Unaccepted | Max
  | KernelData | EfiRamLayout | ElfSegments | KernelPTable | Reclaimable
  | UserPTable | Kernel.

#[export] Instance RAMType_eq_dec : EqDecision RAMType.
Proof. solve_decision. Defined.

(** The [repr(u32)] discriminants. *)
Definition RAMType_repr (t : RAMType) : Z :=
  match t with
  | Reserved => 0x00 | LoaderCode => 0x01 | LoaderData => 0x02
  | BootSvcCode => 0x03 | BootSvcData => 0x04 | RtSvcCode => 0x05
  | RtSvcData => 0x06 | Conv => 0x07 | Unusable => 0x08
  | ACPIReclaim => 0x09 | ACPINonVolatile => 0x0a | MMIO => 0x0b
  | MMIOPortSpace => 0x0c | PALCode => 0x0d | PersistentRAM => 0x0e
  | Unaccepted => 0x0f | Max => 0x10
  | KernelData => 0x44415441 | EfiRamLayout => 0x524c594f
  | ElfSegments => 0x7f454c46 | KernelPTable => 0x929b4000
  | Reclaimable => 0xb6876800 | UserPTable => 0xba9b4000
  | Kernel => 0xffffffff
  end.

(** [RECLAMABLE] and [NON_RAM] with their [contains]. *)
Definition RECLAMABLE : list RAMType :=
  [LoaderCode; LoaderData; BootSvcCode; BootSvcData].
Definition NON_RAM : list RAMType := [Reserved; MMIO; MMIOPortSpace].

Definition ty_in (l : list RAMType) (t : RAMType) : bool := bool_decide (t ∈ l).

(** [struct RAMDescriptor]: an entry of the EFI memory map. *)
Record RAMDescriptor : Type := mkRAMDescriptor {
  desc_ty : RAMType;
  desc_phys_start : Z;
  desc_virt_start : Z;
  desc_page_count : Z;
  desc_attr : Z
}.
(** [size_of::<RAMDescriptor>()]: two u32 and five u64 fields. *)
Definition size_of_RAMDescriptor : Z := 48.

(** [struct Segment] *)
Record Segment : Type := mkSegment {
  seg_ptr : Z;
  seg_len : Z;
  seg_flags : Z;
  seg_align : Z
}.
Definition size_of_Segment : Z := 24.
