(* ===== verification/Rvm.v ===== *)
(** * Rvm: the paging configuration (ram/glacier.rs, arch/*/rvm.rs)

    Page granules, the geometry of the page-table levels, the flag words of
    the two architectures and the detection of the configuration.  The
    [Platform] class collects what is fixed when the kernel runs: the build,
    the target architecture and the global [G_CFG]. *)

From S2P Require Import Prelude.

Inductive Arch : Type := X86_64 | AArch64.
#[export] Instance Arch_eq_dec : EqDecision Arch.
Proof. solve_decision. Defined.

(** [enum BPage] *)
Inductive BPage : Type := Size4kiB | Size16kiB | Size64kiB.
#[export] Instance BPage_eq_dec : EqDecision BPage.
Proof. solve_decision. Defined.

(** [struct RvmCfg] *)
Record RvmCfg : Type := mkRvmCfg { psz : BPage; va_bits : Z; pa_bits : Z }.

Definition BPage_shift (p : BPage) : Z :=
  match p with Size4kiB => 12 | Size16kiB => 14 | Size64kiB => 16 end.
Definition BPage_size (p : BPage) : Z := 2 ^ BPage_shift p.
Definition BPage_addr_mask (p : BPage) : Z := unot 64 (BPage_size p - 1).
(** [self.shift() - size_of::<usize>().ilog2()] *)
Definition BPage_index_bits (p : BPage) : Z := BPage_shift p - Z.log2 8.

Section RvmCfg_ops.
Context `{Build}.
Implicit Type c : RvmCfg.

(** The configuration's arithmetic is on [u8]. *)
Definition RvmCfg_levels c : outcome Z :=
  let page_shift := BPage_shift (psz c) in
  let index_bits := BPage_index_bits (psz c) in
  addr_bits ← usub 8 (va_bits c) page_shift;
  t ← uadd 8 addr_bits index_bits;
  t ← usub 8 t 1;
  udiv t index_bits.

Definition RvmCfg_shift c (level : Z) : outcome Z :=
  let page_shift := BPage_shift (psz c) in
  let index_bits := BPage_index_bits (psz c) in
  levels ← RvmCfg_levels c;
  if levels <=? level then Panic else
  t ← usub 8 levels level;
  t ← usub 8 t 1;
  t ← umul 8 t index_bits;
  uadd 8 page_shift t.

Definition RvmCfg_ent_cnt c (level : Z) : outcome Z :=
  k ← (if level =? 0
       then s ← RvmCfg_shift c level; usub 8 (va_bits c) s
       else Ret (BPage_index_bits (psz c)));
  ushl 64 1 k.

Definition RvmCfg_get_index c (level va : Z) : outcome Z :=
  s ← RvmCfg_shift c level;
  i ← ushr 64 va s;
  n ← RvmCfg_ent_cnt c level;
  m ← usub 64 n 1;
  Ret (Z.land i m).
End RvmCfg_ops.

(** What is fixed while the kernel runs. *)
Class Platform : Type := {
  platform_build :: Build;
  target_arch : Arch;
  G_CFG : RvmCfg
}.

(** [page_size()] *)
Definition page_size `{Platform} : Z := BPage_size (psz G_CFG).
(** [hihalf()]: [!0 << (va_bits - 1)] *)
Definition hihalf `{Platform} : outcome Z :=
  k ← usub 8 (va_bits G_CFG) 1;
  ushl 64 (unot 64 0) k.

(** [mod flags] of the two architectures. *)
Record PteFlags : Type := mkPteFlags {
  VALID : Z; NEXT : Z;
  K_ROO : Z; K_RWO : Z; K_ROX : Z; K_RWX : Z;
  D_RO : Z; D_RW : Z;
  U_ROO : Z; U_RWO : Z; U_ROX : Z; U_RWX : Z
}.

Definition flags_amd64 : PteFlags := {|
  VALID := 1; NEXT := 7;
  K_ROO := Z.lor 1 (2 ^ 63); K_RWO := Z.lor 3 (2 ^ 63);
  K_ROX := 1; K_RWX := 3;
  D_RO := Z.lor 0x11 (2 ^ 63); D_RW := Z.lor 0x13 (2 ^ 63);
  U_ROO := Z.lor 5 (2 ^ 63); U_RWO := Z.lor 7 (2 ^ 63);
  U_ROX := 5; U_RWX := 7
|}.

Definition flags_aarch64 : PteFlags := {|
  VALID := 1; NEXT := 0x403;
  K_ROO := Z.lor 0x783 (3 * 2 ^ 53);
  K_RWO := Z.lor 0x703 (3 * 2 ^ 53);
  K_ROX := 0x783; K_RWX := 0x703;
  D_RO := Z.lor 0x487 (3 * 2 ^ 53);
  D_RW := Z.lor 0x407 (3 * 2 ^ 53);
  U_ROO := Z.lor 0x7c3 (3 * 2 ^ 53);
  U_RWO := Z.lor 0x743 (3 * 2 ^ 53);
  U_ROX := 0x7c3; U_RWX := 0x743
|}.

Definition flags_of (a : Arch) : PteFlags :=
  match a with X86_64 => flags_amd64 | AArch64 => flags_aarch64 end.

(** [RvmCfg::detect] of arch/amd64 *)
Definition detect_amd64 : RvmCfg :=
  {| psz := Size4kiB; va_bits := 48; pa_bits := 52 |}.

(** [RvmCfg::detect] of arch/aarch64; the two system registers it reads are
    the arguments. *)
Definition detect_aarch64 (mmfr0 mmfr2 : Z) : outcome RvmCfg :=
  let tgran4 := Z.land (Z.shiftr mmfr0 28) 0xf in
  let tgran16 := Z.land (Z.shiftr mmfr0 20) 0xf in
  let tgran64 := Z.land (Z.shiftr mmfr0 24) 0xf in
  p ← (if negb (tgran4 =? 0xf) then Ret Size4kiB
       else if negb (tgran16 =? 0) then Ret Size16kiB
       else if negb (tgran64 =? 0xf) then Ret Size64kiB
       else Panic);
  let va_range := Z.land (Z.shiftr mmfr2 16) 0xf in
  let vb :=
    if va_range =? 0 then 48
    else match p with
         | Size4kiB => if negb (tgran4 =? 0x1) then 48 else 52
         | Size16kiB => if negb (tgran16 =? 0x2) then 48 else 52
         | Size64kiB => 52
         end in
  let ips := Z.land mmfr0 0xf in
  let pb :=
    if ips =? 0 then 32 else if ips =? 1 then 36 else if ips =? 2 then 40
    else if ips =? 3 then 42 else if ips =? 4 then 44 else if ips =? 5 then 48
    else if ips =? 6 then 52 else 48 in
  Ret {| psz := p; va_bits := vb; pa_bits := pb |}.

(** [RvmCfg::tcr_el1] of arch/aarch64 *)
Definition tcr_el1 (c : RvmCfg) : Z :=
  let tnsz := 64 - va_bits c in
  let '(tg0, tg1) :=
    match psz c with
    | Size4kiB => (0, 2)
    | Size16kiB => (2, 1)
    | Size64kiB => (1, 3)
    end in
  let tcr := 0 in
  let tcr := Z.lor tcr (Z.lor tnsz (Z.shiftl tnsz 16)) in
  let tcr := Z.lor tcr (Z.lor (Z.shiftl tg0 14) (Z.shiftl tg1 30)) in
  let tcr := Z.lor tcr (Z.shiftl 1 8) in
  let tcr := Z.lor tcr (Z.shiftl 1 10) in
  let tcr := Z.lor tcr (Z.shiftl 3 12) in
  let tcr := Z.lor tcr (Z.shiftl 1 24) in
  let tcr := Z.lor tcr (Z.shiftl 1 26) in
  let tcr := Z.lor tcr (Z.shiftl 3 28) in
  let ips :=
    if pa_bits c =? 32 then 0 else if pa_bits c =? 36 then 1
    else if pa_bits c =? 40 then 2 else if pa_bits c =? 42 then 3
    else if pa_bits c =? 44 then 4 else if pa_bits c =? 48 then 5
    else if pa_bits c =? 52 then 6 else 5 in
  Z.lor tcr (Z.shiftl ips 32).
