(* ===== verification/RamUtil.v ===== *)
(** * RamUtil: alignment and the virtual layout (ram/mod.rs) *)

From S2P Require Import Prelude Rvm.

Section RamUtil.
Context `{Platform}.

Definition PAGE_4KIB : Z := 0x1000.

Definition stack_size : Z := Z.max page_size 0x4000.
(** [(page_size() << 4).max(0x40000)] *)
Definition per_cpu_data : Z := Z.max (Z.shiftl page_size 4 mod 2 ^ 64) 0x40000.
Definition gleam_base : Z := uwrap_sub 64 0 per_cpu_data.
(** [stack_top]: [AP_LIST.virtid_self()] is the argument. *)
Definition stack_top (virtid : Z) : outcome Z :=
  d ← umul 64 virtid per_cpu_data;
  usub 64 gleam_base d.

Definition align_down (val align : Z) : outcome Z :=
  if align =? 0 then Ret val else
  q ← udiv val align; umul 64 q align.

Definition align_up (val align : Z) : outcome Z :=
  if align =? 0 then Ret val else
  q ← udiv_ceil val align; umul 64 q align.

Definition size_align (val : Z) : outcome Z :=
  if val <? page_size then Ret (next_pow2 val) else align_up val page_size.
End RamUtil.

(** ** The pure functions these compute, and their properties *)

Definition aup (v a : Z) : Z := (v + a - 1) / a * a.
Definition adown (v a : Z) : Z := v / a * a.

Lemma aup_spec v a : 0 < a -> v <= aup v a < v + a /\ (a | aup v a).
Proof.
  intros Ha. unfold aup. split; [|apply Z.divide_factor_r].
  pose proof (Z.div_mod (v + a - 1) a ltac:(lia)).
  pose proof (Z.mod_pos_bound (v + a - 1) a Ha). lia.
Qed.

(** It is the least multiple not below the value. *)
Lemma aup_least v a m : 0 < a -> (a | m) -> v <= m -> aup v a <= m.
Proof.
  intros Ha [k ->] Hv. pose proof (aup_spec v a Ha) as [[Hlo Hhi] [j Hj]].
  rewrite Hj in Hhi |- *. apply Z.mul_le_mono_nonneg_r; [lia|].
  assert (j * a < (k + 1) * a) as Hlt by lia.
  apply Z.mul_lt_mono_pos_r in Hlt; lia.
Qed.

Lemma aup_id v a : 0 < a -> (a | v) -> aup v a = v.
Proof.
  intros Ha Hd. pose proof (aup_spec v a Ha) as [[Hlo _] _].
  pose proof (aup_least v a v Ha Hd ltac:(lia)). lia.
Qed.

Lemma aup_mono v w a : 0 < a -> v <= w -> aup v a <= aup w a.
Proof.
  intros Ha Hv. pose proof (aup_spec w a Ha) as [[Hlo _] Hd].
  apply aup_least; [done..|lia].
Qed.

Section RamUtil_props.
Context `{Platform}.

Lemma align_up_ok v a :
  0 < a -> 0 <= v -> v + a <= 2 ^ 64 -> align_up v a = Ret (aup v a).
Proof.
  intros Ha Hv Hb. unfold align_up. destruct (Z.eqb_spec a 0); [lia|].
  rewrite udiv_ceil_ok by lia. autorewrite with rust.
  pose proof (aup_spec v a Ha). unfold aup in *.
  by rewrite umul_ok by lia.
Qed.

Lemma align_down_ok v a :
  0 < a -> 0 <= v < 2 ^ 64 -> align_down v a = Ret (adown v a).
Proof.
  intros Ha Hv. unfold align_down, adown. destruct (Z.eqb_spec a 0); [lia|].
  rewrite udiv_ok by lia. autorewrite with rust.
  assert (0 <= v / a) by (apply Z.div_pos; lia).
  pose proof (Z.mul_div_le v a Ha).
  by rewrite umul_ok by lia.
Qed.

Lemma page_size_range : 2 ^ 12 <= page_size <= 2 ^ 16.
Proof. unfold page_size, BPage_size. destruct (psz G_CFG); vm_compute; split; discriminate. Qed.

Lemma page_size_pos : 0 < page_size.
Proof. pose proof page_size_range. lia. Qed.

Lemma page_size_pow2 : page_size = 2 ^ BPage_shift (psz G_CFG).
Proof. done. Qed.

(** What [size_align] computes. *)
Definition szal (v : Z) : Z :=
  if v <? page_size then next_pow2 v else aup v page_size.

Lemma size_align_ok v :
  0 <= v <= 2 ^ 63 -> size_align v = Ret (szal v).
Proof.
  intros Hv. unfold size_align, szal. pose proof page_size_range.
  destruct (v <? page_size); [done|]. apply align_up_ok; lia.
Qed.

Lemma next_pow2_le_page v : 0 <= v < page_size -> 1 <= next_pow2 v <= page_size.
Proof.
  intros Hv. pose proof page_size_range. unfold next_pow2.
  rewrite page_size_pow2 in *.
  set (k := BPage_shift (psz G_CFG)) in *.
  assert (0 <= k) by (subst k; destruct (psz G_CFG); simpl; lia).
  split.
  - apply (Z.pow_le_mono_r 2 0); [lia|]. apply Z.log2_up_nonneg.
  - apply Z.pow_le_mono_r; [lia|].
    destruct (decide (v <= 1)) as [Hle|Hgt].
    + replace (Z.log2_up v) with 0; [lia|]. symmetry. by apply Z.log2_up_eqn0.
    + apply Z.log2_up_le_pow2; lia.
Qed.

(** [size_align] never shrinks the request, is positive, and adds less than
    one page. *)
Lemma szal_spec v : 0 <= v -> v <= szal v /\ 1 <= szal v <= v + page_size.
Proof.
  intros Hv. unfold szal. pose proof page_size_range as Hp.
  destruct (Z.ltb_spec v page_size) as [Hlt|Hge].
  - pose proof (next_pow2_le_page v ltac:(lia)).
    destruct (decide (v = 0)) as [->|Hne]; [lia|].
    pose proof (next_pow2_spec v ltac:(lia)). lia.
  - pose proof (aup_spec v page_size page_size_pos) as [? _]. lia.
Qed.

Lemma szal_idem v : 0 <= v -> szal (szal v) = szal v.
Proof.
  intros Hv. pose proof page_size_range as Hp. unfold szal at 2 3.
  destruct (Z.ltb_spec v page_size) as [Hlt|Hge].
  - pose proof (next_pow2_le_page v ltac:(lia)) as Hle.
    unfold szal. destruct (Z.ltb_spec (next_pow2 v) page_size).
    + unfold next_pow2 at 1 2. by rewrite Z.log2_up_pow2 by apply Z.log2_up_nonneg.
    + replace (next_pow2 v) with page_size by lia.
      apply aup_id; [lia|]. apply Z.divide_refl.
  - unfold szal. pose proof (aup_spec v page_size page_size_pos) as [? ?].
    destruct (Z.ltb_spec (aup v page_size) page_size); [lia|].
    apply aup_id; [lia|done].
Qed.
End RamUtil_props.
