(* ===== verification/Physalloc.v ===== *)
(** * Physalloc: the physical memory allocator (ram/physalloc.rs)

    [RAMBlock], [OwnedPtr], [AllocParams] and the state and operations of
    [PhysAlloc].  The slice [blocks_raw()], which the code reads and writes
    through [self.ptr], is the field [pa_blocks] of the state: the contents of
    the block table.

    [alloc], [free], [add], [expand] and [shrink] call each other.  Each is a
    definition over the record [Ops] of the operations it calls; [ops] ties
    the knot with a fuel that bounds the depth of the calls. *)

From S2P Require Import Prelude Kargs Rvm RamUtil.

(** ** [RAMBlock] *)

Record RAMBlock : Type := mkRAMBlock {
  rb_addr : Z;
  rb_size : Z;
  rb_ty : RAMType;
  rb_used : bool
}.
#[export] Instance RAMBlock_eq_dec : EqDecision RAMBlock.
Proof. solve_decision. Defined.

(** [size_of::<RAMBlock>()]: two usize, a u32 and a bool, padded to 8. *)
Definition size_of_RAMBlock : Z := 24.

Definition RAMBlock_new_invalid : RAMBlock := mkRAMBlock 0 0 Reserved false.
Definition RAMBlock_valid (b : RAMBlock) : bool := 0 <? rb_size b.
Definition RAMBlock_invalid (b : RAMBlock) : bool := rb_size b =? 0.
Definition RAMBlock_end `{Build} (b : RAMBlock) : outcome Z :=
  uadd 64 (rb_addr b) (rb_size b).
Definition RAMBlock_set_addr (b : RAMBlock) (a : Z) : RAMBlock :=
  mkRAMBlock a (rb_size b) (rb_ty b) (rb_used b).
Definition RAMBlock_set_size (b : RAMBlock) (s : Z) : RAMBlock :=
  mkRAMBlock (rb_addr b) s (rb_ty b) (rb_used b).
Definition RAMBlock_invalidate (b : RAMBlock) : RAMBlock := RAMBlock_set_size b 0.

Definition RAMBlock_is_mergable `{Build} (self other : RAMBlock) : outcome Z :=
  if RAMBlock_invalid self || RAMBlock_invalid other then Ret 0 else
  let b0 := RAMBlock_set_size (RAMBlock_set_addr self 0) 0 in
  let b1 := RAMBlock_set_size (RAMBlock_set_addr other 0) 0 in
  if bool_decide (b0 ≠ b1) then Ret 0 else
  e ← RAMBlock_end self;
  if e =? rb_addr other then Ret (-1) else
  e' ← RAMBlock_end other;
  if e' =? rb_addr self then Ret 1 else Ret 0.

(** ** [OwnedPtr] *)

Record OwnedPtr : Type := mkOwnedPtr { op_ptr : Z; op_size : Z }.
#[export] Instance OwnedPtr_eq_dec : EqDecision OwnedPtr.
Proof. solve_decision. Defined.

Definition OwnedPtr_null : OwnedPtr := mkOwnedPtr 0 0.
Definition OwnedPtr_end `{Build} (p : OwnedPtr) : outcome Z :=
  uadd 64 (op_ptr p) (op_size p).
Definition OwnedPtr_new_typed `{Build} (size_of ptr count : Z) : outcome OwnedPtr :=
  n ← umul 64 count size_of; Ret (mkOwnedPtr ptr n).
Definition RAMBlock_into_owned_ptr (b : RAMBlock) : OwnedPtr :=
  mkOwnedPtr (rb_addr b) (rb_size b).

(** [merge] returns the pointer it could not merge as the error. *)
Definition OwnedPtr_merge `{Build} (self other : OwnedPtr)
    : outcome (OwnedPtr * result OwnedPtr unit) :=
  e ← OwnedPtr_end self;
  if e =? op_ptr other then
    n ← uadd 64 (op_size self) (op_size other);
    Ret (mkOwnedPtr (op_ptr self) n, Ok ())
  else
  e' ← OwnedPtr_end other;
  if e' =? op_ptr self then
    n ← uadd 64 (op_size self) (op_size other);
    Ret (mkOwnedPtr (op_ptr other) n, Ok ())
  else Ret (self, Err other).

Definition OwnedPtr_split `{Build} (self : OwnedPtr) (offset : Z)
    : outcome (OwnedPtr * result unit OwnedPtr) :=
  if op_size self <=? offset then Ret (self, Err ()) else
  a ← uadd 64 (op_ptr self) offset;
  n ← usub 64 (op_size self) offset;
  Ret (mkOwnedPtr (op_ptr self) offset, Ok (mkOwnedPtr a n)).

(** ** [AllocParams] *)

Record AllocParams : Type := mkAllocParams {
  ap_addr : option Z;
  ap_size : Z;
  ap_align : Z;
  ap_from_type : RAMType;
  ap_as_type : RAMType;
  ap_used : bool
}.

Section AllocParams_ops.
Context `{Platform}.

Definition AllocParams_new (size : Z) : AllocParams :=
  mkAllocParams None size page_size Conv Conv true.
Definition AllocParams_at (p : AllocParams) (a : Z) : AllocParams :=
  mkAllocParams (Some a) (ap_size p) (ap_align p) (ap_from_type p) (ap_as_type p) (ap_used p).
Definition AllocParams_align (p : AllocParams) (a : Z) : AllocParams :=
  mkAllocParams (ap_addr p) (ap_size p) (Z.max a 1) (ap_from_type p) (ap_as_type p) (ap_used p).
Definition AllocParams_from_type (p : AllocParams) (t : RAMType) : AllocParams :=
  mkAllocParams (ap_addr p) (ap_size p) (ap_align p) t (ap_as_type p) (ap_used p).
Definition AllocParams_as_type (p : AllocParams) (t : RAMType) : AllocParams :=
  mkAllocParams (ap_addr p) (ap_size p) (ap_align p) (ap_from_type p) t (ap_used p).
Definition AllocParams_reserve (p : AllocParams) : AllocParams :=
  mkAllocParams (ap_addr p) (ap_size p) (ap_align p) (ap_from_type p) (ap_as_type p) false.

Definition AllocParams_build (p : AllocParams) : outcome AllocParams :=
  addr ← (match ap_addr p with
          | Some a => a' ← align_up a (ap_align p); Ret (Some a')
          | None => Ret None
          end);
  size ← size_align (ap_size p);
  Ret (mkAllocParams addr size (ap_align p) (ap_from_type p) (ap_as_type p) (ap_used p)).
End AllocParams_ops.

(** ** [PhysAlloc] *)

Record PhysAlloc : Type := mkPhysAlloc {
  pa_ptr : OwnedPtr;
  pa_max : Z;
  pa_is_init : bool;
  pa_blocks : list RAMBlock
}.

Definition BASE_RB_SIZE : Z := 128.
Definition MIN_REQ : Z := 4.

Definition set_blocks (s : PhysAlloc) (bs : list RAMBlock) : PhysAlloc :=
  mkPhysAlloc (pa_ptr s) (pa_max s) (pa_is_init s) bs.
Definition set_ptr_max (s : PhysAlloc) (p : OwnedPtr) (m : Z) : PhysAlloc :=
  mkPhysAlloc p m (pa_is_init s) (pa_blocks s).

Definition PhysAlloc_empty : PhysAlloc := mkPhysAlloc OwnedPtr_null 0 false [].

(** [blocks_iter()] *)
Definition vblocks (bs : list RAMBlock) : list RAMBlock :=
  filter (fun b => RAMBlock_valid b = true) bs.
Definition PhysAlloc_count (s : PhysAlloc) : Z :=
  Z.of_nat (length (vblocks (pa_blocks s))).

(** [filtsize_raw] and [filtsize]; the sum is a [usize] sum. *)
Definition PhysAlloc_filtsize_raw `{Build} (s : PhysAlloc) (f : RAMBlock -> bool)
    : outcome Z :=
  foldl (fun acc b => n ← acc; uadd 64 n (rb_size b)) (Ret 0)
        (filter (fun b => f b = true) (vblocks (pa_blocks s))).
Definition PhysAlloc_filtsize `{Build} (s : PhysAlloc) (f : RAMBlock -> bool)
    : outcome Z :=
  PhysAlloc_filtsize_raw s (fun b => negb (ty_in NON_RAM (rb_ty b)) && f b).
Definition PhysAlloc_available `{Build} (s : PhysAlloc) : outcome Z :=
  PhysAlloc_filtsize s (fun b => negb (rb_used b) && bool_decide (rb_ty b = Conv)).
Definition PhysAlloc_total `{Build} (s : PhysAlloc) : outcome Z :=
  PhysAlloc_filtsize s (fun _ => true).

(** [find]: the first valid block that satisfies the predicate, with its
    place in the table. *)
Fixpoint find_from (f : RAMBlock -> outcome bool) (bs : list RAMBlock) (i : nat)
    : outcome (option (nat * RAMBlock)) :=
  match bs with
  | [] => Ret None
  | b :: bs =>
      if RAMBlock_valid b then
        ok ← f b;
        if (ok : bool) then Ret (Some (i, b)) else find_from f bs (S i)
      else find_from f bs (S i)
  end.
Definition PhysAlloc_find (s : PhysAlloc) (f : RAMBlock -> outcome bool)
    : outcome (option (nat * RAMBlock)) := find_from f (pa_blocks s) 0.

Section PhysAlloc_ops.
Context `{Platform}.

Definition find_free_ram_test (args : AllocParams) (block : RAMBlock) : outcome bool :=
  aligned ← align_up (rb_addr block) (ap_align args);
  if rb_used block then Ret false else
  t ← uadd 64 aligned (ap_size args);
  e ← RAMBlock_end block;
  Ret ((t <=? e) && bool_decide (rb_ty block = ap_from_type args)).

Definition PhysAlloc_find_free_ram (s : PhysAlloc) (args : AllocParams)
    : outcome (option OwnedPtr) :=
  args ← AllocParams_build args;
  r ← PhysAlloc_find s (find_free_ram_test args);
  match r with
  | Some (_, block) =>
      addr ← align_up (rb_addr block) (ap_align args);
      Ret (Some (mkOwnedPtr addr (ap_size args)))
  | None => Ret None
  end.

(** The operations that the operations call. *)
Record Ops : Type := mkOps {
  op_alloc : PhysAlloc -> AllocParams -> outcome (PhysAlloc * option OwnedPtr);
  op_free : PhysAlloc -> OwnedPtr -> outcome PhysAlloc;
  op_add : PhysAlloc -> RAMBlock -> outcome PhysAlloc;
  op_expand : PhysAlloc -> Z -> OwnedPtr -> outcome (PhysAlloc * option unit);
  op_shrink : PhysAlloc -> Z -> outcome PhysAlloc
}.

(** The closure [filter] of [alloc]. *)
Definition alloc_filter (args : AllocParams) (ptr : OwnedPtr) (block : RAMBlock)
    : outcome bool :=
  if rb_used block then Ret false else
  if bool_decide (ap_from_type args ≠ rb_ty block) then Ret false else
  if op_ptr ptr <? rb_addr block then Ret false else
  e ← OwnedPtr_end ptr;
  e' ← RAMBlock_end block;
  Ret (e <=? e').

(** The part of [alloc] after the table has room: carve [ptr] out of the
    free block that contains it. *)
Definition alloc_carve (rec : Ops) (s : PhysAlloc) (args : AllocParams) (ptr : OwnedPtr)
    : outcome (PhysAlloc * option OwnedPtr) :=
  r ← PhysAlloc_find s (alloc_filter args ptr);
  match r with
  | None => Ret (s, None)
  | Some (i, from) =>
      if bool_decide (rb_ty from = ap_as_type args) && negb (ap_used args)
      then Ret (s, None) (* Allocation lost its purpose *)
      else
      let to := mkRAMBlock (op_ptr ptr) (op_size ptr) (ap_as_type args) (ap_used args) in
      let s := set_blocks s (<[i := RAMBlock_invalidate from]> (pa_blocks s)) in
      n ← usub 64 (op_ptr ptr) (rb_addr from);
      let before := mkRAMBlock (rb_addr from) n (rb_ty from) false in
      pe ← OwnedPtr_end ptr;
      fe ← RAMBlock_end from;
      m ← usub 64 fe pe;
      let after := mkRAMBlock pe m (rb_ty from) false in
      s ← op_add rec s before;
      s ← op_add rec s after;
      s ← op_add rec s to;
      Ret (s, Some (RAMBlock_into_owned_ptr to))
  end.

(** [(self.max << 1).max(self.max + MIN_REQ)] *)
Definition grown_max (s : PhysAlloc) : outcome Z :=
  d ← ushl 64 (pa_max s) 1;
  e ← uadd 64 (pa_max s) MIN_REQ;
  Ret (Z.max d e).

(** The part of [alloc] after the range is chosen. *)
Definition alloc_chosen (rec : Ops) (s : PhysAlloc) (args : AllocParams) (ptr : OwnedPtr)
    : outcome (PhysAlloc * option OwnedPtr) :=
  c ← uadd 64 (PhysAlloc_count s) MIN_REQ;
  if pa_max s <? c then
    new_size ← grown_max s;
    '(s, r) ← op_expand rec s new_size ptr;
    match r with
    | None => Ret (s, None)
    | Some _ => alloc_carve rec s args ptr
    end
  else alloc_carve rec s args ptr.

Definition alloc_body (rec : Ops) (s : PhysAlloc) (args : AllocParams)
    : outcome (PhysAlloc * option OwnedPtr) :=
  args ← AllocParams_build args;
  if ty_in NON_RAM (ap_from_type args) || ty_in NON_RAM (ap_as_type args)
  then Ret (s, None) else
  optr ← (match ap_addr args with
          | Some addr => Ret (Some (mkOwnedPtr addr (ap_size args)))
          | None => PhysAlloc_find_free_ram s args
          end);
  match optr with
  | None => Ret (s, None)
  | Some ptr => alloc_chosen rec s args ptr
  end.

(** The loop of [free]: invalidate what overlaps [ptr], remember the last
    block that starts before it and the last that ends after it. *)
Fixpoint free_scan (ptr : OwnedPtr) (bs : list RAMBlock) (before after : option RAMBlock)
    : outcome (list RAMBlock * option RAMBlock * option RAMBlock) :=
  match bs with
  | [] => Ret ([], before, after)
  | block :: bs =>
      if RAMBlock_valid block then
        pe ← OwnedPtr_end ptr;
        if rb_addr block <? pe then
          be ← RAMBlock_end block;
          if op_ptr ptr <? be then
            let before := if rb_addr block <? op_ptr ptr then Some block else before in
            let after := if pe <? be then Some block else after in
            '(bs, b, a) ← free_scan ptr bs before after;
            Ret (RAMBlock_invalidate block :: bs, b, a)
          else '(bs, b, a) ← free_scan ptr bs before after; Ret (block :: bs, b, a)
        else '(bs, b, a) ← free_scan ptr bs before after; Ret (block :: bs, b, a)
      else '(bs, b, a) ← free_scan ptr bs before after; Ret (block :: bs, b, a)
  end.

(** [before.map(..)] and [after.map(..)]: what is left of the first and of
    the last block goes back into the table. *)
Definition free_before (rec : Ops) (s : PhysAlloc) (ptr : OwnedPtr) (before : option RAMBlock)
    : outcome PhysAlloc :=
  match before with
  | Some b =>
      n ← usub 64 (op_ptr ptr) (rb_addr b);
      op_add rec s (mkRAMBlock (rb_addr b) n (rb_ty b) (rb_used b))
  | None => Ret s
  end.
Definition free_after (rec : Ops) (s : PhysAlloc) (ptr : OwnedPtr) (after : option RAMBlock)
    : outcome PhysAlloc :=
  match after with
  | Some a =>
      pe ← OwnedPtr_end ptr;
      ae ← RAMBlock_end a;
      n ← usub 64 ae pe;
      op_add rec s (mkRAMBlock pe n (rb_ty a) (rb_used a))
  | None => Ret s
  end.

Definition free_body (rec : Ops) (s : PhysAlloc) (ptr : OwnedPtr) : outcome PhysAlloc :=
  '(bs, before, after) ← free_scan ptr (pa_blocks s) None None;
  s ← free_before rec (set_blocks s bs) ptr before;
  s ← free_after rec s ptr after;
  op_add rec s (mkRAMBlock (op_ptr ptr) (op_size ptr) Conv false).

(** The loop of [add]: the last valid blocks that end where the new block
    starts ([before]) and start where it ends ([after]). *)
Fixpoint add_scan (nb : RAMBlock) (bs : list RAMBlock) (i : nat)
    (before after : option (nat * RAMBlock))
    : outcome (option (nat * RAMBlock) * option (nat * RAMBlock)) :=
  match bs with
  | [] => Ret (before, after)
  | block :: bs =>
      if RAMBlock_valid block then
        m ← RAMBlock_is_mergable nb block;
        if m =? -1 then add_scan nb bs (S i) before (Some (i, block))
        else if m =? 1 then add_scan nb bs (S i) (Some (i, block)) after
        else add_scan nb bs (S i) before after
      else add_scan nb bs (S i) before after
  end.

(** Write the block into the first invalid entry, if there is one. *)
Fixpoint put_first_invalid (nb : RAMBlock) (bs : list RAMBlock) : list RAMBlock :=
  match bs with
  | [] => []
  | b :: bs => if RAMBlock_valid b then b :: put_first_invalid nb bs else nb :: bs
  end.

Definition add_body (rec : Ops) (s : PhysAlloc) (nb : RAMBlock) : outcome PhysAlloc :=
  if RAMBlock_invalid nb then Ret s else
  '(before, after) ← add_scan nb (pa_blocks s) 0 None None;
  match before, after with
  | Some (i, b), Some (j, a) =>
      n ← uadd 64 (rb_size b) (rb_size nb);
      n ← uadd 64 n (rb_size a);
      let bs := <[i := RAMBlock_set_size b n]> (pa_blocks s) in
      let s := set_blocks s (<[j := RAMBlock_invalidate a]> bs) in
      if PhysAlloc_count s <=? Z.shiftr (pa_max s) 2 then
        op_shrink rec s (Z.max (Z.shiftr (pa_max s) 1) BASE_RB_SIZE)
      else Ret s
  | Some (i, b), None =>
      n ← uadd 64 (rb_size b) (rb_size nb);
      Ret (set_blocks s (<[i := RAMBlock_set_size b n]> (pa_blocks s)))
  | None, Some (j, a) =>
      n ← uadd 64 (rb_size a) (rb_size nb);
      Ret (set_blocks s
             (<[j := RAMBlock_set_size (RAMBlock_set_addr a (rb_addr nb)) n]> (pa_blocks s)))
  | None, None =>
      s ← (if pa_max s <=? PhysAlloc_count s then
             new_size ← grown_max s;
             '(s, r) ← op_expand rec s new_size (RAMBlock_into_owned_ptr nb);
             _ ← unwrap r; (* expect("Failed to expand RAMBlocks") *)
             Ret s
           else Ret s);
      Ret (set_blocks s (put_first_invalid nb (pa_blocks s)))
  end.

(** The test by which [expand] chooses the place of the new table, and the
    place in the chosen block; [p] is the pre-requested range. *)
Definition expand_clear (p : OwnedPtr) (size aligned : Z) (block : RAMBlock) : outcome bool :=
  e ← RAMBlock_end block;
  if e <=? op_ptr p then Ret true else
  pe ← OwnedPtr_end p;
  if pe <=? rb_addr block then Ret true else
  Ret (size <=? usat_sub (op_ptr p) aligned).

Definition expand_test (p : OwnedPtr) (p_end_aligned : Z) (args : AllocParams)
    (block : RAMBlock) : outcome bool :=
  aligned ← align_up (rb_addr block) (ap_align args);
  t ← uadd 64 aligned (ap_size args);
  e ← RAMBlock_end block;
  if rb_used block then Ret false else
  if bool_decide (rb_ty block ≠ ap_from_type args) then Ret false else
  c ← (if t <=? e then expand_clear p (ap_size args) aligned block else Ret false);
  if (c : bool) then Ret true else
  Ret ((rb_addr block <=? p_end_aligned) &&
       (ap_size args <=? usat_sub e p_end_aligned)).

Definition expand_place (p : OwnedPtr) (p_end_aligned : Z) (args : AllocParams)
    (block : RAMBlock) : outcome OwnedPtr :=
  aligned ← align_up (rb_addr block) (ap_align args);
  c ← expand_clear p (ap_size args) aligned block;
  if (c : bool) then Ret (mkOwnedPtr aligned (ap_size args))
  else Ret (mkOwnedPtr p_end_aligned (ap_size args)).

Definition expand_body (rec : Ops) (s : PhysAlloc) (new_max : Z) (prereq : OwnedPtr)
    : outcome (PhysAlloc * option unit) :=
  if new_max <=? pa_max s then Ret (s, Some ()) else
  n ← umul 64 new_max size_of_RAMBlock;
  alloc_param ← AllocParams_build (AllocParams_new n);
  let old_blocks := pa_ptr s in
  pe ← OwnedPtr_end prereq;
  p_end_aligned ← align_up pe (ap_align alloc_param);
  r ← PhysAlloc_find s (expand_test prereq p_end_aligned alloc_param);
  match r with
  | None => Ret (s, None)
  | Some (_, block) =>
      new_blocks ← expand_place prereq p_end_aligned alloc_param block;
      (* the new table is zeroed, then the old one is copied over its head *)
      let table := pa_blocks s ++
        replicate (Z.to_nat (new_max - pa_max s)) RAMBlock_new_invalid in
      let s := mkPhysAlloc new_blocks new_max (pa_is_init s) table in
      '(s, r) ← op_alloc rec s (AllocParams_at alloc_param (op_ptr (pa_ptr s)));
      new_ptr ← unwrap r;
      let s := set_ptr_max s new_ptr (pa_max s) in
      s ← op_free rec s old_blocks;
      Ret (s, Some ())
  end.

(** The loop of [shrink] over the freed entries, last first: a valid one is
    moved to the next invalid entry of [kept] ([put_first_invalid]: the
    iterator does not come back to an entry it has passed, and those are
    valid by then).  [false]: no entry was left and the loop returned. *)
Fixpoint shrink_move (kept freed_rev : list RAMBlock)
    : list RAMBlock * list RAMBlock * bool :=
  match freed_rev with
  | [] => (kept, [], true)
  | block :: rest =>
      if RAMBlock_valid block then
        if forallb RAMBlock_valid kept then (kept, block :: rest, false) else
        let '(k, f, ok) := shrink_move (put_first_invalid block kept) rest in
        (k, RAMBlock_invalidate block :: f, ok)
      else
        let '(k, f, ok) := shrink_move kept rest in (k, block :: f, ok)
  end.

Definition shrink_body (rec : Ops) (s : PhysAlloc) (new_max : Z) : outcome PhysAlloc :=
  if (pa_max s <=? new_max) || (new_max <? PhysAlloc_count s) || (new_max <? MIN_REQ)
  then Ret s else
  let kept := take (Z.to_nat new_max) (pa_blocks s) in
  let freed := drop (Z.to_nat new_max) (pa_blocks s) in
  let '(kept, freed_rev, ok) := shrink_move kept (rev freed) in
  let s := set_blocks s (kept ++ rev freed_rev) in
  if negb ok then Ret s else
  let kept_addr := op_ptr (pa_ptr s) in
  n ← umul 64 (Z.of_nat (length kept)) size_of_RAMBlock;
  kept_size ← size_align n;
  e ← uadd 64 kept_addr kept_size;
  freed_addr ← align_up e page_size;
  freed_size ← usub 64 (op_size (pa_ptr s)) kept_size;
  if freed_size =? 0 then Ret s else
  let s := mkPhysAlloc (mkOwnedPtr (op_ptr (pa_ptr s)) kept_size) new_max
             (pa_is_init s) kept in
  op_free rec s (mkOwnedPtr freed_addr freed_size).

(** Tie the knot. *)
Fixpoint ops (fuel : nat) : Ops :=
  match fuel with
  | O => mkOps (fun _ _ => NoFuel) (fun _ _ => NoFuel) (fun _ _ => NoFuel)
               (fun _ _ _ => NoFuel) (fun _ _ => NoFuel)
  | S fuel =>
      let rec := ops fuel in
      mkOps (alloc_body rec) (free_body rec) (add_body rec) (expand_body rec)
            (shrink_body rec)
  end.

(** The depth of calls that the entry points are run with; the theorems of
    PhysallocSpec show that it is never exhausted. *)
Definition FUEL : nat := 16.

Definition PhysAlloc_alloc := op_alloc (ops FUEL).
Definition PhysAlloc_free := op_free (ops FUEL).
Definition PhysAlloc_add := op_add (ops FUEL).
Definition PhysAlloc_expand := op_expand (ops FUEL).
Definition PhysAlloc_shrink := op_shrink (ops FUEL).

(** [PhysAllocGlob::free_raw] *)
Definition PhysAlloc_free_raw (s : PhysAlloc) (ptr size : Z) : outcome PhysAlloc :=
  PhysAlloc_free s (mkOwnedPtr ptr size).

(** [reclaim]: every reclaimable block becomes free conventional memory. *)
Definition is_reclaimable (b : RAMBlock) : outcome bool :=
  Ret (bool_decide (rb_ty b = Reclaimable)).

Fixpoint PhysAlloc_reclaim (fuel : nat) (s : PhysAlloc) : outcome PhysAlloc :=
  match fuel with
  | O => NoFuel
  | S fuel =>
      pair ← PhysAlloc_find s is_reclaimable;
      match pair with
      | Some (idx, blk) =>
          let s := set_blocks s (<[idx := RAMBlock_invalidate blk]> (pa_blocks s)) in
          s ← PhysAlloc_add s (mkRAMBlock (rb_addr blk) (rb_size blk) Conv false);
          PhysAlloc_reclaim fuel s
      | None => Ret s
      end
  end.
End PhysAlloc_ops.
