(* ===== verification/BlockTable.v ===== *)
(** * BlockTable: the theory of lists of memory blocks

    A block table is, up to the order of its valid entries, a partial
    function [owner] from addresses to (type, used).  This file has the
    well-formedness of the list of valid entries (in range, pairwise disjoint,
    no two that could be merged) and the effect of the elementary updates. *)

From S2P Require Import Prelude Kargs Rvm RamUtil Physalloc.

(** No block ends beyond this address: well above the 52 bits of physical
    address that either architecture has. *)
Definition LIM : Z := 2 ^ 60.

Definition in_range (lo n a : Z) : Prop := lo <= a < lo + n.
Definition in_block (b : RAMBlock) : Z -> Prop := in_range (rb_addr b) (rb_size b).
Definition in_ptr (p : OwnedPtr) : Z -> Prop := in_range (op_ptr p) (op_size p).
Definition battr (b : RAMBlock) : RAMType * bool := (rb_ty b, rb_used b).
Definition bend (b : RAMBlock) : Z := rb_addr b + rb_size b.
Definition pend (p : OwnedPtr) : Z := op_ptr p + op_size p.

#[export] Instance in_range_dec lo n a : Decision (in_range lo n a).
Proof. unfold in_range. apply _. Defined.
#[export] Instance in_block_dec b a : Decision (in_block b a).
Proof. unfold in_block. apply _. Defined.
#[export] Instance in_ptr_dec p a : Decision (in_ptr p a).
Proof. unfold in_ptr. apply _. Defined.

Definition range_ok (lo n : Z) : Prop := 0 <= lo /\ 0 <= n /\ lo + n <= LIM.
Definition blk_ok (b : RAMBlock) : Prop := range_ok (rb_addr b) (rb_size b) /\ 0 < rb_size b.

Definition disj (b c : RAMBlock) : Prop := bend b <= rb_addr c \/ bend c <= rb_addr b.
Definition unmergeable (b c : RAMBlock) : Prop :=
  battr b = battr c -> bend b <> rb_addr c /\ bend c <> rb_addr b.
Definition sep (b c : RAMBlock) : Prop := disj b c /\ unmergeable b c.

(** The list of valid entries of a coalesced table. *)
Fixpoint WF (l : list RAMBlock) : Prop :=
  match l with
  | [] => True
  | b :: l => blk_ok b /\ Forall (sep b) l /\ WF l
  end.

(** The attributes of the block that contains an address. *)
Fixpoint owner (l : list RAMBlock) (a : Z) : option (RAMType * bool) :=
  match l with
  | [] => None
  | b :: l => if decide (in_block b a) then Some (battr b) else owner l a
  end.

Create HintDb blk.
#[export] Hint Unfold in_range in_block in_ptr bend pend range_ok blk_ok disj : blk.
Ltac blk := autounfold with blk in *; simpl in *; autounfold with blk in *; try lia.

(** ** Permutations: only the set of entries matters *)

Lemma sep_sym b c : sep b c -> sep c b.
Proof.
  intros [[?|?] Hu]; (split; [unfold disj; auto|]); intros Hab;
    destruct (Hu (eq_sym Hab)); auto.
Qed.

Lemma WF_perm l l' : l ≡ₚ l' -> WF l -> WF l'.
Proof.
  induction 1 as [|b l l' Hp IH|b c l|l1 l2 l3 Hp1 IH1 Hp2 IH2]; simpl; auto.
  - intros (Hb & Hs & Hw). repeat split; auto; try apply Hb. by rewrite <- Hp.
  - rewrite !Forall_cons. intros (Hb & [Hbc Hbl] & Hc & Hcl & Hw).
    split_and!; auto using sep_sym; apply Hb || apply Hc.
Qed.

#[export] Instance WF_Proper : Proper ((≡ₚ) ==> iff) WF.
Proof. intros l l' Hp. split; apply WF_perm; [done|by symmetry]. Qed.

Lemma WF_elem l b : WF l -> b ∈ l -> blk_ok b.
Proof.
  induction l as [|c l IH]; simpl; [by intros _ ?%not_elem_of_nil|].
  rewrite elem_of_cons. intros (Hc & _ & Hw) [->|?]; auto.
Qed.

Lemma owner_Some l a x :
  owner l a = Some x -> exists b, b ∈ l /\ in_block b a /\ battr b = x.
Proof.
  induction l as [|b l IH]; simpl; [done|]. case_decide as Hd.
  - intros [= <-]. exists b. split_and!; [by left|done..].
  - intros Ho. destruct (IH Ho) as (c & ? & ? & ?). exists c. by split_and!; [right|..].
Qed.

Lemma owner_None l a : owner l a = None <-> forall b, b ∈ l -> ~ in_block b a.
Proof.
  induction l as [|b l IH]; simpl.
  { split; [|done]. by intros _ b ?%not_elem_of_nil. }
  case_decide.
  - split; [done|]. intros Hn. exfalso. eapply Hn; [by left|done].
  - rewrite IH. split; intros Hn c.
    + intros [->|?]%elem_of_cons; auto.
    + intros Hc. apply Hn. by right.
Qed.

Lemma WF_unique l b c a :
  WF l -> b ∈ l -> c ∈ l -> in_block b a -> in_block c a -> b = c.
Proof.
  induction l as [|d l IH]; simpl; [by intros _ ?%not_elem_of_nil|].
  rewrite !elem_of_cons, Forall_forall.
  intros (Hd & Hs & Hw) [->|Hb] [->|Hc] Hba Hca; auto.
  - destruct (Hs _ Hc) as [[?|?] _]; blk.
  - destruct (Hs _ Hb) as [[?|?] _]; blk.
Qed.

Lemma WF_sep l b c : WF l -> b ∈ l -> c ∈ l -> b <> c -> sep b c.
Proof.
  induction l as [|d l IH]; simpl; [by intros _ ?%not_elem_of_nil|].
  rewrite !elem_of_cons, Forall_forall.
  intros (_ & Hs & Hw) [->|Hb] [->|Hc] Hne; auto using sep_sym. done.
Qed.

Lemma owner_in l b a : WF l -> b ∈ l -> in_block b a -> owner l a = Some (battr b).
Proof.
  intros Hw Hb Ha. destruct (owner l a) as [x|] eqn:Ho.
  - destruct (owner_Some _ _ _ Ho) as (c & Hc & Hca & <-).
    by rewrite (WF_unique l b c a Hw Hb Hc Ha Hca).
  - exfalso. by eapply (proj1 (owner_None l a) Ho b).
Qed.

Lemma owner_perm l l' a : WF l -> l ≡ₚ l' -> owner l a = owner l' a.
Proof.
  intros Hw Hp. destruct (owner l' a) as [x|] eqn:Ho.
  - destruct (owner_Some _ _ _ Ho) as (c & Hc & Hca & <-).
    apply owner_in; [done|by rewrite Hp|done].
  - rewrite owner_None in *. intros b Hb. apply Ho. by rewrite <- Hp.
Qed.

(** ** Disjointness, pointwise *)

Lemma owner_None_disj l nb :
  WF l -> blk_ok nb -> (forall a, in_block nb a -> owner l a = None) -> Forall (disj nb) l.
Proof.
  intros Hw Hn Ho. apply Forall_forall. intros c Hc. pose proof (WF_elem _ _ Hw Hc) as Hok.
  destruct (decide (disj nb c)) as [|Hnd]; [done|exfalso].
  apply (proj1 (owner_None l (Z.max (rb_addr nb) (rb_addr c)))
    ltac:(apply Ho; blk) c Hc). blk.
Qed.

(** The run-length lemma: a range with one owner lies in one block. *)
Lemma owner_range_block l lo hi x :
  WF l -> lo < hi -> (forall a, lo <= a < hi -> owner l a = Some x) ->
  exists b, b ∈ l /\ battr b = x /\ rb_addr b <= lo /\ hi <= bend b.
Proof.
  intros Hw Hlt Ho. destruct (owner_Some _ _ _ (Ho lo ltac:(lia))) as (b & Hb & Hba & Hx).
  exists b. split_and!; [done..|blk|].
  destruct (decide (hi <= bend b)) as [|Hn]; [done|exfalso].
  destruct (owner_Some _ _ _ (Ho (bend b) ltac:(blk))) as (c & Hc & Hca & Hx').
  assert (b <> c) as Hne by (intros ->; blk).
  destruct (WF_sep _ _ _ Hw Hb Hc Hne) as [Hd Hu].
  pose proof (WF_elem _ _ Hw Hb) as Hok1. pose proof (WF_elem _ _ Hw Hc) as Hok2.
  destruct (Hu ltac:(congruence)) as [Hu1 Hu2]. unfold blk_ok in *. blk.
Qed.

(** ** Elementary updates of the multiset of blocks *)

Lemma WF_cons_inv b l : WF (b :: l) -> blk_ok b /\ Forall (sep b) l /\ WF l.
Proof. done. Qed.

Lemma WF_insert nb l :
  WF l -> blk_ok nb -> Forall (disj nb) l -> Forall (unmergeable nb) l -> WF (nb :: l).
Proof.
  intros Hw Hb Hd Hu. simpl. split_and!; try apply Hb; [|done].
  apply Forall_forall. intros c Hc. rewrite Forall_forall in Hd, Hu. split; auto.
Qed.

Lemma owner_insert_fresh nb l a :
  owner (nb :: l) a = if decide (in_block nb a) then Some (battr nb) else owner l a.
Proof. done. Qed.

(** Merging [nb] at the end of [b]. *)
Definition joined (b : RAMBlock) (addr size : Z) : RAMBlock :=
  mkRAMBlock addr size (rb_ty b) (rb_used b).

Ltac use_forall c Hc :=
  repeat match goal with
  | H : Forall _ _ |- _ => rewrite Forall_forall in H; specialize (H c Hc)
  end.

Lemma WF_join_before nb b l :
  WF (b :: l) -> blk_ok nb -> Forall (disj nb) (b :: l) ->
  battr b = battr nb -> bend b = rb_addr nb ->
  Forall (fun c => battr c = battr nb -> bend nb <> rb_addr c) l ->
  let m := joined b (rb_addr b) (rb_size b + rb_size nb) in
  WF (m :: l) /\
  forall a, owner (m :: l) a = if decide (in_block nb a) then Some (battr nb) else owner (b :: l) a.
Proof.
  intros (Hb & Hs & Hw) Hn Hd Hx He Ha m. rewrite Forall_cons in Hd. destruct Hd as [_ Hd].
  split.
  - apply WF_insert; [done|unfold blk_ok in *; blk|apply Forall_forall..]; intros c Hc; use_forall c Hc.
    + destruct Hs as [[?|?] _], Hd as [?|?]; pose proof (WF_elem _ _ Hw Hc); unfold blk_ok in *; blk.
    + intros Hm. destruct Hs as [_ Hu]. change (battr m) with (battr b) in Hm.
      destruct (Hu Hm). split; [|done].
      assert (bend nb <> rb_addr c) by (apply Ha; congruence). unfold bend in *. simpl. lia.
  - intros a. simpl. change (battr m) with (battr b).
    repeat case_decide; subst; try congruence; unfold blk_ok in *; blk.
Qed.

Lemma WF_join_after nb b l :
  WF (b :: l) -> blk_ok nb -> Forall (disj nb) (b :: l) ->
  battr b = battr nb -> bend nb = rb_addr b ->
  Forall (fun c => battr c = battr nb -> bend c <> rb_addr nb) l ->
  let m := joined b (rb_addr nb) (rb_size b + rb_size nb) in
  WF (m :: l) /\
  forall a, owner (m :: l) a = if decide (in_block nb a) then Some (battr nb) else owner (b :: l) a.
Proof.
  intros (Hb & Hs & Hw) Hn Hd Hx He Ha m. rewrite Forall_cons in Hd. destruct Hd as [_ Hd].
  split.
  - apply WF_insert; [done|unfold blk_ok in *; blk|apply Forall_forall..]; intros c Hc; use_forall c Hc.
    + destruct Hs as [[?|?] _], Hd as [?|?]; pose proof (WF_elem _ _ Hw Hc); unfold blk_ok in *; blk.
    + intros Hm. destruct Hs as [_ Hu]. change (battr m) with (battr b) in Hm.
      destruct (Hu Hm). split.
      * unfold bend in *. simpl. lia.
      * simpl. apply Ha. congruence.
  - intros a. simpl. change (battr m) with (battr b).
    repeat case_decide; subst; try congruence; unfold blk_ok in *; blk.
Qed.

Lemma WF_join_both nb b c l :
  WF (c :: b :: l) -> blk_ok nb -> Forall (disj nb) (c :: b :: l) ->
  battr b = battr nb -> bend b = rb_addr nb ->
  battr c = battr nb -> bend nb = rb_addr c ->
  let m := joined b (rb_addr b) (rb_size b + rb_size nb + rb_size c) in
  WF (m :: l) /\
  forall a, owner (m :: l) a =
    if decide (in_block nb a) then Some (battr nb) else owner (c :: b :: l) a.
Proof.
  intros (Hc & Hsc & Hb & Hs & Hw) Hn Hd Hx He Hx' He' m. rewrite !Forall_cons in *.
  destruct Hd as (_ & _ & Hd), Hsc as [_ Hsc].
  split.
  - apply WF_insert; [done|unfold blk_ok in *; blk|apply Forall_forall..]; intros d Hd'; use_forall d Hd'.
    + destruct Hs as [[?|?] _], Hsc as [[?|?] _], Hd as [?|?];
        pose proof (WF_elem _ _ Hw Hd'); unfold blk_ok in *; blk.
    + intros Hm. destruct Hs as [_ Hu], Hsc as [_ Hu']. change (battr m) with (battr b) in Hm.
      destruct (Hu Hm), (Hu' ltac:(congruence)). split; [|done].
      unfold bend in *. simpl. lia.
  - intros a. simpl. change (battr m) with (battr b).
    repeat case_decide; subst; try congruence; unfold blk_ok in *; blk.
Qed.

Lemma WF_filter (P : RAMBlock -> Prop) `{forall b, Decision (P b)} l : WF l -> WF (filter P l).
Proof.
  induction l as [|b l IH]; [done|]. intros (Hb & Hs & Hw). rewrite filter_cons.
  case_decide; [|auto]. simpl. split_and!; try apply Hb; [|auto].
  apply Forall_forall. intros c [_ Hc]%list_elem_of_filter. by rewrite Forall_forall in Hs; apply Hs.
Qed.

(** ** The table is determined by the address map *)

Lemma WF_block_unique l l' b :
  WF l -> WF l' -> (forall a, owner l a = owner l' a) -> b ∈ l -> b ∈ l'.
Proof.
  intros Hw Hw' Heq Hb. pose proof (WF_elem _ _ Hw Hb) as Hok. assert (Hok' := Hok).
  destruct Hok' as [_ Hpos].
  destruct (owner_range_block l' (rb_addr b) (bend b) (battr b)) as (c & Hc & Hcx & Hlo & Hhi);
    [done|unfold bend; lia| |].
  { intros a Ha. rewrite <- Heq. apply owner_in; [done..|]. blk. }
  pose proof (WF_elem _ _ Hw' Hc) as [_ Hposc].
  destruct (owner_range_block l (rb_addr c) (bend c) (battr b)) as (d & Hd & Hdx & Hlo' & Hhi');
    [done|unfold bend; lia| |].
  { intros a Ha. rewrite Heq, <- Hcx. apply owner_in; [done..|]. blk. }
  assert (d = b) as -> by (apply (WF_unique l d b (rb_addr b)); [done..|blk|blk]).
  assert (c = b) as ->; [|done].
  destruct b, c. unfold battr, bend in *. simpl in *. simplify_eq. f_equal; lia.
Qed.

Lemma WF_NoDup l : WF l -> NoDup l.
Proof.
  induction l as [|b l IH]; [by constructor|]. intros (Hb & Hs & Hw). constructor; [|auto].
  rewrite Forall_forall in Hs. intros Hin. destruct (Hs b Hin) as [[?|?] _]; destruct Hb; blk.
Qed.

Lemma WF_canonical l l' :
  WF l -> WF l' -> (forall a, owner l a = owner l' a) -> l ≡ₚ l'.
Proof.
  intros Hw Hw' Heq. apply NoDup_Permutation; [by apply WF_NoDup..|].
  intros b. split; apply WF_block_unique; done.
Qed.

Lemma owner_filter (p : RAMType * bool -> bool) l a :
  WF l ->
  owner (filter (fun b => p (battr b) = true) l) a =
    match owner l a with Some x => if p x then Some x else None | None => None end.
Proof.
  intros Hw. destruct (owner l a) as [x|] eqn:Ho.
  - destruct (owner_Some _ _ _ Ho) as (b & Hb & Hba & <-). destruct (p (battr b)) eqn:Hp.
    + apply owner_in; [by apply WF_filter|by apply list_elem_of_filter|done].
    + apply owner_None. intros c [Hpc Hc]%list_elem_of_filter Hca.
      rewrite (WF_unique l c b a) in Hpc by done. congruence.
  - apply owner_None. rewrite owner_None in Ho. intros c [_ Hc]%list_elem_of_filter. auto.
Qed.
