(* ===== verification/PhysallocSpec.v ===== *)
(** * PhysallocSpec: the physical allocator implements an address map

    The functional behaviour of [add], [free], [alloc], [expand] and [shrink]
    on well-formed tables, the invariant [INV] of the allocator's state and
    the abstract view that hides the table's own memory. *)

From S2P Require Import Prelude Kargs Rvm RamUtil Physalloc BlockTable.

(** ** The valid entries after an update of the table *)

Lemma vblocks_cons b bs :
  vblocks (b :: bs) = if RAMBlock_valid b then b :: vblocks bs else vblocks bs.
Proof.
  unfold vblocks. rewrite filter_cons. case_decide as Hd; [by rewrite Hd|].
  by destruct (RAMBlock_valid b).
Qed.

Lemma vblocks_app bs bs' : vblocks (bs ++ bs') = vblocks bs ++ vblocks bs'.
Proof. apply filter_app. Qed.

Lemma elem_vblocks b bs : b ∈ vblocks bs <-> b ∈ bs /\ RAMBlock_valid b = true.
Proof. unfold vblocks. rewrite list_elem_of_filter. tauto. Qed.

Lemma invalid_invalidate b : RAMBlock_valid (RAMBlock_invalidate b) = false.
Proof. done. Qed.

Lemma blk_ok_valid b : blk_ok b -> RAMBlock_valid b = true.
Proof. intros [_ ?]. by apply Z.ltb_lt. Qed.

Lemma vblocks_invalidate bs i b :
  bs !! i = Some b -> RAMBlock_valid b = true ->
  vblocks bs ≡ₚ b :: vblocks (<[i := RAMBlock_invalidate b]> bs).
Proof.
  revert i. induction bs as [|c bs IH]; intros [|i] Hi Hv; simplify_eq/=.
  - by rewrite !vblocks_cons, Hv.
  - rewrite !vblocks_cons.
    destruct (RAMBlock_valid c); [rewrite (IH _ Hi Hv); apply perm_swap|auto].
Qed.

Lemma vblocks_replace bs i b b' :
  bs !! i = Some b -> RAMBlock_valid b' = true ->
  vblocks (<[i := b']> bs) ≡ₚ b' :: vblocks (<[i := RAMBlock_invalidate b]> bs).
Proof.
  revert i. induction bs as [|c bs IH]; intros [|i] Hi Hv; simplify_eq/=.
  - by rewrite !vblocks_cons, Hv.
  - rewrite !vblocks_cons.
    destruct (RAMBlock_valid c); [rewrite (IH _ Hi Hv); apply perm_swap|auto].
Qed.

Lemma vblocks_le bs : (length (vblocks bs) <= length bs)%nat.
Proof. apply length_filter. Qed.

Lemma put_first_invalid_spec nb bs :
  RAMBlock_valid nb = true -> (length (vblocks bs) < length bs)%nat ->
  vblocks (put_first_invalid nb bs) ≡ₚ nb :: vblocks bs /\
  length (put_first_invalid nb bs) = length bs.
Proof.
  intros Hn. induction bs as [|b bs IH]; simpl; [lia|]. rewrite vblocks_cons.
  destruct (RAMBlock_valid b) eqn:Hb; simpl; intros Hlt.
  - destruct IH as [Hp Hl]; [lia|]. split; [|by rewrite Hl].
    rewrite vblocks_cons, Hb, Hp. apply Permutation_swap.
  - split; [|done]. by rewrite vblocks_cons, Hn.
Qed.

(** ** [add]: the scan *)

Section Spec.
Context `{Platform}.

Lemma end_ok b : blk_ok b -> RAMBlock_end b = Ret (bend b).
Proof. unfold RAMBlock_end, bend, blk_ok, range_ok, LIM. intros. by rewrite uadd_ok by lia. Qed.

Lemma pend_ok p : range_ok (op_ptr p) (op_size p) -> OwnedPtr_end p = Ret (pend p).
Proof. unfold OwnedPtr_end, pend, range_ok, LIM. intros. by rewrite uadd_ok by lia. Qed.

Definition adj_before (nb b : RAMBlock) : Prop := battr b = battr nb /\ bend b = rb_addr nb.
Definition adj_after (nb b : RAMBlock) : Prop := battr b = battr nb /\ bend nb = rb_addr b.

Lemma is_mergable_spec nb b :
  blk_ok nb -> blk_ok b ->
  exists m, RAMBlock_is_mergable nb b = Ret m /\
    ((m = -1 /\ adj_after nb b) \/
     (m = 1 /\ adj_before nb b /\ ~ adj_after nb b) \/
     (m = 0 /\ ~ adj_before nb b /\ ~ adj_after nb b)).
Proof.
  intros Hn Hb. unfold RAMBlock_is_mergable, RAMBlock_invalid.
  destruct (Z.eqb_spec (rb_size nb) 0); [destruct Hn; lia|].
  destruct (Z.eqb_spec (rb_size b) 0); [destruct Hb; lia|]. cbn [orb].
  unfold adj_before, adj_after, battr. destruct nb as [na ns nt nu], b as [ba bs bt bu].
  cbn. case_bool_decide as Hd; cbn.
  { exists 0. split; [done|]. right; right. split; [done|].
    split; intros [[= -> ->] _]; by apply Hd. }
  unfold RAMBlock_set_size, RAMBlock_set_addr in Hd. simplify_eq/=. rewrite (end_ok _ Hn). autorewrite with rust.
  destruct (Z.eqb_spec (bend (mkRAMBlock na ns bt bu)) ba).
  { exists (-1). split; [done|]. by left. }
  rewrite (end_ok _ Hb). autorewrite with rust.
  destruct (Z.eqb_spec (bend (mkRAMBlock ba bs bt bu)) na).
  - exists 1. split; [done|]. right; left. split_and!; [done..|]. by intros [_ ?].
  - exists 0. split; [done|]. right; right. split_and!; [done|by intros [_ ?]..].
Qed.

(** What a scan result says about the entries scanned, which start at
    position [k] of the table [full]. *)
Definition scan_ok (adj : RAMBlock -> Prop) (full bs : list RAMBlock)
    (r0 r : option (nat * RAMBlock)) : Prop :=
  match r with
  | Some (i, b) => r0 = Some (i, b) \/ (full !! i = Some b /\ RAMBlock_valid b = true /\ adj b)
  | None => r0 = None /\ Forall (fun b => ~ adj b) (vblocks bs)
  end.

Lemma add_scan_spec full nb bs k b0 a0 :
  blk_ok nb -> Forall blk_ok (vblocks bs) -> drop k full = bs ->
  exists b a, add_scan nb bs k b0 a0 = Ret (b, a) /\
    scan_ok (adj_before nb) full bs b0 b /\ scan_ok (adj_after nb) full bs a0 a.
Proof.
  intros Hn. revert k b0 a0. induction bs as [|c bs IH]; intros k b0 a0 Hok Hk; cbn.
  { exists b0, a0. split; [done|]. unfold scan_ok.
    split; [destruct b0 as [[]|]|destruct a0 as [[]|]]; auto; by split. }
  assert (full !! k = Some c) as Hc
    by (rewrite <- (Nat.add_0_r k), <- lookup_drop, Hk; done).
  assert (drop (S k) full = bs) as Hk'.
  { replace (S k) with (k + 1)%nat by lia. rewrite <- drop_drop, Hk. done. }
  rewrite vblocks_cons in Hok. unfold scan_ok in IH |- *.
  destruct (RAMBlock_valid c) eqn:Hv.
  2: { destruct (IH (S k) b0 a0 Hok Hk') as (b & a & Hr & Hb & Ha).
       exists b, a. split; [done|]. rewrite !vblocks_cons, Hv. done. }
  apply Forall_cons in Hok as [Hokc Hok].
  destruct (is_mergable_spec nb c Hn Hokc) as (m & -> & Hm). autorewrite with rust.
  rewrite !vblocks_cons, Hv.
  destruct Hm as [[-> Ha0]|[(-> & Hb0 & Hna)|(-> & Hnb & Hna)]]; cbn.
  - destruct (IH (S k) b0 (Some (k, c)) Hok Hk') as (b & a & Hr & Hb & Ha).
    exists b, a. split; [done|]. split.
    + destruct b as [[]|]; [done|]. destruct Hb. split; [done|]. constructor; [|done].
      unfold adj_after, adj_before, bend in *. destruct Hn, Hokc. lia.
    + destruct a as [[i x]|]; [|by destruct Ha]. destruct Ha as [[= <- <-]|]; auto.
  - destruct (IH (S k) (Some (k, c)) a0 Hok Hk') as (b & a & Hr & Hb & Ha).
    exists b, a. split; [done|]. split.
    + destruct b as [[i x]|]; [|by destruct Hb]. destruct Hb as [[= <- <-]|]; auto.
    + destruct a as [[]|]; [done|]. destruct Ha. split; [done|]. by constructor.
  - destruct (IH (S k) b0 a0 Hok Hk') as (b & a & Hr & Hb & Ha).
    exists b, a. split; [done|]. split.
    + destruct b as [[]|]; [done|]. destruct Hb. split; [done|]. by constructor.
    + destruct a as [[]|]; [done|]. destruct Ha. split; [done|]. by constructor.
Qed.

(** ** [add]: the update of the table *)

Abbreviation vb s := (vblocks (pa_blocks s)).

Definition both_test (s : PhysAlloc) : bool :=
  PhysAlloc_count s <=? Z.shiftr (pa_max s) 2.

(** The tail of [add] when it has merged with both neighbours. *)
Definition settle (rec : Ops) (s : PhysAlloc) (both : bool) : outcome PhysAlloc :=
  if both && both_test s
  then op_shrink rec s (Z.max (Z.shiftr (pa_max s) 1) BASE_RB_SIZE) else Ret s.

Definition upd (f : Z -> option (RAMType * bool)) (lo n : Z) (x : RAMType * bool)
    : Z -> option (RAMType * bool) :=
  fun a => if decide (in_range lo n a) then Some x else f a.

Lemma scan_before_owner l nb b :
  WF l -> b ∈ l -> adj_before nb b -> owner l (rb_addr nb - 1) = Some (battr nb).
Proof.
  intros Hw Hb [Hx He]. rewrite <- Hx. pose proof (WF_elem _ _ Hw Hb).
  apply owner_in; [done..|]. unfold blk_ok in *. blk.
Qed.

Lemma scan_after_owner l nb b :
  WF l -> b ∈ l -> adj_after nb b -> owner l (bend nb) = Some (battr nb).
Proof.
  intros Hw Hb [Hx He]. rewrite <- Hx. pose proof (WF_elem _ _ Hw Hb).
  apply owner_in; [done..|]. unfold blk_ok in *. blk.
Qed.

(** What [add] does to the table: the new block's range gets its attributes,
    nothing else changes, and the table stays well formed.  [both] says that
    the block joined a block on each side. *)
Record add_effect (s : PhysAlloc) (nb : RAMBlock) (bs' : list RAMBlock) (both : bool)
    : Prop := {
  ae_run : forall rec, add_body rec s nb = settle rec (set_blocks s bs') both;
  ae_wf : WF (vblocks bs');
  ae_len : length bs' = length (pa_blocks s);
  ae_owner : forall a, owner (vblocks bs') a =
    upd (owner (vb s)) (rb_addr nb) (rb_size nb) (battr nb) a;
  ae_up : (length (vblocks bs') <= S (length (vb s)))%nat;
  ae_down : (length (vb s) <= S (length (vblocks bs')))%nat;
  ae_both : both = true -> owner (vb s) (rb_addr nb - 1) = Some (battr nb) /\
                           owner (vb s) (bend nb) = Some (battr nb)
}.

(** The shared ending of the four cases: [L] is the part of the table that
    was read and [m :: R] what it became. *)
Lemma add_effect_intro s nb bs' both m R L :
  WF (vb s) -> vb s ≡ₚ L -> vblocks bs' ≡ₚ m :: R ->
  (forall rec, add_body rec s nb = settle rec (set_blocks s bs') both) ->
  length bs' = length (pa_blocks s) ->
  (WF (m :: R) /\ forall a, owner (m :: R) a =
     if decide (in_block nb a) then Some (battr nb) else owner L a) ->
  (length R <= length L <= S (S (length R)))%nat ->
  (both = true -> owner (vb s) (rb_addr nb - 1) = Some (battr nb) /\
                  owner (vb s) (bend nb) = Some (battr nb)) ->
  add_effect s nb bs' both.
Proof.
  intros Hw Hp Hp' Hrun Hlen [Hwj Hoj] HR Hboth.
  assert (WF (vblocks bs')) as Hw' by (by rewrite Hp').
  pose proof (Permutation_length Hp) as Hl. pose proof (Permutation_length Hp') as Hl'.
  simpl in Hl'. constructor; [done..| |lia|lia|done].
  intros a. rewrite (owner_perm _ _ a Hw' Hp'), Hoj. unfold upd.
  by rewrite (owner_perm _ _ a Hw Hp).
Qed.

Lemma add_valid nb : blk_ok nb -> RAMBlock_invalid nb = false.
Proof. intros [_ ?]. unfold RAMBlock_invalid. apply Z.eqb_neq. lia. Qed.

Section AddCases.
Variables (s : PhysAlloc) (nb : RAMBlock).
Hypothesis Hw : WF (vb s).
Hypothesis Hn : blk_ok nb.
Hypothesis Hd : Forall (disj nb) (vb s).

Lemma add_case_both i b j c :
  add_scan nb (pa_blocks s) 0 None None = Ret (Some (i, b), Some (j, c)) ->
  pa_blocks s !! i = Some b -> RAMBlock_valid b = true -> adj_before nb b ->
  pa_blocks s !! j = Some c -> RAMBlock_valid c = true -> adj_after nb c ->
  exists bs', add_effect s nb bs' true.
Proof.
  intros Hscan Hi Hvb Hb Hj Hvc Hc.
  assert (i <> j) as Hij.
  { intros ->. simplify_eq. destruct Hb, Hc, Hn. unfold bend in *.
    apply Z.ltb_lt in Hvc. lia. }
  set (bs1 := <[j := RAMBlock_invalidate c]> (pa_blocks s)).
  assert (bs1 !! i = Some b) as Hi1 by (by unfold bs1; rewrite list_lookup_insert_ne).
  set (R := vblocks (<[i := RAMBlock_invalidate b]> bs1)).
  assert (vb s ≡ₚ c :: b :: R) as Hp.
  { rewrite (vblocks_invalidate _ _ _ Hj Hvc). f_equiv.
    by apply (vblocks_invalidate bs1). }
  assert (Hw' := Hw). assert (Hd' := Hd). rewrite Hp in Hw', Hd'.
  pose proof Hw' as (Hokc & _ & Hokb & _ & _).
  exists (<[j := RAMBlock_invalidate c]>
    (<[i := RAMBlock_set_size b (rb_size b + rb_size nb + rb_size c)]> (pa_blocks s))).
  destruct Hb as [Hxb Heb], Hc as [Hxc Hec].
  eapply add_effect_intro; [done|exact Hp| | | |by apply WF_join_both| |].
  - rewrite list_insert_insert_ne by done. apply (vblocks_replace bs1 i b); [done|].
    apply Z.ltb_lt. simpl. unfold blk_ok in *. lia.
  - intros rec. unfold add_body. rewrite (add_valid _ Hn), Hscan. autorewrite with rust.
    unfold blk_ok, range_ok, LIM, bend in *. by urun.
  - by rewrite !length_insert.
  - simpl. lia.
  - intros _. split.
    + apply scan_before_owner with b; [done|apply elem_vblocks|done].
      split; [by eapply list_elem_of_lookup_2|done].
    + apply scan_after_owner with c; [done|apply elem_vblocks|done].
      split; [by eapply list_elem_of_lookup_2|done].
Qed.

Lemma add_case_before i b :
  add_scan nb (pa_blocks s) 0 None None = Ret (Some (i, b), None) ->
  pa_blocks s !! i = Some b -> RAMBlock_valid b = true -> adj_before nb b ->
  Forall (fun c => ~ adj_after nb c) (vb s) ->
  exists bs', add_effect s nb bs' false.
Proof.
  intros Hscan Hi Hvb [Hxb Heb] Ha.
  assert (vb s ≡ₚ b :: vblocks (<[i := RAMBlock_invalidate b]> (pa_blocks s))) as Hp
    by by apply vblocks_invalidate.
  assert (Hw' := Hw). assert (Hd' := Hd). rewrite Hp in Hw', Hd', Ha.
  apply Forall_cons in Ha as [_ Ha]. pose proof Hw' as (Hokb & _ & _).
  exists (<[i := RAMBlock_set_size b (rb_size b + rb_size nb)]> (pa_blocks s)).
  eapply add_effect_intro; [done|exact Hp| | | |apply WF_join_before| |done].
  - apply vblocks_replace; [done|]. apply Z.ltb_lt. simpl. unfold blk_ok in *. lia.
  - intros rec. unfold add_body. rewrite (add_valid _ Hn), Hscan. autorewrite with rust.
    unfold blk_ok, range_ok, LIM, bend in *. by urun.
  - by rewrite !length_insert.
  - done.
  - done.
  - done.
  - done.
  - done.
  - eapply Forall_impl; [exact Ha|]. intros d Hd0 Hx He. apply Hd0. by split.
  - simpl. lia.
Qed.

Lemma add_case_after j c :
  add_scan nb (pa_blocks s) 0 None None = Ret (None, Some (j, c)) ->
  pa_blocks s !! j = Some c -> RAMBlock_valid c = true -> adj_after nb c ->
  Forall (fun b => ~ adj_before nb b) (vb s) ->
  exists bs', add_effect s nb bs' false.
Proof.
  intros Hscan Hj Hvc [Hxc Hec] Hb.
  assert (vb s ≡ₚ c :: vblocks (<[j := RAMBlock_invalidate c]> (pa_blocks s))) as Hp
    by by apply vblocks_invalidate.
  assert (Hw' := Hw). assert (Hd' := Hd). rewrite Hp in Hw', Hd', Hb.
  apply Forall_cons in Hb as [_ Hb]. pose proof Hw' as (Hokc & _ & _).
  exists (<[j := RAMBlock_set_size (RAMBlock_set_addr c (rb_addr nb))
                   (rb_size c + rb_size nb)]> (pa_blocks s)).
  eapply add_effect_intro; [done|exact Hp| | | |apply WF_join_after| |done].
  - apply vblocks_replace; [done|]. apply Z.ltb_lt. simpl. unfold blk_ok in *. lia.
  - intros rec. unfold add_body. rewrite (add_valid _ Hn), Hscan. autorewrite with rust.
    unfold blk_ok, range_ok, LIM, bend in *. by urun.
  - by rewrite !length_insert.
  - done.
  - done.
  - done.
  - done.
  - done.
  - eapply Forall_impl; [exact Hb|]. intros d Hd0 Hx He. apply Hd0. by split.
  - simpl. lia.
Qed.

Lemma add_case_none :
  add_scan nb (pa_blocks s) 0 None None = Ret (None, None) ->
  Forall (fun b => ~ adj_before nb b) (vb s) ->
  Forall (fun c => ~ adj_after nb c) (vb s) ->
  (length (vb s) < length (pa_blocks s))%nat ->
  pa_max s = Z.of_nat (length (pa_blocks s)) ->
  exists bs', add_effect s nb bs' false.
Proof.
  intros Hscan Hb Ha Hlen Hmax.
  destruct (put_first_invalid_spec nb (pa_blocks s) (blk_ok_valid _ Hn) Hlen) as [Hp' Hl].
  exists (put_first_invalid nb (pa_blocks s)).
  eapply add_effect_intro; [done|reflexivity|exact Hp'| |done| |lia|done].
  - intros rec. unfold add_body. rewrite (add_valid _ Hn), Hscan. autorewrite with rust.
    destruct (Z.leb_spec (pa_max s) (PhysAlloc_count s)) as [Hle|]; [|done].
    unfold PhysAlloc_count in Hle. lia.
  - split; [|done]. apply WF_insert; [done..|]. apply Forall_forall. intros d Hd'.
    rewrite Forall_forall in Hb, Ha. specialize (Hb d Hd'). specialize (Ha d Hd').
    intros Hx. split; intros He; [apply Ha|apply Hb]; by split.
Qed.
End AddCases.

Lemma add_update s nb :
  WF (vb s) -> blk_ok nb -> (forall a, in_block nb a -> owner (vb s) a = None) ->
  (length (vb s) < length (pa_blocks s))%nat ->
  pa_max s = Z.of_nat (length (pa_blocks s)) ->
  exists bs' both, add_effect s nb bs' both.
Proof.
  intros Hw Hn Hfree Hlen Hmax. pose proof (owner_None_disj _ _ Hw Hn Hfree) as Hd.
  assert (Forall blk_ok (vb s)) as Hok
    by (apply Forall_forall; intros; by eapply WF_elem).
  destruct (add_scan_spec (pa_blocks s) nb (pa_blocks s) 0 None None Hn Hok eq_refl)
    as (before & after & Hscan & Hb & Ha).
  unfold scan_ok in Hb, Ha.
  destruct before as [[i b]|], after as [[j c]|].
  - destruct Hb as [[=]|(? & ? & ?)], Ha as [[=]|(? & ? & ?)].
    destruct (add_case_both s nb Hw Hn Hd i b j c) as [bs' ?]; [done..|]. by exists bs', true.
  - destruct Hb as [[=]|(? & ? & ?)], Ha as [_ ?].
    destruct (add_case_before s nb Hw Hn Hd i b) as [bs' ?]; [done..|]. by exists bs', false.
  - destruct Ha as [[=]|(? & ? & ?)], Hb as [_ ?].
    destruct (add_case_after s nb Hw Hn Hd j c) as [bs' ?]; [done..|]. by exists bs', false.
  - destruct Hb as [_ ?], Ha as [_ ?].
    destruct (add_case_none s nb Hw Hn Hd) as [bs' ?]; [done..|]. by exists bs', false.
Qed.

Lemma set_blocks_id s : set_blocks s (pa_blocks s) = s.
Proof. by destruct s. Qed.

Lemma range_empty lo a : ~ in_range lo 0 a.
Proof. unfold in_range. lia. Qed.

(** [add] of a block that may be empty. *)
Lemma add_update0 s nb :
  WF (vb s) -> range_ok (rb_addr nb) (rb_size nb) ->
  (forall a, in_block nb a -> owner (vb s) a = None) ->
  (length (vb s) < length (pa_blocks s))%nat ->
  pa_max s = Z.of_nat (length (pa_blocks s)) ->
  exists bs' both, add_effect s nb bs' both.
Proof.
  intros Hw Hr Hfree Hlen Hmax. destruct (decide (rb_size nb = 0)) as [H0|Hpos].
  - exists (pa_blocks s), false. constructor; [|done..| |lia|lia|done].
    + intros rec. unfold add_body, RAMBlock_invalid. rewrite H0. cbn.
      by rewrite set_blocks_id.
    + intros a. unfold upd. rewrite H0. case_decide as Hd; [by apply range_empty in Hd|done].
  - apply add_update; [done| |done..]. split; [done|]. destruct Hr. lia.
Qed.

(** An [add] with a gap on one side merges on the other side at most. *)
Lemma add_quiet n s nb :
  WF (vb s) -> range_ok (rb_addr nb) (rb_size nb) ->
  (forall a, in_block nb a -> owner (vb s) a = None) ->
  owner (vb s) (rb_addr nb - 1) = None \/ owner (vb s) (bend nb) = None ->
  (length (vb s) < length (pa_blocks s))%nat ->
  pa_max s = Z.of_nat (length (pa_blocks s)) ->
  exists bs', op_add (ops (S n)) s nb = Ret (set_blocks s bs') /\
    WF (vblocks bs') /\ length bs' = length (pa_blocks s) /\
    (forall a, owner (vblocks bs') a = upd (owner (vb s)) (rb_addr nb) (rb_size nb) (battr nb) a) /\
    (length (vblocks bs') <= S (length (vb s)))%nat /\
    (length (vb s) <= S (length (vblocks bs')))%nat.
Proof.
  intros Hw Hr Hfree Hgap Hlen Hmax.
  destruct (add_update0 s nb Hw Hr Hfree Hlen Hmax) as (bs' & both & [Hrun Hw' Hl Ho Hu Hdn Hb]).
  exists bs'. split_and!; [|done..]. cbn [ops op_add]. rewrite Hrun.
  destruct both; [|done]. destruct (Hb eq_refl) as [H1 H2].
  destruct Hgap as [Hg|Hg]; congruence.
Qed.

(** ** [find] *)

Lemma find_from_spec f g bs k :
  Forall (fun b => f b = Ret (g b)) (vblocks bs) ->
  exists r, find_from f bs k = Ret r /\
    match r with
    | Some (i, b) => (k <= i)%nat /\ bs !! (i - k)%nat = Some b /\
                     RAMBlock_valid b = true /\ g b = true
    | None => Forall (fun b => g b = false) (vblocks bs)
    end.
Proof.
  revert k. induction bs as [|c bs IH]; intros k Hf; cbn [find_from].
  { by exists None. }
  rewrite vblocks_cons in Hf.
  assert (forall r : option (nat * RAMBlock),
    match r with
    | Some (i, b) => (S k <= i)%nat /\ bs !! (i - S k)%nat = Some b /\
                     RAMBlock_valid b = true /\ g b = true
    | None => Forall (fun b => g b = false) (vblocks bs)
    end -> (RAMBlock_valid c = true -> g c = false) ->
    match r with
    | Some (i, b) => (k <= i)%nat /\ (c :: bs) !! (i - k)%nat = Some b /\
                     RAMBlock_valid b = true /\ g b = true
    | None => Forall (fun b => g b = false) (vblocks (c :: bs))
    end) as Hstep.
  { intros [[i b]|] Hr Hc.
    - destruct Hr as (Hi & Hl & ?). split_and!; [lia| |tauto..].
      by replace (i - k)%nat with (S (i - S k)) by lia.
    - rewrite vblocks_cons. destruct (RAMBlock_valid c); [|done]. constructor; auto. }
  destruct (RAMBlock_valid c) eqn:Hv.
  - apply Forall_cons in Hf as [Hc Hf]. rewrite Hc. autorewrite with rust.
    destruct (g c) eqn:Hg.
    + exists (Some (k, c)). split; [done|]. rewrite Nat.sub_diag. by split_and!.
    + destruct (IH (S k) Hf) as (r & -> & Hr). exists r. split; [done|]. by apply Hstep.
  - destruct (IH (S k) Hf) as (r & -> & Hr). exists r. split; [done|]. by apply Hstep.
Qed.

Lemma find_spec f g s :
  Forall (fun b => f b = Ret (g b)) (vb s) ->
  exists r, PhysAlloc_find s f = Ret r /\
    match r with
    | Some (i, b) => pa_blocks s !! i = Some b /\ RAMBlock_valid b = true /\
                     b ∈ vb s /\ g b = true
    | None => Forall (fun b => g b = false) (vb s)
    end.
Proof.
  intros Hf. destruct (find_from_spec f g (pa_blocks s) 0 Hf) as (r & Hr & Hs).
  exists r. split; [done|]. destruct r as [[i b]|]; [|done].
  destruct Hs as (_ & Hi & Hv & Hg). rewrite Nat.sub_0_r in Hi. split_and!; [done..| |done].
  apply elem_vblocks. split; [by eapply list_elem_of_lookup_2|done].
Qed.

(** Invalidating one entry frees its range. *)
Lemma invalidate_effect s i b :
  WF (vb s) -> pa_blocks s !! i = Some b -> RAMBlock_valid b = true ->
  let bs1 := <[i := RAMBlock_invalidate b]> (pa_blocks s) in
  WF (vblocks bs1) /\ length (vb s) = S (length (vblocks bs1)) /\
  forall a, owner (vblocks bs1) a = if decide (in_block b a) then None else owner (vb s) a.
Proof.
  intros Hw Hi Hv bs1. pose proof (vblocks_invalidate _ _ _ Hi Hv) as Hp. fold bs1 in Hp.
  pose proof (Permutation_length Hp) as Hl. simpl in Hl.
  assert (Hw' := Hw). rewrite Hp in Hw'. pose proof Hw' as (Hb & Hs & Hw1).
  split_and!; [done..|]. intros a. case_decide as Hin.
  - apply owner_None. intros c Hc Hca. rewrite Forall_forall in Hs.
    destruct (Hs c Hc) as [[?|?] _]; blk.
  - rewrite (owner_perm _ _ a Hw Hp). simpl. by case_decide.
Qed.

(** ** [alloc]: carving the range out of a free block *)

Definition carve_choice (args : AllocParams) (ptr : OwnedPtr) (b : RAMBlock) : bool :=
  negb (rb_used b) && bool_decide (ap_from_type args = rb_ty b) &&
  (rb_addr b <=? op_ptr ptr) && (pend ptr <=? bend b).

Lemma alloc_filter_ok args ptr b :
  0 <= pend ptr < 2 ^ 64 -> blk_ok b ->
  alloc_filter args ptr b = Ret (carve_choice args ptr b).
Proof.
  intros Hp Hb. unfold alloc_filter, carve_choice, OwnedPtr_end.
  rewrite (end_ok _ Hb). unfold pend in *. rewrite uadd_ok by done.
  destruct (rb_used b); [done|]. case_bool_decide as H1.
  - by rewrite bool_decide_false by congruence.
  - rewrite bool_decide_true by congruence. cbn.
    destruct (Z.ltb_spec (op_ptr ptr) (rb_addr b)), (Z.leb_spec (rb_addr b) (op_ptr ptr));
      done || lia.
Qed.

Record carve_effect (s : PhysAlloc) (args : AllocParams) (ptr : OwnedPtr)
    (bs' : list RAMBlock) (both : bool) : Prop := {
  ce_wf : WF (vblocks bs');
  ce_len : length bs' = length (pa_blocks s);
  ce_owner : forall a, owner (vblocks bs') a =
    upd (owner (vb s)) (op_ptr ptr) (op_size ptr) (ap_as_type args, ap_used args) a;
  ce_from : forall a, in_ptr ptr a -> owner (vb s) a = Some (ap_from_type args, false);
  ce_up : (length (vblocks bs') <= S (S (length (vb s))))%nat;
  ce_down : (length (vb s) <= 4 + length (vblocks bs'))%nat
}.

Lemma carve_run n s args ptr i from :
  WF (vb s) -> range_ok (op_ptr ptr) (op_size ptr) -> 0 < op_size ptr ->
  (length (vb s) + 2 <= length (pa_blocks s))%nat ->
  pa_max s = Z.of_nat (length (pa_blocks s)) ->
  PhysAlloc_find s (alloc_filter args ptr) = Ret (Some (i, from)) ->
  pa_blocks s !! i = Some from -> RAMBlock_valid from = true ->
  from ∈ vb s -> carve_choice args ptr from = true ->
  ~ (rb_ty from = ap_as_type args /\ ap_used args = false) ->
  exists bs' both, carve_effect s args ptr bs' both /\
    alloc_carve (ops (S n)) s args ptr =
    (s' ← settle (ops n) (set_blocks s bs') both; Ret (s', Some ptr)).
Proof.
  intros Hw Hr Hpos Hlen Hmax Hfind Hi Hv Hin Hch Hlost.
  pose proof (WF_elem _ _ Hw Hin) as Hok. unfold carve_choice in Hch. zbool.
  rename select (ap_from_type args = rb_ty from) into Hty.
  rename select (rb_used from = false) into Hus.
  destruct (invalidate_effect s i from Hw Hi Hv) as (Hw1 & Hl1 & Ho1).
  set (bs1 := <[i := RAMBlock_invalidate from]> (pa_blocks s)) in *.
  assert (length bs1 = length (pa_blocks s)) as Hlb1 by apply length_insert.
  set (before := mkRAMBlock (rb_addr from) (op_ptr ptr - rb_addr from) (rb_ty from) false).
  set (after := mkRAMBlock (pend ptr) (bend from - pend ptr) (rb_ty from) false).
  set (to := mkRAMBlock (op_ptr ptr) (op_size ptr) (ap_as_type args) (ap_used args)).
  destruct (add_quiet n (set_blocks s bs1) before) as (bs2 & Hr2 & Hw2 & Hlb2 & Ho2 & Hu2 & Hd2);
    cbn [pa_blocks pa_max set_blocks]; [done| | | |lia|lia|].
  { blk. }
  { intros a Ha. rewrite Ho1. case_decide; [done|]. blk. }
  { right. rewrite Ho1. case_decide; [done|]. blk. }
  cbn [pa_blocks pa_max set_blocks] in *. unfold upd in *.
  destruct (add_quiet n (set_blocks s bs2) after) as (bs3 & Hr3 & Hw3 & Hlb3 & Ho3 & Hu3 & Hd3);
    cbn [pa_blocks pa_max set_blocks]; [done| | | |lia|lia|].
  { blk. }
  { intros a Ha. rewrite Ho2, Ho1. repeat case_decide; try done; blk. }
  { left. rewrite Ho2, Ho1. repeat case_decide; try done; blk. }
  cbn [pa_blocks pa_max set_blocks] in *. unfold upd in *.
  destruct (add_update0 (set_blocks s bs3) to) as (bs4 & both & [Hrun Hw4 Hl4 Ho4 Hu4 Hd4 _]);
    cbn [pa_blocks pa_max set_blocks]; [done| | |lia|lia|].
  { blk. }
  { intros a Ha. rewrite Ho3, Ho2, Ho1. repeat case_decide; try done; blk. }
  cbn [pa_blocks pa_max set_blocks] in *. unfold upd in *.
  assert (battr before = battr from) as Hbb by (unfold battr; simpl; by rewrite Hus).
  assert (battr after = battr from) as Hba by (unfold battr; simpl; by rewrite Hus).
  exists bs4, both. split.
  - constructor; [done|lia| | |lia|lia].
    + intros a. unfold upd. rewrite Ho4, Ho3, Ho2, Ho1. repeat case_decide; try done;
        rewrite ?Hbb, ?Hba; try (symmetry; apply owner_in; [done..|blk]); blk.
    + intros a Ha. rewrite (owner_in _ from a Hw Hin ltac:(blk)).
      unfold battr. congruence.
  - unfold alloc_carve. rewrite Hfind. autorewrite with rust.
    destruct (bool_decide (rb_ty from = ap_as_type args) && negb (ap_used args)) eqn:Hl.
    { zbool. by exfalso; apply Hlost. }
    rewrite usub_ok, Ret_bind, (pend_ok _ Hr), Ret_bind, (end_ok _ Hok), Ret_bind, usub_ok
      by (unfold blk_ok, range_ok, LIM in *; blk).
    rewrite Ret_bind. fold bs1 before after to. rewrite Hr2, Ret_bind.
    change (set_blocks (set_blocks s bs1) bs2) with (set_blocks s bs2).
    rewrite Hr3, Ret_bind. change (set_blocks (set_blocks s bs2) bs3) with (set_blocks s bs3).
    cbn [ops op_add]. rewrite Hrun. by destruct ptr.
Qed.
End Spec.
