(* ===== verification/PhysallocFree.v ===== *)
(** * PhysallocFree: the functional behaviour of [free]

    The scan that invalidates the blocks that overlap the freed range, and
    the re-insertion of what the range leaves of the first and the last. *)

From S2P Require Import Prelude Kargs Rvm RamUtil Physalloc BlockTable PhysallocSpec.

Section Free.
Context `{Platform}.
Abbreviation vb s := (vblocks (pa_blocks s)).

Definition overlaps (p : OwnedPtr) (b : RAMBlock) : bool :=
  (rb_addr b <? pend p) && (op_ptr p <? bend b).
Definition clear (p : OwnedPtr) (b : RAMBlock) : RAMBlock :=
  if RAMBlock_valid b && overlaps p b then RAMBlock_invalidate b else b.
Definition is_before (p : OwnedPtr) (b : RAMBlock) : Prop :=
  overlaps p b = true /\ rb_addr b < op_ptr p.
Definition is_after (p : OwnedPtr) (b : RAMBlock) : Prop :=
  overlaps p b = true /\ pend p < bend b.

(** The last valid entry with [P], or the initial value if there is none. *)
Definition last_ok (P : RAMBlock -> Prop) (bs : list RAMBlock) (r0 r : option RAMBlock) : Prop :=
  match r with
  | Some x => r0 = Some x \/ (x ∈ vblocks bs /\ P x)
  | None => r0 = None /\ Forall (fun b => ~ P b) (vblocks bs)
  end.

Lemma last_ok_skip P c bs r0 r :
  (RAMBlock_valid c = true -> ~ P c) -> last_ok P bs r0 r -> last_ok P (c :: bs) r0 r.
Proof.
  intros Hc. unfold last_ok. rewrite vblocks_cons.
  destruct r as [x|], (RAMBlock_valid c); try done.
  - intros [?|[? ?]]; [by left|right]. split; [by right|done].
  - intros [? ?]. split; [done|]. constructor; auto.
Qed.

Lemma last_ok_take P c bs r0 r :
  RAMBlock_valid c = true -> P c -> last_ok P bs (Some c) r -> last_ok P (c :: bs) r0 r.
Proof.
  intros Hv Hc. unfold last_ok. rewrite vblocks_cons, Hv.
  destruct r as [x|]; [|by intros [? ?]].
  intros [[= <-]|[? ?]]; right; (split; [|done]); [by left|by right].
Qed.

Lemma free_scan_spec p bs b0 a0 :
  range_ok (op_ptr p) (op_size p) -> Forall blk_ok (vblocks bs) ->
  exists b a, free_scan p bs b0 a0 = Ret (clear p <$> bs, b, a) /\
    last_ok (is_before p) bs b0 b /\ last_ok (is_after p) bs a0 a.
Proof.
  intros Hp. revert b0 a0. induction bs as [|c bs IH]; intros b0 a0 Hok; cbn [free_scan].
  { exists b0, a0. split; [done|]. unfold last_ok.
    split; [destruct b0|destruct a0]; auto; by split. }
  rewrite vblocks_cons in Hok. rewrite fmap_cons. unfold clear at 1.
  destruct (RAMBlock_valid c) eqn:Hv; cbn [andb].
  2: { destruct (IH b0 a0 Hok) as (b & a & -> & Hb & Ha). exists b, a.
       split_and!; [done|apply last_ok_skip; congruence..]. }
  apply Forall_cons in Hok as [Hc Hok]. rewrite (pend_ok _ Hp), Ret_bind.
  assert (overlaps p c = false -> exists b a,
    ('(bs, b, a) ← free_scan p bs b0 a0; Ret (c :: bs, b, a))
      = Ret (c :: (clear p <$> bs), b, a) /\
    last_ok (is_before p) (c :: bs) b0 b /\ last_ok (is_after p) (c :: bs) a0 a) as Hskip.
  { intros Ho. destruct (IH b0 a0 Hok) as (b & a & -> & Hb & Ha). exists b, a.
    split_and!; [done|apply last_ok_skip; [|done]..]; intros _ [? ?]; congruence. }
  destruct (Z.ltb_spec (rb_addr c) (pend p)) as [Hlt|Hge].
  2: { unfold overlaps in *. destruct (Z.ltb_spec (rb_addr c) (pend p)); [lia|]. by apply Hskip. }
  rewrite (end_ok _ Hc), Ret_bind.
  destruct (Z.ltb_spec (op_ptr p) (bend c)) as [Hlt'|Hge].
  2: { unfold overlaps in *. destruct (Z.ltb_spec (op_ptr p) (bend c)); [lia|].
       rewrite andb_false_r in *. by apply Hskip. }
  assert (overlaps p c = true) as Ho by (unfold overlaps; apply andb_true_iff; lia).
  rewrite Ho. clear Hskip.
  set (b1 := if rb_addr c <? op_ptr p then Some c else b0).
  set (a1 := if pend p <? bend c then Some c else a0).
  destruct (IH b1 a1 Hok) as (b & a & -> & Hb & Ha). exists b, a. split_and!; [done|..].
  - subst b1. destruct (Z.ltb_spec (rb_addr c) (op_ptr p)).
    + by apply last_ok_take.
    + apply last_ok_skip; [|done]. intros _ [_ ?]. lia.
  - subst a1. destruct (Z.ltb_spec (pend p) (bend c)).
    + by apply last_ok_take.
    + apply last_ok_skip; [|done]. intros _ [_ ?]. lia.
Qed.

Lemma vblocks_clear p bs :
  vblocks (clear p <$> bs) = filter (fun b => overlaps p b = false) (vblocks bs).
Proof.
  induction bs as [|c bs IH]; [done|]. rewrite fmap_cons, !vblocks_cons.
  unfold clear at 1 2. destruct (RAMBlock_valid c) eqn:Hv; cbn [andb].
  - destruct (overlaps p c) eqn:Ho; rewrite filter_cons; case_decide; try congruence.
    + by rewrite invalid_invalidate.
    + by rewrite Hv, IH.
  - by rewrite Hv.
Qed.

Lemma length_clear p bs : length (clear p <$> bs) = length bs.
Proof. apply length_fmap. Qed.

(** The table after the scan: nothing is left in the freed range, and what
    was lost outside it belongs to [before] and [after]. *)
Lemma cleared_owner p bs :
  WF (vblocks bs) -> range_ok (op_ptr p) (op_size p) -> 0 < op_size p ->
  let bs1 := clear p <$> bs in
  WF (vblocks bs1) /\
  (forall a, in_ptr p a -> owner (vblocks bs1) a = None) /\
  (forall b a, b ∈ vblocks bs -> overlaps p b = true -> in_block b a ->
     owner (vblocks bs1) a = None) /\
  (forall a, ~ in_ptr p a ->
     (forall b, b ∈ vblocks bs -> overlaps p b = true -> ~ in_block b a) ->
     owner (vblocks bs1) a = owner (vblocks bs) a) /\
  (forall b, b ∈ vblocks bs -> overlaps p b = true ->
     (S (length (vblocks bs1)) <= length (vblocks bs))%nat).
Proof.
  intros Hw Hp Hpos bs1. subst bs1. rewrite vblocks_clear.
  set (l := vblocks bs) in *.
  assert (forall b a, b ∈ l -> overlaps p b = true -> in_block b a ->
    owner (filter (fun b => overlaps p b = false) l) a = None) as Hout.
  { intros b a Hb Hov Hin. apply owner_None. intros c [Hc Hcl]%list_elem_of_filter Hca.
    pose proof (WF_unique l b c a Hw Hb Hcl Hin Hca). congruence. }
  split_and!; [by apply WF_filter| |done| |].
  - intros a Ha. apply owner_None. intros c [Hc Hcl]%list_elem_of_filter Hca.
    unfold overlaps in Hc. blk.
  - intros a Ha Hno. destruct (owner l a) as [x|] eqn:Ho.
    + destruct (owner_Some _ _ _ Ho) as (c & Hc & Hca & <-).
      apply owner_in; [by apply WF_filter| |done]. apply list_elem_of_filter. split; [|done].
      destruct (overlaps p c) eqn:Hov; [|done]. by destruct (Hno c Hc Hov).
    + apply owner_None. rewrite owner_None in Ho.
      intros c [_ Hcl]%list_elem_of_filter. by apply Ho.
  - intros b Hb Hov. change (length (filter (fun b => overlaps p b = false) l) < length l)%nat.
    eapply length_filter_lt; [exact Hb|]. congruence.
Qed.

(** An optional [add], as [free] does for [before] and [after]. *)
Definition opt_fun (f : Z -> option (RAMType * bool)) (o : option RAMBlock)
    : Z -> option (RAMType * bool) :=
  match o with
  | Some nb => upd f (rb_addr nb) (rb_size nb) (battr nb)
  | None => f
  end.

Lemma add_opt n s (o : option RAMBlock) :
  WF (vb s) -> pa_max s = Z.of_nat (length (pa_blocks s)) ->
  (forall nb, o = Some nb -> range_ok (rb_addr nb) (rb_size nb) /\
     (forall a, in_block nb a -> owner (vb s) a = None) /\
     (owner (vb s) (rb_addr nb - 1) = None \/ owner (vb s) (bend nb) = None) /\
     (length (vb s) < length (pa_blocks s))%nat) ->
  exists bs',
    match o with Some nb => op_add (ops (S n)) s nb | None => Ret s end
      = Ret (set_blocks s bs') /\
    WF (vblocks bs') /\ length bs' = length (pa_blocks s) /\
    (forall a, owner (vblocks bs') a = opt_fun (owner (vb s)) o a) /\
    (length (vblocks bs') <= length (vb s) + (if o is Some _ then 1 else 0))%nat /\
    (length (vb s) <= length (vblocks bs') + (if o is Some _ then 1 else 0))%nat.
Proof.
  intros Hw Hmax Ho. destruct o as [nb|].
  - destruct (Ho nb eq_refl) as (Hr & Hfree & Hgap & Hlen).
    destruct (add_quiet n s nb Hw Hr Hfree Hgap Hlen Hmax) as (bs' & ? & ? & ? & ? & ? & ?).
    exists bs'. split_and!; [done..|lia|lia].
  - exists (pa_blocks s). rewrite set_blocks_id. split_and!; [done..|lia|lia].
Qed.

Record free_effect (s : PhysAlloc) (p : OwnedPtr) (bs' : list RAMBlock) (both : bool) : Prop := {
  fe_wf : WF (vblocks bs');
  fe_len : length bs' = length (pa_blocks s);
  fe_owner : forall a, owner (vblocks bs') a =
    upd (owner (vb s)) (op_ptr p) (op_size p) (Conv, false) a;
  fe_up : (length (vblocks bs') <= S (S (length (vb s))))%nat;
  fe_both : both = true -> owner (vb s) (op_ptr p - 1) = Some (Conv, false) /\
                           owner (vb s) (pend p) = Some (Conv, false)
}.

Definition before_rest (p : OwnedPtr) (b : RAMBlock) : RAMBlock :=
  mkRAMBlock (rb_addr b) (op_ptr p - rb_addr b) (rb_ty b) (rb_used b).
Definition after_rest (p : OwnedPtr) (a : RAMBlock) : RAMBlock :=
  mkRAMBlock (pend p) (bend a - pend p) (rb_ty a) (rb_used a).

(** The address map after the scan and the two re-insertions. *)
Lemma rest_owner p l f before after :
  WF l -> range_ok (op_ptr p) (op_size p) -> 0 < op_size p ->
  (forall a, in_ptr p a -> f a = None) ->
  (forall b a, b ∈ l -> overlaps p b = true -> in_block b a -> f a = None) ->
  (forall a, ~ in_ptr p a -> (forall b, b ∈ l -> overlaps p b = true -> ~ in_block b a) ->
     f a = owner l a) ->
  match before with
  | Some b => b ∈ l /\ is_before p b
  | None => Forall (fun b => ~ is_before p b) l
  end ->
  match after with
  | Some b => b ∈ l /\ is_after p b
  | None => Forall (fun b => ~ is_after p b) l
  end ->
  forall a, ~ in_ptr p a ->
    opt_fun (opt_fun f (before_rest p <$> before)) (after_rest p <$> after) a = owner l a.
Proof.
  intros Hw Hp Hpos Hin Hov Hout Hb Ha a Hna.
  assert (forall b, b ∈ l -> overlaps p b = true -> in_block b a ->
    (is_before p b /\ before = Some b /\ rb_addr b <= a < op_ptr p) \/
    (is_after p b /\ after = Some b /\ pend p <= a < bend b)) as Hcase.
  { intros b Hbl Hbo Hba. assert (Hbo' := Hbo). unfold overlaps in Hbo'. zbool.
    destruct (decide (a < op_ptr p)); [left|right].
    - assert (is_before p b) as Hib by (split; [done|blk]). split; [done|].
      destruct before as [c|].
      + destruct Hb as [Hc [Hco Hc']]. unfold overlaps in Hco. zbool. split; [|blk]. f_equal.
        apply (WF_unique l c b (op_ptr p)); [done..| |]; blk.
      + rewrite Forall_forall in Hb. by destruct (Hb b Hbl).
    - assert (is_after p b) as Hia by (split; [done|blk]). split; [done|].
      destruct after as [c|].
      + destruct Ha as [Hc [Hco Hc']]. unfold overlaps in Hco. zbool. split; [|blk]. f_equal.
        apply (WF_unique l c b (pend p - 1)); [done..| |]; blk.
      + rewrite Forall_forall in Ha. by destruct (Ha b Hbl). }
  assert (forall c, before = Some c -> c ∈ l /\ in_block c (op_ptr p) /\ rb_addr c < op_ptr p) as Hbc.
  { intros c ->. destruct Hb as [Hc [Hco Hc']]. unfold overlaps in Hco. zbool.
    split_and!; [done|blk|done]. }
  assert (forall c, after = Some c -> c ∈ l /\ in_block c (pend p - 1) /\ pend p < bend c) as Hac.
  { intros c ->. destruct Ha as [Hc [Hco Hc']]. unfold overlaps in Hco. zbool.
    split_and!; [done|blk|done]. }
  assert (opt_fun (opt_fun f (before_rest p <$> before)) (after_rest p <$> after) a =
    match after with
    | Some c => if decide (pend p <= a < bend c) then Some (battr c) else
        match before with
        | Some b => if decide (rb_addr b <= a < op_ptr p) then Some (battr b) else f a
        | None => f a
        end
    | None =>
        match before with
        | Some b => if decide (rb_addr b <= a < op_ptr p) then Some (battr b) else f a
        | None => f a
        end
    end) as ->.
  { destruct before, after; simpl; unfold upd; repeat case_decide; blk; done. }
  assert (forall c, after = Some c -> pend p <= a < bend c -> owner l a = Some (battr c)) as Hoa.
  { intros c Hc Hr. destruct (Hac c Hc) as (Hcl & ? & ?). apply owner_in; [done..|blk]. }
  assert (forall c, before = Some c -> rb_addr c <= a < op_ptr p -> owner l a = Some (battr c)) as Hob.
  { intros c Hc Hr. destruct (Hbc c Hc) as (Hcl & ? & ?). apply owner_in; [done..|blk]. }
  assert ((forall c, after = Some c -> ~ pend p <= a < bend c) ->
          (forall c, before = Some c -> ~ rb_addr c <= a < op_ptr p) -> f a = owner l a) as Hrest.
  { intros Hn1 Hn2. apply Hout; [done|]. intros b Hbl Hbo Hba.
    destruct (Hcase b Hbl Hbo Hba) as [(_ & He & ?)|(_ & He & ?)];
      [by eapply Hn2|by eapply Hn1]. }
  destruct after as [c|], before as [b|]; repeat case_decide; symmetry;
    first [by eapply Hoa | by eapply Hob | symmetry; apply Hrest; intros ? [= ->]; done || done].
Qed.

Definition chosen (P : RAMBlock -> Prop) (l : list RAMBlock) (o : option RAMBlock) : Prop :=
  match o with Some x => x ∈ l /\ P x | None => Forall (fun b => ~ P b) l end.

Lemma last_ok_chosen P bs r : last_ok P bs None r -> chosen P (vblocks bs) r.
Proof. destruct r; simpl; [by intros [|]|by intros [_ ?]]. Qed.

Lemma free_before_run n s p b :
  WF (vb s) -> range_ok (op_ptr p) (op_size p) -> 0 < op_size p ->
  (length (vb s) + 2 <= length (pa_blocks s))%nat ->
  pa_max s = Z.of_nat (length (pa_blocks s)) ->
  chosen (is_before p) (vb s) b ->
  let bs1 := clear p <$> pa_blocks s in
  exists bs2, free_before (ops (S n)) (set_blocks s bs1) p b = Ret (set_blocks s bs2) /\
    WF (vblocks bs2) /\ length bs2 = length (pa_blocks s) /\
    (forall a, owner (vblocks bs2) a = opt_fun (owner (vblocks bs1)) (before_rest p <$> b) a) /\
    (length (vblocks bs2) <= length (vb s))%nat /\
    (forall x, x ∈ vb s -> overlaps p x = true -> b = None ->
       (S (length (vblocks bs2)) <= length (vb s))%nat).
Proof.
  intros Hw Hp Hpos Hlen Hmax Hb bs1.
  destruct (cleared_owner p (pa_blocks s) Hw Hp Hpos) as (Hw1 & Hin1 & Hov1 & Hout1 & Hcnt).
  fold bs1 in Hw1, Hin1, Hov1, Hout1, Hcnt.
  assert (length bs1 = length (pa_blocks s)) as Hl1 by apply length_fmap.
  assert (length (vblocks bs1) <= length (vb s))%nat as Hle1
    by (unfold bs1; rewrite vblocks_clear; apply length_filter).
  destruct (add_opt n (set_blocks s bs1) (before_rest p <$> b))
    as (bs2 & Hr2 & Hw2 & Hl2 & Ho2 & Hu2 & Hd2); cbn [pa_blocks pa_max set_blocks]; [done|lia| |].
  { intros nb Hnb. destruct b as [x|]; simplify_eq/=. destruct Hb as [Hx [Hxo Hxl]].
    pose proof (WF_elem _ _ Hw Hx). pose proof (Hcnt x Hx Hxo). assert (Hxo' := Hxo).
    unfold overlaps in Hxo'. zbool.
    split_and!; [blk| |right; apply Hin1; blk|lia].
    intros y Hy. eapply Hov1; [exact Hx|done|blk]. }
  cbn [pa_blocks pa_max set_blocks] in *. exists bs2.
  split_and!; [|done|lia|done| |].
  - change (set_blocks s bs2) with (set_blocks (set_blocks s bs1) bs2). rewrite <- Hr2.
    destruct b as [x|]; [|done]. destruct Hb as [Hx [Hxo Hxl]].
    pose proof (WF_elem _ _ Hw Hx). simpl. rewrite usub_ok; [done|].
    unfold overlaps, blk_ok, range_ok, LIM in *. lia.
  - destruct b as [x|]; simpl in *; [|lia]. destruct Hb as [Hx [Hxo _]].
    pose proof (Hcnt x Hx Hxo). lia.
  - intros x Hx Hxo ->. simpl in *. pose proof (Hcnt x Hx Hxo). lia.
Qed.

Lemma free_rests_run n s p b a :
  WF (vb s) -> range_ok (op_ptr p) (op_size p) -> 0 < op_size p ->
  (length (vb s) + 2 <= length (pa_blocks s))%nat ->
  pa_max s = Z.of_nat (length (pa_blocks s)) ->
  chosen (is_before p) (vb s) b -> chosen (is_after p) (vb s) a ->
  exists bs3,
    (s' ← free_before (ops (S n)) (set_blocks s (clear p <$> pa_blocks s)) p b;
     free_after (ops (S n)) s' p a) = Ret (set_blocks s bs3) /\
    WF (vblocks bs3) /\ length bs3 = length (pa_blocks s) /\
    (forall y, in_ptr p y -> owner (vblocks bs3) y = None) /\
    (forall y, ~ in_ptr p y -> owner (vblocks bs3) y = owner (vb s) y) /\
    (length (vblocks bs3) <= S (length (vb s)))%nat.
Proof.
  intros Hw Hp Hpos Hlen Hmax Hb Ha.
  destruct (cleared_owner p (pa_blocks s) Hw Hp Hpos) as (Hw1 & Hin1 & Hov1 & Hout1 & Hcnt).
  destruct (free_before_run n s p b Hw Hp Hpos Hlen Hmax Hb)
    as (bs2 & Hr2 & Hw2 & Hl2 & Ho2 & Hu2 & Hn2).
  set (bs1 := clear p <$> pa_blocks s) in *.
  assert (forall y, op_ptr p <= y -> owner (vblocks bs2) y = owner (vblocks bs1) y) as Hsame.
  { intros y Hy. rewrite Ho2. destruct b as [z|]; [|done]. simpl. unfold upd.
    case_decide; [|done]. unfold before_rest in *. blk. }
  destruct (add_opt n (set_blocks s bs2) (after_rest p <$> a))
    as (bs3 & Hr3 & Hw3 & Hl3 & Ho3 & Hu3 & Hd3); cbn [pa_blocks pa_max set_blocks]; [done|lia| |].
  { intros nb Hnb. destruct a as [x|]; simplify_eq/=. destruct Ha as [Hx [Hxo Hxl]].
    pose proof (WF_elem _ _ Hw Hx). assert (Hxo' := Hxo). unfold overlaps in Hxo'. zbool.
    split_and!; [blk| |left; rewrite Hsame by blk; apply Hin1; blk|lia].
    intros y Hy. rewrite Hsame by blk. eapply Hov1; [exact Hx|done|blk]. }
  cbn [pa_blocks pa_max set_blocks] in *. exists bs3.
  split_and!; [|done|lia| | |destruct a; simpl in *; lia].
  - rewrite Hr2, Ret_bind. change (set_blocks s bs3) with (set_blocks (set_blocks s bs2) bs3).
    rewrite <- Hr3. destruct a as [x|]; [|done]. destruct Ha as [Hx [Hxo Hxl]].
    pose proof (WF_elem _ _ Hw Hx) as Hokx. simpl.
    rewrite (pend_ok _ Hp), Ret_bind, (end_ok _ Hokx), Ret_bind, usub_ok; [done|].
    unfold overlaps, blk_ok, range_ok, LIM in *. blk.
  - intros y Hy. rewrite Ho3. destruct a as [z|]; simpl; [unfold upd; case_decide; [blk|]|];
      rewrite Hsame by blk; by apply Hin1.
  - intros y Hy. rewrite Ho3.
    rewrite <- (rest_owner p (vb s) (owner (vblocks bs1)) b a Hw Hp Hpos Hin1 Hov1 Hout1 Hb Ha y Hy).
    destruct a as [z|]; simpl; [|by rewrite Ho2]. unfold upd. case_decide; [done|]. apply Ho2.
Qed.

(** [free] of a range, with two entries of room: the range becomes free
    conventional memory and nothing else changes. *)
Lemma free_run n s p :
  WF (vb s) -> range_ok (op_ptr p) (op_size p) -> 0 < op_size p ->
  (length (vb s) + 2 <= length (pa_blocks s))%nat ->
  pa_max s = Z.of_nat (length (pa_blocks s)) ->
  exists bs' both, free_effect s p bs' both /\
    free_body (ops (S n)) s p = settle (ops n) (set_blocks s bs') both.
Proof.
  intros Hw Hp Hpos Hlen Hmax.
  assert (Forall blk_ok (vb s)) as Hok
    by (apply Forall_forall; intros; by eapply WF_elem).
  destruct (free_scan_spec p (pa_blocks s) None None Hp Hok) as (b & a & Hscan & Hb & Ha).
  apply last_ok_chosen in Hb, Ha.
  destruct (free_rests_run n s p b a Hw Hp Hpos Hlen Hmax Hb Ha)
    as (bs3 & Hr3 & Hw3 & Hl3 & Hin3 & Hout3 & Hu3).
  set (nb := mkRAMBlock (op_ptr p) (op_size p) Conv false).
  destruct (add_update0 (set_blocks s bs3) nb) as (bs4 & both & [Hrun Hw4 Hl4 Ho4 Hu4 Hd4 Hbt]);
    cbn [pa_blocks pa_max set_blocks] in *; [done|blk|done|lia|lia|].
  exists bs4, both. split.
  - constructor; [done|lia| |lia|].
    + intros y. rewrite Ho4. unfold upd. simpl. case_decide; [done|]. by apply Hout3.
    + intros Hbo. destruct (Hbt Hbo) as [H1 H2]. simpl in H1.
      rewrite Hout3 in H1, H2 by (unfold nb in *; blk). done.
  - unfold free_body. rewrite Hscan, Ret_bind.
    apply bind_Ret in Hr3 as (s2 & -> & Hr3). rewrite Ret_bind, Hr3, Ret_bind.
    cbn [ops op_add]. fold nb. by rewrite Hrun.
Qed.
End Free.
