(* ===== verification/PhysallocInv.v ===== *)
(** * PhysallocInv: the allocator's invariant and its abstract view

    [INV] is the invariant of an initialised allocator with 4 kiB pages: the
    table is well formed, large enough for its entries, and its own memory is
    recorded as used.  [view] is the address map that a client sees: the
    memory that holds the table counts as free, so that moving, growing and
    shrinking the table do not show. *)

From S2P Require Import Prelude Kargs Rvm RamUtil Physalloc BlockTable PhysallocSpec.
From S2P Require Import PhysallocFree.

Definition META : RAMType * bool := (Conv, true).

Section Inv.
Context `{Platform}.
Abbreviation vb s := (vblocks (pa_blocks s)).

Definition view (s : PhysAlloc) (a : Z) : option (RAMType * bool) :=
  if decide (in_ptr (pa_ptr s) a) then Some (Conv, false) else owner (vb s) a.

(** The free entries of the table. *)
Definition slack (s : PhysAlloc) : Z := pa_max s - PhysAlloc_count s.

Record INV (s : PhysAlloc) : Prop := {
  inv_wf : WF (vb s);
  inv_len : pa_max s = Z.of_nat (length (pa_blocks s));
  inv_max : BASE_RB_SIZE <= pa_max s;
  inv_align : (page_size | op_ptr (pa_ptr s));
  inv_size : op_size (pa_ptr s) = aup (pa_max s * size_of_RAMBlock) page_size;
  inv_meta : forall a, in_ptr (pa_ptr s) a -> owner (vb s) a = Some META
}.

Hypothesis Hpage : page_size = 4096.

Lemma szal_table m : BASE_RB_SIZE <= m ->
  szal (m * size_of_RAMBlock) = aup (m * size_of_RAMBlock) page_size.
Proof.
  unfold BASE_RB_SIZE, size_of_RAMBlock. intros Hm. unfold szal. rewrite Hpage.
  destruct (Z.ltb_spec (m * 24) 4096); [|done].
  unfold next_pow2. replace (Z.log2_up (m * 24)) with 12.
  - change (2 ^ 12) with 4096. unfold aup.
    rewrite <- (Z.div_unique (m * 24 + 4096 - 1) 4096 1 (m * 24 - 1)); lia.
  - symmetry. apply Z.log2_up_unique; [lia|].
    change (2 ^ Z.pred 12) with 2048. change (2 ^ 12) with 4096. lia.
Qed.

(** What the invariant says about the table's own memory. *)
Lemma inv_bounds s : INV s ->
  range_ok (op_ptr (pa_ptr s)) (op_size (pa_ptr s)) /\
  pa_max s * size_of_RAMBlock <= op_size (pa_ptr s) /\ 0 < op_size (pa_ptr s).
Proof.
  intros [Hw Hl Hm Ha Hs Ho]. unfold BASE_RB_SIZE, size_of_RAMBlock in *.
  pose proof (aup_spec (pa_max s * 24) page_size page_size_pos) as [[Hlo _] _].
  rewrite <- Hs in Hlo.
  destruct (owner_range_block (vb s) (op_ptr (pa_ptr s)) (pend (pa_ptr s)) META)
    as (b & Hb & _ & H1 & H2); [done|unfold pend; lia| |].
  { intros a Hin. apply Ho. blk. }
  pose proof (WF_elem _ _ Hw Hb). split_and!; [blk|lia|lia].
Qed.

(** A change of the table that no client can see. *)
Record quiet (s s' : PhysAlloc) : Prop := {
  q_inv : INV s';
  q_view : forall a, view s' a = view s a;
  q_meta : forall a, in_ptr (pa_ptr s') a -> in_ptr (pa_ptr s) a;
  q_slack : Z.min (slack s) 62 <= slack s'
}.

Lemma quiet_refl s : INV s -> quiet s s.
Proof. intros Hi. constructor; [done..|lia]. Qed.

(** ** [shrink] *)

Lemma all_valid_length bs :
  forallb RAMBlock_valid bs = true -> length (vblocks bs) = length bs.
Proof.
  induction bs as [|b bs IH]; [done|]. simpl. rewrite vblocks_cons.
  intros [Hb Hbs]%andb_true_iff. rewrite Hb. simpl. by rewrite IH.
Qed.

Lemma not_all_valid bs :
  forallb RAMBlock_valid bs = false -> (length (vblocks bs) < length bs)%nat.
Proof.
  induction bs as [|b bs IH]; [done|]. simpl. rewrite vblocks_cons.
  destruct (RAMBlock_valid b); simpl; intros Hb.
  - apply IH in Hb. lia.
  - pose proof (vblocks_le bs). lia.
Qed.

Lemma shrink_move_spec kept freed :
  (length (vblocks kept) + length (vblocks freed) <= length kept)%nat ->
  exists k f, shrink_move kept freed = (k, f, true) /\
    length k = length kept /\ length f = length freed /\ vblocks f = [] /\
    vblocks k ≡ₚ vblocks kept ++ vblocks freed.
Proof.
  revert kept. induction freed as [|b freed IH]; intros kept Hlen; cbn [shrink_move].
  { exists kept, []. split_and!; [done..|]. by rewrite app_nil_r. }
  rewrite vblocks_cons in Hlen |- *. destruct (RAMBlock_valid b) eqn:Hv; simpl in Hlen.
  - destruct (forallb RAMBlock_valid kept) eqn:Hall.
    { apply all_valid_length in Hall. lia. }
    apply not_all_valid in Hall.
    destruct (put_first_invalid_spec b kept Hv Hall) as [Hp Hl].
    pose proof (Permutation_length Hp) as Hpl. simpl in Hpl.
    destruct (IH (put_first_invalid b kept)) as (k & f & -> & Hk & Hf & Hvf & Hvk); [lia|].
    exists k, (RAMBlock_invalidate b :: f). split_and!; [done|lia|by simpl; rewrite Hf| |].
    + by rewrite vblocks_cons, invalid_invalidate.
    + rewrite Hvk, Hp. simpl. by rewrite Permutation_middle.
  - destruct (IH kept Hlen) as (k & f & -> & Hk & Hf & Hvf & Hvk).
    exists k, (b :: f). split_and!; [done|done|by simpl; rewrite Hf| |done].
    by rewrite vblocks_cons, Hv.
Qed.

Lemma count_perm s s' : vb s ≡ₚ vb s' -> PhysAlloc_count s = PhysAlloc_count s'.
Proof. intros Hp. unfold PhysAlloc_count. by rewrite (Permutation_length Hp). Qed.

(** Reordering the entries is invisible. *)
Lemma reorder_quiet s bs :
  INV s -> vblocks bs ≡ₚ vb s -> length bs = length (pa_blocks s) ->
  quiet s (set_blocks s bs).
Proof.
  intros [Hw Hl Hm Ha Hs Ho] Hp Hlen.
  assert (WF (vblocks bs)) as Hw' by by rewrite Hp.
  assert (forall a, owner (vblocks bs) a = owner (vb s) a) as Heq
    by (intros a; by apply owner_perm).
  constructor.
  - constructor; simpl; [done|lia|done..|]. intros a ?. rewrite Heq. by apply Ho.
  - intros a. unfold view. simpl. by rewrite Heq.
  - done.
  - unfold slack. rewrite (count_perm (set_blocks s bs) s Hp). simpl. lia.
Qed.

(** The last step of [shrink]: the table is cut and its tail is freed. *)
Lemma shrink_cut n s m bs :
  INV s -> vblocks bs ≡ₚ vb s -> Z.of_nat (length bs) = m ->
  BASE_RB_SIZE <= m -> m < pa_max s -> PhysAlloc_count s + 2 <= m ->
  let size := aup (m * size_of_RAMBlock) page_size in
  size < op_size (pa_ptr s) ->
  exists s', free_body (ops (S n))
      (mkPhysAlloc (mkOwnedPtr (op_ptr (pa_ptr s)) size) m (pa_is_init s) bs)
      (mkOwnedPtr (op_ptr (pa_ptr s) + size) (op_size (pa_ptr s) - size)) = Ret s' /\
    INV s' /\ (forall a, view s' a = view s a) /\
    (forall a, in_ptr (pa_ptr s') a -> in_ptr (pa_ptr s) a) /\
    m - PhysAlloc_count s - 2 <= slack s'.
Proof.
  intros Hinv Hp Hlen Hm Hlt Hcnt size Hsize.
  destruct (inv_bounds s Hinv) as (Hr & _ & _). destruct Hinv as [Hw Hl Hmx Ha Hs Ho].
  assert (WF (vblocks bs)) as Hw' by by rewrite Hp.
  assert (forall a, owner (vblocks bs) a = owner (vb s) a) as Heq
    by (intros a; by apply owner_perm).
  pose proof (Permutation_length Hp) as Hpl. unfold PhysAlloc_count in *.
  assert (m * size_of_RAMBlock <= size) as Hsz
    by (apply (aup_spec (m * size_of_RAMBlock) page_size); lia).
  unfold BASE_RB_SIZE, size_of_RAMBlock in *.
  set (s1 := mkPhysAlloc _ m _ bs).
  set (p := mkOwnedPtr (op_ptr (pa_ptr s) + size) (op_size (pa_ptr s) - size)).
  destruct (free_run n s1 p) as (bs' & both & [Hw2 Hl2 Ho2 Hu2 Hb2] & Hrun);
    subst s1 p; simpl in *; [done|blk|lia|lia|lia|].
  destruct both.
  { destruct (Hb2 eq_refl) as [Hbad _]. rewrite Heq, Ho in Hbad by blk. done. }
  rewrite Hrun. eexists. split; [reflexivity|].
  assert (forall a, owner (vblocks bs') a =
    upd (owner (vb s)) (op_ptr (pa_ptr s) + size) (op_size (pa_ptr s) - size) (Conv, false) a)
    as Ho3.
  { intros a. rewrite Ho2. unfold upd. case_decide; [done|]. apply Heq. }
  split_and!.
  - constructor; simpl; [done|lia|done..|]. intros a Hin. rewrite Ho3. unfold upd.
    case_decide; [blk|]. apply Ho. blk.
  - intros a. unfold view. simpl. rewrite Ho3. unfold upd. repeat case_decide; try done; blk.
  - intros a. blk.
  - unfold slack, PhysAlloc_count. simpl. lia.
Qed.

Lemma shrink_run n s m :
  INV s -> BASE_RB_SIZE <= m -> PhysAlloc_count s + 64 <= m ->
  exists s', op_shrink (ops (S (S (S n)))) s m = Ret s' /\ quiet s s'.
Proof.
  intros Hinv Hm Hcnt. change (op_shrink (ops (S (S (S n))))) with (shrink_body (ops (S (S n)))).
  unfold shrink_body.
  destruct ((pa_max s <=? m) || (m <? PhysAlloc_count s) || (m <? MIN_REQ)) eqn:Hskip.
  { exists s. split; [done|]. by apply quiet_refl. }
  zbool. pose proof (inv_len s Hinv) as Hlen.
  assert (Hsplit := take_drop (Z.to_nat m) (pa_blocks s)).
  set (kept := take (Z.to_nat m) (pa_blocks s)) in *.
  set (freed := drop (Z.to_nat m) (pa_blocks s)) in *.
  assert (length kept = Z.to_nat m) as Hk by (unfold kept; rewrite length_take; lia).
  assert (vblocks (rev freed) ≡ₚ vblocks freed) as Hrev.
  { unfold vblocks. apply filter_Permutation. symmetry. apply Permutation_rev. }
  assert (vb s = vblocks kept ++ vblocks freed) as Hvs by (by rewrite <- vblocks_app, Hsplit).
  assert (Hcl := Hcnt). unfold PhysAlloc_count in Hcl. rewrite Hvs, length_app in Hcl.
  destruct (shrink_move_spec kept (rev freed)) as (k & f & -> & Hlk & Hlf & Hvf & Hvk).
  { rewrite (Permutation_length Hrev). lia. }
  assert (vblocks k ≡ₚ vb s) as Hpk by (by rewrite Hvk, Hrev, Hvs).
  assert (vblocks (rev f) = []) as Hvf'.
  { apply Permutation_nil_r. rewrite <- Hvf. unfold vblocks. apply filter_Permutation.
    symmetry. apply Permutation_rev. }
  assert (quiet s (set_blocks s (k ++ rev f))) as Hq.
  { apply reorder_quiet; [done| |].
    - by rewrite vblocks_app, Hvf', app_nil_r.
    - rewrite length_app, length_rev, Hlk, Hlf, length_rev, <- length_app. by rewrite Hsplit. }
  cbn [negb]. destruct (inv_bounds s Hinv) as (Hr & Hcap & Hpos).
  pose proof (inv_size s Hinv) as Hsize. pose proof (inv_align s Hinv) as Hal.
  set (size := aup (m * size_of_RAMBlock) page_size).
  assert (m * size_of_RAMBlock <= size /\ (page_size | size)) as [Hsz Hsd].
  { destruct (aup_spec (m * size_of_RAMBlock) page_size) as [[? ?] ?]; [lia|done]. }
  assert (size <= op_size (pa_ptr s)) as Hle.
  { rewrite Hsize. apply aup_mono; [lia|]. unfold size_of_RAMBlock. lia. }
  unfold BASE_RB_SIZE, size_of_RAMBlock, range_ok, LIM in *.
  rewrite Hlk, Hk, Z2Nat.id by lia. rewrite umul_ok, Ret_bind by lia.
  rewrite size_align_ok, Ret_bind by lia.
  replace (szal (m * 24)) with size
    by (symmetry; apply szal_table; unfold BASE_RB_SIZE; lia).
  cbn [pa_ptr set_blocks]. rewrite uadd_ok, Ret_bind by lia.
  rewrite align_up_ok, Ret_bind by lia. rewrite aup_id by (lia || by apply Z.divide_add_r).
  rewrite usub_ok, Ret_bind by lia.
  destruct (Z.eqb_spec (op_size (pa_ptr s) - size) 0); [by eexists|].
  change (op_free (ops (S (S n)))) with (free_body (ops (S n))).
  destruct (shrink_cut n s m k Hinv Hpk) as (s' & Hrun & Hinv' & Hv & Hmeta & Hs');
    unfold BASE_RB_SIZE, size_of_RAMBlock; fold size; [lia..|].
  exists s'. split; [exact Hrun|]. constructor; [done..|]. unfold slack in *. lia.
Qed.

(** The shrinking that ends an [add] is invisible. *)
Lemma settle_run n s both :
  INV s -> exists s', settle (ops (S (S (S n)))) s both = Ret s' /\ quiet s s'.
Proof.
  intros Hinv. unfold settle. destruct (both && both_test s) eqn:Hb.
  2: { exists s. split; [done|]. by apply quiet_refl. }
  zbool. unfold both_test in *. zbool. pose proof (inv_max s Hinv).
  rewrite !Z.shiftr_div_pow2 in * by lia. unfold BASE_RB_SIZE in *.
  change (2 ^ 2) with 4 in *. change (2 ^ 1) with 2 in *.
  pose proof (Z.div_mod (pa_max s) 4 ltac:(lia)). pose proof (Z.div_mod (pa_max s) 2 ltac:(lia)).
  pose proof (Z.mod_pos_bound (pa_max s) 4 ltac:(lia)).
  pose proof (Z.mod_pos_bound (pa_max s) 2 ltac:(lia)).
  apply shrink_run; [done|unfold BASE_RB_SIZE; lia..].
Qed.
End Inv.
