(* ===== verification/PhysallocExpand.v ===== *)
(** * PhysallocExpand: growing the table of memory blocks

    [expand] places a table of twice the size in free memory, away from the
    range that its caller is about to use, moves the entries, and frees the
    old table.  No client sees any of it. *)

From S2P Require Import Prelude Kargs Rvm RamUtil Physalloc BlockTable PhysallocSpec.
From S2P Require Import PhysallocFree PhysallocInv.

Section Expand.
Context `{Platform}.
Abbreviation vb s := (vblocks (pa_blocks s)).

(** A range that the code may be given: it ends below 2^63. *)
Definition req_ok (p : OwnedPtr) : Prop :=
  0 <= op_ptr p /\ 0 < op_size p /\ pend p <= 2 ^ 63.

Definition clear_b (p : OwnedPtr) (size aligned : Z) (b : RAMBlock) : bool :=
  (bend b <=? op_ptr p) || (pend p <=? rb_addr b) ||
  (size <=? usat_sub (op_ptr p) aligned).

Lemma expand_clear_ok p size aligned b :
  req_ok p -> blk_ok b ->
  expand_clear p size aligned b = Ret (clear_b p size aligned b).
Proof.
  intros (? & ? & ?) Hb. unfold expand_clear, clear_b. rewrite (end_ok _ Hb), Ret_bind.
  destruct (bend b <=? op_ptr p); [done|]. unfold OwnedPtr_end, pend in *.
  rewrite uadd_ok, Ret_bind by lia. by destruct (op_ptr p + op_size p <=? rb_addr b).
Qed.

Definition expand_b (p : OwnedPtr) (size : Z) (b : RAMBlock) : bool :=
  let aligned := aup (rb_addr b) page_size in
  let pea := aup (pend p) page_size in
  negb (rb_used b) && bool_decide (rb_ty b = Conv) &&
  (((aligned + size <=? bend b) && clear_b p size aligned b) ||
   ((rb_addr b <=? pea) && (size <=? usat_sub (bend b) pea))).

Definition table_params (size : Z) : AllocParams :=
  mkAllocParams None size page_size Conv Conv true.

Lemma expand_test_ok p size b :
  req_ok p -> 0 <= size <= 2 ^ 62 -> blk_ok b ->
  expand_test p (aup (pend p) page_size) (table_params size) b = Ret (expand_b p size b).
Proof.
  intros Hp Hs Hb. unfold expand_test, expand_b. cbn [ap_align ap_size ap_from_type table_params].
  pose proof page_size_range. pose proof (aup_spec (rb_addr b) page_size page_size_pos) as [? _].
  assert (Hb' := Hb). destruct Hb' as [(? & ? & Hlim) _]. unfold LIM in *.
  rewrite align_up_ok, Ret_bind by lia. rewrite uadd_ok, Ret_bind by lia.
  rewrite (end_ok _ Hb), Ret_bind.
  destruct (rb_used b); [done|]. case_bool_decide as Ht; case_bool_decide as Ht'; try done.
  cbn [negb andb]. destruct (aup (rb_addr b) page_size + size <=? bend b); [|done].
  rewrite expand_clear_ok by done. cbn [andb].
  by destruct (clear_b p size (aup (rb_addr b) page_size) b).
Qed.

(** The place that is chosen in a block that passes the test lies in the
    block, is aligned, and does not meet the range [p]. *)
Lemma expand_place_ok p size b :
  req_ok p -> 0 < size -> blk_ok b -> expand_b p size b = true ->
  exists q, expand_place p (aup (pend p) page_size) (table_params size) b = Ret q /\
    op_size q = size /\ (page_size | op_ptr q) /\ rb_addr b <= op_ptr q /\ pend q <= bend b /\
    rb_ty b = Conv /\ rb_used b = false /\ (pend q <= op_ptr p \/ pend p <= op_ptr q).
Proof.
  intros Hp Hs Hb Ht. unfold expand_place. cbn [ap_align ap_size table_params].
  pose proof page_size_range as Hpage. assert (Hb' := Hb). destruct Hb' as [(? & ? & Hlim) _].
  unfold LIM in *. rewrite align_up_ok, Ret_bind by lia. rewrite expand_clear_ok, Ret_bind by done.
  pose proof (aup_spec (rb_addr b) page_size page_size_pos) as [[Hlo1 Hhi1] Hd1].
  pose proof (aup_spec (pend p) page_size page_size_pos) as [[Hlo2 Hhi2] Hd2].
  pose proof (fun Hle => aup_least (rb_addr b) page_size (aup (pend p) page_size)
    page_size_pos Hd2 Hle) as Hleast.
  pose proof (fun Hle => aup_mono (pend p) (rb_addr b) page_size page_size_pos Hle) as Hmono.
  unfold expand_b in Ht. set (al := aup (rb_addr b) page_size) in *.
  set (pea := aup (pend p) page_size) in *. zbool.
  rename select (rb_used b = false) into Hu. rename select (rb_ty b = Conv) into Hty.
  rename select (_ \/ _) into Hc. unfold req_ok in Hp. destruct Hp as (Hp1 & Hp2 & Hp3).
  assert (forall q, op_size q = size -> (page_size | op_ptr q) -> rb_addr b <= op_ptr q ->
    pend q <= bend b -> (pend q <= op_ptr p \/ pend p <= op_ptr q) ->
    exists q', Ret q = Ret q' /\ op_size q' = size /\ (page_size | op_ptr q') /\
      rb_addr b <= op_ptr q' /\ pend q' <= bend b /\ rb_ty b = Conv /\ rb_used b = false /\
      (pend q' <= op_ptr p \/ pend p <= op_ptr q')) as Hret
    by (intros q ?????; exists q; split_and!; done).
  destruct (clear_b p size al b) eqn:Hcl.
  - apply Hret; cbn [op_ptr op_size]; [done..|lia|unfold pend at 1|unfold pend at 1];
      unfold clear_b, usat_sub in Hcl, Hc; unfold pend, bend in *; cbn [op_ptr op_size] in *;
      zbool; destruct Hc; zbool; clear Hd1 Hd2 Hret; lia.
  - apply Hret; cbn [op_ptr op_size]; [done..| |unfold pend at 1|]; destruct Hc; zbool;
      unfold usat_sub, pend, bend in *; cbn [op_ptr op_size] in *; clear Hd1 Hd2 Hret; 
      intuition (try congruence; try lia).
Qed.

(** The state between the copy and the [alloc] of the new table: the entries
    are those of [s]. *)
Definition moved (s : PhysAlloc) (q : OwnedPtr) (m : Z) : PhysAlloc :=
  mkPhysAlloc q m (pa_is_init s)
    (pa_blocks s ++ replicate (Z.to_nat (m - pa_max s)) RAMBlock_new_invalid).

Lemma vblocks_replicate k : vblocks (replicate k RAMBlock_new_invalid) = [].
Proof. by induction k. Qed.

Lemma moved_vblocks s q m : vb (moved s q m) = vb s.
Proof. unfold moved. simpl. by rewrite vblocks_app, vblocks_replicate, app_nil_r. Qed.

Lemma moved_length s q m :
  INV s -> pa_max s <= m -> m = Z.of_nat (length (pa_blocks (moved s q m))).
Proof.
  intros Hinv Hm. unfold moved. simpl. rewrite length_app, length_replicate.
  pose proof (inv_len s Hinv). lia.
Qed.

Hypothesis Hpage : page_size = 4096.

Definition table_size (m : Z) : Z := aup (m * size_of_RAMBlock) page_size.

Lemma table_params_build m :
  BASE_RB_SIZE <= m -> m * size_of_RAMBlock <= 2 ^ 62 ->
  AllocParams_build (AllocParams_new (m * size_of_RAMBlock)) = Ret (table_params (table_size m)).
Proof.
  intros Hm Hb. unfold AllocParams_build, AllocParams_new. cbn [ap_addr ap_size].
  rewrite Ret_bind. rewrite size_align_ok by (unfold BASE_RB_SIZE, size_of_RAMBlock in *; lia).
  by rewrite Ret_bind, szal_table.
Qed.

(** [alloc] of the chosen place: the table has room and stays wide. *)
Lemma expand_alloc n s b q m :
  INV s -> slack s < 4 -> b ∈ vb s -> rb_ty b = Conv -> rb_used b = false ->
  (page_size | op_ptr q) -> rb_addr b <= op_ptr q -> pend q <= bend b ->
  m = 2 * pa_max s -> op_size q = table_size m ->
  exists bs', carve_effect (moved s q m)
      (AllocParams_at (table_params (table_size m)) (op_ptr q)) q bs' false /\
    op_alloc (ops (S (S n))) (moved s q m)
      (AllocParams_at (table_params (table_size m)) (op_ptr q)) =
      Ret (set_blocks (moved s q m) bs', Some q).
Proof.
  intros Hinv Hfull Hb Hty Hus Hal Hlo Hhi Hm Hsz.
  pose proof (inv_bounds s Hinv) as (Hr & Hcap & _). pose proof (inv_max s Hinv) as Hmx.
  pose proof (inv_wf s Hinv) as Hw. pose proof (inv_len s Hinv) as Hlen.
  pose proof (WF_elem _ _ Hw Hb) as Hok. pose proof page_size_range as Hps.
  pose proof (moved_length s q m Hinv ltac:(unfold BASE_RB_SIZE in *; lia)) as Hml.
  pose proof (moved_vblocks s q m) as Hmv.
  unfold table_size in *. set (sz := aup (m * size_of_RAMBlock) page_size) in *.
  destruct (aup_spec (m * size_of_RAMBlock) page_size page_size_pos) as [[Hs1 Hs2] Hs3].
  fold sz in Hs1, Hs2, Hs3. pose proof (vblocks_le (pa_blocks s)) as Hle.
  assert (Hok' := Hok). destruct Hok' as [(Hb1 & Hb2 & Hb3) _].
  unfold BASE_RB_SIZE, size_of_RAMBlock, range_ok, LIM in *.
  set (args := AllocParams_at (table_params sz) (op_ptr q)).
  assert (AllocParams_build args = Ret args) as Hbuild.
  { unfold AllocParams_build, args. cbn [ap_addr ap_size ap_align AllocParams_at table_params].
    unfold pend, bend in *. rewrite align_up_ok by lia. rewrite !Ret_bind, aup_id by done || lia.
    rewrite size_align_ok by lia. rewrite Ret_bind. unfold szal.
    destruct (Z.ltb_spec sz page_size); [lia|]. by rewrite aup_id by (done || lia). }
  assert (range_ok (op_ptr q) (op_size q)) as Hrq by (unfold pend, bend, range_ok, LIM in *; lia).
  assert (forall c, c ∈ vb (moved s q m) -> blk_ok c) as Hall
    by (rewrite Hmv; intros; by eapply WF_elem).
  destruct (find_spec (alloc_filter args q) (carve_choice args q) (moved s q m))
    as (r & Hfind & Hr').
  { apply Forall_forall. intros c Hc. apply alloc_filter_ok; [|by apply Hall].
    unfold pend, bend, range_ok in *. lia. }
  assert (carve_choice args q b = true) as Hch.
  { unfold carve_choice, args. cbn [ap_from_type AllocParams_at table_params].
    rewrite Hus, Hty, bool_decide_true by done. cbn. apply andb_true_iff. lia. }
  destruct r as [[i from]|].
  2: { exfalso. rewrite Forall_forall in Hr'. rewrite Hmv in Hr'. specialize (Hr' b Hb).
       congruence. }
  destruct Hr' as (Hi & Hv & Hin & Hch').
  destruct (carve_run n (moved s q m) args q i from) as (bs' & both & He & Hrun);
    [by rewrite Hmv|done|lia|rewrite Hmv; lia|done..| |].
  { by intros [_ ?]. }
  destruct He as [Hw' Hl' Ho' Hf' Hu' Hd'].
  assert (settle (ops n) (set_blocks (moved s q m) bs') both =
          Ret (set_blocks (moved s q m) bs')) as Hset.
  { unfold settle. destruct both; [|done]. unfold both_test, PhysAlloc_count.
    cbn [pa_blocks pa_max set_blocks andb]. rewrite Hmv in *. cbn [moved pa_max].
    rewrite Z.shiftr_div_pow2 by lia. change (2 ^ 2) with 4.
    pose proof (Z.div_mod m 4 ltac:(lia)). pose proof (Z.mod_pos_bound m 4 ltac:(lia)).
    unfold slack, PhysAlloc_count in Hfull. destruct (Z.leb_spec (Z.of_nat (length (vblocks bs'))) (m / 4)); [lia|done]. }
  exists bs'. split; [done|]. change (op_alloc (ops (S (S n)))) with (alloc_body (ops (S n))).
  unfold alloc_body. rewrite Hbuild, Ret_bind.
  change (ty_in NON_RAM (ap_from_type args) || ty_in NON_RAM (ap_as_type args)) with false.
  change (ap_addr args) with (Some (op_ptr q)). change (ap_size args) with sz.
  cbn match. rewrite Ret_bind, <- Hsz. replace (mkOwnedPtr (op_ptr q) (op_size q)) with q by by destruct q.
  unfold alloc_chosen, PhysAlloc_count, MIN_REQ. rewrite Hmv.
  rewrite uadd_ok, Ret_bind by lia. change (pa_max (moved s q m)) with m.
  destruct (Z.ltb_spec m (Z.of_nat (length (vb s)) + 4)); [lia|].
  rewrite Hrun, Hset. rewrite Ret_bind. done.
Qed.

(** The state when the old table has been freed. *)
Lemma expand_free n s q m bs1 args :
  INV s -> slack s < 4 -> m = 2 * pa_max s -> op_size q = table_size m ->
  (page_size | op_ptr q) -> ap_from_type args = Conv ->
  ap_as_type args = Conv -> ap_used args = true ->
  carve_effect (moved s q m) args q bs1 false ->
  exists s2 both, free_body (ops (S n)) (set_ptr_max (set_blocks (moved s q m) bs1) q m)
      (pa_ptr s) = settle (ops n) s2 both /\
    INV s2 /\ pa_ptr s2 = q /\ (forall a, view s2 a = view s a) /\ 62 <= slack s2.
Proof.
  intros Hinv Hfull Hm Hsz Hal Hfrom Has Hus [Hw1 Hl1 Ho1 Hf1 Hu1 _].
  pose proof (inv_bounds s Hinv) as (Hr & Hcap & Hpos). pose proof (inv_max s Hinv) as Hmx.
  pose proof (inv_meta s Hinv) as Hmeta. pose proof (inv_len s Hinv) as Hlen.
  rewrite Hfrom, moved_vblocks in Hf1. rewrite Has, Hus, moved_vblocks in Ho1.
  rewrite moved_vblocks in Hu1. pose proof (vblocks_le (pa_blocks s)) as Hle.
  pose proof (moved_length s q m Hinv ltac:(unfold BASE_RB_SIZE in *; lia)) as Hml.
  set (s1 := set_ptr_max (set_blocks (moved s q m) bs1) q m).
  destruct (free_run n s1 (pa_ptr s)) as (bs2 & both & [Hw2 Hl2 Ho2 Hu2 _] & Hrun);
    unfold s1, slack, PhysAlloc_count, BASE_RB_SIZE in *; simpl in *; [done..|lia|lia|].
  assert (forall a, in_ptr q a -> ~ in_ptr (pa_ptr s) a) as Hdisj.
  { intros a Hq Ho. specialize (Hf1 a Hq). by rewrite (Hmeta a Ho) in Hf1. }
  exists (mkPhysAlloc q m (pa_is_init s) bs2), both.
  split; [exact Hrun|]. split_and!; [|done| |simpl; lia].
  - constructor; simpl; [done|lia|unfold BASE_RB_SIZE; lia|done|done|].
    intros a Ha. rewrite Ho2. unfold upd. case_decide as Hd; [by destruct (Hdisj a Ha)|].
    rewrite Ho1. unfold upd. by case_decide.
  - intros a. unfold view. simpl. rewrite Ho2. unfold upd at 1. rewrite Ho1. unfold upd.
    unfold in_ptr in *. repeat case_decide; try done. symmetry. by apply Hf1.
Qed.

Lemma expand_run n s p :
  INV s -> slack s < 4 -> req_ok p ->
  exists s' r, op_expand (ops (6 + n)) s (2 * pa_max s) p = Ret (s', r) /\
    match r with
    | None => s' = s
    | Some _ => INV s' /\ (forall a, view s' a = view s a) /\ 62 <= slack s' /\
                (forall a, in_ptr (pa_ptr s') a -> ~ in_ptr p a)
    end.
Proof.
  intros Hinv Hfull Hp. change (op_expand (ops (6 + n))) with (expand_body (ops (5 + n))).
  pose proof (inv_bounds s Hinv) as (Hr & Hcap & Hpos). pose proof (inv_max s Hinv) as Hmx.
  pose proof (inv_wf s Hinv) as Hw. pose proof page_size_range as Hps.
  assert (Hp' := Hp). destruct Hp' as (Hp1 & Hp2 & Hp3).
  unfold expand_body, BASE_RB_SIZE, size_of_RAMBlock, range_ok, LIM in *.
  set (m := 2 * pa_max s). destruct (Z.leb_spec m (pa_max s)); [lia|].
  rewrite umul_ok, Ret_bind by lia.
  change (m * 24) with (m * size_of_RAMBlock).
  rewrite table_params_build, Ret_bind by (unfold BASE_RB_SIZE, size_of_RAMBlock; lia).
  destruct (aup_spec (m * size_of_RAMBlock) page_size page_size_pos) as [[Hs1 Hs2] _].
  fold (table_size m) in Hs1, Hs2. unfold size_of_RAMBlock in Hs1, Hs2.
  unfold OwnedPtr_end. fold (pend p). unfold pend in Hp3. rewrite uadd_ok, Ret_bind by lia.
  fold (pend p) in *. cbn [ap_align table_params].
  rewrite align_up_ok, Ret_bind by (unfold pend in *; lia).
  destruct (find_spec (expand_test p (aup (pend p) page_size) (table_params (table_size m)))
    (expand_b p (table_size m)) s) as (r & -> & Hfind).
  { apply Forall_forall. intros c Hc. apply expand_test_ok; [done|lia|].
    by eapply WF_elem. }
  rewrite Ret_bind. destruct r as [[i b]|]; [|by exists s, None].
  destruct Hfind as (Hi & Hv & Hb & Ht). fold (table_params (table_size m)).
  destruct (expand_place_ok p (table_size m) b) as
    (q & -> & Hsz & Hal & Hlo & Hhi & Hty & Hus & Hd); [done|lia|by eapply WF_elem|done|].
  rewrite Ret_bind. fold (moved s q m).
  destruct (expand_alloc (3 + n) s b q m) as (bs1 & Heff & Hrun); [done..|].
  change (pa_ptr (moved s q m)) with q.
  change (ops (5 + n)) with (ops (S (S (3 + n)))). rewrite Hrun, Ret_bind. cbn [unwrap]. rewrite Ret_bind.
  destruct (expand_free (3 + n) s q m bs1 (AllocParams_at (table_params (table_size m)) (op_ptr q)))
    as (s2 & both & Hfree & Hinv2 & Hq & Hv2 & Hsl); [done..|].
  change (op_free (ops (S (S (3 + n))))) with (free_body (ops (S (3 + n)))).
  change (pa_max (set_blocks (moved s q m) bs1)) with m. rewrite Hfree. change (3 + n)%nat with (S (S (S n))).
  destruct (settle_run Hpage n s2 both Hinv2) as (s3 & -> & [Hinv3 Hv3 Hm3 Hs3]).
  rewrite Ret_bind. exists s3, (Some ()). split_and!; [done|done| |lia|].
  - intros a. by rewrite Hv3, Hv2.
  - intros a Ha Hpa. apply Hm3 in Ha. rewrite Hq in Ha. unfold pend, in_ptr, in_range in *. lia.
Qed.
End Expand.
