(* ===== verification/PhysallocThms.v ===== *)
(** * PhysallocThms: what the physical allocator guarantees

    The contract of [alloc], [free], [add] and [reclaim] against the address
    map [view] that a client sees. *)

From S2P Require Import Prelude Kargs Rvm RamUtil Physalloc BlockTable PhysallocSpec.
From S2P Require Import PhysallocFree PhysallocInv PhysallocExpand.

Section Contract.
Context `{Platform}.
Abbreviation vb s := (vblocks (pa_blocks s)).

(** Memory that [alloc] may hand out: free, of type [t], not the table. *)
Definition avail (s : PhysAlloc) (t : RAMType) (a : Z) : Prop :=
  view s a = Some (t, false) /\ ~ in_ptr (pa_ptr s) a.

Lemma avail_owner s t a : INV s -> avail s t a <-> owner (vb s) a = Some (t, false).
Proof.
  intros Hinv. unfold avail, view. case_decide as Hd.
  - rewrite (inv_meta s Hinv a Hd). unfold META. split; [by intros []|done].
  - tauto.
Qed.

(** Requests whose arithmetic stays clear of 2^64. *)
Record params_ok (args : AllocParams) : Prop := {
  po_size : 0 <= ap_size args <= 2 ^ 61;
  po_align : 1 <= ap_align args <= 2 ^ 61;
  po_addr : forall a, ap_addr args = Some a -> 0 <= a <= 2 ^ 61
}.

(** The requested place and size. *)
Definition placed (args : AllocParams) (q : OwnedPtr) : Prop :=
  op_size q = szal (ap_size args) /\ (ap_align args | op_ptr q) /\
  forall a, ap_addr args = Some a -> op_ptr q = aup a (ap_align args).

Definition built (args : AllocParams) : AllocParams :=
  mkAllocParams
    match ap_addr args with Some a => Some (aup a (ap_align args)) | None => None end
    (szal (ap_size args)) (ap_align args) (ap_from_type args) (ap_as_type args) (ap_used args).

Lemma build_ok args : params_ok args -> AllocParams_build args = Ret (built args).
Proof.
  intros [Hs Hal Ha]. unfold AllocParams_build, built. rewrite size_align_ok by lia.
  destruct (ap_addr args) as [a|]; [|done]. specialize (Ha a eq_refl).
  by rewrite align_up_ok by lia.
Qed.

Lemma built_bounds args : params_ok args -> 1 <= szal (ap_size args) <= 2 ^ 61 + 2 ^ 16.
Proof.
  intros [Hs _ _]. pose proof page_size_range. pose proof (szal_spec (ap_size args) ltac:(lia)).
  lia.
Qed.

Lemma build_built args :
  params_ok args -> ap_addr args = None -> AllocParams_build (built args) = Ret (built args).
Proof.
  intros Hok Hn. pose proof (built_bounds args Hok). destruct Hok as [Hs _ _].
  unfold AllocParams_build, built. rewrite Hn. cbn [ap_addr ap_size].
  rewrite Ret_bind, size_align_ok, Ret_bind by lia. by rewrite szal_idem by lia.
Qed.

(** [find_free_ram]: the first free block with room at an aligned place. *)
Definition roomy (args : AllocParams) (b : RAMBlock) : bool :=
  negb (rb_used b) && bool_decide (rb_ty b = ap_from_type args) &&
  (aup (rb_addr b) (ap_align args) + szal (ap_size args) <=? bend b).

Lemma find_free_ram_test_ok args b :
  params_ok args -> blk_ok b -> find_free_ram_test (built args) b = Ret (roomy args b).
Proof.
  intros Hok Hb. pose proof (built_bounds args Hok). destruct Hok as [Hs Hal _].
  unfold find_free_ram_test, roomy, built. cbn [ap_align ap_size ap_from_type].
  pose proof (aup_spec (rb_addr b) (ap_align args) ltac:(lia)) as [? _].
  assert (Hb' := Hb). destruct Hb' as [(? & ? & ?) _]. unfold LIM in *.
  rewrite align_up_ok, Ret_bind by lia. destruct (rb_used b); [done|].
  rewrite uadd_ok, Ret_bind by lia. rewrite (end_ok _ Hb), Ret_bind. cbn [negb andb].
  f_equal. apply andb_comm.
Qed.

Lemma find_free_ram_spec s args :
  WF (vb s) -> params_ok args -> ap_addr args = None ->
  exists o, PhysAlloc_find_free_ram s (built args) = Ret o /\
    match o with
    | Some q => exists b, b ∈ vb s /\ roomy args b = true /\
                  q = mkOwnedPtr (aup (rb_addr b) (ap_align args)) (szal (ap_size args))
    | None => Forall (fun b => roomy args b = false) (vb s)
    end.
Proof.
  intros Hw Hok Hn. unfold PhysAlloc_find_free_ram. rewrite build_built, Ret_bind by done.
  destruct (find_spec (find_free_ram_test (built args)) (roomy args) s) as (r & -> & Hr).
  { apply Forall_forall. intros b Hb. apply find_free_ram_test_ok; [done|by eapply WF_elem]. }
  rewrite Ret_bind. destruct r as [[i b]|]; [|by exists None].
  destruct Hr as (_ & _ & Hb & Ht). pose proof (WF_elem _ _ Hw Hb) as [(? & ? & ?) _].
  destruct Hok as [Hs Hal _]. unfold LIM in *. cbn [ap_align ap_size built].
  rewrite align_up_ok, Ret_bind by lia. eexists. split; [done|]. by exists b.
Qed.

Definition choose (s : PhysAlloc) (args : AllocParams) : outcome (option OwnedPtr) :=
  match ap_addr args with
  | Some addr => Ret (Some (mkOwnedPtr addr (ap_size args)))
  | None => PhysAlloc_find_free_ram s args
  end.

Lemma choose_spec s args :
  INV s -> params_ok args ->
  exists o, choose s (built args) = Ret o /\
    match o with
    | Some q => placed args q /\ req_ok q /\
                (ap_addr args = None -> forall a, in_ptr q a -> avail s (ap_from_type args) a)
    | None => ap_addr args = None /\ Forall (fun b => roomy args b = false) (vb s)
    end.
Proof.
  intros Hinv Hok. pose proof (built_bounds args Hok) as Hsz. assert (Hok' := Hok).
  destruct Hok' as [Hs Hal Ha].
  unfold choose. cbn [ap_addr ap_size built]. destruct (ap_addr args) as [a|] eqn:Haddr.
  - eexists. split; [done|]. specialize (Ha a eq_refl).
    pose proof (aup_spec a (ap_align args) ltac:(lia)) as [? ?].
    unfold placed, req_ok, pend. simpl. split_and!; try done; try lia. intros ? ?; by simplify_eq.
  - destruct (find_free_ram_spec s args (inv_wf s Hinv) Hok Haddr) as (o & Ho & Hr).
    exists o. split; [exact Ho|].
    destruct o as [q|]; [|done]. destruct Hr as (b & Hb & Ht & ->).
    pose proof (WF_elem _ _ (inv_wf s Hinv) Hb) as [(? & ? & ?) _]. unfold LIM in *.
    pose proof (aup_spec (rb_addr b) (ap_align args) ltac:(lia)) as [? ?].
    unfold roomy in Ht. zbool. unfold placed, req_ok, pend. simpl.
    split_and!; try done; try lia; [by rewrite Haddr|]. intros _ y Hy. apply avail_owner; [done|].
    rewrite (owner_in _ b); [|by apply inv_wf|done|].
    + unfold battr. congruence.
    + unfold in_ptr, in_block, in_range, bend in *. simpl in *. lia.
Qed.

Hypothesis Hpage : page_size = 4096.

(** What a successful [alloc] of [q] does. *)
Record alloc_ok (s : PhysAlloc) (args : AllocParams) (s' : PhysAlloc) (q : OwnedPtr) : Prop := {
  al_inv : INV s';
  al_placed : placed args q;
  al_free : forall a, in_ptr q a -> view s a = Some (ap_from_type args, false);
  al_view : forall a, view s' a =
    upd (view s) (op_ptr q) (op_size q) (ap_as_type args, ap_used args) a;
  al_meta : forall a, in_ptr q a -> ~ in_ptr (pa_ptr s') a;
  al_slack : 2 <= slack s'
}.

Definition wants (args : AllocParams) : Prop :=
  ap_used args = true \/ ap_from_type args <> ap_as_type args.

(** Carving a range out of a table with room. *)
Lemma carve_spec n s args q :
  INV s -> 2 <= slack s -> req_ok q ->
  exists s' r, alloc_carve (ops (4 + n)) s args q = Ret (s', r) /\
    match r with
    | None => s' = s /\ ~ (wants args /\ forall a, in_ptr q a -> avail s (ap_from_type args) a)
    | Some q' => q' = q /\ INV s' /\
        (forall a, in_ptr q a -> avail s (ap_from_type args) a) /\
        (forall a, view s' a =
           upd (view s) (op_ptr q) (op_size q) (ap_as_type args, ap_used args) a) /\
        (forall a, in_ptr (pa_ptr s') a -> in_ptr (pa_ptr s) a) /\
        Z.min (slack s - 2) 62 <= slack s'
    end.
Proof.
  intros Hinv Hsl (Hq1 & Hq2 & Hq3). pose proof (inv_wf s Hinv) as Hw.
  destruct (find_spec (alloc_filter args q) (carve_choice args q) s) as (r & Hfind & Hr).
  { apply Forall_forall. intros b Hb. apply alloc_filter_ok; [unfold pend in *; lia|].
    by eapply WF_elem. }
  destruct r as [[i from]|].
  - destruct Hr as (Hi & Hv & Hin & Hch). pose proof (WF_elem _ _ Hw Hin) as Hok.
    assert (Hch' := Hch). unfold carve_choice in Hch'. zbool.
    destruct (decide (rb_ty from = ap_as_type args /\ ap_used args = false)) as [Hl|Hl].
    + exists s, None. unfold alloc_carve. rewrite Hfind, Ret_bind. destruct Hl as [Hl1 Hl2].
      rewrite bool_decide_true, Hl2 by done. split; [done|]. split; [done|].
      intros [[?|?] _]; congruence.
    + assert (range_ok (op_ptr q) (op_size q)) as Hrq by (unfold blk_ok in *; blk).
      pose proof (inv_len s Hinv) as Hlen. unfold slack, PhysAlloc_count in Hsl.
      destruct (carve_run (3 + n) s args q i from) as (bs' & both & [Hw' Hl' Ho' Hf' Hu' _] & Hrun);
        [done|done|lia|lia|done..|].
      assert (forall a, in_ptr q a -> avail s (ap_from_type args) a) as Hav
        by (intros a Ha; apply avail_owner; auto).
      assert (INV (set_blocks s bs')) as Hinv'.
      { destruct Hinv. constructor; simpl; [done|lia|done..|]. intros a Ha. rewrite Ho'.
        unfold upd. case_decide as Hd; [by destruct (Hav a Hd)|auto]. }
      destruct (settle_run Hpage n _ both Hinv') as (s' & Hset & [Hi2 Hv2 Hm2 Hs2]).
      exists s', (Some q). change (4 + n)%nat with (S (3 + n)).
      change (3 + n)%nat with (S (S (S n))) in *. rewrite Hrun, Hset. split; [done|].
      split_and!; [done..| |exact Hm2|].
      * intros a. rewrite Hv2. unfold view. simpl.
        rewrite Ho'. unfold upd. repeat case_decide; try done. by destruct (Hav a).
      * unfold slack, PhysAlloc_count in *. simpl in Hs2. lia.
  - exists s, None. unfold alloc_carve. rewrite Hfind, Ret_bind. split; [done|]. split; [done|].
    intros [_ Hav].
    destruct (owner_range_block (vb s) (op_ptr q) (pend q) (ap_from_type args, false))
      as (b & Hb & Hx & Hlo & Hhi); [done|unfold pend; lia| |].
    { intros a Ha. apply avail_owner; [done|]. apply Hav. unfold in_ptr, in_range, pend in *. lia. }
    rewrite Forall_forall in Hr. specialize (Hr b Hb). unfold carve_choice, battr in *.
    simplify_eq. rewrite bool_decide_true in Hr by congruence. zbool.
    destruct Hr as [Hr|Hr]; zbool; [|lia]. destruct Hr as [Hr|Hr]; zbool; [|lia].
    destruct Hr as [Hr|Hr]; [|done]. zbool. congruence.
Qed.

Definition ram_types (args : AllocParams) : bool :=
  negb (ty_in NON_RAM (ap_from_type args) || ty_in NON_RAM (ap_as_type args)).

(** Making room for a carve, and carving. *)
Lemma chosen_spec n s args q :
  INV s -> req_ok q ->
  exists s' r, alloc_chosen (ops (6 + n)) s args q = Ret (s', r) /\
    match r with
    | None => INV s' /\ (forall a, view s' a = view s a) /\
              (4 <= slack s -> ~ (wants args /\ forall a, in_ptr q a -> avail s (ap_from_type args) a))
    | Some q' => q' = q /\ INV s' /\
        (forall a, in_ptr q a -> view s a = Some (ap_from_type args, false)) /\
        (forall a, view s' a =
           upd (view s) (op_ptr q) (op_size q) (ap_as_type args, ap_used args) a) /\
        (forall a, in_ptr q a -> ~ in_ptr (pa_ptr s') a) /\ 2 <= slack s'
    end.
Proof.
  intros Hinv Hq. unfold alloc_chosen, grown_max.
  pose proof (inv_bounds s Hinv) as (Hr & Hcap & _). pose proof (inv_max s Hinv) as Hmx.
  pose proof (vblocks_le (pa_blocks s)) as Hle. pose proof (inv_len s Hinv) as Hlen.
  unfold BASE_RB_SIZE, size_of_RAMBlock, range_ok, LIM, slack, PhysAlloc_count, MIN_REQ in *.
  rewrite (uadd_ok 64 (Z.of_nat _)), Ret_bind by lia.
  destruct (Z.ltb_spec (pa_max s) (Z.of_nat (length (vb s)) + 4)) as [Hlt|Hge].
  - rewrite ushl_ok, Ret_bind, uadd_ok by lia. rewrite !Ret_bind.
    replace (Z.max _ _) with (2 * pa_max s) by lia.
    destruct (expand_run Hpage n s q Hinv) as (s1 & r1 & -> & Hr1);
      [unfold slack, PhysAlloc_count; lia|done|].
    rewrite Ret_bind. destruct r1; [|subst s1; exists s, None; split_and!; done || lia].
    destruct Hr1 as (Hinv1 & Hv1 & Hs1 & Hd1).
    change (6 + n)%nat with (4 + (2 + n))%nat.
    destruct (carve_spec (2 + n) s1 args q Hinv1 ltac:(lia) Hq) as (s2 & r2 & -> & Hr2).
    exists s2, r2. split; [done|]. destruct r2 as [q'|].
    + destruct Hr2 as (-> & Hi2 & Hf2 & Hv2 & Hm2 & Hs2).
      split_and!; [done..| | | |unfold slack, PhysAlloc_count in *; lia].
      * intros a Ha. rewrite <- Hv1. by apply Hf2.
      * intros a. rewrite Hv2. unfold upd. by rewrite Hv1.
      * intros a Ha Hb. by apply (Hd1 a); [apply Hm2|].
    + destruct Hr2 as [-> _]. split_and!; [done..|lia].
  - change (6 + n)%nat with (4 + (2 + n))%nat.
    destruct (carve_spec (2 + n) s args q Hinv) as (s2 & r2 & -> & Hr2);
      [unfold slack, PhysAlloc_count; lia|done|].
    exists s2, r2. split; [done|]. destruct r2 as [q'|].
    + destruct Hr2 as (-> & Hi2 & Hf2 & Hv2 & Hm2 & Hs2).
      split_and!; [done..| |done| |unfold slack, PhysAlloc_count in *; lia].
      * intros a Ha. by apply Hf2.
      * intros a Ha Hb. apply (proj2 (Hf2 a Ha)). by apply Hm2.
    + destruct Hr2 as [-> Hno]. split_and!; [done..|]. by intros _.
Qed.

Lemma ops_alloc n : op_alloc (ops (S n)) = alloc_body (ops n).
Proof. done. Qed.
Lemma ops_free n : op_free (ops (S n)) = free_body (ops n).
Proof. done. Qed.
Lemma ops_add n : op_add (ops (S n)) = add_body (ops n).
Proof. done. Qed.

Lemma alloc_unfold s args o :
  params_ok args -> choose s (built args) = Ret o ->
  PhysAlloc_alloc s args =
    if ram_types args then
      match o with
      | Some q => alloc_chosen (ops (6 + 9)) s (built args) q
      | None => Ret (s, None)
      end
    else Ret (s, None).
Proof.
  intros Hok Ho. unfold PhysAlloc_alloc, FUEL. change 16%nat with (S (6 + 9)). rewrite (ops_alloc (6 + 9)).
  unfold alloc_body. rewrite build_ok, Ret_bind by done. unfold ram_types.
  change (ap_from_type (built args)) with (ap_from_type args).
  change (ap_as_type (built args)) with (ap_as_type args).
  fold (choose s (built args)). rewrite Ho. by destruct (_ || _), o.
Qed.

(** A range that [free] may be given: it is not the table's memory. *)
Record free_ok (s : PhysAlloc) (p : OwnedPtr) : Prop := {
  fo_range : range_ok (op_ptr p) (op_size p);
  fo_pos : 0 < op_size p;
  fo_meta : forall a, in_ptr p a -> ~ in_ptr (pa_ptr s) a
}.

(** What was recorded can be given back. *)
Lemma recorded_free_ok s q x :
  INV s -> 0 <= op_ptr q -> 0 < op_size q ->
  (forall a, in_ptr q a -> view s a = Some x) -> (forall a, in_ptr q a -> ~ in_ptr (pa_ptr s) a) ->
  free_ok s q.
Proof.
  intros Hinv Hq1 Hq2 Hv Hm. constructor; [|done|done].
  assert (in_ptr q (pend q - 1)) as Hin by (unfold in_ptr, in_range, pend; lia).
  pose proof (Hv _ Hin) as Hlast. unfold view in Hlast. rewrite decide_False in Hlast by auto.
  destruct (owner_Some _ _ _ Hlast) as (b & Hb & Hbi & _).
  pose proof (WF_elem _ _ (inv_wf s Hinv) Hb) as [Hok _]. clear - Hok Hbi Hq1 Hq2.
  unfold in_block, in_range, range_ok, pend in *. lia.
Qed.

Lemma alloc_run s args :
  INV s -> params_ok args ->
  exists s' r, PhysAlloc_alloc s args = Ret (s', r) /\
    match r with
    | None => INV s' /\ forall a, view s' a = view s a
    | Some q => alloc_ok s args s' q /\ free_ok s' q
    end.
Proof.
  intros Hinv Hok. destruct (choose_spec s args Hinv Hok) as (o & Ho & Hspec).
  rewrite (alloc_unfold s args o Hok Ho).
  destruct (ram_types args); [|by exists s, None]. destruct o as [q|]; [|by exists s, None].
  destruct Hspec as (Hp & Hq & _).
  destruct (chosen_spec 9 s (built args) q Hinv Hq) as (s' & r & -> & Hr).
  exists s', r. split; [done|]. destruct r as [q'|].
  - destruct Hr as (-> & Hi & Hf & Hv & Hm & Hsl). destruct Hq as (Hq1 & Hq2 & _).
    split; [by constructor|].
    apply (recorded_free_ok s' q (ap_as_type args, ap_used args)); [done..| |done].
    intros a Ha. rewrite Hv. unfold upd. by rewrite decide_True.
  - destruct Hr as (? & ? & _). done.
Qed.

(** C1: [alloc] terminates without a panic on every state that satisfies
    the invariant and every request below 2^61.  Either it returns nothing
    and no client can see a change, or it returns a range of the requested
    (rounded) size and alignment that was free memory of the requested type,
    is not the allocator's own table, and is recorded with the new type;
    nothing else changes.  Growing the table on the way does not show. *)
Theorem alloc_spec s args :
  INV s -> params_ok args ->
  exists s' r, PhysAlloc_alloc s args = Ret (s', r) /\
    match r with
    | None => INV s' /\ forall a, view s' a = view s a
    | Some q => alloc_ok s args s' q
    end.
Proof.
  intros Hinv Hok. destruct (alloc_run s args Hinv Hok) as (s' & r & Hrun & Hr).
  exists s', r. split; [done|]. destruct r; [apply Hr|done].
Qed.

(** C34: [alloc] finds memory when there is some: with four free entries in
    the table, a request for RAM that changes anything succeeds if some
    aligned range of the rounded size is entirely available (the requested
    one, when the request names an address). *)
Theorem alloc_complete s args lo :
  INV s -> params_ok args -> 4 <= slack s -> ram_types args = true -> wants args ->
  (ap_align args | lo) -> (forall a, ap_addr args = Some a -> lo = aup a (ap_align args)) ->
  (forall a, in_range lo (szal (ap_size args)) a -> avail s (ap_from_type args) a) ->
  exists s' q, PhysAlloc_alloc s args = Ret (s', Some q).
Proof.
  intros Hinv Hok Hsl Hram Hwant Hd Haddr Hav.
  destruct (choose_spec s args Hinv Hok) as (o & Ho & Hspec).
  rewrite (alloc_unfold s args o Hok Ho), Hram. pose proof (built_bounds args Hok) as Hsz.
  destruct o as [q|].
  - destruct Hspec as ((Hp1 & Hp2 & Hp3) & Hq & Hfree).
    destruct (chosen_spec 9 s (built args) q Hinv Hq) as (s' & r & -> & Hr).
    destruct r as [q'|]; [by eexists _, _|]. exfalso. destruct Hr as (_ & _ & Hno).
    apply (Hno Hsl). split; [done|]. destruct (ap_addr args) as [a|] eqn:Ha; [|by apply Hfree].
    intros y Hy. apply Hav. unfold in_ptr in Hy. rewrite Hp1, (Hp3 a), <- (Haddr a) in Hy; done.
  - exfalso. destruct Hspec as [_ Hno]. pose proof (inv_wf s Hinv) as Hw.
    destruct (owner_range_block (vb s) lo (lo + szal (ap_size args)) (ap_from_type args, false))
      as (b & Hb & Hx & Hlo & Hhi); [done|lia| |].
    { intros a Ha. apply avail_owner; [done|]. by apply Hav. }
    rewrite Forall_forall in Hno. specialize (Hno b Hb). unfold battr in Hx. simplify_eq.
    destruct Hok as [_ Hal _].
    pose proof (aup_least (rb_addr b) (ap_align args) lo ltac:(lia) Hd Hlo).
    unfold roomy in Hno. rewrite bool_decide_true in Hno by congruence.
    zbool. destruct Hno as [Hno|Hno]; zbool; [|lia]. destruct Hno as [Hno|Hno]; [|done].
    zbool. congruence.
Qed.

Lemma free_spec_n n s p :
  INV s -> free_ok s p -> 2 <= slack s ->
  exists s', op_free (ops (5 + n)) s p = Ret s' /\ INV s' /\
    (forall a, view s' a = upd (view s) (op_ptr p) (op_size p) (Conv, false) a) /\
    Z.min (slack s - 2) 62 <= slack s'.
Proof.
  intros Hinv [Hr Hpos Hm] Hsl. pose proof (inv_len s Hinv) as Hlen.
  unfold slack, PhysAlloc_count in Hsl. change (5 + n)%nat with (S (S (S (S (S n))))).
  destruct (free_run (S (S (S n))) s p (inv_wf s Hinv) Hr Hpos ltac:(lia) Hlen)
    as (bs' & both & [Hw' Hl' Ho' Hu' _] & Hrun).
  assert (INV (set_blocks s bs')) as Hinv'.
  { destruct Hinv. constructor; simpl; [done|lia|done..|]. intros a Ha. rewrite Ho'.
    unfold upd. case_decide as Hd; [by destruct (Hm a Hd)|auto]. }
  destruct (settle_run Hpage n _ both Hinv') as (s' & Hset & [Hi2 Hv2 _ Hs2]).
  exists s'. rewrite ops_free, Hrun, Hset. split_and!; [done..| |].
  2: { unfold slack, PhysAlloc_count in *. simpl in Hs2. lia. }
  intros a. rewrite Hv2. unfold view. simpl. rewrite Ho'. unfold upd.
  repeat case_decide; naive_solver.
Qed.


(** [alloc] followed by [free] of what it returned is invisible: every
    address has the type and use it had before. *)
Theorem alloc_free_id s args s' q :
  INV s -> params_ok args -> ap_from_type args = Conv ->
  PhysAlloc_alloc s args = Ret (s', Some q) ->
  exists s'', PhysAlloc_free s' q = Ret s'' /\ INV s'' /\ forall a, view s'' a = view s a.
Proof.
  intros Hinv Hok Hc Hr. destruct (alloc_run s args Hinv Hok) as (s1 & r & Hr1 & Hspec).
  rewrite Hr1 in Hr. simplify_eq. destruct Hspec as [[Hi1 _ Hf Hv _ Hsl] Hfo].
  destruct (free_spec_n 11 s' q Hi1 Hfo Hsl) as (s2 & Hr2 & Hi2 & Hv2 & _).
  exists s2. split; [exact Hr2|split; [done|]]. intros a. rewrite Hv2. unfold upd at 1.
  case_decide as Hd; [rewrite <- Hc; symmetry; by apply Hf|].
  rewrite Hv. unfold upd. by rewrite decide_False.
Qed.

Lemma add_spec_n n s nb :
  INV s -> blk_ok nb -> (forall a, in_block nb a -> owner (vb s) a = None) -> 1 <= slack s ->
  exists s', op_add (ops (4 + n)) s nb = Ret s' /\ INV s' /\
    (forall a, view s' a = upd (view s) (rb_addr nb) (rb_size nb) (battr nb) a) /\
    (forall a, in_ptr (pa_ptr s') a -> in_ptr (pa_ptr s) a).
Proof.
  intros Hinv Hn Hfree Hsl. pose proof (inv_len s Hinv) as Hlen.
  unfold slack, PhysAlloc_count in Hsl. change (4 + n)%nat with (S (S (S (S n)))).
  destruct (add_update s nb (inv_wf s Hinv) Hn Hfree ltac:(lia) Hlen)
    as (bs' & both & [Hrun Hw' Hl' Ho' Hu' Hd' _]).
  pose proof (inv_meta s Hinv) as Hmeta.
  assert (forall a, in_block nb a -> ~ in_ptr (pa_ptr s) a) as Hm.
  { intros a Ha Hp. specialize (Hfree a Ha). by rewrite Hmeta in Hfree. }
  assert (INV (set_blocks s bs')) as Hinv'.
  { destruct Hinv. constructor; simpl; [done|lia|done..|]. intros a Ha. rewrite Ho'.
    unfold upd. case_decide as Hd; [by destruct (Hm a Hd)|auto]. }
  destruct (settle_run Hpage n _ both Hinv') as (s' & Hset & [Hi2 Hv2 Hm2 _]).
  exists s'. rewrite ops_add, Hrun, Hset. split_and!; [done..| |exact Hm2].
  intros a. rewrite Hv2. unfold view. simpl. rewrite Ho'. unfold upd.
  repeat case_decide; try done. by destruct (Hm a).
Qed.

(** [add] of memory that the table does not know yet gives exactly that
    range the block's type and use, merging it with its neighbours; the
    table keeps its invariant, even when the merge makes it shrink. *)
Theorem add_spec s nb :
  INV s -> blk_ok nb -> (forall a, in_block nb a -> owner (vb s) a = None) -> 1 <= slack s ->
  exists s', PhysAlloc_add s nb = Ret s' /\ INV s' /\
    forall a, view s' a = upd (view s) (rb_addr nb) (rb_size nb) (battr nb) a.
Proof.
  intros Hinv Hn Hf Hsl. destruct (add_spec_n 12 s nb Hinv Hn Hf Hsl) as (s' & Hr & Hi & Hv & _).
  by exists s'.
Qed.

(** ** [reclaim] *)

Definition is_recl (x : RAMType * bool) : bool := bool_decide (x.1 = Reclaimable).
Definition reclaimed (x : option (RAMType * bool)) : option (RAMType * bool) :=
  match x with Some x => if is_recl x then Some (Conv, false) else Some x | None => None end.

Definition recl_blocks (s : PhysAlloc) : list RAMBlock :=
  filter (fun b => is_recl (battr b) = true) (vb s).

Definition recl_at (s : PhysAlloc) (a : Z) : option (RAMType * bool) :=
  match view s a with Some x => if is_recl x then Some x else None | None => None end.

Lemma recl_owner s a : INV s -> owner (recl_blocks s) a = recl_at s a.
Proof.
  intros Hinv. unfold recl_blocks, recl_at. rewrite owner_filter by by apply inv_wf.
  unfold view. case_decide as Hd; [|done]. by rewrite (inv_meta s Hinv a Hd).
Qed.

Lemma recl_none s a : INV s -> owner (vb s) a = None -> recl_at s a = None.
Proof.
  intros Hinv Ho. unfold recl_at, view. case_decide as Hd; [done|]. by rewrite Ho.
Qed.

Lemma recl_length s s' :
  INV s -> INV s' -> (forall a, recl_at s a = recl_at s' a) ->
  length (recl_blocks s) = length (recl_blocks s').
Proof.
  intros Hi Hi' Heq. apply Permutation_length, WF_canonical;
    [apply WF_filter, inv_wf; done..|]. intros a. by rewrite !recl_owner.
Qed.

Lemma recl_invalidate s i b :
  INV s -> pa_blocks s !! i = Some b -> RAMBlock_valid b = true -> rb_ty b = Reclaimable ->
  let s1 := set_blocks s (<[i := RAMBlock_invalidate b]> (pa_blocks s)) in
  INV s1 /\ 1 <= slack s1 /\ length (recl_blocks s) = S (length (recl_blocks s1)) /\
  (forall a, in_block b a -> owner (vb s1) a = None /\ view s a = Some (battr b)) /\
  (forall a, ~ in_block b a -> view s1 a = view s a).
Proof.
  intros Hinv Hi Hv Hty s1. pose proof (inv_wf s Hinv) as Hw. pose proof (inv_meta s Hinv) as Hm.
  destruct (invalidate_effect s i b Hw Hi Hv) as (Hw1 & Hl1 & Ho1).
  assert (b ∈ vb s) as Hb.
  { apply elem_vblocks. split; [by eapply list_elem_of_lookup_2|done]. }
  assert (forall a, in_block b a -> owner (vb s) a = Some (battr b)) as Hob
    by (intros a Ha; by apply owner_in).
  assert (forall a, in_block b a -> ~ in_ptr (pa_ptr s) a) as Hmeta.
  { intros a Ha Hp. specialize (Hob a Ha). rewrite Hm in Hob by done.
    unfold battr, META in Hob. congruence. }
  pose proof (vblocks_le (pa_blocks s)) as Hle. pose proof (inv_len s Hinv) as Hlen.
  split_and!.
  - destruct Hinv. constructor; unfold s1; simpl; [done|rewrite length_insert; lia|done..|].
    intros a Ha. rewrite Ho1. case_decide as Hd; [by destruct (Hmeta a Hd)|auto].
  - unfold slack, PhysAlloc_count, s1. simpl. lia.
  - unfold recl_blocks, s1. simpl. rewrite (vblocks_invalidate _ _ _ Hi Hv).
    rewrite filter_cons. unfold is_recl at 1, battr at 1. cbn [fst].
    case_decide as Hd; [done|]. by rewrite bool_decide_true in Hd.
  - intros a Ha. unfold s1, view. simpl. rewrite Ho1, decide_True by done.
    rewrite decide_False by auto. split; [done|auto].
  - intros a Ha. unfold s1, view. simpl. by rewrite Ho1, (decide_False (P := in_block b a)).
Qed.

Lemma reclaim_loop k s :
  INV s -> (length (recl_blocks s) < k)%nat ->
  exists s', PhysAlloc_reclaim k s = Ret s' /\ INV s' /\
    forall a, view s' a = reclaimed (view s a).
Proof.
  revert s. induction k as [|k IH]; intros s Hinv Hk; [lia|]. cbn [PhysAlloc_reclaim].
  destruct (find_spec is_reclaimable (fun b => bool_decide (rb_ty b = Reclaimable)) s)
    as (r & -> & Hr); [by apply Forall_forall|]. rewrite Ret_bind.
  destruct r as [[i b]|].
  - destruct Hr as (Hi & Hv & Hb & Hty). zbool.
    pose proof (WF_elem _ _ (inv_wf s Hinv) Hb) as Hok.
    destruct (recl_invalidate s i b Hinv Hi Hv Hty) as (Hi1 & Hs1 & Hl1 & Hin1 & Hout1).
    set (s1 := set_blocks s _) in *. set (nb := mkRAMBlock (rb_addr b) (rb_size b) Conv false).
    destruct (add_spec_n 12 s1 nb Hi1 Hok) as (s2 & Hadd & Hi2 & Hv2 & _); [|done|].
    { intros a Ha. by apply Hin1. }
    change (PhysAlloc_add s1 nb) with (op_add (ops (4 + 12)) s1 nb).
    rewrite Hadd, Ret_bind.
    assert (forall a, view s2 a = if decide (in_block b a) then Some (Conv, false) else view s a)
      as Hv2'.
    { intros a. rewrite Hv2. unfold upd. destruct (decide (in_block b a)) as [Hd|Hd].
      - by rewrite decide_True.
      - rewrite decide_False by done. auto. }
    assert (length (recl_blocks s2) = length (recl_blocks s1)) as Hl2.
    { apply recl_length; [done..|]. intros a. destruct (decide (in_block b a)) as [Hd|Hd].
      2: { unfold recl_at. by rewrite Hv2', decide_False, Hout1. }
      unfold recl_at at 1. rewrite Hv2', decide_True by done.
      rewrite (recl_none s1 a); [done..|]. by apply Hin1. }
    destruct (IH s2 Hi2 ltac:(lia)) as (s' & Hrun & Hi' & Hv').
    exists s'. split_and!; [done..|]. intros a. rewrite Hv', Hv2'. case_decide as Hd; [|done].
    destruct (Hin1 a Hd) as [_ ->]. unfold reclaimed.
    replace (is_recl (battr b)) with true by (symmetry; by apply bool_decide_true). done.
  - exists s. split_and!; [done..|]. intros a. unfold reclaimed.
    destruct (view s a) as [x|] eqn:Ha; [|done]. destruct (is_recl x) eqn:Hx; [|done].
    exfalso. unfold view in Ha. case_decide; [by simplify_eq|].
    destruct (owner_Some _ _ _ Ha) as (b & Hb & _ & <-). rewrite Forall_forall in Hr.
    specialize (Hr b Hb). unfold is_recl, battr in Hx. simpl in *. congruence.
Qed.

(** [reclaim] terminates (one round per reclaimable block), turns every
    reclaimable block into free conventional memory and changes nothing
    else. *)
Theorem reclaim_spec s :
  INV s ->
  exists s', PhysAlloc_reclaim (S (length (pa_blocks s))) s = Ret s' /\ INV s' /\
    forall a, view s' a = reclaimed (view s a).
Proof.
  intros Hinv. apply reclaim_loop; [done|]. unfold recl_blocks.
  pose proof (length_filter (fun b => is_recl (battr b) = true) (vb s)).
  pose proof (vblocks_le (pa_blocks s)). lia.
Qed.
End Contract.

(** ** Witnesses *)

Module Demo.
#[local] Instance demo : Platform :=
  Build_Platform {| overflow_checks := true |} X86_64 (mkRvmCfg Size4kiB 48 52).

(** A table of 128 entries at 0x1000, free memory, the kernel, and memory
    that the firmware gives back. *)
Definition s0 : PhysAlloc :=
  mkPhysAlloc (mkOwnedPtr 0x1000 0x1000) 128 true
    ([mkRAMBlock 0x1000 0x1000 Conv true; mkRAMBlock 0x2000 0xfe000 Conv false;
      mkRAMBlock 0x100000 0x80000 Kernel true; mkRAMBlock 0x180000 0x10000 Reclaimable true]
     ++ replicate 124 RAMBlock_new_invalid).

Definition args0 : AllocParams := AllocParams_new 0x3000.
Definition p0 : OwnedPtr := mkOwnedPtr 0x17f000 0x2000.
Definition nb0 : RAMBlock := mkRAMBlock 0x200000 0x1000 Conv false.

Lemma page0 : page_size = 4096.
Proof. reflexivity. Qed.

Lemma inv0 : INV s0.
Proof.
  constructor; [|vm_compute; done|vm_compute; done|by exists 1|vm_compute; done|].
  - change (vblocks (pa_blocks s0)) with (take 4 (pa_blocks s0)). simpl.
    unfold blk_ok, range_ok, LIM, sep, disj, unmergeable, bend. simpl.
    split_and!; repeat constructor; simpl; try lia; try done.
  - change (vblocks (pa_blocks s0)) with (take 4 (pa_blocks s0)).
    intros a Ha. simpl. by rewrite decide_True by (unfold in_block, in_ptr, in_range in *; simpl in *; lia).
Qed.

Lemma params0 : params_ok args0.
Proof. by constructor; [vm_compute; split; discriminate..|]. Qed.

Lemma alloc_spec_witness :
  exists s' r, PhysAlloc_alloc s0 args0 = Ret (s', r) /\
    match r with
    | None => INV s' /\ forall a, view s' a = view s0 a
    | Some q => alloc_ok s0 args0 s' q
    end.
Proof. exact (alloc_spec page0 s0 args0 inv0 params0). Defined.

Lemma alloc_complete_witness :
  exists s' q, PhysAlloc_alloc s0 args0 = Ret (s', Some q).
Proof.
  apply (alloc_complete page0 s0 args0 0x2000);
    [apply inv0|apply params0|vm_compute; discriminate|reflexivity|by left|by exists 2|discriminate|].
  intros a Ha. apply avail_owner; [apply inv0|].
  change (vblocks (pa_blocks s0)) with (take 4 (pa_blocks s0)). simpl.
  unfold in_range in Ha. change (szal (ap_size args0)) with 0x3000 in Ha.
  rewrite decide_False by (unfold in_block, in_range; simpl; lia).
  by rewrite decide_True by (unfold in_block, in_range; simpl; lia).
Defined.

Lemma free_ok0 : free_ok s0 p0.
Proof.
  constructor; [unfold range_ok, LIM; simpl; lia|reflexivity|].
  unfold in_ptr, in_range. simpl. lia.
Qed.


Lemma alloc_free_id_witness :
  exists s' q, PhysAlloc_alloc s0 args0 = Ret (s', Some q) /\
    exists s'', PhysAlloc_free s' q = Ret s'' /\ INV s'' /\ forall a, view s'' a = view s0 a.
Proof.
  eexists _, _. split; [vm_compute; reflexivity|].
  apply (alloc_free_id page0 s0 args0); [apply inv0|apply params0|reflexivity|].
  vm_compute. reflexivity.
Defined.

Lemma add_spec_witness :
  exists s', PhysAlloc_add s0 nb0 = Ret s' /\ INV s' /\
    forall a, view s' a = upd (view s0) (rb_addr nb0) (rb_size nb0) (battr nb0) a.
Proof.
  apply (add_spec page0 s0 nb0 inv0); [|intros a Ha|vm_compute; discriminate].
  - unfold blk_ok, range_ok, LIM. simpl. lia.
  - change (vblocks (pa_blocks s0)) with (take 4 (pa_blocks s0)). simpl.
    unfold in_block, in_range in Ha. simpl in Ha.
    by rewrite !decide_False by (unfold in_block, in_range; simpl; lia).
Defined.

Lemma reclaim_spec_witness :
  exists s', PhysAlloc_reclaim (S (length (pa_blocks s0))) s0 = Ret s' /\ INV s' /\
    forall a, view s' a = reclaimed (view s0 a).
Proof. exact (reclaim_spec page0 s0 inv0). Defined.
End Demo.

(** With pages larger than 4 kiB [shrink] miscomputes what it frees: the start
    is rounded up to a page but the size is not reduced. *)
Module LargePages.
#[local] Instance demo16 : Platform :=
  Build_Platform {| overflow_checks := true |} AArch64 (mkRvmCfg Size16kiB 47 48).

(** A table of 256 entries at 0x10000 (8 kiB), and kernel data at 0x14000. *)
Definition s16 : PhysAlloc :=
  mkPhysAlloc (mkOwnedPtr 0x10000 0x2000) 256 true
    ([mkRAMBlock 0x10000 0x2000 Conv true; mkRAMBlock 0x14000 0x1000 KernelData true]
     ++ replicate 254 RAMBlock_new_invalid).

(** on a platform with 16 kiB pages, shrinking the table from 256 to 128
    entries frees memory that was never part of the table (here, used kernel
    data) and keeps the tail of the table allocated. *)
Theorem shrink_frees_foreign :
  exists s', PhysAlloc_shrink s16 128 = Ret s' /\
    owner (vblocks (pa_blocks s16)) 0x14000 = Some (KernelData, true) /\
    owner (vblocks (pa_blocks s')) 0x14000 = Some (Conv, false) /\
    ~ in_ptr (pa_ptr s16) 0x14000 /\
    ~ in_ptr (pa_ptr s') 0x11000 /\
    owner (vblocks (pa_blocks s')) 0x11000 = Some (Conv, true).
Proof.
  eexists. split; [vm_compute; reflexivity|].
  repeat match goal with |- _ /\ _ => split end;
    first [vm_compute; reflexivity | unfold in_ptr, in_range; simpl; lia].
Qed.
End LargePages.
