(* ===== verification/RvmFacts.v ===== *)
(** * RvmFacts: the paging geometry

    The number of levels, the shift and the width of the index of each level,
    as pure functions, for any page size and any virtual address width above
    one page; and the fact that makes a radix tree a map: a virtual page is
    determined by its indices. *)

From S2P Require Import Prelude Rvm.

(** [a & mask] for the masks that the code builds. *)
Lemma land_unot w k x :
  0 <= k <= w -> 0 <= x < 2 ^ w -> Z.land x (unot w (2 ^ k - 1)) = x / 2 ^ k * 2 ^ k.
Proof.
  intros Hk Hx. apply Z.bits_inj'. intros n Hn.
  rewrite <- Z.shiftr_div_pow2, <- Z.shiftl_mul_pow2 by lia.
  rewrite Z.land_spec, Z.shiftl_spec by lia.
  assert (unot w (2 ^ k - 1) = Z.shiftl (Z.ones (w - k)) k) as ->.
  { unfold unot. rewrite Z.shiftl_mul_pow2, Z.ones_equiv by lia.
    rewrite <- Z.sub_1_r, Z.mul_sub_distr_r, <- Z.pow_add_r by lia.
    replace (w - k + k) with w by lia. lia. }
  rewrite Z.shiftl_spec by lia.
  destruct (Z.ltb_spec n k).
  - rewrite (Z.testbit_neg_r _ (n - k)) by lia. rewrite andb_false_r.
    by rewrite (Z.testbit_neg_r _ (n - k)) by lia.
  - rewrite Z.shiftr_spec by lia. replace (n - k + k) with n by lia.
    destruct (Z.ltb_spec n w).
    + rewrite Z.ones_spec_low by lia. by rewrite andb_true_r.
    + rewrite Z.ones_spec_high by lia. rewrite andb_false_r. symmetry.
      destruct (decide (x = 0)) as [->|]; [by rewrite Z.testbit_0_l|].
      apply Z.bits_above_log2; [lia|]. apply Z.log2_lt_pow2; [lia|].
      apply Z.lt_le_trans with (2 ^ w); [lia|]. apply Z.pow_le_mono_r; lia.
Qed.

Section Geometry.
Context `{Build} (c : RvmCfg).

Definition cfg_ok : Prop := 16 < va_bits c <= 64.

Abbreviation ps := (BPage_shift (psz c)).
Abbreviation ib := (BPage_index_bits (psz c)).

Definition lv : Z := (va_bits c - ps + ib - 1) / ib.
Definition sh (l : Z) : Z := ps + (lv - l - 1) * ib.
Definition bits (l : Z) : Z := if l =? 0 then va_bits c - sh 0 else ib.
Definition idx (l va : Z) : Z := (va / 2 ^ sh l) mod 2 ^ bits l.
(** The number of a virtual page. *)
Definition vpn (va : Z) : Z := (va / 2 ^ ps) mod 2 ^ (va_bits c - ps).

Lemma page_facts : 12 <= ps <= 16 /\ ib = ps - 3.
Proof. unfold BPage_index_bits. destruct (psz c); vm_compute; repeat split; discriminate. Qed.

Hypothesis Hok : cfg_ok.

Lemma lv_bounds : 1 <= lv <= 6 /\ (lv - 1) * ib < va_bits c - ps <= lv * ib.
Proof.
  pose proof page_facts as [Hp Hi]. unfold cfg_ok, lv in *. rewrite Hi.
  set (d := ps - 3) in *. assert (9 <= d <= 13) as Hd by lia.
  set (n := va_bits c - ps + d - 1).
  pose proof (Z.div_mod n d ltac:(lia)) as He. pose proof (Z.mod_pos_bound n d ltac:(lia)) as Hm.
  assert (1 <= n / d) by (apply Z.div_le_lower_bound; lia).
  assert (n / d <= 6) by (apply Z.lt_succ_r, Z.div_lt_upper_bound; lia).
  unfold n in *. split; [lia|]. nia.
Qed.

Lemma levels_ok : RvmCfg_levels c = Ret lv.
Proof.
  pose proof page_facts as [Hp Hi]. unfold cfg_ok in Hok. unfold RvmCfg_levels.
  rewrite usub_ok, Ret_bind by lia. rewrite uadd_ok, Ret_bind by lia.
  rewrite usub_ok, Ret_bind by lia. by rewrite udiv_ok by lia.
Qed.

Lemma sh_bounds l : 0 <= l < lv -> ps <= sh l < va_bits c.
Proof.
  intros Hl. pose proof page_facts as [Hp Hi]. pose proof lv_bounds as [? ?]. unfold sh. nia.
Qed.

Lemma bits_bounds l : 0 <= l < lv -> 1 <= bits l <= ib /\ bits l + sh l <= va_bits c.
Proof.
  intros Hl. pose proof page_facts as [Hp Hi]. pose proof lv_bounds as [? ?].
  pose proof (sh_bounds l Hl) as Hs. unfold bits. destruct (Z.eqb_spec l 0) as [->|].
  - unfold sh in *. nia.
  - unfold sh in *. nia.
Qed.

Lemma shift_ok l : 0 <= l < lv -> RvmCfg_shift c l = Ret (sh l).
Proof.
  intros Hl. pose proof page_facts as [Hp Hi]. pose proof lv_bounds as [? ?].
  pose proof (sh_bounds l Hl) as Hs. unfold cfg_ok in Hok. unfold RvmCfg_shift.
  rewrite levels_ok, Ret_bind. destruct (Z.leb_spec lv l); [lia|].
  rewrite usub_ok, Ret_bind by lia. rewrite usub_ok, Ret_bind by lia. unfold sh in *.
  rewrite umul_ok, Ret_bind by nia. by rewrite uadd_ok by lia.
Qed.

Lemma ent_cnt_ok l : 0 <= l < lv -> RvmCfg_ent_cnt c l = Ret (2 ^ bits l).
Proof.
  intros Hl. pose proof page_facts as [Hp Hi]. pose proof (bits_bounds l Hl) as [Hb _].
  unfold cfg_ok in Hok. unfold RvmCfg_ent_cnt.
  assert ((if l =? 0 then s ← RvmCfg_shift c l; usub 8 (va_bits c) s else Ret ib)
          = Ret (bits l)) as ->.
  { unfold bits in *. destruct (Z.eqb_spec l 0) as [->|]; [|done].
    rewrite shift_ok, Ret_bind by done. by rewrite usub_ok by lia. }
  rewrite Ret_bind, ushl_ok; [by rewrite Z.mul_1_l|lia|]. rewrite Z.mul_1_l.
  split; [apply Z.pow_nonneg; lia|]. apply Z.pow_lt_mono_r; lia.
Qed.

Lemma index_ok l va : 0 <= l < lv -> RvmCfg_get_index c l va = Ret (idx l va).
Proof.
  intros Hl. pose proof (bits_bounds l Hl) as [Hb _]. pose proof (sh_bounds l Hl) as Hs.
  pose proof page_facts as [Hp Hi]. unfold cfg_ok in Hok. unfold RvmCfg_get_index.
  rewrite shift_ok, Ret_bind by done. rewrite ushr_ok, Ret_bind by lia.
  rewrite ent_cnt_ok, Ret_bind by done.
  assert (1 <= 2 ^ bits l < 2 ^ 64) as Hpow.
  { split; [apply (Z.pow_le_mono_r 2 0); lia|apply Z.pow_lt_mono_r; lia]. }
  rewrite usub_ok, Ret_bind by lia. unfold idx. f_equal.
  rewrite <- Z.land_ones by lia. by rewrite Z.ones_equiv, Z.sub_1_r.
Qed.

Lemma idx_range l va : 0 <= l < lv -> 0 <= idx l va < 2 ^ bits l.
Proof.
  intros Hl. pose proof (bits_bounds l Hl). apply Z.mod_pos_bound, Z.pow_pos_nonneg; lia.
Qed.

(** A table fits its page. *)
Lemma idx_in_page l i : 0 <= l < lv -> 0 <= i < 2 ^ bits l -> 0 <= 8 * i <= 2 ^ ps - 8.
Proof.
  intros Hl Hi. pose proof page_facts as [Hp Hib]. pose proof (bits_bounds l Hl) as [Hb _].
  assert (2 ^ bits l <= 2 ^ (ps - 3)) by (apply Z.pow_le_mono_r; lia).
  replace (2 ^ ps) with (8 * 2 ^ (ps - 3)); [lia|].
  replace 8 with (2 ^ 3) by done. rewrite <- Z.pow_add_r by lia. f_equal. lia.
Qed.

(** The indices down to a level determine the address down to its shift. *)
Definition top (l va : Z) : Z := (va / 2 ^ sh l) mod 2 ^ (va_bits c - sh l).

Lemma top_succ l va :
  0 <= l -> l + 1 < lv -> top (l + 1) va = idx (l + 1) va + 2 ^ ib * top l va.
Proof.
  intros Hl0 Hl. pose proof page_facts as [Hp Hi]. unfold top, idx, bits.
  pose proof (sh_bounds l ltac:(lia)). pose proof (sh_bounds (l + 1) ltac:(lia)).
  destruct (Z.eqb_spec (l + 1) 0); [lia|].
  assert (sh l = sh (l + 1) + ib) as -> by (unfold sh; lia).
  set (s := sh (l + 1)) in *.
  assert (0 < 2 ^ s /\ 0 < 2 ^ ib /\ 0 < 2 ^ (va_bits c - (s + ib))) as (? & ? & ?)
    by (split_and!; apply Z.pow_pos_nonneg; unfold s, sh in *; lia).
  rewrite (Z.pow_add_r 2 s ib), <- Z.div_div by lia.
  rewrite <- Z.rem_mul_r by lia. rewrite <- Z.pow_add_r by (unfold s, sh in *; lia). do 2 f_equal. lia.
Qed.

Lemma top_inj (n : nat) va va' :
  Z.of_nat n < lv ->
  (forall l, 0 <= l <= Z.of_nat n -> idx l va = idx l va') ->
  top (Z.of_nat n) va = top (Z.of_nat n) va'.
Proof.
  induction n as [|n IH]; intros Hn Hall.
  - specialize (Hall 0 ltac:(lia)). done.
  - rewrite Nat2Z.inj_succ, <- Z.add_1_r in *. rewrite !top_succ by lia.
    rewrite Hall by lia. rewrite IH; [done|lia|]. intros l Hl. apply Hall. lia.
Qed.

Lemma vpn_inj va va' :
  (forall l, 0 <= l < lv -> idx l va = idx l va') -> vpn va = vpn va'.
Proof.
  intros Hall. pose proof lv_bounds as [Hlv _].
  pose proof (top_inj (Z.to_nat (lv - 1)) va va') as Ht. rewrite Z2Nat.id in Ht by lia.
  unfold top in Ht. assert (sh (lv - 1) = ps) as Hs by (unfold sh; lia). rewrite Hs in Ht.
  apply Ht; [lia|]. intros l Hl. apply Hall. lia.
Qed.

(** The indices of an address do not depend on the offset in the page, nor
    on the bits above the virtual address width. *)
Lemma idx_vpn l va : 0 <= l < lv -> idx l va = (vpn va / 2 ^ (sh l - ps)) mod 2 ^ bits l.
Proof.
  intros Hl. pose proof (sh_bounds l Hl) as Hs. pose proof (bits_bounds l Hl) as [Hb Hbs].
  pose proof page_facts as [Hp Hi]. unfold idx, vpn.
  replace (2 ^ sh l) with (2 ^ ps * 2 ^ (sh l - ps))
    by (rewrite <- Z.pow_add_r by lia; f_equal; lia).
  rewrite <- Z.div_div by lia. set (x := va / 2 ^ ps).
  set (k := sh l - ps) in *. set (n := va_bits c - ps) in *.
  apply Z.bits_inj'. intros i Hi0.
  destruct (Z.ltb_spec i (bits l)).
  - rewrite !Z.mod_pow2_bits_low by lia. rewrite <- !Z.shiftr_div_pow2 by lia.
    rewrite !Z.shiftr_spec by lia. rewrite Z.mod_pow2_bits_low by lia. done.
  - rewrite !Z.mod_pow2_bits_high by lia. done.
Qed.

Lemma vpn_idx va va' l : 0 <= l < lv -> vpn va = vpn va' -> idx l va = idx l va'.
Proof. intros Hl Hv. by rewrite !idx_vpn, Hv. Qed.

Lemma vpn_page va : vpn (va / 2 ^ ps * 2 ^ ps) = vpn va.
Proof.
  pose proof page_facts as [Hp _]. unfold vpn. rewrite Z.div_mul; [done|].
  apply Z.pow_nonzero; lia.
Qed.
End Geometry.
