(* ===== verification/Glacier.v ===== *)
(** * Glacier: the page tables (ram/glacier.rs)

    [Glacier] is a tree of tables in physical memory.  The machine state that
    its operations thread is the frame allocator [PHYS_ALLOC], behind the
    interface [FrameAlloc], the physical memory, as a map from the address of
    an eight-byte word to its value, and the trace of the TLB flushes. *)

From S2P Require Import Prelude Kargs Rvm RamUtil Physalloc.

(** What [Glacier] calls of the physical allocator. *)
Class FrameAlloc (A : Type) : Type := {
  fa_alloc : A -> AllocParams -> outcome (A * option OwnedPtr);
  fa_free_raw : A -> Z -> Z -> outcome A
}.

#[export] Instance PhysAlloc_FrameAlloc `{Platform} : FrameAlloc PhysAlloc := {|
  fa_alloc := PhysAlloc_alloc;
  fa_free_raw := PhysAlloc_free_raw
|}.

Record Machine (A : Type) : Type := mkMachine {
  m_fa : A;
  m_mem : Z -> Z;
  m_flushed : list Z
}.
Arguments mkMachine {A}.
Arguments m_fa {A}.
Arguments m_mem {A}.
Arguments m_flushed {A}.

Record Glacier : Type := mkGlacier { root_table : Z; gl_is_init : bool }.

Inductive GlacierErr : Type := Failed2Alloc.

Definition Glacier_empty : Glacier := mkGlacier 0 false.

(** [*entry = w] *)
Definition write_word (m : Z -> Z) (p w : Z) : Z -> Z :=
  fun a => if a =? p then w else m a.

Section Glacier_ops.
Context `{Platform} {A : Type} `{FrameAlloc A}.
Abbreviation St := (Machine A).

Definition set_fa (st : St) (f : A) : St := mkMachine f (m_mem st) (m_flushed st).
Definition set_mem (st : St) (m : Z -> Z) : St := mkMachine (m_fa st) m (m_flushed st).

(** [flush]: nothing on amd64, one page on aarch64. *)
Definition Glacier_flush (st : St) (va : Z) : outcome St :=
  match target_arch with
  | X86_64 => Ret st
  | AArch64 =>
      v ← ushr 64 va (BPage_shift (psz G_CFG));
      Ret (mkMachine (m_fa st) (m_mem st) (m_flushed st ++ [v]))
  end.

Definition flags : PteFlags := flags_of target_arch.
Definition page_mask : Z := unot 64 (page_size - 1).

(** [AllocParams::new(table_size).align(table_size).as_type(KernelPTable)] *)
Definition table_request : AllocParams :=
  AllocParams_as_type (AllocParams_align (AllocParams_new page_size) page_size) KernelPTable.

Definition Glacier_init (st : St) : outcome (St * Glacier) :=
  '(f, r) ← fa_alloc (m_fa st) table_request;
  root ← unwrap r; (* expect("Failed to allocate root page table") *)
  Ret (set_mem (set_fa st f) (zero_bytes (m_mem st) (op_ptr root) page_size),
       mkGlacier (op_ptr root) true).

(** [new]: the upper half of the kernel's root table, an empty lower half.
    [krvm_root] is [GLACIER.read().root_table]. *)
Definition Glacier_new (krvm_root : Z) (st : St) : outcome (St * Glacier) :=
  '(st, new) ← Glacier_init st;
  n ← RvmCfg_ent_cnt G_CFG 0;
  let hihalf_idx := Z.shiftr n 1 in
  k ← umul 64 hihalf_idx 8;
  let m := copy_bytes (m_mem st) (root_table new) krvm_root page_size in
  Ret (set_mem st (zero_bytes m (root_table new) k), new).

(** The loop of [map_page], from [level] on. *)
Fixpoint map_walk (n : nat) (levels level table va pa fl : Z) (st : St)
    : outcome (St * result GlacierErr unit) :=
  match n with
  | O => Ret (st, Ok ())
  | S n =>
      index ← RvmCfg_get_index G_CFG level va;
      let entry := table + 8 * index in
      last ← usub 8 levels 1;
      if level =? last then
        Ret (set_mem st (write_word (m_mem st) entry (Z.lor pa fl)), Ok ())
      else if Z.land (m_mem st entry) (VALID flags) =? 0 then
        '(f, r) ← fa_alloc (m_fa st) table_request;
        match r with
        | None => Ret (set_fa st f, Err Failed2Alloc)
        | Some next_table =>
            let m := zero_bytes (m_mem st) (op_ptr next_table) page_size in
            let m := write_word m entry (Z.lor (op_ptr next_table) (NEXT flags)) in
            map_walk n levels (level + 1) (op_ptr next_table) va pa fl (set_mem (set_fa st f) m)
        end
      else
        map_walk n levels (level + 1)
          (Z.land (m_mem st entry) (BPage_addr_mask (psz G_CFG))) va pa fl st
  end.

Definition map_page (g : Glacier) (va pa fl : Z) (st : St)
    : outcome (St * result GlacierErr unit) :=
  let va := Z.land va page_mask in
  let pa := Z.land pa page_mask in
  levels ← RvmCfg_levels G_CFG;
  '(st, r) ← map_walk (Z.to_nat levels) levels 0 (root_table g) va pa fl st;
  match r with
  | Err e => Ret (st, Err e)
  | Ok _ => st ← Glacier_flush st va; Ret (st, Ok ())
  end.

Definition is_tbl_null (m : Z -> Z) (table entries : Z) : bool :=
  forallb (fun i => m (table + 8 * i) =? 0) (seqZ 0 entries).

(** [unmap_rec]; [n] bounds the depth and is [levels - level] at the calls. *)
Fixpoint unmap_rec (n : nat) (table va level : Z) (st : St) : outcome (St * bool) :=
  match n with
  | O => NoFuel
  | S n =>
      entries ← RvmCfg_ent_cnt G_CFG level;
      index ← RvmCfg_get_index G_CFG level va;
      let entry := table + 8 * index in
      levels ← RvmCfg_levels G_CFG;
      last ← usub 8 levels 1;
      if level =? last then
        let st := set_mem st (write_word (m_mem st) entry 0) in
        st ← Glacier_flush st va;
        Ret (st, is_tbl_null (m_mem st) table entries)
      else if Z.land (m_mem st entry) (VALID flags) =? 0 then Ret (st, false)
      else
        let child := Z.land (m_mem st entry) (BPage_addr_mask (psz G_CFG)) in
        level' ← uadd 8 level 1;
        '(st, empty) ← unmap_rec n child va level' st;
        if (empty : bool) then
          let st := set_mem st (write_word (m_mem st) entry 0) in
          f ← fa_free_raw (m_fa st) child page_size;
          st ← Glacier_flush (set_fa st f) va;
          Ret (st, is_tbl_null (m_mem st) table entries)
        else Ret (st, false)
  end.

Definition unmap_page (g : Glacier) (va : Z) (st : St) : outcome St :=
  let va := Z.land va page_mask in
  levels ← RvmCfg_levels G_CFG;
  '(st, _) ← unmap_rec (Z.to_nat levels) (root_table g) va 0 st;
  Ret st.

(** [(start..end).step_by(page_size)] *)
Definition step_by (lo hi step : Z) : list Z :=
  (fun k => lo + k * step) <$> seqZ 0 ((hi - lo + step - 1) / step).

Fixpoint map_each (g : Glacier) (vas : list Z) (va_start pa_start fl : Z) (st : St)
    : outcome (St * result GlacierErr unit) :=
  match vas with
  | [] => Ret (st, Ok ())
  | va :: vas =>
      d ← usub 64 va va_start;
      pa ← uadd 64 pa_start d;
      '(st, r) ← map_page g va pa fl st;
      match r with
      | Ok _ => map_each g vas va_start pa_start fl st
      | Err e => Ret (st, Err e)
      end
  end.

(** [(va + size + page_size - 1) & page_mask] *)
Definition range_end (va size : Z) : outcome Z :=
  t ← uadd 64 va size;
  t ← uadd 64 t page_size;
  t ← usub 64 t 1;
  Ret (Z.land t page_mask).

Definition map_range (g : Glacier) (va pa size fl : Z) (st : St)
    : outcome (St * result GlacierErr unit) :=
  let pa_start := Z.land pa page_mask in
  let va_start := Z.land va page_mask in
  va_end ← range_end va size;
  map_each g (step_by va_start va_end page_size) va_start pa_start fl st.

Fixpoint unmap_each (g : Glacier) (vas : list Z) (st : St) : outcome St :=
  match vas with
  | [] => Ret st
  | va :: vas => st ← unmap_page g va st; unmap_each g vas st
  end.

Definition unmap_range (g : Glacier) (va size : Z) (st : St) : outcome St :=
  let va_start := Z.land va page_mask in
  va_end ← range_end va size;
  unmap_each g (step_by va_start va_end page_size) st.

(** The loop of [get_pa]. *)
Fixpoint get_walk (n : nat) (levels level table va : Z) (m : Z -> Z) : outcome (option Z) :=
  match n with
  | O => Ret None
  | S n =>
      index ← RvmCfg_get_index G_CFG level va;
      let entry := m (table + 8 * index) in
      if Z.land entry (VALID flags) =? 0 then Ret None else
      last ← usub 8 levels 1;
      if level =? last then Ret (Some (Z.land entry (BPage_addr_mask (psz G_CFG))))
      else get_walk n levels (level + 1) (Z.land entry (BPage_addr_mask (psz G_CFG))) va m
  end.

Definition get_pa (g : Glacier) (va : Z) (st : St) : outcome (option Z) :=
  let va := Z.land va page_mask in
  levels ← RvmCfg_levels G_CFG;
  get_walk (Z.to_nat levels) levels 0 (root_table g) va (m_mem st).

(** [_drop]: free the tables of the lower half, children first. *)
Fixpoint _drop (n : nat) (table level : Z) (st : St) : outcome St :=
  match n with
  | O => NoFuel
  | S n =>
      cnt ← RvmCfg_ent_cnt G_CFG level;
      let entries := if level =? 0 then Z.shiftr cnt 1 else cnt in
      levels ← RvmCfg_levels G_CFG;
      last ← usub 8 levels 1;
      st ← foldl (fun (acc : outcome St) i =>
             st ← acc;
             let entry := m_mem st (table + 8 * i) in
             if negb (Z.land entry (VALID flags) =? 0) && (level <? last) then
               level' ← uadd 8 level 1;
               _drop n (Z.land entry (BPage_addr_mask (psz G_CFG))) level' st
             else Ret st) (Ret st) (seqZ 0 entries);
      f ← fa_free_raw (m_fa st) table page_size;
      Ret (set_fa st f)
  end.

Definition Glacier_drop (g : Glacier) (st : St) : outcome St :=
  if negb (gl_is_init g) then Ret st else
  levels ← RvmCfg_levels G_CFG;
  _drop (Z.to_nat levels) (root_table g) 0 st.

(** [init]: identity map the RAM layout of the firmware.  The load of the
    root into the processor, [identity_map], is the last step of the code. *)
Fixpoint init_each (g : Glacier) (descs : list RAMDescriptor) (st : St) : outcome St :=
  match descs with
  | [] => Ret st
  | desc :: descs =>
      size ← umul 64 (desc_page_count desc) 0x1000;
      let addr := desc_phys_start desc in
      if bool_decide (desc_ty desc = MMIO) || bool_decide (desc_ty desc = MMIOPortSpace) then
        '(st, r) ← map_range g addr addr size (D_RW flags) st;
        match r with Ok _ => init_each g descs st | Err _ => Panic end
      else if bool_decide (desc_ty desc = Reserved) then init_each g descs st
      else
        '(st, r) ← map_range g addr addr size (K_RWX flags) st;
        match r with Ok _ => init_each g descs st | Err _ => Panic end
  end.

Definition glacier_init (layout : list RAMDescriptor) (st : St) : outcome (St * Glacier) :=
  '(st, g) ← Glacier_init st;
  st ← init_each g layout st;
  Ret (st, g).

(** [remap]: take the execute permission from everything that is RAM. *)
Fixpoint remap (g : Glacier) (descs : list RAMDescriptor) (st : St) : outcome St :=
  match descs with
  | [] => Ret st
  | desc :: descs =>
      size ← umul 64 (desc_page_count desc) 0x1000;
      if ty_in NON_RAM (desc_ty desc) then remap g descs st else
      '(st, r) ← map_range g (desc_phys_start desc) (desc_phys_start desc) size (K_RWO flags) st;
      match r with Ok _ => remap g descs st | Err _ => Panic end
  end.
End Glacier_ops.
