(* ===== verification/RvmRegs.v ===== *)
(** * RvmRegs: the registers of the address translation (arch/*/rvm.rs)

    Turning translation on, loading another tree, and what the architectures
    make of the words that the kernel puts into its tables. *)

From S2P Require Import Prelude Kargs Rvm RamUtil Physalloc Glacier.

(** ** AMD64 *)

Record CtrlRegs : Type := mkCtrl { cr0 : Z; cr3 : Z; cr4 : Z; efer : Z }.

(** [or eax, 0x30] clears the upper half of RAX; RDMSR and WRMSR keep the upper
    half of EFER in EDX. *)
Definition identity_map_amd64 (g : Glacier) (c : CtrlRegs) : CtrlRegs :=
  mkCtrl (Z.lor (cr0 c) 0x80000000) (root_table g) (Z.lor (ucast 32 (cr4 c)) 0x30)
    (Z.lor (Z.shiftl (Z.shiftr (efer c) 32) 32) (Z.lor (ucast 32 (efer c)) 0x900)).
Definition is_active_amd64 (g : Glacier) (c : CtrlRegs) : bool := cr3 c =? root_table g.
Definition activate_amd64 (g : Glacier) (c : CtrlRegs) : CtrlRegs := mkCtrl (cr0 c) (root_table g) (cr4 c) (efer c).

(** ** AArch64 *)

Record TransRegs : Type := mkTrans { mair : Z; tcr : Z; ttbr0 : Z; ttbr1 : Z; sctlr : Z }.

Definition mair_el1 : Z := Z.lor 0xff (Z.shiftl 0x00 8).
Definition identity_map_aarch64 `{Platform} (g : Glacier) (c : TransRegs) : TransRegs :=
  mkTrans mair_el1 (tcr_el1 G_CFG) (root_table g) (root_table g)
    (Z.lor (Z.lor (Z.lor (sctlr c) (Z.shiftl 1 0)) (Z.shiftl 1 2)) (Z.shiftl 1 12)).
Definition is_active_aarch64 (g : Glacier) (c : TransRegs) : bool := ttbr0 c =? root_table g.
Definition activate_aarch64 (g : Glacier) (c : TransRegs) : TransRegs :=
  mkTrans (mair c) (tcr c) (root_table g) (root_table g) (sctlr c).

(** ** What a table entry grants

    From the manuals.  The kernel and a program may read, write and execute;
    device memory is not cached and not reordered. *)
Record Rights : Type := mkRights { rr : bool; rw : bool; rx : bool }.
Record Grant : Type := mkGrant { g_kernel : Rights; g_user : Rights; g_device : bool }.

(** AMD64 with CR0.WP and EFER.NXE, and without SMEP and SMAP. *)
Definition grant_amd64 (e : Z) : Grant :=
  let w := Z.testbit e 1 in let u := Z.testbit e 2 in let x := negb (Z.testbit e 63) in
  mkGrant (mkRights true w x) (mkRights u (u && w) (u && x)) (Z.testbit e 4).

(** AArch64: AP[1] is bit 6, AP[2] is bit 7; a page that programs may write is
    not executable for the kernel; execution at EL0 needs UXN = 0 only. *)
Definition grant_aarch64 (mair e : Z) : Grant :=
  let u := Z.testbit e 6 in let w := negb (Z.testbit e 7) in
  let attr := Z.land (Z.shiftr mair (8 * Z.land (Z.shiftr e 2) 7)) 0xff in
  mkGrant (mkRights true w (negb (Z.testbit e 53) && negb (u && w))) (mkRights u (u && w) (negb (Z.testbit e 54))) (attr =? 0).

Definition ro : Rights := mkRights true false false.
Definition rwo : Rights := mkRights true true false.
Definition rox : Rights := mkRights true false true.
Definition rwx : Rights := mkRights true true true.
Definition none : Rights := mkRights false false false.
(** Executable and not readable. *)
Definition xo : Rights := mkRights false false true.

Lemma grants_amd64 :
  let gr := grant_amd64 in let f := flags_amd64 in
  gr (K_ROO f) = mkGrant ro none false /\ gr (K_RWO f) = mkGrant rwo none false /\
  gr (K_ROX f) = mkGrant rox none false /\ gr (K_RWX f) = mkGrant rwx none false /\
  gr (D_RO f) = mkGrant ro none true /\ gr (D_RW f) = mkGrant rwo none true /\
  gr (U_ROO f) = mkGrant ro ro false /\ gr (U_RWO f) = mkGrant rwo rwo false /\
  gr (U_ROX f) = mkGrant rox rox false /\ gr (U_RWX f) = mkGrant rwx rwx false.
Proof. vm_compute. split_and!; reflexivity. Qed.

(** On AArch64 the code of the kernel is executable for programs (UXN is
    clear), and read-only code of programs for the kernel (PXN is clear). *)
Lemma grants_aarch64 :
  let gr := grant_aarch64 mair_el1 in let f := flags_aarch64 in
  gr (K_ROO f) = mkGrant ro none false /\ gr (K_RWO f) = mkGrant rwo none false /\
  gr (K_ROX f) = mkGrant rox xo false /\ gr (K_RWX f) = mkGrant rwx xo false /\
  gr (D_RO f) = mkGrant ro none true /\ gr (D_RW f) = mkGrant rwo none true /\
  gr (U_ROO f) = mkGrant ro ro false /\ gr (U_RWO f) = mkGrant rwo rwo false /\
  gr (U_ROX f) = mkGrant rox rox false /\ gr (U_RWX f) = mkGrant rwo rwx false.
Proof. vm_compute. split_and!; reflexivity. Qed.

(** Whatever the architecture, for every kind of page that the kernel makes
    but code: the kernel may read it, may write exactly what is named
    writable, executes nothing; programs reach exactly the pages named for
    them, with the same rights; exactly the pages named so are device memory. *)
Inductive PageKind : Type := KernelRO | KernelRW | DeviceRO | DeviceRW | UserRO | UserRW.
Definition kind_flags (f : PteFlags) (k : PageKind) : Z :=
  match k with
  | KernelRO => K_ROO f | KernelRW => K_RWO f | DeviceRO => D_RO f | DeviceRW => D_RW f
  | UserRO => U_ROO f | UserRW => U_RWO f
  end.
Definition kind_grant (k : PageKind) : Grant :=
  match k with
  | KernelRO => mkGrant ro none false | KernelRW => mkGrant rwo none false
  | DeviceRO => mkGrant ro none true | DeviceRW => mkGrant rwo none true
  | UserRO => mkGrant ro ro false | UserRW => mkGrant rwo rwo false
  end.
Definition grant_of (a : Arch) (e : Z) : Grant :=
  match a with X86_64 => grant_amd64 e | AArch64 => grant_aarch64 mair_el1 e end.

(** The bits of an entry that name its rights are not those of the address, so
    a page grants what its flags grant, wherever it is. *)
Definition frame_bits (pa : Z) : Prop := exists k, 0 <= k < 2 ^ 36 /\ pa = Z.shiftl k 12.

Lemma frame_bit pa i : frame_bits pa -> i < 12 \/ 48 <= i -> Z.testbit pa i = false.
Proof.
  intros (k & Hk & ->) Hi. destruct (Z.ltb_spec i 0); [by apply Z.testbit_neg_r|].
  rewrite Z.shiftl_spec by lia. destruct Hi as [Hi|Hi]; [apply Z.testbit_neg_r; lia|].
  rewrite <- (Z.mod_small k (2 ^ 36)) by done. apply Z.mod_pow2_bits_high. lia.
Qed.

Lemma attr_bits pa e : frame_bits pa -> Z.land (Z.shiftr (Z.lor pa e) 2) 7 = Z.land (Z.shiftr e 2) 7.
Proof.
  intros Hp. apply Z.bits_inj'. intros i Hi. rewrite !Z.land_spec. change 7 with (Z.ones 3).
  rewrite Z.testbit_ones by lia. destruct (Z.ltb_spec i 3); [|by rewrite !andb_false_r].
  rewrite !Z.shiftr_spec, Z.lor_spec by lia. by rewrite frame_bit by (done || lia).
Qed.

Lemma grant_of_frame a pa e : frame_bits pa -> grant_of a (Z.lor pa e) = grant_of a e.
Proof.
  intros Hp. destruct a; unfold grant_of, grant_amd64, grant_aarch64; rewrite ?(attr_bits pa e Hp), !Z.lor_spec;
    by rewrite !(frame_bit pa) by (done || lia).
Qed.

(** Every page that the kernel maps for data or for a device, in its own half
    or for a program, grants on both architectures exactly what the name of
    its flags says, wherever its frame is. *)
Theorem data_grants a k pa : frame_bits pa -> grant_of a (Z.lor pa (kind_flags (flags_of a) k)) = kind_grant k.
Proof. intros Hp. rewrite grant_of_frame by done. destruct a, k; reflexivity. Qed.

(** ** Turning it on *)

Lemma identity_map_on g c :
  let c' := identity_map_amd64 g c in
  is_active_amd64 g c' = true /\ Z.testbit (cr0 c') 31 = true /\ Z.testbit (cr4 c') 5 = true /\ Z.testbit (efer c') 11 = true.
Proof.
  intros c'. unfold c', is_active_amd64, identity_map_amd64. cbn [cr0 cr3 cr4 efer].
  rewrite Z.eqb_refl, !Z.lor_spec. split_and!; [done|apply orb_true_r|apply orb_true_r|by rewrite orb_assoc, orb_true_r].
Qed.

Lemma activate_active g c : is_active_amd64 g (activate_amd64 g c) = true.
Proof. apply Z.eqb_refl. Qed.
Lemma activate_active_aarch64 g c : is_active_aarch64 g (activate_aarch64 g c) = true.
Proof. apply Z.eqb_refl. Qed.

(** [DS], bit 59 of TCR, is never set: without it a processor takes addresses
    of 52 bits in pages of 4 or 16 kiB for addresses of 48 bits, although
    [detect] chooses 52 where the processor could. *)
Lemma tcr_without_ds c : 0 <= va_bits c <= 64 -> Z.testbit (tcr_el1 c) 59 = false.
Proof.
  intros Hv. unfold tcr_el1.
  assert (Hb : forall x n, 0 <= x < 2 ^ n -> n <= 59 -> Z.testbit x 59 = false).
  { intros x n Hx Hn. destruct (Z.ltb_spec n 0); [rewrite Z.pow_neg_r in Hx by lia; lia|].
    rewrite <- (Z.mod_small x (2 ^ n)) by done. apply Z.mod_pow2_bits_high. lia. }
  assert (Hs : forall x s n, 0 <= s -> 0 <= x < 2 ^ n -> 0 <= n -> s + n <= 59 -> Z.testbit (Z.shiftl x s) 59 = false).
  { intros x s n H0 Hx Hn Hl. rewrite Z.shiftl_spec by lia. rewrite <- (Z.mod_small x (2 ^ n)) by done. apply Z.mod_pow2_bits_high. lia. }
  destruct (psz c); repeat match goal with |- context [if ?b then _ else _] => destruct b end;
    rewrite !Z.lor_spec, (Hb (64 - va_bits c) 7), (Hs (64 - va_bits c) 16 7) by lia; reflexivity.
Qed.
