(* ===== verification/GlacierSpec.v ===== *)
(** * GlacierSpec: the page tables implement a map from pages to entries

    The interface [FrameLaws] states what the page tables rely on of the
    frame allocator.  [Tree] relates the memory to a ghost map from index
    paths to table addresses; [slot] is the page-table entry of a page. *)

From S2P Require Import Prelude Kargs Rvm RamUtil Physalloc BlockTable RvmFacts Glacier.

(** What the client relies on: a frame that was not in use, aligned, which is
    in use afterwards until it is given back.  [fa_room] bounds the number of
    frames that can be given back before the next allocation. *)
Class FrameLaws `{Platform} (A : Type) `{FrameAlloc A} : Type := {
  fa_inv : A -> Prop;
  fa_taken : A -> Z -> Prop;
  fa_room : A -> Z;
  fa_alloc_law : forall a, fa_inv a ->
    exists a' r, fa_alloc a table_request = Ret (a', r) /\ fa_inv a' /\
      match r with
      | None => forall x, fa_taken a' x <-> fa_taken a x
      | Some q =>
          (page_size | op_ptr q) /\ 0 <= op_ptr q /\ op_ptr q + page_size <= 2 ^ 60 /\
          (forall x, in_range (op_ptr q) page_size x -> ~ fa_taken a x) /\
          (forall x, fa_taken a' x <-> fa_taken a x \/ in_range (op_ptr q) page_size x)
      end;
  fa_free_law : forall a p, fa_inv a -> 1 <= fa_room a -> 0 <= p ->
    p + page_size <= 2 ^ 60 ->
    (forall x, in_range p page_size x -> fa_taken a x) ->
    exists a', fa_free_raw a p page_size = Ret a' /\ fa_inv a' /\
      fa_room a - 1 <= fa_room a' /\
      (forall x, fa_taken a' x <-> fa_taken a x /\ ~ in_range p page_size x)
}.

Section Tree.
Context `{Platform} {A : Type} `{!FrameAlloc A} `{!FrameLaws A}.
Abbreviation St := (Machine A).
Abbreviation c := G_CFG.
Abbreviation L := (lv G_CFG).
Implicit Types (st : St) (p : list Z) (τ : gmap (list Z) Z).

Definition mask : Z := BPage_addr_mask (psz G_CFG).
Definition valid (e : Z) : bool := negb (Z.land e (VALID flags) =? 0).
Definition depth p : Z := Z.of_nat (length p).

(** The indices of an address, down to level [n]. *)
Definition path (n : nat) (va : Z) : list Z := (fun l => idx c l va) <$> seqZ 0 (Z.of_nat n).

Variable lim : Z.

(** The number of entries of a table that belong to the tree: in the root
    table, only the first [lim]. *)
Definition nents (l : Z) : Z := if l =? 0 then lim else 2 ^ bits c l.

Record Tree st (root : Z) τ : Prop := {
  t_root : τ !! [] = Some root;
  t_page : forall p t, τ !! p = Some t -> (page_size | t) /\ 0 <= t /\ t + page_size <= 2 ^ 60;
  t_taken : forall p t a, τ !! p = Some t -> in_range t page_size a -> fa_taken (m_fa st) a;
  t_inj : forall p p' t, τ !! p = Some t -> τ !! p' = Some t -> p = p';
  t_depth : forall p t, τ !! p = Some t -> depth p < L;
  t_parent : forall p i t, τ !! (p ++ [i]) = Some t ->
    is_Some (τ !! p) /\ 0 <= i < nents (depth p);
  t_entry : forall p t i, τ !! p = Some t -> depth p < L - 1 -> 0 <= i < nents (depth p) ->
    match τ !! (p ++ [i]) with
    | Some u => valid (m_mem st (t + 8 * i)) = true /\ Z.land (m_mem st (t + 8 * i)) mask = u
    | None => valid (m_mem st (t + 8 * i)) = false
    end
}.

(** The last-level entry at the end of a path; 0 when there is no table. *)
Definition slot st τ p (i : Z) : Z :=
  match τ !! p with Some t => m_mem st (t + 8 * i) | None => 0 end.

Definition in_tables τ (a : Z) : Prop := exists p t, τ !! p = Some t /\ in_range t page_size a.

Hypothesis Hcfg : cfg_ok c.
Hypothesis Hlim : 0 < lim <= 2 ^ bits c 0.

(** ** Pages and entries *)

Lemma page_size_shift : page_size = 2 ^ BPage_shift (psz c).
Proof. done. Qed.

Lemma nents_le l : 0 <= l < L -> nents l <= 2 ^ bits c l.
Proof. intros Hl. unfold nents. destruct (Z.eqb_spec l 0) as [->|]; lia. Qed.

Lemma entry_in_page p t i l :
  0 <= l < L -> 0 <= i < 2 ^ bits c l -> in_range t page_size (t + 8 * i).
Proof.
  intros Hl Hi. pose proof (idx_in_page c Hcfg l i Hl Hi).
  unfold in_range. rewrite page_size_shift. lia.
Qed.

Lemma page_disjoint t t' a :
  (page_size | t) -> (page_size | t') -> in_range t page_size a -> in_range t' page_size a ->
  t = t'.
Proof.
  intros [x ->] [y ->] Ha Hb. unfold in_range in *. pose proof page_size_pos as Hps.
  assert (x * page_size < (y + 1) * page_size) as H1 by lia.
  assert (y * page_size < (x + 1) * page_size) as H2 by lia.
  apply Z.mul_lt_mono_pos_r in H1, H2; [|done..]. f_equal. lia.
Qed.

Lemma tree_table_unique st root τ p p' t t' a :
  Tree st root τ -> τ !! p = Some t -> τ !! p' = Some t' ->
  in_range t page_size a -> in_range t' page_size a -> p = p' /\ t = t'.
Proof.
  intros HT Hp Hp' Ha Ha'.
  assert (t = t') as <- by (eapply page_disjoint; try done; by eapply t_page).
  split; [by eapply t_inj|done].
Qed.

Lemma path_succ n va : path (S n) va = path n va ++ [idx c (Z.of_nat n) va].
Proof.
  unfold path. by rewrite seqZ_S, fmap_app, Z.add_0_l.
Qed.

Lemma depth_path n va : depth (path n va) = Z.of_nat n.
Proof. unfold depth, path. rewrite length_fmap, length_seqZ. lia. Qed.

Lemma depth_app p i : depth (p ++ [i]) = depth p + 1.
Proof. unfold depth. rewrite length_app. simpl. lia. Qed.

Lemma path_eq n va va' :
  path n va = path n va' <-> (forall l, 0 <= l < Z.of_nat n -> idx c l va = idx c l va').
Proof.
  induction n as [|n IH].
  - split; [lia|done].
  - rewrite !path_succ. split.
    + intros [Hp Hi]%app_inj_tail l Hl. destruct (decide (l = Z.of_nat n)) as [->|]; [done|].
      apply IH; [done|lia].
    + intros Hl. f_equal; [apply IH; intros; apply Hl; lia|f_equal; apply Hl; lia].
Qed.

(** ** Frames: a tree depends on its own pages only *)

Lemma tree_frame st st' root τ :
  Tree st root τ -> (forall a, in_tables τ a -> m_mem st' a = m_mem st a) ->
  (forall a, in_tables τ a -> fa_taken (m_fa st') a) -> Tree st' root τ.
Proof.
  intros HT Hm Ht. destruct HT as [H1 H2 H3 H4 H5 H6 H7]. constructor; try done.
  - intros p t a Hp Ha. apply Ht. by exists p, t.
  - intros p t i Hp Hd Hi. specialize (H7 p t i Hp Hd Hi).
    rewrite Hm; [done|]. exists p, t. split; [done|].
    assert (0 <= depth p < L) as Hl by (unfold depth in *; lia).
    apply (entry_in_page p t i (depth p)); [done|]. pose proof (nents_le _ Hl). lia.
Qed.

Lemma slot_frame st st' root τ p i :
  Tree st root τ -> (forall a, in_tables τ a -> m_mem st' a = m_mem st a) ->
  depth p = L - 1 -> 0 <= i < 2 ^ bits c (L - 1) -> slot st' τ p i = slot st τ p i.
Proof.
  intros HT Hm Hd Hi. unfold slot. destruct (τ !! p) as [t|] eqn:Hp; [|done].
  apply Hm. exists p, t. split; [done|]. pose proof (lv_bounds c Hcfg) as [? _].
  apply (entry_in_page p t i (L - 1)); [lia|done].
Qed.

(** ** Entries *)

Lemma flags_facts : VALID flags = 1 /\ 0 <= NEXT flags < 2 ^ 12 /\ Z.land (NEXT flags) 1 = 1.
Proof. unfold flags. destruct target_arch; vm_compute; repeat split; discriminate. Qed.

Lemma valid_lor a b : valid (Z.lor a b) = valid a || valid b.
Proof.
  unfold valid. destruct flags_facts as [-> _]. rewrite Z.land_lor_distr_l.
  rewrite !(Z.land_ones _ 1) by lia. change (2 ^ 1) with 2.
  pose proof (Z.mod_pos_bound a 2 ltac:(lia)). pose proof (Z.mod_pos_bound b 2 ltac:(lia)).
  assert (a mod 2 = 0 \/ a mod 2 = 1) as [-> | ->] by lia;
  assert (b mod 2 = 0 \/ b mod 2 = 1) as [-> | ->] by lia; reflexivity.
Qed.

Lemma mask_page x : 0 <= x < 2 ^ 64 -> Z.land x mask = x / page_size * page_size.
Proof.
  intros Hx. pose proof (page_facts c) as [Hp _]. apply land_unot; [lia|done].
Qed.

Lemma mask_aligned q : (page_size | q) -> 0 <= q < 2 ^ 64 -> Z.land q mask = q.
Proof.
  intros [k ->] Hq. rewrite mask_page by done.
  rewrite Z.div_mul; [done|]. pose proof page_size_pos. lia.
Qed.

Lemma next_entry q :
  (page_size | q) -> 0 <= q < 2 ^ 64 ->
  valid (Z.lor q (NEXT flags)) = true /\ Z.land (Z.lor q (NEXT flags)) mask = q.
Proof.
  intros Hd Hq. destruct flags_facts as (Hv & Hn & Hn1). pose proof page_size_range. split.
  - rewrite valid_lor. unfold valid at 2. rewrite Hv, Hn1. apply orb_true_r.
  - rewrite Z.land_lor_distr_l, mask_aligned by done. rewrite mask_page by lia.
    rewrite Z.div_small by lia. apply Z.lor_0_r.
Qed.

Lemma valid_0 : valid 0 = false.
Proof. unfold valid. by rewrite Z.land_0_l. Qed.

(** ** [get_pa] reads the slot of the page *)

Definition in_lim (va : Z) : Prop := idx c 0 va < lim.

Lemma idx_nents l va : 0 <= l < L -> in_lim va -> 0 <= idx c l va < nents l.
Proof.
  intros Hl Hv. pose proof (idx_range c Hcfg l va Hl). unfold nents, in_lim in *.
  destruct (Z.eqb_spec l 0) as [->|]; lia.
Qed.

Lemma path_none st root τ k j va :
  Tree st root τ -> τ !! path k va = None -> (k <= j)%nat -> τ !! path j va = None.
Proof.
  intros HT Hk Hj. induction Hj as [|j Hj IH]; [done|]. rewrite path_succ.
  destruct (τ !! (path j va ++ _)) eqn:Hn; [|done].
  destruct (t_parent _ _ _ HT _ _ _ Hn) as [[??] _]. congruence.
Qed.

Definition leaf_path (va : Z) : list Z := path (Z.to_nat (L - 1)) va.

(** The page-table entry of an address. *)
Definition pte st τ (va : Z) : Z := slot st τ (leaf_path va) (idx c (L - 1) va).

Definition entry_pa (e : Z) : option Z := if valid e then Some (Z.land e mask) else None.

Lemma get_walk_spec n k va st root τ t :
  Tree st root τ -> in_lim va -> Z.of_nat n + Z.of_nat k = L -> (0 < n)%nat ->
  τ !! path k va = Some t ->
  get_walk n L (Z.of_nat k) t va (m_mem st) = Ret (entry_pa (pte st τ va)).
Proof.
  intros HT Hv. revert k t. induction n as [|n IH]; intros k t Hk Hn Ht; [lia|].
  pose proof (lv_bounds c Hcfg) as [? _].
  cbn [get_walk]. rewrite index_ok, Ret_bind by (done || lia).
  rewrite usub_ok by lia. fold mask.
  assert (forall e, (Z.land e (VALID flags) =? 0) = negb (valid e)) as Hve
    by (intros e; unfold valid; by rewrite negb_involutive).
  rewrite Hve.
  destruct (decide (Z.of_nat k = L - 1)) as [Hlast|Hlast].
  - assert (pte st τ va = m_mem st (t + 8 * idx c (Z.of_nat k) va)) as Hpte.
    { unfold pte, leaf_path, slot. rewrite <- Hlast, Nat2Z.id. by rewrite Ht. }
    unfold entry_pa. rewrite Hpte. destruct (valid _); [|done]. cbn [negb].
    rewrite Ret_bind. destruct (Z.eqb_spec (Z.of_nat k) (L - 1)); [done|lia].
  - pose proof (t_entry _ _ _ HT _ _ (idx c (Z.of_nat k) va) Ht) as He.
    rewrite depth_path, <- path_succ in He. specialize (He ltac:(lia) ltac:(apply idx_nents; [lia|done])).
    destruct (τ !! path (S k) va) as [u|] eqn:Hu.
    + destruct He as [-> ->]. cbn [negb]. rewrite Ret_bind.
      destruct (Z.eqb_spec (Z.of_nat k) (L - 1)); [lia|].
      rewrite <- (IH (S k) u) by (done || lia). do 2 f_equal; lia.
    + rewrite He. cbn [negb]. unfold entry_pa, pte, leaf_path, slot.
      rewrite (path_none st root τ (S k)) by (done || lia). by rewrite valid_0.
Qed.

Lemma page_va va : 0 <= va < 2 ^ 64 -> Z.land va page_mask = va / page_size * page_size.
Proof. apply mask_page. Qed.

Lemma vpn_masked va : 0 <= va < 2 ^ 64 -> vpn c (Z.land va page_mask) = vpn c va.
Proof. intros Hva. rewrite page_va by done. apply vpn_page. Qed.

Lemma leaf_path_vpn va va' : vpn c va = vpn c va' -> leaf_path va = leaf_path va'.
Proof.
  intros Hv. apply path_eq. intros l Hl. apply vpn_idx; [done|lia|done].
Qed.

Lemma pte_vpn st τ va va' : vpn c va = vpn c va' -> pte st τ va = pte st τ va'.
Proof.
  intros Hv. unfold pte. pose proof (lv_bounds c Hcfg) as [? _].
  by rewrite (leaf_path_vpn va va'), (vpn_idx c Hcfg va va' (L - 1)) by (done || lia).
Qed.

Lemma in_lim_vpn va va' : vpn c va = vpn c va' -> in_lim va -> in_lim va'.
Proof.
  intros Hv. unfold in_lim. pose proof (lv_bounds c Hcfg) as [? _].
  by rewrite (vpn_idx c Hcfg va va' 0) by (done || lia).
Qed.

Lemma get_pa_spec g st τ va :
  Tree st (root_table g) τ -> 0 <= va < 2 ^ 64 -> in_lim va ->
  get_pa g va st = Ret (entry_pa (pte st τ va)).
Proof.
  intros HT Hva Hl. pose proof (vpn_masked va Hva) as Hm. unfold get_pa.
  rewrite levels_ok, Ret_bind by done. pose proof (lv_bounds c Hcfg) as [? _].
  rewrite (get_walk_spec _ 0 _ st (root_table g) τ); [|done| |lia|lia|by eapply t_root].
  - by rewrite (pte_vpn st τ _ va).
  - by apply (in_lim_vpn va).
Qed.

(** Two pages share their entry only if they are the same page. *)
Lemma same_pte_vpn va va' :
  leaf_path va = leaf_path va' -> idx c (L - 1) va = idx c (L - 1) va' -> vpn c va = vpn c va'.
Proof.
  intros Hp Hi. pose proof (lv_bounds c Hcfg) as [? _]. apply vpn_inj; [done|].
  intros l Hl. destruct (decide (l = L - 1)) as [->|]; [done|].
  apply path_eq with (n := Z.to_nat (L - 1)); [done|lia].
Qed.

(** ** Growing the tree by a table *)

Definition linked st f (t i q : Z) : St :=
  mkMachine f (write_word (zero_bytes (m_mem st) q page_size) (t + 8 * i)
                 (Z.lor q (NEXT flags))) (m_flushed st).

Lemma linked_fresh st f t i q a :
  ~ in_range q page_size (t + 8 * i) -> in_range q page_size a -> m_mem (linked st f t i q) a = 0.
Proof.
  intros Hn Ha. unfold linked, write_word, zero_bytes. simpl.
  destruct (Z.eqb_spec a (t + 8 * i)) as [->|]; [done|]. unfold in_range in *.
  destruct (Z.leb_spec q a); [|lia]. destruct (Z.ltb_spec a (q + page_size)); [done|lia].
Qed.

Lemma linked_other st f t i q a :
  ~ in_range q page_size a -> a <> t + 8 * i -> m_mem (linked st f t i q) a = m_mem st a.
Proof.
  intros Ha Hn. unfold linked, write_word, zero_bytes. simpl.
  destruct (Z.eqb_spec a (t + 8 * i)) as [->|]; [done|]. unfold in_range in *.
  destruct (Z.leb_spec q a), (Z.ltb_spec a (q + page_size)); done || lia.
Qed.

Lemma linked_entry st f t i q : m_mem (linked st f t i q) (t + 8 * i) = Z.lor q (NEXT flags).
Proof. unfold linked, write_word. simpl. by rewrite Z.eqb_refl. Qed.

Section Extend.
Variables (st : St) (root : Z) (τ : gmap (list Z) Z) (p : list Z) (t i : Z) (f : A) (q : Z).
Hypothesis HT : Tree st root τ.
Hypothesis Hp : τ !! p = Some t.
Hypothesis Hd : depth p < L - 1.
Hypothesis Hi : 0 <= i < nents (depth p).
Hypothesis Hnone : τ !! (p ++ [i]) = None.
Hypothesis Hq : (page_size | q) /\ 0 <= q /\ q + page_size <= 2 ^ 60.
Hypothesis Hfresh : forall x, in_range q page_size x -> ~ fa_taken (m_fa st) x.
Hypothesis Htaken : forall x, fa_taken f x <-> fa_taken (m_fa st) x \/ in_range q page_size x.

Lemma extend_apart p' t' a : τ !! p' = Some t' -> in_range t' page_size a -> ~ in_range q page_size a.
Proof. intros Ht' Ha Hb. apply (Hfresh a Hb). by eapply t_taken. Qed.

Lemma extend_entry : in_range t page_size (t + 8 * i).
Proof.
  assert (0 <= depth p < L) as Hl by (unfold depth in *; lia).
  apply (entry_in_page p t i (depth p)); [done|]. pose proof (nents_le _ Hl). lia.
Qed.

(** An entry of another table, or another entry of this table. *)
Lemma extend_keep p' t' j :
  τ !! p' = Some t' -> depth p' < L -> 0 <= j < 2 ^ bits c (depth p') -> (p', j) <> (p, i) ->
  m_mem (linked st f t i q) (t' + 8 * j) = m_mem st (t' + 8 * j).
Proof.
  intros Hp' Hd' Hj Hne.
  assert (in_range t' page_size (t' + 8 * j)) as Hin.
  { apply (entry_in_page p' t' j (depth p')); [unfold depth in *; lia|done]. }
  apply linked_other; [by eapply extend_apart|]. intros Heq. apply Hne.
  pose proof extend_entry as He. rewrite <- Heq in He.
  destruct (tree_table_unique st root τ p' p t' t _ HT Hp' Hp Hin He) as [-> ->].
  f_equal. lia.
Qed.

Lemma tree_extend : Tree (linked st f t i q) root (<[p ++ [i] := q]> τ).
Proof.
  assert (forall p' t', <[p ++ [i] := q]> τ !! p' = Some t' ->
    (p' = p ++ [i] /\ t' = q) \/ (p' <> p ++ [i] /\ τ !! p' = Some t')) as Hcase.
  { intros p' t' [[<- <-]|[? ?]]%lookup_insert_Some; [by left|right; by split]. }
  assert (forall p' t', τ !! p' = Some t' -> t' <> q) as Hneq.
  { intros p' t' Hp' ->. apply (extend_apart p' q q Hp'); unfold in_range;
      pose proof page_size_pos; lia. }
  pose proof page_size_pos as Hps.
  constructor.
  - rewrite lookup_insert_ne by (by destruct p). by eapply t_root.
  - intros p' t' [[-> ->]|[_ Hp']]%Hcase; [done|by eapply t_page].
  - intros p' t' a [[-> ->]|[_ Hp']]%Hcase Ha; simpl; rewrite Htaken; [by right|left].
    by eapply t_taken.
  - intros p1 p2 u [[-> ->]|[_ H1]]%Hcase [[-> Hu]|[_ H2]]%Hcase; try done.
    + by destruct (Hneq p2 q).
    + subst u. by destruct (Hneq p1 q).
    + by eapply t_inj.
  - intros p' t' [[-> ->]|[_ Hp']]%Hcase; [rewrite depth_app; lia|by eapply t_depth].
  - intros p' j u Hu. destruct (Hcase _ _ Hu) as [[He _]|[_ Hpu]].
    + apply app_inj_tail in He as [-> ->]. split; [exists t|done].
      rewrite lookup_insert_ne; [done|]. intros He. apply (f_equal length) in He.
      rewrite length_app in He. simpl in He. lia.
    + destruct (t_parent _ _ _ HT _ _ _ Hpu) as [[v Hv] Hj]. split; [|done].
      destruct (decide (p' = p ++ [i])) as [->|]; [congruence|]. exists v.
      by rewrite lookup_insert_ne.
  - intros p' t' j Hpt Hdp Hj. assert (0 <= depth p' < L) as Hl by (unfold depth in *; lia).
    pose proof (nents_le _ Hl) as Hle.
    destruct (Hcase _ _ Hpt) as [[-> ->]|[Hne Hp']].
    + rewrite lookup_insert_ne.
      2: { intros He. apply (f_equal length) in He. rewrite !length_app in He. simpl in He. lia. }
      destruct (τ !! ((p ++ [i]) ++ [j])) as [u|] eqn:Hu.
      { destruct (t_parent _ _ _ HT _ _ _ Hu) as [[? ?] _]. congruence. }
      rewrite linked_fresh; [apply valid_0| |].
      * eapply extend_apart; [exact Hp|apply extend_entry].
      * apply (entry_in_page (p ++ [i]) q j (depth (p ++ [i]))); [done|lia].
    + pose proof (t_entry _ _ _ HT _ _ j Hp' Hdp Hj) as He.
      destruct (decide ((p', j) = (p, i))) as [[= -> ->]|Hpi].
      * assert (t' = t) as -> by congruence. rewrite lookup_insert_eq, linked_entry.
        apply next_entry; [by destruct Hq|lia].
      * rewrite lookup_insert_ne by (intros [? ?]%app_inj_tail; congruence).
        by rewrite (extend_keep p' t' j) by (done || lia).
Qed.

Lemma extend_slot p' j :
  depth p' = L - 1 -> 0 <= j < 2 ^ bits c (L - 1) ->
  slot (linked st f t i q) (<[p ++ [i] := q]> τ) p' j = slot st τ p' j.
Proof.
  intros Hd' Hj. unfold slot. pose proof (lv_bounds c Hcfg) as [? _].
  destruct (decide (p' = p ++ [i])) as [->|Hne].
  - rewrite lookup_insert_eq, Hnone. apply linked_fresh.
    + eapply extend_apart; [exact Hp|apply extend_entry].
    + apply (entry_in_page (p ++ [i]) q j (L - 1)); [lia|done].
  - rewrite lookup_insert_ne by done. destruct (τ !! p') as [t'|] eqn:Hp'; [|done].
    apply (extend_keep p'); [done|lia|by rewrite Hd'|]. intros [= -> ->]. lia.
Qed.
End Extend.
End Tree.
