(* ===== verification/GlacierThms.v ===== *)
(** * GlacierThms: mapping and unmapping pages *)

From S2P Require Import Prelude Kargs Rvm RamUtil Physalloc BlockTable RvmFacts Glacier GlacierSpec.

Section Map.
Context `{Platform} {A : Type} `{!FrameAlloc A} `{!FrameLaws A}.
Abbreviation St := (Machine A).
Abbreviation c := G_CFG.
Abbreviation L := (lv G_CFG).
Implicit Types (st : St) (p : list Z) (τ : gmap (list Z) Z).

Variable lim : Z.
Hypothesis Hcfg : cfg_ok c.
Hypothesis Hlim : 0 < lim <= 2 ^ bits c 0.
Abbreviation Tree := (Tree lim).

(** The invariant of an address space: the ghost map [τ] of its tables. *)
Record GInv (g : Glacier) st τ : Prop := {
  gi_tree : Tree st (root_table g) τ;
  gi_fa : fa_inv (m_fa st)
}.

(** What an operation on one tree may touch: its own tables and frames that
    were not in use. *)
Record evolves st τ st' τ' : Prop := {
  ev_mem : forall a, fa_taken (m_fa st) a -> ~ in_tables τ a -> m_mem st' a = m_mem st a;
  ev_taken : forall a, fa_taken (m_fa st) a -> ~ in_tables τ a -> fa_taken (m_fa st') a;
  ev_new : forall a, in_tables τ' a -> in_tables τ a \/ ~ fa_taken (m_fa st) a
}.

Lemma evolves_refl st τ : evolves st τ st τ.
Proof. constructor; auto. Qed.

Lemma evolves_trans st τ st1 τ1 st2 τ2 :
  evolves st τ st1 τ1 -> evolves st1 τ1 st2 τ2 -> evolves st τ st2 τ2.
Proof.
  intros [Hm1 Ht1 Hn1] [Hm2 Ht2 Hn2].
  assert (forall a, fa_taken (m_fa st) a -> ~ in_tables τ a -> ~ in_tables τ1 a) as Hout.
  { intros a Ha Hn Hb. by destruct (Hn1 a Hb). }
  constructor.
  - intros a Ha Hn. rewrite Hm2; auto.
  - auto.
  - intros a Ha. destruct (Hn2 a Ha) as [Hb|Hb]; [auto|].
    destruct (decide (Exists (fun pt : list Z * Z => in_range pt.2 page_size a) (map_to_list τ)))
      as [He|He].
    + left. apply Exists_exists in He as ([p t] & Hpt & Hin).
      apply elem_of_map_to_list in Hpt. by exists p, t.
    + right. intros Hta. apply Hb, Ht1; [done|]. intros (p & t & Hp & Hin). apply He.
      apply Exists_exists. exists (p, t). split; [by apply elem_of_map_to_list|done].
Qed.

(** Another address space on the same machine is not affected. *)
Lemma evolves_other st τ st' τ' root2 τ2 :
  evolves st τ st' τ' -> Tree st root2 τ2 ->
  (forall a, in_tables τ2 a -> ~ in_tables τ a) ->
  Tree st' root2 τ2 /\ (forall a, in_tables τ2 a -> ~ in_tables τ' a) /\
  forall va, pte st' τ2 va = pte st τ2 va.
Proof.
  intros [Hm Ht Hn] HT Hdis.
  assert (forall a, in_tables τ2 a -> fa_taken (m_fa st) a) as Htk
    by (intros a (p & t & Hp & Ha); by eapply t_taken).
  split_and!.
  - apply (tree_frame lim Hcfg Hlim st); [done|auto..].
  - intros a Ha Hb. destruct (Hn a Hb) as [Hc|Hc]; [by eapply Hdis|auto].
  - intros va. unfold pte. apply (slot_frame lim Hcfg st st' root2); [done|auto| |].
    + unfold leaf_path. rewrite depth_path. pose proof (lv_bounds c Hcfg). lia.
    + apply idx_range; [done|]. pose proof (lv_bounds c Hcfg). lia.
Qed.

(** What happens to the entries: one is written, if any. *)
Definition writes st τ st' τ' (va : Z) (w : option Z) : Prop :=
  forall p j, depth p = L - 1 -> 0 <= j < 2 ^ bits c (L - 1) ->
    slot st' τ' p j =
      match w with
      | Some w => if decide ((p, j) = (leaf_path va, idx c (L - 1) va)) then w else slot st τ p j
      | None => slot st τ p j
      end.

(** Writing the last-level entry. *)
Lemma write_leaf st root τ va t w :
  Tree st root τ -> in_lim lim va -> τ !! leaf_path va = Some t ->
  let st' := set_mem st (write_word (m_mem st) (t + 8 * idx c (L - 1) va) w) in
  Tree st' root τ /\ evolves st τ st' τ /\ writes st τ st' τ va (Some w).
Proof.
  intros HT Hv Ht st'. pose proof (lv_bounds c Hcfg) as [? _].
  assert (0 <= L - 1 < L) as HL by lia.
  pose proof (idx_range c Hcfg (L - 1) va HL) as Hi.
  assert (depth (leaf_path va) = L - 1) as Hdl by (unfold leaf_path; rewrite depth_path; lia).
  assert (in_range t page_size (t + 8 * idx c (L - 1) va)) as Hin
    by (apply (entry_in_page Hcfg (leaf_path va) t _ (L - 1)); [lia|done]).
  assert (forall p u j, τ !! p = Some u -> 0 <= j < 2 ^ bits c (depth p) ->
    (p, j) <> (leaf_path va, idx c (L - 1) va) ->
    m_mem st' (u + 8 * j) = m_mem st (u + 8 * j)) as Hkeep.
  { intros p u j Hp Hj Hne. unfold st', write_word. simpl.
    destruct (Z.eqb_spec (u + 8 * j) (t + 8 * idx c (L - 1) va)) as [He|]; [|done].
    exfalso. apply Hne. pose proof (t_depth _ _ _ _ HT _ _ Hp) as Hdp.
    assert (in_range u page_size (u + 8 * j)) as Hu
      by (apply (entry_in_page Hcfg p u j (depth p)); [unfold depth in *; lia|done]).
    rewrite He in Hu. destruct (tree_table_unique lim st root τ p _ u t _ HT Hp Ht Hu Hin) as [-> ->].
    f_equal. lia. }
  split_and!.
  - destruct HT as [H1 H2 H3 H4 H5 H6 H7]. constructor; try done.
    intros p u j Hp Hd Hj. specialize (H7 p u j Hp Hd Hj).
    assert (0 <= depth p < L) as Hl by (unfold depth in *; lia).
    pose proof (nents_le lim Hlim _ Hl). rewrite (Hkeep p); [done..|lia|].
    intros [= -> ->]. lia.
  - constructor; [|done|auto]. intros a Ha Hn. unfold st', write_word. simpl.
    destruct (Z.eqb_spec a (t + 8 * idx c (L - 1) va)) as [->|]; [|done].
    destruct Hn. by exists (leaf_path va), t.
  - intros p j Hd Hj. unfold slot. case_decide as He.
    + injection He as -> ->. rewrite Ht. unfold st', write_word. simpl. by rewrite Z.eqb_refl.
    + destruct (τ !! p) as [u|] eqn:Hp; [|done]. apply (Hkeep p); [done|by rewrite Hd|done].
Qed.

Lemma writes_trans st τ st1 τ1 st2 τ2 va w :
  writes st τ st1 τ1 va None -> writes st1 τ1 st2 τ2 va w -> writes st τ st2 τ2 va w.
Proof.
  intros H1 H2 p j Hd Hj. rewrite (H2 p j Hd Hj). destruct w; [case_decide; [done|]|]; auto.
Qed.

(** A new table on the way. *)
Lemma extend_step st root τ k va t f q :
  Tree st root τ -> in_lim lim va -> Z.of_nat k < L - 1 -> τ !! path k va = Some t ->
  τ !! path (S k) va = None ->
  (page_size | q) /\ 0 <= q /\ q + page_size <= 2 ^ 60 ->
  (forall x, in_range q page_size x -> ~ fa_taken (m_fa st) x) ->
  (forall x, fa_taken f x <-> fa_taken (m_fa st) x \/ in_range q page_size x) ->
  let st1 := linked st f t (idx c (Z.of_nat k) va) q in
  let τ1 := <[path (S k) va := q]> τ in
  Tree st1 root τ1 /\ evolves st τ st1 τ1 /\ writes st τ st1 τ1 va None.
Proof.
  intros HT Hv Hk Ht Hu Hq Hfresh Htk st1 τ1. pose proof (lv_bounds c Hcfg) as [? _].
  assert (0 <= idx c (Z.of_nat k) va < nents lim (depth (path k va))) as Hi
    by (rewrite depth_path; apply idx_nents; [done|lia|done]).
  assert (depth (path k va) < L - 1) as Hd by (rewrite depth_path; lia).
  unfold τ1, st1. rewrite path_succ in *. split_and!.
  - by apply tree_extend.
  - constructor.
    + intros a Ha Hn. apply linked_other; [intros Hb; by apply (Hfresh a)|]. intros ->.
      apply Hn. exists (path k va), t. split; [done|]. eapply (extend_entry lim); done.
    + intros a Ha _. simpl. apply Htk. by left.
    + intros a (p & v & Hp & Ha). apply lookup_insert_Some in Hp as [[_ <-]|[_ Hp]].
      * right. by apply Hfresh.
      * left. by exists p, v.
  - intros p j Hp Hj. by eapply (extend_slot lim).
Qed.

(** The result of the walk of [map_page]. *)
Definition map_post st τ va w (st' : St) (r : result GlacierErr unit) root : Prop :=
  exists τ', Tree st' root τ' /\ fa_inv (m_fa st') /\ τ ⊆ τ' /\ evolves st τ st' τ' /\
    m_flushed st' = m_flushed st /\
    match r with
    | Ok _ => writes st τ st' τ' va (Some w) /\ is_Some (τ' !! leaf_path va)
    | Err _ => writes st τ st' τ' va None
    end.

Lemma map_walk_spec n k st root τ t va pa fl :
  Tree st root τ -> fa_inv (m_fa st) -> in_lim lim va -> Z.of_nat n + Z.of_nat k = L ->
  (0 < n)%nat -> τ !! path k va = Some t ->
  exists st' r, map_walk n L (Z.of_nat k) t va pa fl st = Ret (st', r) /\
    map_post st τ va (Z.lor pa fl) st' r root.
Proof.
  intros HT Hfa Hv. pose proof (lv_bounds c Hcfg) as [? _].
  revert k st τ t HT Hfa. induction n as [|n IH]; intros k st τ t HT Hfa Hk Hn Ht; [lia|].
  cbn [map_walk]. rewrite index_ok, Ret_bind by (done || lia). rewrite usub_ok, Ret_bind by lia.
  destruct (Z.eqb_spec (Z.of_nat k) (L - 1)) as [Hlast|Hlast].
  - assert (τ !! leaf_path va = Some t) as Hleaf
      by (unfold leaf_path; rewrite <- Hlast, Nat2Z.id; done).
    destruct (write_leaf st root τ va t (Z.lor pa fl) HT Hv Hleaf) as (HT' & He & Hw).
    rewrite Hlast. eexists _, _. split; [done|]. exists τ. by split_and!.
  - assert (0 <= idx c (Z.of_nat k) va < nents lim (Z.of_nat k)) as Hi
      by (apply idx_nents; [done|lia|done]).
    pose proof (t_entry _ _ _ _ HT _ _ (idx c (Z.of_nat k) va) Ht) as He.
    rewrite depth_path, <- path_succ in He. specialize (He ltac:(lia) Hi). fold mask.
    set (entry := t + 8 * idx c (Z.of_nat k) va) in *.
    assert ((Z.land (m_mem st entry) (VALID flags) =? 0) = negb (valid (m_mem st entry))) as ->
      by (unfold valid; by rewrite negb_involutive).
    replace (Z.of_nat k + 1) with (Z.of_nat (S k)) by lia.
    destruct (τ !! path (S k) va) as [u|] eqn:Hu.
    + destruct He as [-> ->]. cbn [negb]. apply IH; done || lia.
    + rewrite He. cbn [negb].
      destruct (fa_alloc_law (m_fa st) Hfa) as (f & r & -> & Hf & Hr). rewrite Ret_bind.
      destruct r as [q|].
      * destruct Hr as (Hq1 & Hq2 & Hq3 & Hfresh & Htk).
        fold (linked st f t (idx c (Z.of_nat k) va) (op_ptr q)).
        destruct (extend_step st root τ k va t f (op_ptr q)) as (HT1 & Hev & Hw); [done..|lia|done|done|done|done|done|].
        destruct (IH (S k) _ _ (op_ptr q) HT1) as (st' & r & Hrun & τ' & HT' & Hf' & Hsub & Hev' & Hfl & Hr);
          [done|lia|lia|by rewrite lookup_insert_eq|].
        exists st', r. split; [exact Hrun|]. exists τ'. split_and!; [done|done| |by eapply evolves_trans|done|].
        -- etrans; [|exact Hsub]. by apply insert_subseteq.
        -- destruct r; [destruct Hr as [Hr ?]; split; [|done]|]; by eapply writes_trans.
      * eexists _, _. split; [done|]. exists τ. split_and!; try done.
        -- apply (tree_frame lim Hcfg Hlim st); [done|done|]. intros a (p & v & Hp & Ha).
           simpl. apply Hr. by eapply t_taken.
        -- constructor; [done| |auto]. intros a Ha _. simpl. by apply Hr.
Qed.

(** ** The entries of all pages *)

Lemma writes_pte st τ st' τ' va w va' :
  writes st τ st' τ' va w ->
  pte st' τ' va' =
    match w with
    | Some w => if decide (vpn c va' = vpn c va) then w else pte st τ va'
    | None => pte st τ va'
    end.
Proof.
  intros Hw. pose proof (lv_bounds c Hcfg) as [? _]. assert (0 <= L - 1 < L) as HL by lia.
  unfold pte. rewrite (Hw (leaf_path va') (idx c (L - 1) va')).
  - destruct w as [w|]; [|done]. case_decide as Hd.
    + injection Hd as Hp Hi. rewrite decide_True; [done|]. by apply same_pte_vpn.
    + rewrite decide_False; [done|]. intros Hv. apply Hd.
      by rewrite (leaf_path_vpn Hcfg va' va Hv), (vpn_idx c Hcfg va' va (L - 1) HL Hv).
  - unfold leaf_path. rewrite depth_path. lia.
  - by apply idx_range.
Qed.

Lemma Tree_ext st st' root τ :
  m_fa st' = m_fa st -> m_mem st' = m_mem st -> Tree st root τ -> Tree st' root τ.
Proof.
  intros Hf Hm HT. apply (tree_frame lim Hcfg Hlim st); [done|by intros; rewrite Hm|].
  intros a (p & t & Hp & Ha). rewrite Hf. by eapply t_taken.
Qed.

Lemma evolves_ext st τ st1 st2 τ' :
  m_fa st2 = m_fa st1 -> m_mem st2 = m_mem st1 -> evolves st τ st1 τ' -> evolves st τ st2 τ'.
Proof. intros Hf Hm [H1 H2 H3]. constructor; rewrite ?Hf, ?Hm; done. Qed.

Lemma pte_ext st st' τ va : m_mem st' = m_mem st -> pte st' τ va = pte st τ va.
Proof. intros Hm. unfold pte, slot. by rewrite Hm. Qed.

(** The flushes that one page costs. *)
Definition flush_trace (va : Z) : list Z :=
  match target_arch with X86_64 => [] | AArch64 => [va / page_size] end.

Lemma flush_ok st va :
  exists st', Glacier_flush st va = Ret st' /\ m_fa st' = m_fa st /\ m_mem st' = m_mem st /\
    m_flushed st' = m_flushed st ++ flush_trace va.
Proof.
  unfold Glacier_flush, flush_trace. destruct target_arch.
  - exists st. by rewrite app_nil_r.
  - pose proof (page_facts c) as [? _]. rewrite ushr_ok, Ret_bind by lia. by eexists.
Qed.

(** What an operation that writes the entries of one page means for the
    translation of every address. *)
Definition translates g st st' (va : Z) (w : option Z) : Prop :=
  forall va', 0 <= va' < 2 ^ 64 -> in_lim lim va' ->
    get_pa g va' st' =
      match w with
      | Some w => if decide (vpn c va' = vpn c va) then Ret (entry_pa w) else get_pa g va' st
      | None => get_pa g va' st
      end.

Lemma writes_translates g st τ st' τ' va w :
  Tree st (root_table g) τ -> Tree st' (root_table g) τ' ->
  writes st τ st' τ' va w -> translates g st st' va w.
Proof.
  intros HT HT' Hw va' Hva Hl. rewrite (get_pa_spec lim Hcfg g st' τ' va') by done.
  rewrite (get_pa_spec lim Hcfg g st τ va') by done.
  rewrite (writes_pte _ _ _ _ _ _ va' Hw). destruct w; [|done]. by case_decide.
Qed.

Lemma map_page_run g st τ va pa fl :
  GInv g st τ -> 0 <= va < 2 ^ 64 -> in_lim lim va ->
  exists st' r τ', map_page g va pa fl st = Ret (st', r) /\ GInv g st' τ' /\ τ ⊆ τ' /\
    evolves st τ st' τ' /\
    m_flushed st' = m_flushed st ++ (if r is Ok _ then flush_trace (Z.land va page_mask) else []) /\
    writes st τ st' τ' va (if r is Ok _ then Some (Z.lor (Z.land pa page_mask) fl) else None).
Proof.
  intros [HT Hfa] Hva Hv. pose proof (lv_bounds c Hcfg) as [? _].
  pose proof (vpn_masked va Hva) as Hm. unfold map_page.
  rewrite levels_ok, Ret_bind by done.
  destruct (map_walk_spec (Z.to_nat L) 0 st (root_table g) τ (root_table g)
    (Z.land va page_mask) (Z.land pa page_mask) fl HT Hfa) as
    (st1 & r & Hrun & τ' & HT' & Hf' & Hsub & Hev & Hfl & Hr);
    [by apply (in_lim_vpn lim Hcfg va)|lia|lia|by eapply t_root|].
  change (Z.of_nat 0) with 0 in Hrun. rewrite Hrun.
  assert (forall w, writes st τ st1 τ' (Z.land va page_mask) w -> writes st τ st1 τ' va w) as Hww.
  { intros w Hw p j Hp Hj. rewrite (Hw p j Hp Hj).
    assert (0 <= L - 1 < L) as HL by lia.
    by rewrite (leaf_path_vpn Hcfg _ va Hm), (vpn_idx c Hcfg _ va (L - 1) HL Hm). }
  rewrite Ret_bind. destruct r as [u|e].
  - destruct Hr as [Hr _]. destruct (flush_ok st1 (Z.land va page_mask)) as (st2 & -> & Hf2 & Hm2 & Hfl2).
    rewrite Ret_bind. exists st2, (Ok ()), τ'. split; [done|]. split_and!.
    + constructor; [by apply (Tree_ext st1)|by rewrite Hf2].
    + done.
    + by apply (evolves_ext _ _ st1).
    + by rewrite Hfl2, Hfl.
    + intros p j Hp Hj. rewrite <- (Hww _ Hr p j Hp Hj). unfold slot. by rewrite Hm2.
  - exists st1, (Err e), τ'. split; [done|]. split_and!; [done..|by rewrite app_nil_r|auto].
Qed.

(** [map_page] returns on every state of the tables.  On success the
    page translates to the frame and flags it was given (for every address
    of the page), a flush of the page was issued, and no other page changes;
    when a table cannot be allocated the error is returned and no
    translation changes at all, whatever tables were already added. *)
Theorem map_page_spec g st τ va pa fl :
  GInv g st τ -> 0 <= va < 2 ^ 64 -> in_lim lim va ->
  exists st' r τ', map_page g va pa fl st = Ret (st', r) /\ GInv g st' τ' /\
    match r with
    | Ok _ => translates g st st' va (Some (Z.lor (Z.land pa page_mask) fl)) /\
              m_flushed st' = m_flushed st ++ flush_trace (Z.land va page_mask)
    | Err Failed2Alloc => translates g st st' va None
    end.
Proof.
  intros HG Hva Hv.
  destruct (map_page_run g st τ va pa fl HG Hva Hv) as (st' & r & τ' & Hr & HG' & _ & _ & Hfl & Hw).
  exists st', r, τ'. split_and!; [done..|]. destruct HG as [HT _]. pose proof (gi_tree _ _ _ HG').
  destruct r as [u|[]]; [split; [|done]|]; by eapply writes_translates.
Qed.

(** operations on one address space do not reach another one on the same
    machine: a second tree whose tables are disjoint keeps its invariant,
    stays disjoint, and translates every address as before. *)
Theorem map_page_isolated g st τ va pa fl g2 τ2 st' r :
  GInv g st τ -> GInv g2 st τ2 -> (forall a, in_tables τ2 a -> ~ in_tables τ a) ->
  0 <= va < 2 ^ 64 -> in_lim lim va -> map_page g va pa fl st = Ret (st', r) ->
  GInv g2 st' τ2 /\
  (exists τ', GInv g st' τ' /\ forall a, in_tables τ2 a -> ~ in_tables τ' a) /\
  forall va', 0 <= va' < 2 ^ 64 -> in_lim lim va' -> get_pa g2 va' st' = get_pa g2 va' st.
Proof.
  intros HG HG2 Hdis Hva Hv Hr.
  destruct (map_page_run g st τ va pa fl HG Hva Hv) as (st1 & r1 & τ' & Hr1 & HG' & _ & Hev & _).
  assert (st1 = st') as -> by congruence. destruct HG2 as [HT2 Hf2].
  destruct (evolves_other st τ st' τ' (root_table g2) τ2 Hev HT2 Hdis) as (HT2' & Hdis' & Hpte).
  split_and!.
  - constructor; [done|by apply HG'].
  - by exists τ'.
  - intros va' Hva' Hl. rewrite !(get_pa_spec lim Hcfg g2 _ τ2) by done. by rewrite Hpte.
Qed.

(** ** Unmapping *)

Lemma is_tbl_null_spec m t n :
  is_tbl_null m t n = true -> forall i, 0 <= i < n -> m (t + 8 * i) = 0.
Proof.
  intros Hn i Hi. unfold is_tbl_null in Hn. rewrite forallb_forall in Hn.
  apply Z.eqb_eq, Hn, list_elem_of_In, elem_of_seqZ. lia.
Qed.

Section Remove.
Variables (st : St) (root : Z) (τ : gmap (list Z) Z) (p : list Z) (t i q : Z) (f : A).
Hypothesis HT : Tree st root τ.
Hypothesis Hp : τ !! p = Some t.
Hypothesis Hd : depth p < L - 1.
Hypothesis Hi : 0 <= i < nents lim (depth p).
Hypothesis Hq : τ !! (p ++ [i]) = Some q.
Hypothesis Hzero : forall j, 0 <= j < 2 ^ bits c (depth p + 1) -> m_mem st (q + 8 * j) = 0.
Hypothesis Htaken : forall x, fa_taken f x <-> fa_taken (m_fa st) x /\ ~ in_range q page_size x.

Definition unlinked : St :=
  mkMachine f (write_word (m_mem st) (t + 8 * i) 0) (m_flushed st).

Lemma remove_childless j : τ !! ((p ++ [i]) ++ [j]) = None.
Proof.
  destruct (τ !! ((p ++ [i]) ++ [j])) as [u|] eqn:Hu; [exfalso|done].
  pose proof (t_depth _ _ _ _ HT _ _ Hu) as Hdu. rewrite depth_app in Hdu.
  destruct (t_parent _ _ _ _ HT _ _ _ Hu) as [_ Hj].
  pose proof (t_entry _ _ _ _ HT _ _ j Hq) as He. rewrite depth_app in *.
  specialize (He ltac:(lia) Hj). rewrite Hu in He. destruct He as [He _].
  assert (0 <= depth p + 1 < L) as Hl by (unfold depth in *; lia).
  pose proof (nents_le lim Hlim _ Hl). rewrite Hzero in He by lia. by rewrite valid_0 in He.
Qed.

Lemma remove_keep p' t' j :
  τ !! p' = Some t' -> 0 <= j < 2 ^ bits c (depth p') -> (p', j) <> (p, i) ->
  m_mem unlinked (t' + 8 * j) = m_mem st (t' + 8 * j).
Proof.
  intros Hp' Hj Hne. unfold unlinked, write_word. simpl.
  destruct (Z.eqb_spec (t' + 8 * j) (t + 8 * i)) as [He|]; [exfalso; apply Hne|done].
  pose proof (t_depth _ _ _ _ HT _ _ Hp') as Hd'.
  assert (in_range t' page_size (t' + 8 * j)) as Hin'
    by (apply (entry_in_page Hcfg p' t' j (depth p')); [unfold depth in *; lia|done]).
  pose proof (extend_entry lim Hcfg Hlim p t i Hd Hi) as Hin. rewrite <- He in Hin.
  destruct (tree_table_unique lim st root τ p' p t' t _ HT Hp' Hp Hin' Hin) as [-> ->].
  f_equal. lia.
Qed.

Lemma tree_remove : Tree unlinked root (delete (p ++ [i]) τ).
Proof.
  constructor.
  - rewrite lookup_delete_ne by (by destruct p). by eapply t_root.
  - intros p' t' [_ Hp']%lookup_delete_Some. by eapply t_page.
  - intros p' t' a [Hne Hp']%lookup_delete_Some Ha. simpl. apply Htaken.
    split; [by eapply t_taken|]. intros Hb.
    destruct (tree_table_unique lim st root τ p' _ t' q a HT Hp' Hq Ha Hb). congruence.
  - intros p1 p2 u [_ H1]%lookup_delete_Some [_ H2]%lookup_delete_Some. by eapply t_inj.
  - intros p' t' [_ Hp']%lookup_delete_Some. by eapply t_depth.
  - intros p' j u [Hne Hu]%lookup_delete_Some.
    destruct (t_parent _ _ _ _ HT _ _ _ Hu) as [[v Hv] Hj]. split; [|done]. exists v.
    rewrite lookup_delete_ne; [done|]. intros <-. rewrite remove_childless in Hu. done.
  - intros p' t' j [Hne Hp']%lookup_delete_Some Hdp Hj.
    pose proof (t_entry _ _ _ _ HT _ _ j Hp' Hdp Hj) as He.
    assert (0 <= depth p' < L) as Hl by (unfold depth in *; lia).
    pose proof (nents_le lim Hlim _ Hl).
    destruct (decide ((p', j) = (p, i))) as [[= -> ->]|Hpi].
    + rewrite lookup_delete_eq. assert (t' = t) as -> by congruence.
      unfold unlinked, write_word. simpl. rewrite Z.eqb_refl. apply valid_0.
    + rewrite lookup_delete_ne by (intros [? ?]%app_inj_tail; congruence).
      by rewrite (remove_keep p') by (done || lia).
Qed.

Lemma remove_evolves : evolves st τ unlinked (delete (p ++ [i]) τ).
Proof.
  constructor.
  - intros a Ha Hn. unfold unlinked, write_word. simpl.
    destruct (Z.eqb_spec a (t + 8 * i)) as [->|]; [|done]. destruct Hn. exists p, t.
    split; [done|]. by apply (extend_entry lim Hcfg Hlim p).
  - intros a Ha Hn. simpl. apply Htaken. split; [done|]. intros Hb. apply Hn. by exists (p ++ [i]), q.
  - intros a (p' & t' & [_ Hp']%lookup_delete_Some & Ha). left. by exists p', t'.
Qed.

Lemma remove_slot p' j :
  depth p' = L - 1 -> 0 <= j < 2 ^ bits c (L - 1) ->
  slot unlinked (delete (p ++ [i]) τ) p' j = slot st τ p' j.
Proof.
  intros Hd' Hj. unfold slot. destruct (decide (p' = p ++ [i])) as [->|Hne].
  - rewrite lookup_delete_eq, Hq. symmetry. apply Hzero. rewrite depth_app in Hd'. by rewrite Hd'.
  - rewrite lookup_delete_ne by done. destruct (τ !! p') as [t'|] eqn:Hp'; [|done].
    apply (remove_keep p'); [done|by rewrite Hd'|]. intros [= -> ->]. lia.
Qed.
End Remove.

(** The tables that an operation gave back: each cost one entry of the
    allocator at most, and was a table on the way to [va]. *)
Record gave_back st τ st' τ' (va : Z) : Prop := {
  gb_sub : τ' ⊆ τ;
  gb_room : fa_room (m_fa st) - (Z.of_nat (size τ) - Z.of_nat (size τ')) <= fa_room (m_fa st');
  gb_way : forall p, is_Some (τ !! p) -> τ' !! p = None -> exists j, p = path j va
}.

Lemma gave_back_none st τ st' va : m_fa st' = m_fa st -> gave_back st τ st' τ va.
Proof. intros Hf. constructor; [done|rewrite Hf; lia|]. intros p [t Hp] Hn. congruence. Qed.

Definition unmap_post st τ va k t (st' : St) (b : bool) root : Prop :=
  exists τ', Tree st' root τ' /\ fa_inv (m_fa st') /\ gave_back st τ st' τ' va /\
    τ' !! path k va = Some t /\
    evolves st τ st' τ' /\ fa_room (m_fa st) - (L - 1 - Z.of_nat k) <= fa_room (m_fa st') /\
    writes st τ st' τ' va (Some 0) /\
    (b = true -> forall i, 0 <= i < 2 ^ bits c (Z.of_nat k) -> m_mem st' (t + 8 * i) = 0) /\
    (exists fl, m_flushed st' = m_flushed st ++ fl /\
       (is_Some (τ !! leaf_path va) -> flush_trace va ⊆ fl)).

(** The page was not mapped: there is no table for it. *)
Lemma unmap_absent k st root τ t va :
  Tree st root τ -> fa_inv (m_fa st) -> Z.of_nat k < L - 1 -> τ !! path k va = Some t ->
  τ !! path (S k) va = None -> unmap_post st τ va k t st false root.
Proof.
  intros HT Hfa Hk Ht Hu. exists τ.
  assert (τ !! leaf_path va = None) as Hleaf by (eapply (path_none lim); [done|exact Hu|lia]).
  split_and!; [done..|by apply gave_back_none|done|apply evolves_refl|lia| |done|].
  - intros p j Hp Hj. case_decide as He; [|done]. injection He as -> ->.
    unfold slot. by rewrite Hleaf.
  - exists []. split; [by rewrite app_nil_r|]. rewrite Hleaf. by intros [? ?].
Qed.

(** The child kept an entry: nothing changes at this level. *)
Lemma unmap_kept k st root τ t u va st' :
  τ !! path k va = Some t ->
  unmap_post st τ va (S k) u st' false root -> unmap_post st τ va k t st' false root.
Proof.
  intros Ht (τ' & HT' & Hfa' & Hgb & Hu' & Hev & Hroom & Hw & _ & Hfl).
  pose proof (gb_sub _ _ _ _ _ Hgb) as Hsub.
  exists τ'. split_and!; try done; [|lia]. rewrite path_succ in Hu'.
  destruct (t_parent _ _ _ _ HT' _ _ _ Hu') as [[v Hv] _].
  pose proof (lookup_weaken _ _ _ _ Hv Hsub). congruence.
Qed.

(** The child is empty: it is unlinked and freed. *)
Lemma unmap_freed k st root τ t u va st1 :
  in_lim lim va -> Z.of_nat k < L - 1 -> L - 1 - Z.of_nat k <= fa_room (m_fa st) ->
  τ !! path k va = Some t -> τ !! path (S k) va = Some u ->
  unmap_post st τ va (S k) u st1 true root ->
  exists st2, (let st1' := set_mem st1 (write_word (m_mem st1) (t + 8 * idx c (Z.of_nat k) va) 0) in
     f ← fa_free_raw (m_fa st1') u page_size; Glacier_flush (set_fa st1' f) va) = Ret st2 /\
    forall b, (b = true -> forall i, 0 <= i < 2 ^ bits c (Z.of_nat k) -> m_mem st2 (t + 8 * i) = 0) ->
      unmap_post st τ va k t st2 b root.
Proof.
  intros Hv Hk Hroom0 Ht Hu (τ' & HT' & Hfa' & [Hsub Hgr Hgw] & Hu' & Hev & Hroom & Hw & Hz & fl & Hfl & Hin).
  specialize (Hz eq_refl). cbn zeta. simpl m_fa.
  destruct (t_page _ _ _ _ HT' _ _ Hu') as (_ & Hu0 & Hu1).
  destruct (fa_free_law (m_fa st1) u) as (f & -> & Hf & Hroomf & Htk); [done|lia|done|done| |].
  { intros x Hx. by eapply t_taken. }
  rewrite Ret_bind. set (i := idx c (Z.of_nat k) va) in *.
  change (set_fa _ f) with (unlinked st1 t i f).
  destruct (flush_ok (unlinked st1 t i f) va) as (st2 & -> & Hf2 & Hm2 & Hfl2).
  exists st2. split; [done|]. intros b Hb. rewrite path_succ in Hu'.
  assert (τ' !! path k va = Some t) as Ht'.
  { destruct (t_parent _ _ _ _ HT' _ _ _ Hu') as [[v Hvv] _].
    pose proof (lookup_weaken _ _ _ _ Hvv Hsub). congruence. }
  assert (depth (path k va) < L - 1) as Hd by (rewrite depth_path; lia).
  assert (0 <= i < nents lim (depth (path k va))) as Hi
    by (rewrite depth_path; apply idx_nents; [done|lia|done]).
  assert (forall j, 0 <= j < 2 ^ bits c (depth (path k va) + 1) -> m_mem st1 (u + 8 * j) = 0) as Hz'.
  { intros j Hj. apply Hz. rewrite depth_path in Hj. rewrite Nat2Z.inj_succ, <- Z.add_1_r. done. }
  exists (delete (path k va ++ [i]) τ'). split_and!.
  - apply (Tree_ext (unlinked st1 t i f)); [done..|]. by apply (tree_remove st1 root τ' (path k va) t i u f).
  - by rewrite Hf2.
  - constructor; [etrans; [apply delete_subseteq|done]| |].
    + rewrite Hf2, map_size_delete_Some by done. simpl.
      assert (size τ' <> 0)%nat; [|lia]. intros H0%map_size_empty_inv. by rewrite H0 in Hu'.
    + intros p Hp [<-|Hd']%lookup_delete_None; [|by apply Hgw].
      exists (S k). by rewrite path_succ.
  - rewrite lookup_delete_ne; [done|]. intros He%(f_equal length).
    rewrite length_app in He. simpl in He. lia.
  - apply (evolves_ext _ _ (unlinked st1 t i f)); [done..|]. eapply evolves_trans; [exact Hev|].
    by apply (remove_evolves st1 τ' (path k va) t i u f).
  - rewrite Hf2. simpl. lia.
  - intros p j Hp Hj. rewrite <- (Hw p j Hp Hj).
    rewrite <- (remove_slot st1 root τ' (path k va) t i u f HT' Ht' Hd Hi Hu' Hz' p j Hp Hj).
    unfold slot. by rewrite Hm2.
  - done.
  - exists (fl ++ flush_trace va). rewrite Hfl2. simpl. rewrite Hfl, app_assoc. split; [done|].
    intros Hs. set_solver.
Qed.

Lemma unmap_rec_spec n k st root τ t va :
  Tree st root τ -> fa_inv (m_fa st) -> L - 1 - Z.of_nat k <= fa_room (m_fa st) ->
  in_lim lim va -> Z.of_nat n + Z.of_nat k = L -> (0 < n)%nat -> τ !! path k va = Some t ->
  exists st' b, unmap_rec n t va (Z.of_nat k) st = Ret (st', b) /\
    unmap_post st τ va k t st' b root.
Proof.
  intros HT Hfa Hroom Hv. pose proof (lv_bounds c Hcfg) as [? _].
  revert k st τ t HT Hfa Hroom. induction n as [|n IH]; intros k st τ t HT Hfa Hroom Hk Hn Ht; [lia|].
  cbn [unmap_rec]. rewrite ent_cnt_ok, Ret_bind by (done || lia).
  rewrite index_ok, Ret_bind by (done || lia). rewrite levels_ok, Ret_bind by done.
  rewrite usub_ok, Ret_bind by lia.
  destruct (Z.eqb_spec (Z.of_nat k) (L - 1)) as [Hlast|Hlast].
  - assert (τ !! leaf_path va = Some t) as Hleaf
      by (unfold leaf_path; rewrite <- Hlast, Nat2Z.id; done).
    destruct (write_leaf st root τ va t 0 HT Hv Hleaf) as (HT' & He & Hw).
    rewrite Hlast. set (st1 := set_mem st _) in *.
    destruct (flush_ok st1 va) as (st2 & -> & Hf2 & Hm2 & Hfl2). rewrite Ret_bind.
    eexists _, _. split; [done|]. exists τ. split_and!.
    + by apply (Tree_ext st1).
    + by rewrite Hf2.
    + by apply gave_back_none.
    + done.
    + by apply (evolves_ext _ _ st1).
    + rewrite Hf2. simpl. lia.
    + intros p j Hp Hj. rewrite <- (Hw p j Hp Hj). unfold slot. by rewrite Hm2.
    + rewrite Hlast. intros Hb. by apply is_tbl_null_spec.
    + exists (flush_trace va). split; [by rewrite Hfl2|done].
  - assert (0 <= idx c (Z.of_nat k) va < nents lim (Z.of_nat k)) as Hi
      by (apply idx_nents; [done|lia|done]).
    pose proof (t_entry _ _ _ _ HT _ _ (idx c (Z.of_nat k) va) Ht) as He.
    rewrite depth_path, <- path_succ in He. specialize (He ltac:(lia) Hi). fold mask.
    set (entry := t + 8 * idx c (Z.of_nat k) va) in *.
    assert ((Z.land (m_mem st entry) (VALID flags) =? 0) = negb (valid (m_mem st entry))) as ->
      by (unfold valid; by rewrite negb_involutive).
    destruct (τ !! path (S k) va) as [u|] eqn:Hu.
    2: { rewrite He. cbn [negb]. exists st, false. split; [done|].
         apply unmap_absent; done || lia. }
    destruct He as [-> ->]. cbn [negb]. rewrite uadd_ok, Ret_bind by lia.
    replace (Z.of_nat k + 1) with (Z.of_nat (S k)) by lia.
    destruct (IH (S k) st τ u HT Hfa) as (st1 & b & -> & Hpost); [lia|lia|lia|done|].
    rewrite Ret_bind. destruct b.
    + destruct (unmap_freed k st root τ t u va st1) as (st2 & Hrun & Hst2); [done|lia|lia|done..|].
      cbn zeta in Hrun. apply bind_Ret in Hrun as (f & Hf & Hfl). fold entry in Hf, Hfl.
      rewrite Hf, Ret_bind, Hfl, Ret_bind. eexists _, _. split; [done|]. apply Hst2.
      intros Hb. by apply is_tbl_null_spec.
    + exists st1, false. split; [done|]. by eapply unmap_kept.
Qed.

Lemma unmap_page_run g st τ va :
  GInv g st τ -> L - 1 <= fa_room (m_fa st) -> 0 <= va < 2 ^ 64 -> in_lim lim va ->
  exists st' τ', unmap_page g va st = Ret st' /\ GInv g st' τ' /\
    gave_back st τ st' τ' (Z.land va page_mask) /\ evolves st τ st' τ' /\
    translates g st st' va (Some 0) /\
    exists fl, m_flushed st' = m_flushed st ++ fl /\
      (is_Some (τ !! leaf_path va) -> flush_trace (Z.land va page_mask) ⊆ fl).
Proof.
  intros [HT Hfa] Hroom Hva Hv. pose proof (lv_bounds c Hcfg) as [? _].
  pose proof (vpn_masked va Hva) as Hm. unfold unmap_page. rewrite levels_ok, Ret_bind by done.
  destruct (unmap_rec_spec (Z.to_nat L) 0 st (root_table g) τ (root_table g)
    (Z.land va page_mask) HT Hfa) as (st' & b & Hrun & τ' & HT' & Hfa' & Hgb & _ & Hev & _ & Hw & _ & fl & Hfl & Hin);
    [lia|by apply (in_lim_vpn lim Hcfg va)|lia|lia|by eapply t_root|].
  change (Z.of_nat 0) with 0 in Hrun. rewrite Hrun, Ret_bind.
  exists st', τ'. split_and!; [done|by constructor|done|done| |].
  - intros va' Hva' Hl. rewrite (writes_translates g st τ st' τ' _ _ HT HT' Hw va' Hva' Hl).
    by rewrite Hm.
  - exists fl. split; [done|]. intros Hs. apply Hin. by rewrite (leaf_path_vpn Hcfg _ va Hm).
Qed.

(** [unmap_page] returns on every state of the tables in which the
    allocator can take back one frame per level.  Afterwards the page does
    not translate, no other page changes, the last-level table that was
    written was flushed for, and the tables that became empty are gone from
    the tree (the invariant holds for a smaller tree, whose frames are the
    only ones still in use). *)
Theorem unmap_page_spec g st τ va :
  GInv g st τ -> L - 1 <= fa_room (m_fa st) -> 0 <= va < 2 ^ 64 -> in_lim lim va ->
  exists st' τ', unmap_page g va st = Ret st' /\ GInv g st' τ' /\ τ' ⊆ τ /\
    translates g st st' va (Some 0) /\
    (is_Some (τ !! leaf_path va) ->
       flush_trace (Z.land va page_mask) ⊆ drop (length (m_flushed st)) (m_flushed st')).
Proof.
  intros HG Hroom Hva Hv.
  destruct (unmap_page_run g st τ va HG Hroom Hva Hv) as (st' & τ' & Hr & HG' & [Hsub _ _] & _ & Ht & fl & Hfl & Hin).
  exists st', τ'. split_and!; [done..|]. by rewrite Hfl, drop_app_length.
Qed.
End Map.
