(* ===== verification/GlacierRange.v ===== *)
(** * GlacierRange: ranges of pages, fresh address spaces, and the physical
      allocator as the source of frames *)

From S2P Require Import Prelude Kargs Rvm RamUtil Physalloc BlockTable PhysallocSpec.
From S2P Require Import PhysallocFree PhysallocInv PhysallocExpand PhysallocThms RvmFacts Glacier GlacierSpec GlacierThms.

Section Range.
Context `{Platform} {A : Type} `{!FrameAlloc A} `{!FrameLaws A}.
Abbreviation St := (Machine A).
Abbreviation c := G_CFG.
Abbreviation L := (lv G_CFG).
Implicit Types (st : St) (τ : gmap (list Z) Z).

Variable lim : Z.
Hypothesis Hcfg : cfg_ok c.
Hypothesis Hlim : 0 < lim <= 2 ^ bits c 0.
Abbreviation GInv := (GInv lim).
Abbreviation in_lim := (in_lim lim).

Definition page (lo k : Z) : Z := lo + k * page_size.

(** The range from [lo] on, [n] pages: no page twice, none outside. *)
Record range_fits (lo n : Z) : Prop := {
  rf_lo : 0 <= lo /\ (page_size | lo);
  rf_hi : lo + n * page_size <= 2 ^ 64;
  rf_n : 0 <= n <= 2 ^ (va_bits c - BPage_shift (psz c));
  rf_lim : forall k, 0 <= k < n -> in_lim (page lo k)
}.

Lemma page_vpn_inj lo n k k' :
  range_fits lo n -> 0 <= k < n -> 0 <= k' < n -> vpn c (page lo k) = vpn c (page lo k') -> k = k'.
Proof.
  intros [[Hlo [x ->]] _ Hn _] Hk Hk'. unfold vpn, page.
  rewrite <- !Z.mul_add_distr_r. change (2 ^ BPage_shift (psz c)) with page_size.
  pose proof page_size_pos as Hps. rewrite !Z.div_mul by lia.
  assert (0 < 2 ^ (va_bits c - BPage_shift (psz c))) as Hm by lia.
  set (m := 2 ^ (va_bits c - BPage_shift (psz c))) in *. clearbody m. intros He.
  assert ((x + k - (x + k')) mod m = 0) as Hd.
  { rewrite Zminus_mod, He, Z.sub_diag. apply Z.mod_0_l. lia. }
  apply Z.mod_divide in Hd as [z Hz]; [|lia].
  assert (z < 1) by (apply (Z.mul_lt_mono_pos_r m); lia).
  assert (-1 < z) by (apply (Z.mul_lt_mono_pos_r m); lia). assert (z = 0) as -> by lia. lia.
Qed.

(** What has been mapped when the first [j] pages of a range are. *)
Record mapped g st st' (lo pa fl j : Z) : Prop := {
  mp_in : forall va k, 0 <= va < 2 ^ 64 -> in_lim va -> 0 <= k < j -> vpn c va = vpn c (page lo k) ->
    get_pa g va st' = Ret (entry_pa (Z.lor (page pa k) fl));
  mp_out : forall va, 0 <= va < 2 ^ 64 -> in_lim va ->
    (forall k, 0 <= k < j -> vpn c va <> vpn c (page lo k)) -> get_pa g va st' = get_pa g va st
}.

Lemma page_aligned_mask x k :
  (page_size | x) -> 0 <= page x k < 2 ^ 64 -> Z.land (page x k) page_mask = page x k.
Proof.
  intros Hd Hr. apply mask_aligned; [|done]. unfold page. apply Z.divide_add_r; [done|].
  apply Z.divide_factor_r.
Qed.

(** The entries, when the first [j] pages of a range are mapped. *)
Record entered st τ st' τ' (lo pa fl j : Z) : Prop := {
  et_in : forall va k, 0 <= k < j -> vpn c va = vpn c (page lo k) -> pte st' τ' va = Z.lor (page pa k) fl;
  et_out : forall va, (forall k, 0 <= k < j -> vpn c va <> vpn c (page lo k)) -> pte st' τ' va = pte st τ va
}.

Lemma entered_start st τ lo pa fl : entered st τ st τ lo pa fl 0.
Proof. constructor; [lia|done]. Qed.

(** One more page of a range. *)
Lemma entered_step st τ st1 τ1 st2 τ2 lo n pa fl j :
  range_fits lo n -> 0 <= j < n -> entered st τ st1 τ1 lo pa fl j ->
  writes st1 τ1 st2 τ2 (page lo j) (Some (Z.lor (page pa j) fl)) ->
  entered st τ st2 τ2 lo pa fl (j + 1).
Proof.
  intros Hfit Hj [Hin Hout] Hw. constructor.
  - intros va k Hk Hv. rewrite (writes_pte Hcfg _ _ _ _ _ _ va Hw). case_decide as Hd.
    + assert (k = j) as ->; [|done]. apply (page_vpn_inj lo n); [done|lia|lia|congruence].
    + apply Hin; [|done]. assert (k <> j) by (intros ->; done). lia.
  - intros va Hn. rewrite (writes_pte Hcfg _ _ _ _ _ _ va Hw), decide_False by (apply Hn; lia).
    apply Hout. intros k Hk. apply Hn. lia.
Qed.

Lemma entered_err st τ st1 τ1 st2 τ2 lo pa fl j va :
  entered st τ st1 τ1 lo pa fl j -> writes st1 τ1 st2 τ2 va None -> entered st τ st2 τ2 lo pa fl j.
Proof.
  intros [Hin Hout] Hw. constructor; intros va'; rewrite (writes_pte Hcfg _ _ _ _ _ _ va' Hw); [apply Hin|apply Hout].
Qed.

Lemma entered_mapped g st τ st' τ' lo pa fl j :
  GInv g st τ -> GInv g st' τ' -> entered st τ st' τ' lo pa fl j -> mapped g st st' lo pa fl j.
Proof.
  intros [HT _] [HT' _] [Hin Hout]. constructor; intros va; [intros k Hva Hl Hk Hv|intros Hva Hl Hn];
    rewrite (get_pa_spec lim Hcfg g st' τ') by done.
  - by rewrite (Hin va k).
  - by rewrite (Hout va Hn), (get_pa_spec lim Hcfg g st τ).
Qed.

Lemma map_each_spec g m j st0 τ0 st τ lo pa n fl :
  GInv g st τ -> range_fits lo n -> (page_size | pa) -> 0 <= pa -> pa + n * page_size <= 2 ^ 64 ->
  0 <= j -> j + Z.of_nat m = n -> entered st0 τ0 st τ lo pa fl j ->
  exists st' r τ' j', map_each g (page lo <$> seqZ j (Z.of_nat m)) lo pa fl st = Ret (st', r) /\
    GInv g st' τ' /\ 0 <= j' <= n /\ entered st0 τ0 st' τ' lo pa fl j' /\
    match r with Ok _ => j' = n | Err _ => True end /\ evolves st τ st' τ'.
Proof.
  intros HG Hfit Hpd Hp0 Hpn. revert j st τ HG.
  induction m as [|m IH]; intros j st τ HG Hj Hm Hmap.
  { exists st, (Ok ()), τ, j. split_and!; [done|done|lia|lia|done|lia|apply evolves_refl]. }
  rewrite (seqZ_cons j) by lia. rewrite fmap_cons. cbn [map_each].
  replace (Z.pred (Z.of_nat (S m))) with (Z.of_nat m) by lia.
  pose proof page_size_pos as Hps. assert (Hfit' := Hfit). destruct Hfit' as [[Hlo Hld] Hhi Hnn Hl].
  assert (0 <= j * page_size /\ (j + 1) * page_size <= n * page_size) as [Hb1 Hb2]
    by (split; [apply Z.mul_nonneg_nonneg; lia|apply Z.mul_le_mono_nonneg_r; lia]).
  assert (usub 64 (page lo j) lo = Ret (j * page_size)) as ->
    by (unfold page; rewrite usub_ok by lia; f_equal; lia).
  rewrite Ret_bind, uadd_ok, Ret_bind by lia. fold (page pa j).
  destruct (map_page_run lim Hcfg Hlim g st τ (page lo j) (page pa j) fl HG)
    as (st1 & r & τ1 & Hrun & HG1 & _ & Hev & _ & Hw); [unfold page; lia|apply Hl; lia|].
  rewrite Hrun, Ret_bind.
  assert (0 <= page pa j < 2 ^ 64) as Hpj by (unfold page; lia).
  destruct r as [u|e].
  - rewrite (page_aligned_mask pa j Hpd Hpj) in Hw.
    destruct (IH (j + 1) st1 τ1 HG1) as (st' & r' & τ' & j' & Hr' & HG' & Hj' & Hmap' & Hok & Hev');
      [lia|lia| |].
    { apply (entered_step st0 τ0 st τ st1 τ1 lo n); [done|lia|done|done]. }
    exists st', r', τ', j'. replace (Z.succ j) with (j + 1) by lia. rewrite Hr'.
    split_and!; try done; try lia. by eapply evolves_trans.
  - exists st1, (Err e), τ1, j. split_and!; [done|done|lia|lia| |done|done]. by eapply entered_err.
Qed.

Definition page_floor (x : Z) : Z := x / page_size * page_size.
(** The pages that a range touches. *)
Definition pages_of (va size : Z) : Z := (va + size + page_size - 1) / page_size - va / page_size.

Lemma floor_divide x : (page_size | page_floor x).
Proof. apply Z.divide_factor_r. Qed.

Lemma range_end_ok va size :
  0 <= va -> 0 <= size -> va + size + page_size < 2 ^ 64 ->
  range_end va size = Ret (page_floor (va + size + page_size - 1)).
Proof.
  intros Hva Hs Hb. pose proof page_size_range. unfold range_end.
  rewrite uadd_ok, Ret_bind by lia. rewrite uadd_ok, Ret_bind by lia.
  rewrite usub_ok, Ret_bind by lia. by rewrite page_va by lia.
Qed.

Lemma step_by_pages va size :
  0 <= va -> 0 <= size ->
  step_by (page_floor va) (page_floor (va + size + page_size - 1)) page_size =
    page (page_floor va) <$> seqZ 0 (pages_of va size).
Proof.
  intros Hva Hs. unfold step_by, page_floor, pages_of. pose proof page_size_pos as Hps.
  set (x := va / page_size). set (y := (va + size + page_size - 1) / page_size).
  f_equal. f_equal.
  replace (y * page_size - x * page_size + page_size - 1)
    with (page_size - 1 + (y - x) * page_size) by lia.
  rewrite Z.div_add by lia. rewrite Z.div_small by lia. lia.
Qed.

(** What [map_range] does, by entries and by translations. *)
Lemma map_range_entries g st τ va pa size fl :
  GInv g st τ -> 0 <= va -> 0 <= size -> va + size + page_size < 2 ^ 64 ->
  0 <= pa < 2 ^ 64 -> page_floor pa + pages_of va size * page_size <= 2 ^ 64 ->
  range_fits (page_floor va) (pages_of va size) ->
  exists st' r τ' j, map_range g va pa size fl st = Ret (st', r) /\ GInv g st' τ' /\
    0 <= j <= pages_of va size /\ entered st τ st' τ' (page_floor va) (page_floor pa) fl j /\
    match r with Ok _ => j = pages_of va size | Err _ => True end /\ evolves st τ st' τ'.
Proof.
  intros HG Hva Hs Hb Hpa Hpb Hfit. pose proof page_size_pos as Hps.
  unfold map_range. rewrite range_end_ok, Ret_bind by done.
  rewrite !page_va by lia. fold (page_floor va) (page_floor pa). rewrite step_by_pages by done.
  pose proof (rf_n _ _ Hfit). assert (0 <= page_floor pa) by (apply Z.mul_nonneg_nonneg; [apply Z.div_pos; lia|lia]).
  destruct (map_each_spec g (Z.to_nat (pages_of va size)) 0 st τ st τ (page_floor va)
    (page_floor pa) (pages_of va size) fl HG Hfit) as (st' & r & τ' & j & Hrun & Hx);
    [apply floor_divide|done|done|lia|lia|apply entered_start|].
  rewrite Z2Nat.id in Hrun by lia. by exists st', r, τ', j.
Qed.

Lemma map_range_run g st τ va pa size fl :
  GInv g st τ -> 0 <= va -> 0 <= size -> va + size + page_size < 2 ^ 64 ->
  0 <= pa < 2 ^ 64 -> page_floor pa + pages_of va size * page_size <= 2 ^ 64 ->
  range_fits (page_floor va) (pages_of va size) ->
  exists st' r τ' j, map_range g va pa size fl st = Ret (st', r) /\ GInv g st' τ' /\
    0 <= j <= pages_of va size /\ mapped g st st' (page_floor va) (page_floor pa) fl j /\
    match r with Ok _ => j = pages_of va size | Err _ => True end /\ evolves st τ st' τ'.
Proof.
  intros HG Hva Hs Hb Hpa Hpb Hfit.
  destruct (map_range_entries g st τ va pa size fl HG Hva Hs Hb Hpa Hpb Hfit)
    as (st' & r & τ' & j & Hrun & HG' & Hj & He & Hx).
  exists st', r, τ', j. split_and!; try done; [lia|lia|by eapply entered_mapped|apply Hx..].
Qed.

(** C3: [map_range] maps the pages that the range touches, in order, to
    consecutive frames, and nothing else: it returns [Ok] with the whole
    range mapped, or the error of the allocation that failed with a prefix of
    the range mapped. *)
Theorem map_range_spec g st τ va pa size fl :
  GInv g st τ -> 0 <= va -> 0 <= size -> va + size + page_size < 2 ^ 64 ->
  0 <= pa < 2 ^ 64 -> page_floor pa + pages_of va size * page_size <= 2 ^ 64 ->
  range_fits (page_floor va) (pages_of va size) ->
  exists st' r τ' j, map_range g va pa size fl st = Ret (st', r) /\ GInv g st' τ' /\
    0 <= j <= pages_of va size /\ mapped g st st' (page_floor va) (page_floor pa) fl j /\
    match r with Ok _ => j = pages_of va size | Err _ => True end.
Proof.
  intros HG Hva Hs Hb Hpa Hpb Hfit.
  destruct (map_range_run g st τ va pa size fl HG Hva Hs Hb Hpa Hpb Hfit) as (st' & r & τ' & j & Hr & HG' & Hj & Hm & Hx & _).
  by exists st', r, τ', j.
Qed.

(** ** A fresh table *)

Lemma zeroed m q n a : in_range q n a -> zero_bytes m q n a = 0.
Proof.
  unfold in_range, zero_bytes. intros Ha.
  destruct (Z.leb_spec q a), (Z.ltb_spec a (q + n)); done || lia.
Qed.

Lemma fresh_tree st root :
  (page_size | root) /\ 0 <= root /\ root + page_size <= 2 ^ 60 ->
  (forall x, in_range root page_size x -> fa_taken (m_fa st) x) ->
  (forall i, 0 <= i < lim -> m_mem st (root + 8 * i) = 0) ->
  Tree lim st root {[ [] := root ]}.
Proof.
  intros Hr Htk Hz. pose proof (lv_bounds c Hcfg) as [? _].
  constructor.
  - by rewrite lookup_singleton_eq.
  - intros p t [<- <-]%lookup_singleton_Some. done.
  - intros p t a [<- <-]%lookup_singleton_Some Ha. auto.
  - intros p p' t [<- <-]%lookup_singleton_Some [<- _]%lookup_singleton_Some. done.
  - intros p t [<- <-]%lookup_singleton_Some. unfold depth. simpl. lia.
  - intros p i t [Hn _]%lookup_singleton_Some. by destruct p.
  - intros p t i [<- <-]%lookup_singleton_Some Hd Hi. rewrite lookup_singleton_ne by done.
    unfold nents, depth in Hi. simpl in Hi. rewrite Hz by done. apply valid_0.
Qed.

Lemma fresh_pte st root va :
  (forall i, 0 <= i < lim -> m_mem st (root + 8 * i) = 0) -> in_lim va -> pte st {[ [] := root ]} va = 0.
Proof.
  intros Hz Hl. unfold pte, slot. destruct (_ !! leaf_path va) as [t|] eqn:Ht; [|done].
  apply lookup_singleton_Some in Ht as [Hp <-]. apply Hz.
  assert (L - 1 = 0) as Hl0.
  { pose proof (depth_path (Z.to_nat (L - 1)) va) as Hdp. fold (leaf_path va) in Hdp.
    rewrite <- Hp in Hdp. pose proof (lv_bounds c Hcfg) as [? _]. unfold depth in Hdp. simpl in Hdp. lia. }
  rewrite Hl0. pose proof (lv_bounds c Hcfg) as [? _].
  pose proof (idx_nents lim Hcfg 0 va ltac:(lia) Hl) as Hi. done.
Qed.

Lemma fresh_untranslated g st va :
  Tree lim st (root_table g) {[ [] := root_table g ]} ->
  (forall i, 0 <= i < lim -> m_mem st (root_table g + 8 * i) = 0) ->
  0 <= va < 2 ^ 64 -> in_lim va -> get_pa g va st = Ret None.
Proof.
  intros HT Hz Hva Hl. rewrite (get_pa_spec lim Hcfg g st _ va HT Hva Hl), fresh_pte by done.
  unfold entry_pa. by rewrite valid_0.
Qed.

(** What [init] does: an aligned, zeroed frame that was free, or a panic when
    the allocator has none. *)
Record fresh_root st st' (root : Z) : Prop := {
  fr_inv : fa_inv (m_fa st');
  fr_page : (page_size | root) /\ 0 <= root /\ root + page_size <= 2 ^ 60;
  fr_free : forall x, in_range root page_size x -> ~ fa_taken (m_fa st) x;
  fr_taken : forall x, fa_taken (m_fa st') x <-> fa_taken (m_fa st) x \/ in_range root page_size x
}.

Definition no_frame st : Prop :=
  exists f, fa_alloc (m_fa st) table_request = Ret (f, None).

Lemma init_run st :
  fa_inv (m_fa st) ->
  (Glacier_init st = Panic /\ no_frame st) \/
  exists st' g, Glacier_init st = Ret (st', g) /\ fresh_root st st' (root_table g) /\
    m_mem st' = zero_bytes (m_mem st) (root_table g) page_size /\
    m_flushed st' = m_flushed st.
Proof.
  intros Hfa. unfold Glacier_init, no_frame.
  destruct (fa_alloc_law (m_fa st) Hfa) as (f & r & -> & Hf & Hr). rewrite Ret_bind.
  destruct r as [q|]; [right|left; split; [done|by exists f]].
  destruct Hr as (Hq1 & Hq2 & Hq3 & Hfresh & Htk). cbn [unwrap]. rewrite Ret_bind.
  eexists _, _. split; [done|]. split_and!; [|done..]. by constructor.
Qed.

Lemma root_entries st :
  fa_inv (m_fa st) ->
  (Glacier_init st = Panic /\ no_frame st) \/
  exists st' g, Glacier_init st = Ret (st', g) /\ GInv g st' {[ [] := root_table g ]} /\
    (forall i, 0 <= i < lim -> m_mem st' (root_table g + 8 * i) = 0) /\
    (forall a, fa_taken (m_fa st) a -> m_mem st' a = m_mem st a).
Proof.
  intros Hfa. destruct (init_run st Hfa) as [?|(st' & g & Hrun & [Hf Hp Hfr Htk] & Hm & _)]; [by left|].
  right. exists st', g. split; [done|]. pose proof (lv_bounds c Hcfg) as [? _].
  assert (forall i, 0 <= i < lim -> m_mem st' (root_table g + 8 * i) = 0) as Hz.
  { intros i Hi. rewrite Hm. apply zeroed. apply (entry_in_page Hcfg [] _ i 0); lia. }
  assert (Tree lim st' (root_table g) {[ [] := root_table g ]}) as HT
    by (apply fresh_tree; [done|intros x Hx; apply Htk; by right|done]).
  split_and!; [by constructor|done|].
  intros a Ha. rewrite Hm. unfold zero_bytes.
  destruct (Z.leb_spec (root_table g) a), (Z.ltb_spec a (root_table g + page_size)); try done.
  exfalso. by apply (Hfr a).
Qed.

(** the first page table: either the kernel panics because there is no
    frame, or it has an address space in which nothing is mapped. *)
Theorem init_spec st :
  fa_inv (m_fa st) ->
  (Glacier_init st = Panic /\ no_frame st) \/
  exists st' g, Glacier_init st = Ret (st', g) /\ GInv g st' {[ [] := root_table g ]} /\
    (forall va, 0 <= va < 2 ^ 64 -> in_lim va -> get_pa g va st' = Ret None) /\
    (forall a, fa_taken (m_fa st) a -> m_mem st' a = m_mem st a).
Proof.
  intros Hfa. destruct (root_entries st Hfa) as [?|(st' & g & Hrun & HG & Hz & Hk)]; [by left|].
  right. exists st', g. split_and!; [done|done| |done]. intros va Hva Hl. destruct HG. by apply fresh_untranslated.
Qed.
End Range.

Section New.
Context `{Platform} {A : Type} `{!FrameAlloc A} `{!FrameLaws A}.
Abbreviation St := (Machine A).
Abbreviation c := G_CFG.
Abbreviation L := (lv G_CFG).
Implicit Types (st : St) (τ : gmap (list Z) Z).
Hypothesis Hcfg : cfg_ok c.

(** The first entry of the upper half. *)
Definition half : Z := 2 ^ (bits c 0 - 1).
Abbreviation full := (2 ^ bits c 0).

Lemma half_facts : 0 < half /\ full = 2 * half.
Proof.
  pose proof (lv_bounds c Hcfg) as [? _]. pose proof (bits_bounds c Hcfg 0 ltac:(lia)) as [? _].
  unfold half. split; [apply Z.pow_pos_nonneg; lia|].
  rewrite <- Z.pow_succ_r by lia. f_equal. lia.
Qed.

(** Two roots with the same entry for an address translate it alike. *)
Lemma get_pa_root g g2 st va :
  0 <= va < 2 ^ 64 ->
  m_mem st (root_table g + 8 * idx c 0 va) = m_mem st (root_table g2 + 8 * idx c 0 va) ->
  get_pa g va st = get_pa g2 va st.
Proof.
  intros Hva He. unfold get_pa. rewrite levels_ok, !Ret_bind by done.
  pose proof (lv_bounds c Hcfg) as [? _]. assert (0 <= 0 < L) as HL by lia.
  destruct (Z.to_nat L) as [|n] eqn:Hn; [lia|]. cbn [get_walk].
  rewrite index_ok by done. rewrite !Ret_bind.
  rewrite (vpn_idx c Hcfg _ va 0 HL (vpn_masked va Hva)). by rewrite He.
Qed.

Lemma new_mem st (g : Glacier) krvm m i :
  m = zero_bytes (copy_bytes (m_mem st) (root_table g) krvm page_size) (root_table g) (half * 8) ->
  0 <= i < full ->
  m (root_table g + 8 * i) = if decide (i < half) then 0 else m_mem st (krvm + 8 * i).
Proof.
  intros -> Hi. pose proof half_facts as [Hh Hf]. pose proof (lv_bounds c Hcfg) as [? _].
  pose proof (idx_in_page c Hcfg 0 i ltac:(lia) Hi) as Hp. rewrite <- page_size_shift in Hp.
  unfold zero_bytes, copy_bytes. case_decide.
  - destruct (Z.leb_spec (root_table g) (root_table g + 8 * i)); [|lia].
    destruct (Z.ltb_spec (root_table g + 8 * i) (root_table g + half * 8)); [done|lia].
  - destruct (Z.ltb_spec (root_table g + 8 * i) (root_table g + half * 8)); [lia|].
    rewrite andb_false_r. destruct (Z.leb_spec (root_table g) (root_table g + 8 * i)); [|lia].
    destruct (Z.ltb_spec (root_table g + 8 * i) (root_table g + page_size)); [|lia].
    simpl. f_equal. lia.
Qed.

(** The memory of a new address space, where it was in use before. *)
Lemma new_keep st st1 (g : Glacier) krvm :
  (forall x, in_range (root_table g) page_size x -> ~ fa_taken (m_fa st) x) ->
  m_mem st1 = zero_bytes (m_mem st) (root_table g) page_size ->
  forall a, fa_taken (m_fa st) a -> m_mem st1 a = m_mem st a /\
    zero_bytes (copy_bytes (m_mem st1) (root_table g) krvm page_size) (root_table g) (half * 8) a = m_mem st a.
Proof.
  intros Hfree Hm a Ha.
  assert (m_mem st1 a = m_mem st a) as Hmem1.
  { rewrite Hm. unfold zero_bytes.
    destruct (Z.leb_spec (root_table g) a), (Z.ltb_spec a (root_table g + page_size)); try done.
    exfalso. by apply (Hfree a). }
  split; [done|]. rewrite <- Hmem1. unfold zero_bytes, copy_bytes.
  destruct (Z.leb_spec (root_table g) a); [|done].
  destruct (Z.ltb_spec a (root_table g + page_size)); [exfalso; by apply (Hfree a)|].
  destruct (Z.ltb_spec a (root_table g + half * 8)) as [Hlt|]; [exfalso|done].
  assert (8 * half <= page_size); [|lia]. rewrite page_size_shift.
  pose proof half_facts as [Hh Hf]. pose proof (lv_bounds c Hcfg) as [? _].
  pose proof (idx_in_page c Hcfg 0 half ltac:(lia) ltac:(lia)). lia.
Qed.

(** Memory that keeps the tables of [gk] keeps its translations. *)
Lemma same_get_pa st st' gk τk :
  Tree full st (root_table gk) τk -> Tree full st' (root_table gk) τk ->
  (forall a, in_tables τk a -> m_mem st' a = m_mem st a) ->
  forall va, 0 <= va < 2 ^ 64 -> get_pa gk va st' = get_pa gk va st.
Proof.
  intros HTk HTk' Hmem va Hva. pose proof (lv_bounds c Hcfg) as [? _].
  assert (in_lim full va) as Hin by (apply idx_range; done || lia).
  rewrite !(get_pa_spec full Hcfg gk _ τk) by done. do 2 f_equal. unfold pte.
  apply (slot_frame full Hcfg st st' (root_table gk)); [done|auto| |].
  - unfold leaf_path. rewrite depth_path. lia.
  - apply idx_range; [done|lia].
Qed.

(** What [new] does; the frame of the root was free. *)
Lemma new_run gk st τk :
  GInv full gk st τk ->
  (Glacier_new (root_table gk) st = Panic /\ no_frame st) \/
  exists st' g, Glacier_new (root_table gk) st = Ret (st', g) /\
    GInv half g st' {[ [] := root_table g ]} /\
    GInv full gk st' τk /\
    (forall va, 0 <= va < 2 ^ 64 -> in_lim half va -> get_pa g va st' = Ret None) /\
    (forall va, 0 <= va < 2 ^ 64 -> ~ in_lim half va -> get_pa g va st' = get_pa gk va st) /\
    (forall va, 0 <= va < 2 ^ 64 -> get_pa gk va st' = get_pa gk va st) /\
    fresh_root st st' (root_table g) /\ gl_is_init g = true.
Proof.
  intros [HTk Hfa]. pose proof half_facts as [Hh Hf]. pose proof (lv_bounds c Hcfg) as [? _].
  pose proof page_size_range as Hps. assert (0 <= 0 < L) as HL by lia.
  pose proof (bits_bounds c Hcfg 0 HL) as [Hb _]. pose proof (page_facts c) as [Hpf Hib].
  unfold Glacier_new. destruct (init_run st Hfa) as [[-> ?]|(st1 & g & Hin & Hfresh & Hm & _)]; [by left|].
  assert (gl_is_init g = true) as Hgi.
  { revert Hin. unfold Glacier_init. intros (x & _ & Hin)%bind_Ret. destruct x as [f r]. apply bind_Ret in Hin as (q & _ & Hin). by injection Hin as _ <-. }
  rewrite Hin. clear Hin.
  right. rewrite Ret_bind, ent_cnt_ok, Ret_bind by done.
  assert (Z.shiftr full 1 = half) as ->
    by (rewrite Z.shiftr_div_pow2, Hf by lia; change (2 ^ 1) with 2; rewrite Z.mul_comm; by apply Z.div_mul).
  assert (0 <= half < full) as Hhf by lia. assert (0 < full <= full) as Hlimf by lia.
  assert (full <= 2 ^ 13) as Hfull by (apply Z.pow_le_mono_r; lia).
  rewrite umul_ok, Ret_bind by lia. eexists _, g. split; [done|].
  assert (Hfr := Hfresh). destruct Hfresh as [Hfa1 Hpage Hfree Htk]. set (st' := set_mem st1 _).
  assert (forall a, in_tables τk a -> fa_taken (m_fa st) a) as Hkt
    by (intros a (p & t & Hp & Ha); by eapply t_taken).
  assert (forall a, fa_taken (m_fa st) a -> m_mem st1 a = m_mem st a /\ m_mem st' a = m_mem st a) as Hmem2
    by (by apply (new_keep st st1 g (root_table gk))).
  assert (forall a, fa_taken (m_fa st) a -> m_mem st' a = m_mem st a) as Hmem by (intros a Ha; by apply Hmem2).
  assert (Tree full st' (root_table gk) τk) as HTk'.
  { apply (tree_frame full Hcfg Hlimf st); [done|auto|].
    intros a Ha. simpl. apply Htk. left. auto. }
  assert (forall i, 0 <= i < full -> m_mem st' (root_table g + 8 * i) =
    if decide (i < half) then 0 else m_mem st1 (root_table gk + 8 * i)) as Hnew
    by (intros i Hi; by apply (new_mem st1 g (root_table gk))).
  assert (forall i, 0 <= i < half -> m_mem st' (root_table g + 8 * i) = 0) as Hlow
    by (intros i Hi; rewrite Hnew by lia; by rewrite decide_True by lia).
  assert (Tree half st' (root_table g) {[ [] := root_table g ]}) as HT
    by (apply fresh_tree; [done|done|intros x Hx; simpl; apply Htk; by right|done]).
  assert (forall va, 0 <= va < 2 ^ 64 -> get_pa gk va st' = get_pa gk va st) as Hsame by (intros va Hva; apply (same_get_pa st st' gk τk); auto).
  split_and!; [by constructor|by constructor|intros; by eapply fresh_untranslated| |done| |done].
  2:{ destruct Hfr as [? ? ? ?]. by constructor. }
  intros va Hva Hn. rewrite <- Hsame by done. apply get_pa_root; [done|].
  pose proof (idx_range c Hcfg 0 va HL) as Hi. rewrite Hnew by done. unfold in_lim in Hn.
  rewrite decide_False by done.
  assert (fa_taken (m_fa st) (root_table gk + 8 * idx c 0 va)) as Ht.
  { apply Hkt. exists [], (root_table gk). split; [by eapply t_root|].
    by apply (entry_in_page Hcfg [] _ _ 0). }
  destruct (Hmem2 _ Ht) as [-> _]. by rewrite Hmem.
Qed.

(** a new address space maps nothing in its lower half and translates
    the upper half exactly as the kernel's tables do; the kernel's address
    space keeps its invariant and translates as before.  (Or the kernel
    panics, because there is no frame for the root.) *)
Theorem new_spec gk st τk :
  GInv full gk st τk ->
  (Glacier_new (root_table gk) st = Panic /\ no_frame st) \/
  exists st' g, Glacier_new (root_table gk) st = Ret (st', g) /\
    GInv half g st' {[ [] := root_table g ]} /\
    GInv full gk st' τk /\
    (forall va, 0 <= va < 2 ^ 64 -> in_lim half va -> get_pa g va st' = Ret None) /\
    (forall va, 0 <= va < 2 ^ 64 -> ~ in_lim half va -> get_pa g va st' = get_pa gk va st) /\
    (forall va, 0 <= va < 2 ^ 64 -> get_pa gk va st' = get_pa gk va st).
Proof.
  intros HG. destruct (new_run gk st τk HG) as [?|(st' & g & ? & ? & ? & ? & ? & ? & _)]; [by left|].
  right. by exists st', g.
Qed.
End New.

(** ** The physical allocator is a frame allocator *)

Section Frames.
Context `{Platform}.
Hypothesis Hpage : page_size = 4096.

Definition pa_taken (s : PhysAlloc) (a : Z) : Prop := view s a <> Some (Conv, false).
Definition pa_room (s : PhysAlloc) : Z := Z.min (slack s) 62 / 2.

Lemma table_request_ok : params_ok table_request.
Proof.
  pose proof page_size_range. constructor; [| |discriminate].
  - change (ap_size table_request) with page_size. lia.
  - change (ap_align table_request) with (Z.max page_size 1). lia.
Qed.

Lemma szal_page : szal page_size = page_size.
Proof.
  unfold szal. rewrite Z.ltb_irrefl. apply aup_id; [apply page_size_pos|apply Z.divide_refl].
Qed.

Lemma upd_taken s s' q x a :
  (forall a, view s' a = upd (view s) (op_ptr q) (op_size q) x a) -> x <> (Conv, false) ->
  pa_taken s' a <-> pa_taken s a \/ in_range (op_ptr q) (op_size q) a.
Proof.
  intros Hv Hx. unfold pa_taken. rewrite Hv. unfold upd. case_decide as Hd; [|tauto].
  split; [by right|]. intros _ [= He]. done.
Qed.

Lemma physalloc_alloc_law s :
  INV s ->
  exists s' r, PhysAlloc_alloc s table_request = Ret (s', r) /\ INV s' /\
    match r with
    | None => forall x, pa_taken s' x <-> pa_taken s x
    | Some q =>
        (page_size | op_ptr q) /\ 0 <= op_ptr q /\ op_ptr q + page_size <= 2 ^ 60 /\
        (forall x, in_range (op_ptr q) page_size x -> ~ pa_taken s x) /\
        (forall x, pa_taken s' x <-> pa_taken s x \/ in_range (op_ptr q) page_size x)
    end.
Proof.
  intros Hinv. destruct (alloc_run Hpage s table_request Hinv table_request_ok)
    as (s' & r & -> & Hr). exists s', r. split; [done|]. destruct r as [q|].
  - destruct Hr as [[Hi [Hsz [Hal _]] Hf Hv _ _] [(H1 & H2 & H3) _ _]].
    change (ap_size table_request) with page_size in Hsz. rewrite szal_page in Hsz.
    assert (ap_align table_request = page_size) as Ha.
    { cbn. pose proof page_size_pos. lia. }
    rewrite Ha in Hal. rewrite Hsz in H3. unfold LIM in H3. split_and!; try done.
    + intros x Hx Ht. apply Ht. rewrite <- Hsz in Hx. by apply Hf.
    + intros x. rewrite <- Hsz. by eapply upd_taken.
  - destruct Hr as [Hi Hv]. split; [done|]. intros x. unfold pa_taken. by rewrite Hv.
Qed.

Lemma physalloc_free_law s p :
  INV s -> 1 <= pa_room s -> 0 <= p -> p + page_size <= 2 ^ 60 ->
  (forall x, in_range p page_size x -> pa_taken s x) ->
  exists s', PhysAlloc_free_raw s p page_size = Ret s' /\ INV s' /\
    pa_room s - 1 <= pa_room s' /\
    (forall x, pa_taken s' x <-> pa_taken s x /\ ~ in_range p page_size x).
Proof.
  intros Hinv Hroom Hp Hb Htk. unfold pa_room in *.
  assert (2 <= slack s) as Hsl.
  { destruct (Z.leb_spec 2 (slack s)); [done|]. exfalso.
    assert (Z.min (slack s) 62 / 2 < 1); [|lia]. apply Z.div_lt_upper_bound; lia. }
  pose proof page_size_pos as Hps.
  destruct (free_spec_n Hpage 11 s (mkOwnedPtr p page_size) Hinv) as (s' & Hr & Hi & Hv & Hs'); [|done|].
  { constructor; simpl; [unfold range_ok, LIM; lia|lia|].
    intros a Ha Hm. apply (Htk a Ha). unfold view. by rewrite decide_True. }
  exists s'. split; [exact Hr|]. split_and!; [done| |].
  - replace (Z.min (slack s) 62 / 2 - 1) with ((Z.min (slack s) 62 + (-1) * 2) / 2)
      by (rewrite Z.div_add by lia; lia).
    apply Z.div_le_mono; lia.
  - intros x. unfold pa_taken. rewrite Hv. unfold upd. clear Hr. simpl. case_decide; tauto.
Qed.

Definition PhysAlloc_FrameLaws : FrameLaws PhysAlloc := {|
  fa_inv := INV;
  fa_taken := pa_taken;
  fa_room := pa_room;
  fa_alloc_law := physalloc_alloc_law;
  fa_free_law := physalloc_free_law
|}.
End Frames.

(** ** Witnesses *)

Module GlacierDemo.
#[local] Existing Instance Demo.demo.
#[local] Instance laws : FrameLaws PhysAlloc := PhysAlloc_FrameLaws Demo.page0.

Definition m0 : Machine PhysAlloc := mkMachine Demo.s0 (fun _ => 0) [].
(** Two roots, in the memory of the kernel's image. *)
Definition g0 : Glacier := mkGlacier 0x100000 true.
Definition g1 : Glacier := mkGlacier 0x101000 true.
Definition all : Z := 2 ^ bits G_CFG 0.

Lemma cfg0 : cfg_ok G_CFG.
Proof. unfold cfg_ok. simpl. lia. Qed.
Lemma all0 : 0 < all <= 2 ^ bits G_CFG 0.
Proof. unfold all. split; [reflexivity|done]. Qed.

Lemma view_kernel x : 0x100000 <= x < 0x180000 -> view Demo.s0 x = Some (Kernel, true).
Proof.
  intros Hx. unfold view. rewrite decide_False by (unfold in_ptr, in_range; simpl; lia).
  change (vblocks (pa_blocks Demo.s0)) with (take 4 (pa_blocks Demo.s0)). simpl.
  rewrite !decide_False by (unfold in_block, in_range; simpl; lia).
  by rewrite decide_True by (unfold in_block, in_range; simpl; lia).
Qed.

Lemma root_tree lim r :
  0 < lim <= 2 ^ bits G_CFG 0 ->
  r = 0x100000 \/ r = 0x101000 -> GInv lim (mkGlacier r true) m0 {[ [] := r ]}.
Proof.
  intros Hlim Hr. constructor; [|apply Demo.inv0]. apply (fresh_tree lim cfg0).
  - change page_size with 4096. split; [|simpl; lia].
    destruct Hr as [-> | ->]; [by exists 256|by exists 257].
  - intros x Hx. change page_size with 4096 in Hx. simpl in *. unfold pa_taken.
    rewrite view_kernel by (unfold in_range in Hx; lia). done.
  - done.
Qed.

Lemma disjoint_roots a : in_tables {[ [] := 0x101000 ]} a -> ~ in_tables {[ [] := 0x100000 ]} a.
Proof.
  intros (p & t & [<- <-]%lookup_singleton_Some & Ha) (p' & t' & [<- <-]%lookup_singleton_Some & Hb).
  change page_size with 4096 in *. unfold in_range in *. lia.
Qed.

Lemma map_page_spec_witness :
  exists st' r τ', map_page g0 0x400000 0x5000 3 m0 = Ret (st', r) /\ GInv all g0 st' τ' /\
    match r with
    | Ok _ => translates all g0 m0 st' 0x400000 (Some (Z.lor (Z.land 0x5000 page_mask) 3)) /\
              m_flushed st' = m_flushed m0 ++ flush_trace (Z.land 0x400000 page_mask)
    | Err Failed2Alloc => translates all g0 m0 st' 0x400000 None
    end.
Proof.
  apply (map_page_spec all cfg0 all0 g0 m0 {[ [] := 0x100000 ]});
    [apply root_tree; [apply all0|by left]|lia|reflexivity].
Defined.

Lemma map_page_isolated_witness :
  exists st' r, map_page g0 0x400000 0x5000 3 m0 = Ret (st', r) /\
    GInv all g1 st' {[ [] := 0x101000 ]} /\
    (exists τ', GInv all g0 st' τ' /\ forall a, in_tables {[ [] := 0x101000 ]} a -> ~ in_tables τ' a) /\
    forall va', 0 <= va' < 2 ^ 64 -> in_lim all va' -> get_pa g1 va' st' = get_pa g1 va' m0.
Proof.
  destruct (map_page_run all cfg0 all0 g0 m0 {[ [] := 0x100000 ]} 0x400000 0x5000 3)
    as (st' & r & _ & Hr & _); [apply root_tree; [apply all0|by left]|lia|reflexivity|].
  exists st', r. split; [exact Hr|].
  apply (map_page_isolated all cfg0 all0 g0 m0 {[ [] := 0x100000 ]} 0x400000 0x5000 3 g1
    {[ [] := 0x101000 ]} st' r);
    [apply root_tree; [apply all0|by left]|apply root_tree; [apply all0|by right]|
     apply disjoint_roots|lia|reflexivity|exact Hr].
Defined.

Lemma unmap_page_spec_witness :
  exists st' τ', unmap_page g0 0x400000 m0 = Ret st' /\ GInv all g0 st' τ' /\
    τ' ⊆ {[ [] := 0x100000 ]} /\ translates all g0 m0 st' 0x400000 (Some 0) /\
    (is_Some (({[ [] := 0x100000 ]} : gmap (list Z) Z) !! leaf_path 0x400000) ->
       flush_trace (Z.land 0x400000 page_mask) ⊆ drop (length (m_flushed m0)) (m_flushed st')).
Proof.
  apply (unmap_page_spec all cfg0 all0 g0 m0 {[ [] := 0x100000 ]});
    [apply root_tree; [apply all0|by left]|vm_compute; discriminate|lia|reflexivity].
Defined.

Lemma map_range_spec_witness :
  exists st' r τ' j, map_range g0 0x400000 0x5000 0x3000 3 m0 = Ret (st', r) /\ GInv all g0 st' τ' /\
    0 <= j <= pages_of 0x400000 0x3000 /\
    mapped all g0 m0 st' (page_floor 0x400000) (page_floor 0x5000) 3 j /\
    match r with Ok _ => j = pages_of 0x400000 0x3000 | Err _ => True end.
Proof.
  apply (map_range_spec all cfg0 all0 g0 m0 {[ [] := 0x100000 ]});
    [apply root_tree; [apply all0|by left]|lia|lia|change page_size with 4096; lia|lia| |].
  - vm_compute. discriminate.
  - constructor.
    + split; [vm_compute; discriminate|apply floor_divide].
    + vm_compute. discriminate.
    + split; vm_compute; discriminate.
    + intros k Hk. change (pages_of 0x400000 0x3000) with 3 in Hk.
      assert (k = 0 \/ k = 1 \/ k = 2) as [-> | [-> | ->]] by lia; reflexivity.
Defined.

Lemma init_spec_witness :
  (Glacier_init m0 = Panic /\ no_frame m0) \/
  exists st' g, Glacier_init m0 = Ret (st', g) /\ GInv all g st' {[ [] := root_table g ]} /\
    (forall va, 0 <= va < 2 ^ 64 -> in_lim all va -> get_pa g va st' = Ret None) /\
    (forall a, fa_taken (m_fa m0) a -> m_mem st' a = m_mem m0 a).
Proof. apply (init_spec all cfg0 all0). apply Demo.inv0. Defined.

Lemma new_spec_witness :
  (Glacier_new (root_table g0) m0 = Panic /\ no_frame m0) \/
  exists st' g, Glacier_new (root_table g0) m0 = Ret (st', g) /\
    GInv half g st' {[ [] := root_table g ]} /\
    GInv (2 ^ bits G_CFG 0) g0 st' {[ [] := 0x100000 ]} /\
    (forall va, 0 <= va < 2 ^ 64 -> in_lim half va -> get_pa g va st' = Ret None) /\
    (forall va, 0 <= va < 2 ^ 64 -> ~ in_lim half va -> get_pa g va st' = get_pa g0 va m0) /\
    (forall va, 0 <= va < 2 ^ 64 -> get_pa g0 va st' = get_pa g0 va m0).
Proof. apply (new_spec cfg0). apply root_tree; [apply all0|by left]. Defined.

(** [get_pa] does not mask the attribute bits above the address: after a
    page is mapped without execute permission, the address it returns has
    bit 63 set. *)
Theorem get_pa_keeps_nx :
  exists st', map_page g0 0x400000 0x5000 (K_RWO flags) m0 = Ret (st', Ok ()) /\
    get_pa g0 0x400000 st' = Ret (Some (0x5000 + 2 ^ 63)).
Proof.
  eexists. split; [vm_compute; reflexivity|]. vm_compute. reflexivity.
Qed.
End GlacierDemo.
