(* ===== verification/GlacierUnmap.v ===== *)
(** * GlacierUnmap: unmapping a range of pages *)

From S2P Require Import Prelude Kargs Rvm RamUtil Physalloc BlockTable PhysallocSpec.
From S2P Require Import PhysallocFree PhysallocInv PhysallocExpand PhysallocThms RvmFacts Glacier GlacierSpec GlacierThms.
From S2P Require Import GlacierRange.

Section Unmap.
Context `{Platform} {A : Type} `{!FrameAlloc A} `{!FrameLaws A}.
Abbreviation St := (Machine A).
Abbreviation c := G_CFG.
Abbreviation L := (lv G_CFG).
Implicit Types (st : St) (τ : gmap (list Z) Z).

Variable lim : Z.
Hypothesis Hcfg : cfg_ok c.
Hypothesis Hlim : 0 < lim <= 2 ^ bits c 0.
Abbreviation GInv := (GInv lim).
Abbreviation in_lim := (in_lim lim).

(** The tables on the way to the pages of a range: the ones that unmapping
    the range may free. *)
Definition is_way (lo n : Z) (p : list Z) : Prop :=
  Exists (fun k => p = path (length p) (page lo k)) (seqZ 0 n).
#[local] Instance is_way_dec lo n p : Decision (is_way lo n p) := _.
Definition ways (lo n : Z) τ : gmap (list Z) Z := filter (fun pt => is_way lo n pt.1) τ.

(** What has been unmapped when the first [j] pages of a range are, and the
    flushes it took. *)
Record unmapped g st st' (lo j : Z) : Prop := {
  um_in : forall va k, 0 <= va < 2 ^ 64 -> in_lim va -> 0 <= k < j -> vpn c va = vpn c (page lo k) ->
    get_pa g va st' = Ret None;
  um_out : forall va, 0 <= va < 2 ^ 64 -> in_lim va ->
    (forall k, 0 <= k < j -> vpn c va <> vpn c (page lo k)) -> get_pa g va st' = get_pa g va st;
  um_flush : exists fl, m_flushed st' = m_flushed st ++ fl /\
    forall k, 0 <= k < j -> get_pa g (page lo k) st <> Ret None -> flush_trace (page lo k) ⊆ fl
}.

Lemma size_filter_split (P : list Z -> Prop) `{!forall p, Decision (P p)} τ :
  size τ = (size (filter (fun pt => P pt.1) τ) + size (filter (fun pt => ~ P pt.1) τ))%nat.
Proof.
  rewrite <- map_size_disj_union by apply map_disjoint_filter_complement.
  by rewrite map_filter_union_complement.
Qed.

Lemma gave_back_ways st τ st' τ' lo n k :
  gave_back st τ st' τ' (page lo k) -> 0 <= k < n ->
  fa_room (m_fa st) - (Z.of_nat (size (ways lo n τ)) - Z.of_nat (size (ways lo n τ'))) <= fa_room (m_fa st').
Proof.
  intros [Hsub Hroom Hway] Hk.
  assert (filter (fun pt => ~ is_way lo n pt.1) τ' = filter (fun pt => ~ is_way lo n pt.1) τ) as He.
  { apply map_eq. intros p. destruct (decide (is_way lo n p)) as [Hp|Hp].
    - rewrite !(proj2 (map_lookup_filter_None _ _ _)); [done|right; cbn; tauto..].
    - apply option_eq. intros t. rewrite !map_lookup_filter_Some. cbn. split; intros [Ht ?]; (split; [|done]).
      + by eapply lookup_weaken.
      + destruct (τ' !! p) as [t'|] eqn:Ht'.
        * pose proof (lookup_weaken _ _ _ _ Ht' Hsub). congruence.
        * destruct Hp. destruct (Hway p) as [j Hj]; [by eexists|done|]. apply Exists_exists.
          exists k. split; [apply elem_of_seqZ; lia|]. rewrite Hj at 1. f_equal. rewrite Hj.
          unfold path. rewrite length_fmap, length_seqZ. lia. }
  pose proof (size_filter_split (is_way lo n) τ) as H1. pose proof (size_filter_split (is_way lo n) τ') as H2.
  rewrite He in H2. unfold ways. lia.
Qed.

(** One more page of a range. *)
Lemma unmapped_step g st st1 st2 τ1 lo n j fl :
  range_fits lim lo n -> 0 <= j < n -> unmapped g st st1 lo j -> GInv g st1 τ1 ->
  translates lim g st1 st2 (page lo j) (Some 0) -> m_flushed st2 = m_flushed st1 ++ fl ->
  (is_Some (τ1 !! leaf_path (page lo j)) -> flush_trace (page lo j) ⊆ fl) ->
  unmapped g st st2 lo (j + 1).
Proof.
  intros Hfit Hj [Hin Hout (fl0 & Hfl0 & Hflush)] [HT _] Ht Hfl Hf. constructor.
  - intros va k Hva Hl Hk Hv. rewrite (Ht va Hva Hl). case_decide as Hd.
    + unfold entry_pa. by rewrite valid_0.
    + apply (Hin va k); [done..| |done]. assert (k <> j) by (intros ->; done). lia.
  - intros va Hva Hl Hn. rewrite (Ht va Hva Hl). rewrite decide_False by (apply Hn; lia).
    apply Hout; [done..|]. intros k Hk. apply Hn. lia.
  - exists (fl0 ++ fl). split; [by rewrite Hfl, Hfl0, app_assoc|]. intros k Hk Hne.
    destruct (decide (k = j)) as [->|]; [|transitivity fl0; [apply Hflush; [lia|done]|set_solver]].
    transitivity fl; [apply Hf|set_solver]. apply not_eq_None_Some. intros Hnone. apply Hne.
    assert (0 <= page lo j < 2 ^ 64) as Hpg.
    { destruct Hfit as [[Hlo _] Hhi _ _]. pose proof page_size_pos. unfold page.
      assert (0 <= j * page_size /\ (j + 1) * page_size <= n * page_size) as [? ?]
        by (split; [apply Z.mul_nonneg_nonneg; lia|apply Z.mul_le_mono_nonneg_r; lia]). lia. }
    rewrite <- Hout; [|done|by apply (rf_lim _ _ _ Hfit)|].
    + rewrite (get_pa_spec lim Hcfg g st1 τ1) by (done || by apply (rf_lim _ _ _ Hfit)).
      unfold pte, slot, entry_pa. by rewrite Hnone, valid_0.
    + intros k' Hk' Hv. assert (j = k') by (eapply (page_vpn_inj lim lo n); [done|lia|lia|done]). lia.
Qed.

Lemma unmap_each_spec g m j st0 st τ lo n :
  GInv g st τ -> range_fits lim lo n -> 0 <= j -> j + Z.of_nat m = n ->
  Z.of_nat (size (ways lo n τ)) + (L - 1) <= fa_room (m_fa st) -> unmapped g st0 st lo j ->
  exists st' τ', unmap_each g (page lo <$> seqZ j (Z.of_nat m)) st = Ret st' /\
    GInv g st' τ' /\ τ' ⊆ τ /\ evolves st τ st' τ' /\ unmapped g st0 st' lo n.
Proof.
  intros HG Hfit. revert j st τ HG. induction m as [|m IH]; intros j st τ HG Hj Hm Hroom Hun.
  { exists st, τ. split_and!; [done|done|done|apply evolves_refl|]. by replace n with j by lia. }
  rewrite (seqZ_cons j) by lia. rewrite fmap_cons. cbn [unmap_each].
  replace (Z.pred (Z.of_nat (S m))) with (Z.of_nat m) by lia. replace (Z.succ j) with (j + 1) by lia.
  assert (Hfit' := Hfit). destruct Hfit' as [[Hlo Hld] Hhi Hnn Hl]. pose proof page_size_pos as Hps.
  assert (0 <= j * page_size /\ (j + 1) * page_size <= n * page_size) as [Hb1 Hb2]
    by (split; [apply Z.mul_nonneg_nonneg; lia|apply Z.mul_le_mono_nonneg_r; lia]).
  assert (0 <= page lo j < 2 ^ 64) as Hpg by (unfold page; lia).
  destruct (unmap_page_run lim Hcfg Hlim g st τ (page lo j) HG)
    as (st1 & τ1 & -> & HG1 & Hgb & Hev & Ht & fl & Hfl & Hf); [lia|done|apply Hl; lia|].
  rewrite (page_aligned_mask lo j Hld Hpg) in Hgb, Hf. rewrite Ret_bind.
  pose proof (gave_back_ways st τ st1 τ1 lo n j Hgb ltac:(lia)) as Hr1.
  destruct (IH (j + 1) st1 τ1 HG1) as (st' & τ' & -> & HG' & Hsub & Hev' & Hun'); [lia|lia|lia| |].
  { by apply (unmapped_step g st0 st st1 τ lo n j fl); [|lia|..]. }
  exists st', τ'. split_and!; [done|done| |by eapply evolves_trans|done].
  etrans; [exact Hsub|apply Hgb].
Qed.

Lemma unmapped_start g st lo : unmapped g st st lo 0.
Proof. constructor; [lia|done|]. exists []. split; [by rewrite app_nil_r|lia]. Qed.

Lemma unmap_range_run g st τ va size :
  GInv g st τ -> 0 <= va -> 0 <= size -> va + size + page_size < 2 ^ 64 ->
  range_fits lim (page_floor va) (pages_of va size) ->
  Z.of_nat (base.size (ways (page_floor va) (pages_of va size) τ)) + (L - 1) <= fa_room (m_fa st) ->
  exists st' τ', unmap_range g va size st = Ret st' /\ GInv g st' τ' /\ τ' ⊆ τ /\
    evolves st τ st' τ' /\ unmapped g st st' (page_floor va) (pages_of va size).
Proof.
  intros HG Hva Hs Hb Hfit Hroom. pose proof page_size_pos as Hps.
  unfold unmap_range. rewrite range_end_ok, Ret_bind by done.
  rewrite !page_va by lia. fold (page_floor va). rewrite step_by_pages by done.
  pose proof (rf_n _ _ _ Hfit) as Hn.
  destruct (unmap_each_spec g (Z.to_nat (pages_of va size)) 0 st st τ (page_floor va)
    (pages_of va size) HG Hfit) as (st' & τ' & Hrun & Hrest); [done|lia|done|apply unmapped_start|].
  rewrite Z2Nat.id in Hrun by lia. by exists st', τ'.
Qed.

(** [unmap_range] removes the translation of exactly the pages that the
    range touches: it returns when the allocator has an entry for each table
    on the way to them (one of them may become empty), the invariant holds
    for a smaller tree, every page that was mapped has been flushed, and no
    other page changes, in this or in any disjoint address space. *)
Theorem unmap_range_spec g st τ va size :
  GInv g st τ -> 0 <= va -> 0 <= size -> va + size + page_size < 2 ^ 64 ->
  range_fits lim (page_floor va) (pages_of va size) ->
  Z.of_nat (base.size (ways (page_floor va) (pages_of va size) τ)) + (L - 1) <= fa_room (m_fa st) ->
  exists st' τ', unmap_range g va size st = Ret st' /\ GInv g st' τ' /\ τ' ⊆ τ /\
    unmapped g st st' (page_floor va) (pages_of va size) /\
    forall g2 τ2, GInv g2 st τ2 -> (forall a, in_tables τ2 a -> ~ in_tables τ a) ->
      GInv g2 st' τ2 /\ forall va', 0 <= va' < 2 ^ 64 -> in_lim va' -> get_pa g2 va' st' = get_pa g2 va' st.
Proof.
  intros HG Hva Hs Hb Hfit Hroom.
  destruct (unmap_range_run g st τ va size HG Hva Hs Hb Hfit Hroom) as (st' & τ' & Hr & HG' & Hsub & Hev & Hun).
  exists st', τ'. split_and!; [done..|]. intros g2 τ2 [HT2 _] Hdis.
  destruct (evolves_other lim Hcfg Hlim st τ st' τ' (root_table g2) τ2 Hev HT2 Hdis) as (HT2' & _ & Hpte).
  split; [by constructor; [|apply HG']|]. intros va' Hva' Hl.
  by rewrite !(get_pa_spec lim Hcfg g2 _ τ2), Hpte.
Qed.
End Unmap.
