(* ===== verification/GlacierDrop.v ===== *)
(** * GlacierDrop: giving an address space back

    Dropping page tables frees every table of the lower half exactly once,
    children before their parents, and nothing else. *)

From S2P Require Import Prelude Kargs Rvm RamUtil Physalloc BlockTable PhysallocSpec.
From S2P Require Import RvmFacts Glacier GlacierSpec GlacierThms GlacierRange GlacierUnmap.

Section Drop.
Context `{Platform} {A : Type} `{!FrameAlloc A} `{!FrameLaws A}.
Abbreviation St := (Machine A).
Abbreviation c := G_CFG.
Abbreviation L := (lv G_CFG).
Implicit Types (st : St) (p q : list Z) (P Q : list Z -> Prop).

Hypothesis Hcfg : cfg_ok c.

Section Tree.
Variables (st0 : St) (root : Z) (τ : gmap (list Z) Z).
Hypothesis HT : Tree half st0 root τ.

Lemma half_full : 0 < half <= 2 ^ bits c 0.
Proof. pose proof (half_facts Hcfg) as [? He]. lia. Qed.

(** The tables at the paths in [P]. *)
Definition subs P `{!forall p, Decision (P p)} : gmap (list Z) Z := filter (fun pt => P pt.1) τ.
Definition in_subs P (a : Z) : Prop := exists q u, P q /\ τ !! q = Some u /\ in_range u page_size a.

Record can_free P `{!forall p, Decision (P p)} st : Prop := {
  cf_mem : m_mem st = m_mem st0;
  cf_inv : fa_inv (m_fa st);
  cf_room : Z.of_nat (size (subs P)) <= fa_room (m_fa st);
  cf_taken : forall a, in_subs P a -> fa_taken (m_fa st) a
}.
Record freed P `{!forall p, Decision (P p)} st st' : Prop := {
  fd_mem : m_mem st' = m_mem st;
  fd_flush : m_flushed st' = m_flushed st;
  fd_inv : fa_inv (m_fa st');
  fd_room : fa_room (m_fa st) - Z.of_nat (size (subs P)) <= fa_room (m_fa st');
  fd_taken : forall a, fa_taken (m_fa st') a <-> fa_taken (m_fa st) a /\ ~ in_subs P a
}.

Lemma subs_ext P Q `{!forall p, Decision (P p)} `{!forall p, Decision (Q p)} :
  (forall q u, τ !! q = Some u -> P q <-> Q q) -> subs P = subs Q.
Proof. intros He. apply map_filter_ext. intros q u Hq. by apply (He q u). Qed.
Lemma in_subs_ext P Q a : (forall q u, τ !! q = Some u -> P q <-> Q q) -> in_subs P a <-> in_subs Q a.
Proof. intros He. split; intros (q & u & Hp & Hq & Ha); exists q, u; (split; [by apply (He q u)|done]). Qed.

Lemma can_free_ext P Q `{!forall p, Decision (P p)} `{!forall p, Decision (Q p)} st :
  (forall q u, τ !! q = Some u -> P q <-> Q q) -> can_free P st -> can_free Q st.
Proof.
  intros He [K1 K2 K3 K4]. constructor; [done|done|by rewrite <- (subs_ext P Q He)|].
  intros a Ha. by apply K4, (in_subs_ext P Q).
Qed.
Lemma freed_ext P Q `{!forall p, Decision (P p)} `{!forall p, Decision (Q p)} st st' :
  (forall q u, τ !! q = Some u -> P q <-> Q q) -> freed P st st' -> freed Q st st'.
Proof.
  intros He [K1 K2 K3 K4 K5]. constructor; [done|done|done|by rewrite <- (subs_ext P Q He)|].
  intros a. by rewrite K5, (in_subs_ext P Q a He).
Qed.

Lemma subs_or P Q `{!forall p, Decision (P p)} `{!forall p, Decision (Q p)} :
  (forall q, P q -> Q q -> False) -> size (subs (fun q => P q \/ Q q)) = (size (subs P) + size (subs Q))%nat.
Proof.
  intros Hd. rewrite <- map_size_disj_union.
  - f_equal. apply map_eq. intros q. apply option_eq. intros u.
    rewrite lookup_union_Some.
    + unfold subs. rewrite !map_lookup_filter_Some. cbn. tauto.
    + apply map_disjoint_spec. intros q' u1 u2 [_ K1]%map_lookup_filter_Some [_ K2]%map_lookup_filter_Some. by apply (Hd q').
  - apply map_disjoint_spec. intros q' u1 u2 [_ K1]%map_lookup_filter_Some [_ K2]%map_lookup_filter_Some. by apply (Hd q').
Qed.

(** Tables at different paths are different frames. *)
Lemma in_subs_disjoint P Q a : (forall q, P q -> Q q -> False) -> in_subs P a -> in_subs Q a -> False.
Proof.
  intros Hd (q & u & Hp & Hq & Ha) (q' & u' & Hp' & Hq' & Ha').
  destruct (tree_table_unique half st0 root τ q q' u u' a HT Hq Hq' Ha Ha') as [-> _]. by apply (Hd q').
Qed.

Section Two.
Variables (P Q : list Z -> Prop).
Context `{!forall p, Decision (P p)} `{!forall p, Decision (Q p)}.
Hypothesis Hd : forall q, P q -> Q q -> False.

Lemma can_free_left st : can_free (fun q => P q \/ Q q) st -> can_free P st.
Proof.
  intros [K1 K2 K3 K4]. rewrite (subs_or P Q Hd) in K3. constructor; [done|done|lia|].
  intros a (q & u & Hp & Hq & Ha). apply K4. exists q, u. tauto.
Qed.
Lemma can_free_right st st' : can_free (fun q => P q \/ Q q) st -> freed P st st' -> can_free Q st'.
Proof.
  intros [K1 K2 K3 K4] [F1 _ F3 F4 F5]. rewrite (subs_or P Q Hd) in K3. constructor; [congruence|done|lia|].
  intros a Ha. apply F5. split.
  - apply K4. destruct Ha as (q & u & Hq & Hu). exists q, u. tauto.
  - intros Hp. by apply (in_subs_disjoint P Q a).
Qed.
Lemma freed_trans st st1 st2 : freed P st st1 -> freed Q st1 st2 -> freed (fun q => P q \/ Q q) st st2.
Proof.
  intros [F1 F2 F3 F4 F5] [G1 G2 G3 G4 G5]. constructor; [congruence|congruence|done|rewrite (subs_or P Q Hd); lia|].
  intros a. rewrite G5, F5. unfold in_subs. split.
  - intros [[Ha Hp] Hq]. split; [done|]. intros (q & u & [Hx|Hx] & Hu); [apply Hp|apply Hq]; by exists q, u.
  - intros [Ha Hn]. split; [split; [done|]|]; intros (q & u & Hx & Hu); apply Hn; exists q, u; tauto.
Qed.
End Two.

(** ** One table *)

Lemma one_size p t : τ !! p = Some t -> size (subs (fun q => q = p)) = 1%nat.
Proof.
  intros Hp. replace (subs (fun q => q = p)) with ({[ p := t ]} : gmap (list Z) Z); [apply map_size_singleton|].
  apply map_eq. intros q. unfold subs. destruct (decide (q = p)) as [->|Hn].
  - rewrite lookup_singleton_eq. symmetry. by apply map_lookup_filter_Some.
  - rewrite lookup_singleton_ne by done. symmetry. apply map_lookup_filter_None. right. cbn. by intros.
Qed.

Lemma free_one p t st :
  τ !! p = Some t -> can_free (fun q => q = p) st ->
  exists f, fa_free_raw (m_fa st) t page_size = Ret f /\ freed (fun q => q = p) st (set_fa st f).
Proof.
  intros Hp [K1 K2 K3 K4]. rewrite (one_size p t Hp) in K3. destruct (t_page _ _ _ _ HT _ _ Hp) as (_ & Ht & Hb).
  assert (forall a, in_subs (fun q => q = p) a <-> in_range t page_size a) as Hin.
  { intros a. split; [intros (q & u & -> & Hq & Ha); congruence|]. intros Ha. by exists p, t. }
  destruct (fa_free_law (m_fa st) t K2) as (f & Hf & Hfi & Hfr & Hft); [lia|done|done| |].
  { intros x Hx. by apply K4, Hin. }
  exists f. split; [done|]. constructor; [done|done|done|rewrite (one_size p t Hp); cbn; lia|].
  intros a. cbn. by rewrite Hft, Hin.
Qed.

(** ** The tables below a table *)

Lemma tree_prefix p k u : τ !! (p ++ k) = Some u -> is_Some (τ !! p).
Proof.
  revert u. induction k as [|i k IH] using rev_ind; intros u Hu; [rewrite app_nil_r in Hu; by exists u|].
  rewrite app_assoc in Hu. destruct (t_parent _ _ _ _ HT _ _ _ Hu) as [[v Hv] _]. by apply (IH v).
Qed.

Definition ext p (l : list Z) q : Prop := Exists (fun j => (p ++ [j]) `prefix_of` q) l.
#[local] Instance ext_dec p l q : Decision (ext p l q).
Proof. unfold ext. apply _. Defined.

Lemma ext_cons p j l q : ext p (j :: l) q <-> (p ++ [j]) `prefix_of` q \/ ext p l q.
Proof. unfold ext. apply Exists_cons. Qed.

Lemma prefix_child p i j q : (p ++ [i]) `prefix_of` q -> (p ++ [j]) `prefix_of` q -> i = j.
Proof.
  intros [k ->] [k' He]. rewrite <- !app_assoc in He. apply app_inv_head in He. cbn in He. by injection He.
Qed.

Lemma ext_disjoint p j l q : j ∉ l -> (p ++ [j]) `prefix_of` q -> ext p l q -> False.
Proof.
  intros Hj Hp He. apply Exists_exists in He as (i & Hi & Hq). by rewrite (prefix_child p j i q Hp Hq) in Hj.
Qed.

(** A table and the tables below its entries. *)
Lemma prefix_split p t n q u :
  τ !! p = Some t -> n = nents half (depth p) -> τ !! q = Some u ->
  (ext p (seqZ 0 n) q \/ q = p) <-> p `prefix_of` q.
Proof.
  intros Hp -> Hq. split.
  - intros [He| ->]; [|done]. apply Exists_exists in He as (j & _ & k & ->). exists ([j] ++ k). by rewrite app_assoc.
  - intros [k ->]. destruct k as [|j k]; [right; by rewrite app_nil_r|left].
    change (p ++ j :: k) with (p ++ [j] ++ k) in *. rewrite app_assoc in *.
    destruct (tree_prefix (p ++ [j]) k u Hq) as [v Hv]. destruct (t_parent _ _ _ _ HT _ _ _ Hv) as [_ Hj].
    apply Exists_exists. exists j. split; [apply elem_of_seqZ; lia|by exists k].
Qed.

Lemma empty_freed P `{!forall p, Decision (P p)} st :
  (forall q u, τ !! q = Some u -> ~ P q) -> fa_inv (m_fa st) -> freed P st st.
Proof.
  intros Hn Hi. assert (size (subs P) = 0%nat) as Hs.
  { apply map_size_empty_iff, map_empty. intros q. apply map_lookup_filter_None. right. intros u Hq. by apply (Hn q u). }
  constructor; [done|done|done|lia|]. intros a. split; [|tauto]. intros Ha. split; [done|].
  intros (q & u & Hp & Hq & _). by apply (Hn q u).
Qed.

(** ** The recursion *)

Lemma drop_each n p t st entries :
  (forall j u st, τ !! (p ++ [j]) = Some u -> can_free (fun q => (p ++ [j]) `prefix_of` q) st ->
     exists st', _drop n u (depth p + 1) st = Ret st' /\ freed (fun q => (p ++ [j]) `prefix_of` q) st st') ->
  τ !! p = Some t -> 0 <= depth p < L -> entries = nents half (depth p) ->
  forall l, NoDup l -> (forall j, j ∈ l -> 0 <= j < entries) -> can_free (ext p l) st ->
  exists st', foldl (fun (acc : outcome St) i =>
      st ← acc;
      let entry := m_mem st (t + 8 * i) in
      if negb (Z.land entry (VALID flags) =? 0) && (depth p <? L - 1) then
        level' ← uadd 8 (depth p) 1;
        _drop n (Z.land entry (BPage_addr_mask (psz G_CFG))) level' st
      else Ret st) (Ret st) l = Ret st' /\ freed (ext p l) st st'.
Proof.
  intros IH Hp Hd -> l Hl. revert st. induction Hl as [|j l Hj Hl IHl]; intros st Hr Hc.
  { exists st. split; [done|]. apply empty_freed; [|apply Hc]. intros q u _ Hx. by apply Exists_nil in Hx. }
  pose proof (lv_bounds c Hcfg) as [? Hlv]. cbn [foldl]. rewrite Ret_bind. cbn zeta.
  assert (forall q, (p ++ [j]) `prefix_of` q -> ext p l q -> False) as Hdis by (intros q; by apply ext_disjoint).
  apply (can_free_ext _ (fun q => (p ++ [j]) `prefix_of` q \/ ext p l q)) in Hc; [|intros q u _; apply ext_cons].
  assert (exists st1, (if negb (Z.land (m_mem st (t + 8 * j)) (VALID flags) =? 0) && (depth p <? L - 1) then
      level' ← uadd 8 (depth p) 1; _drop n (Z.land (m_mem st (t + 8 * j)) (BPage_addr_mask (psz G_CFG))) level' st
      else Ret st) = Ret st1 /\ freed (fun q => (p ++ [j]) `prefix_of` q) st st1) as (st1 & Hrun & Hf).
  { destruct (τ !! (p ++ [j])) as [u|] eqn:Hu.
    - pose proof (t_depth _ _ _ _ HT _ _ Hu) as Hdu. rewrite depth_app in Hdu.
      pose proof (t_entry _ _ _ _ HT p t j Hp ltac:(lia) (Hr j ltac:(by left))) as He. rewrite Hu in He.
      destruct He as [Hv Hm]. rewrite (cf_mem _ _ Hc). unfold valid in Hv. rewrite Hv.
      rewrite (proj2 (Z.ltb_lt _ _)) by lia. cbn [andb]. rewrite uadd_ok, Ret_bind by lia. unfold mask in Hm. rewrite Hm.
      apply IH; [done|]. by eapply can_free_left.
    - assert (negb (Z.land (m_mem st (t + 8 * j)) (VALID flags) =? 0) && (depth p <? L - 1) = false) as ->.
      { destruct (Z.ltb_spec (depth p) (L - 1)); [|by rewrite andb_false_r].
        pose proof (t_entry _ _ _ _ HT p t j Hp ltac:(lia) (Hr j ltac:(by left))) as He. rewrite Hu in He.
        unfold valid in He. by rewrite (cf_mem _ _ Hc), He. }
      exists st. split; [done|]. apply empty_freed; [|apply Hc]. intros q u Hq [k ->].
      destruct (tree_prefix _ _ _ Hq) as [v Hv]. congruence. }
  rewrite Hrun. destruct (IHl st1) as (st2 & Hrun2 & Hf2).
  - intros i Hi. apply Hr. by right.
  - by eapply can_free_right.
  - exists st2. split; [done|]. eapply freed_ext; [|by eapply freed_trans]. intros q u _. by rewrite ext_cons.
Qed.

Lemma drop_rec n p t st :
  τ !! p = Some t -> depth p + Z.of_nat n = L -> (0 < n)%nat -> can_free (fun q => p `prefix_of` q) st ->
  exists st', _drop n t (depth p) st = Ret st' /\ freed (fun q => p `prefix_of` q) st st'.
Proof.
  revert p t st. induction n as [|n IH]; intros p t st Hp Hd Hn Hc; [lia|]. pose proof (lv_bounds c Hcfg) as [? Hlv].
  assert (0 <= depth p < L) as Hdp by (unfold depth in *; lia).
  assert ((if depth p =? 0 then Z.shiftr (2 ^ bits c (depth p)) 1 else 2 ^ bits c (depth p)) = nents half (depth p)) as Hent.
  { unfold nents. destruct (Z.eqb_spec (depth p) 0) as [->|]; [|done]. pose proof (half_facts Hcfg) as [? ->].
    rewrite Z.shiftr_div_pow2 by lia. change (2 ^ 1) with 2. rewrite Z.mul_comm. apply Z.div_mul. lia. }
  cbn [_drop]. rewrite ent_cnt_ok, Ret_bind, levels_ok, Ret_bind, usub_ok, Ret_bind by (done || lia). cbn zeta. rewrite Hent.
  set (l := seqZ 0 (nents half (depth p))).
  assert (forall q, ext p l q -> q = p -> False) as Hdis.
  { intros q He ->. apply Exists_exists in He as (j & _ & k & He). apply (f_equal length) in He. rewrite !length_app in He. cbn in He. lia. }
  apply (can_free_ext _ (fun q => ext p l q \/ q = p)) in Hc.
  2:{ intros q u Hq. symmetry. by eapply prefix_split. }
  destruct (drop_each n p t st (nents half (depth p))) with (l := l) as (st1 & Hrun & Hf); try done.
  - intros j u st' Hu Hc'. rewrite <- depth_app with (i := j).
    pose proof (t_depth _ _ _ _ HT _ _ Hu) as Hdu. rewrite depth_app in Hdu.
    apply IH; [done|rewrite depth_app; lia|lia|done].
  - apply NoDup_seqZ.
  - intros j Hj%elem_of_seqZ. lia.
  - eapply can_free_left; [exact Hdis|exact Hc].
  - cbn zeta in Hrun. rewrite Hrun, Ret_bind. destruct (free_one p t st1 Hp) as (f & Hff & Hf2); [eapply can_free_right; eassumption|].
    rewrite Hff, Ret_bind. eexists. split; [done|]. apply (freed_ext (fun q => ext p l q \/ q = p) _); [|eapply freed_trans; eassumption].
    intros q u Hq. by eapply prefix_split.
Qed.
End Tree.

(** Dropping an address space with the tables [τ] returns, and gives the
    frames of these tables back and no others; memory and TLB are as they
    were. *)
Lemma glacier_drop_run g st τ :
  GInv half g st τ -> gl_is_init g = true -> Z.of_nat (size τ) <= fa_room (m_fa st) ->
  exists st', Glacier_drop g st = Ret st' /\ m_mem st' = m_mem st /\ m_flushed st' = m_flushed st /\
    fa_inv (m_fa st') /\ fa_room (m_fa st) - Z.of_nat (size τ) <= fa_room (m_fa st') /\
    forall a, fa_taken (m_fa st') a <-> fa_taken (m_fa st) a /\ ~ in_tables τ a.
Proof.
  intros [HT Hfa] Hi Hroom. pose proof (lv_bounds c Hcfg) as [? Hlv].
  assert (subs τ (fun q => [] `prefix_of` q) = τ) as Hs.
  { unfold subs. apply map_filter_id. intros q u _. cbn. apply prefix_nil. }
  destruct (drop_rec st (root_table g) τ HT (Z.to_nat L) [] (root_table g) st) as (st' & Hrun & [F1 F2 F3 F4 F5]).
  - by eapply t_root.
  - unfold depth. cbn. lia.
  - lia.
  - constructor; [done|done|by rewrite Hs|]. intros a (q & u & _ & Hq & Ha). by eapply t_taken.
  - unfold Glacier_drop. rewrite Hi. cbn [negb]. rewrite levels_ok, Ret_bind by done. rewrite Hs in F4.
    exists st'. split_and!; [exact Hrun|done..|]. intros a. rewrite F5. unfold in_subs, in_tables. split.
    + intros [Ha Hn]. split; [done|]. intros (q & u & Hq & Hu). apply Hn. exists q, u. split_and!; [apply prefix_nil|done..].
    + intros [Ha Hn]. split; [done|]. intros (q & u & _ & Hq & Hu). apply Hn. by exists q, u.
Qed.
End Drop.
