(* ===== verification/PhysInit.v ===== *)
(** * PhysInit: the allocator is built from the firmware's memory map

    [PhysAlloc::init] (ram/physalloc.rs): the conventional memory of the map
    is added to a table that is part of the kernel's image; then the table
    moves to memory of its own, the memory map and the list of the kernel's
    segments are copied to memory of theirs, and the rest of the map is
    added.  The sort is [wikisort], a crate that sort.rs calls; the copies are by
    address only. *)

From S2P Require Import Prelude Kargs Rvm RamUtil Physalloc BlockTable PhysallocSpec PhysallocFree PhysallocInv PhysallocExpand PhysallocThms.

(** The allocator and the two arrays that the boot information points to. *)
Record Boot : Type := mkBoot {
  bt_pa : PhysAlloc;
  bt_layout : list RAMDescriptor;
  bt_layout_ptr : Z;
  bt_segs : list Segment;
  bt_seg_ptr : Z
}.

(** ** Sorting without a heap (sort.rs) *)

Section Sort.
Context {T : Type} (wikisort : (T -> T -> comparison) -> list T -> list T).
Definition sort_noheap_by (cmp : T -> T -> comparison) (l : list T) : list T := wikisort cmp l.
(** The order of the type: [Ord]. *)
Definition sort_noheap (ord : T -> T -> comparison) (l : list T) : list T := wikisort ord l.
(** The keys are integers. *)
Definition sort_noheap_by_key (f : T -> Z) (l : list T) : list T := wikisort (fun a b => f a ?= f b) l.
End Sort.

Section Init.
Context `{Platform}.
(** The sort of the crate. *)
Variable wikisort : (RAMDescriptor -> RAMDescriptor -> comparison) -> list RAMDescriptor -> list RAMDescriptor.

(** Memory below 1 MiB is kept for the start of other processors. *)
Definition low_type (addr : Z) (ty : RAMType) : RAMType :=
  if bool_decide (target_arch = X86_64) && (addr <? 0x100000) then Reserved else ty.

(** The blocks of the two loops. *)
Definition conv_block (desc : RAMDescriptor) : outcome RAMBlock :=
  size ← umul 64 (desc_page_count desc) PAGE_4KIB;
  let addr := desc_phys_start desc in
  Ret (mkRAMBlock addr size (low_type addr (desc_ty desc)) false).
Definition rest_block (desc : RAMDescriptor) : outcome RAMBlock :=
  size ← umul 64 (desc_page_count desc) PAGE_4KIB;
  let addr := desc_phys_start desc in
  let ty := low_type addr (desc_ty desc) in
  let ty := if ty_in RECLAMABLE (desc_ty desc) then Reclaimable else ty in
  Ret (mkRAMBlock addr size ty false).

Definition is_conv (desc : RAMDescriptor) : bool := bool_decide (desc_ty desc = Conv).

(** [for desc in .. { if sel(desc) { self.add(block(desc)); } }] *)
Fixpoint add_each (sel : RAMDescriptor -> bool) (block : RAMDescriptor -> outcome RAMBlock)
    (descs : list RAMDescriptor) (s : PhysAlloc) : outcome PhysAlloc :=
  match descs with
  | [] => Ret s
  | desc :: descs =>
      s ← (if sel desc then b ← block desc; PhysAlloc_add s b else Ret s);
      add_each sel block descs s
  end.

(** The table moves out of the image unless it has grown already. *)
Definition relocate_table (rb : OwnedPtr) (s : PhysAlloc) : outcome PhysAlloc :=
  if bool_decide (pa_ptr s = rb) then
    n ← umul 64 size_of_RAMBlock (pa_max s);
    '(s, r) ← PhysAlloc_alloc s (AllocParams_new n);
    new_rb ← unwrap r;
    Ret (set_ptr_max s new_rb (pa_max s))
  else Ret s.

(** An array of [len] elements of [size] bytes gets memory of type [ty]. *)
Definition alloc_array (ty : RAMType) (len size : Z) (s : PhysAlloc) : outcome (PhysAlloc * OwnedPtr) :=
  n ← umul 64 len size;
  '(s, r) ← PhysAlloc_alloc s (AllocParams_as_type (AllocParams_new n) ty);
  p ← unwrap r;
  Ret (s, p).

(** [rb] is the address of [RB_EMBEDDED]. *)
Definition PhysAlloc_init (rb_addr : Z) (b : Boot) : outcome Boot :=
  if pa_is_init (bt_pa b) then Ret b else
  let rb := mkOwnedPtr rb_addr (BASE_RB_SIZE * size_of_RAMBlock) in
  let s := mkPhysAlloc rb BASE_RB_SIZE false (replicate (Z.to_nat BASE_RB_SIZE) RAMBlock_new_invalid) in
  let efi_ram := sort_noheap_by_key wikisort desc_page_count (bt_layout b) in
  s ← add_each is_conv conv_block (rev efi_ram) s;
  s ← relocate_table rb s;
  '(s, efi_ptr) ← alloc_array EfiRamLayout (Z.of_nat (length efi_ram)) size_of_RAMDescriptor s;
  '(s, elf_ptr) ← alloc_array ElfSegments (Z.of_nat (length (bt_segs b))) size_of_Segment s;
  let efi_ram := sort_noheap_by_key wikisort desc_phys_start efi_ram in
  s ← add_each (fun desc => negb (is_conv desc)) rest_block efi_ram s;
  Ret (mkBoot (mkPhysAlloc (pa_ptr s) (pa_max s) true (pa_blocks s)) efi_ram (op_ptr efi_ptr)
         (bt_segs b) (op_ptr elf_ptr)).
End Init.

(** * What [init] makes of the firmware's memory map

    The invariant that every operation of the allocator needs holds after
    [init], and the address map is the firmware's, with the copies of the two
    arrays recorded in it. *)

Section InitThms.
Context `{Platform}.
Abbreviation vb s := (vblocks (pa_blocks s)).

(** ** A table of the initial size with room *)

Record plain (s : PhysAlloc) (k : Z) : Prop := {
  pl_wf : WF (vb s);
  pl_max : pa_max s = BASE_RB_SIZE;
  pl_len : Z.of_nat (length (pa_blocks s)) = BASE_RB_SIZE;
  pl_count : Z.of_nat (length (vb s)) <= k
}.

(** A table of this size is never shrunk. *)
Lemma settle_plain n s both : pa_max s = BASE_RB_SIZE -> settle (ops (S n)) s both = Ret s.
Proof.
  intros Hm. unfold settle. destruct (both && both_test s); [|done]. cbn [ops op_shrink].
  unfold shrink_body. rewrite Hm. by change (BASE_RB_SIZE <=? Z.max (Z.shiftr BASE_RB_SIZE 1) BASE_RB_SIZE) with true.
Qed.

Lemma plain_add s k nb :
  plain s k -> k < BASE_RB_SIZE -> range_ok (rb_addr nb) (rb_size nb) ->
  (forall a, in_block nb a -> owner (vb s) a = None) ->
  exists s', PhysAlloc_add s nb = Ret s' /\ plain s' (k + 1) /\ pa_ptr s' = pa_ptr s /\
    forall a, owner (vb s') a = upd (owner (vb s)) (rb_addr nb) (rb_size nb) (battr nb) a.
Proof.
  intros [Hw Hm Hl Hc] Hk Hr Hfree. unfold BASE_RB_SIZE in *.
  destruct (add_update0 s nb Hw Hr Hfree) as (bs & both & [Hrun Hw' Hlen Ho Hup _ _]); [lia|lia|].
  exists (set_blocks s bs). unfold PhysAlloc_add, FUEL. change 16%nat with (S (S 14)). rewrite ops_add, Hrun.
  rewrite settle_plain by done. split; [done|]. split; [|done]. constructor; cbn [pa_blocks pa_max set_blocks]; [done..| |]; unfold BASE_RB_SIZE; lia.
Qed.

Lemma plain_alloc s k args :
  plain s k -> k + 4 <= BASE_RB_SIZE -> params_ok args -> ap_addr args = None -> ram_types args = true ->
  ap_used args = true ->
  exists s' r, PhysAlloc_alloc s args = Ret (s', r) /\
    match r with
    | None => s' = s /\ Forall (fun b => roomy args b = false) (vb s)
    | Some q => plain s' (k + 2) /\ pa_ptr s' = pa_ptr s /\
        (exists b, b ∈ vb s /\ roomy args b = true /\
           q = mkOwnedPtr (aup (rb_addr b) (ap_align args)) (szal (ap_size args))) /\
        forall a, owner (vb s') a = upd (owner (vb s)) (op_ptr q) (op_size q) (ap_as_type args, true) a
    end.
Proof.
  intros [Hw Hm Hl Hc] Hk Hok Hno Hram Hus. unfold BASE_RB_SIZE in *.
  destruct (find_free_ram_spec s args Hw Hok Hno) as (o & Ho & Hspec).
  rewrite (alloc_unfold s args o Hok) by (unfold choose; cbn [ap_addr built]; by rewrite Hno). rewrite Hram.
  destruct o as [q|]; [|by exists s, None]. destruct Hspec as (b & Hb & Ht & Hq).
  pose proof (built_bounds args Hok) as Hsz. pose proof Hok as [Hs Hal _].
  pose proof (WF_elem _ _ Hw Hb) as [(Hb1 & Hb2 & Hb3) Hb4]. unfold LIM in *.
  pose proof (aup_spec (rb_addr b) (ap_align args) ltac:(lia)) as [Hup _].
  pose proof Ht as Ht'. unfold roomy in Ht'. zbool.
  assert (range_ok (op_ptr q) (op_size q) /\ 0 < op_size q) as [Hrq Hpos].
  { subst q. unfold range_ok, LIM, bend in *. cbn. lia. }
  unfold alloc_chosen, PhysAlloc_count. rewrite uadd_ok, Ret_bind by (unfold MIN_REQ; lia).
  destruct (Z.ltb_spec (pa_max s) (Z.of_nat (length (vb s)) + MIN_REQ)); [unfold MIN_REQ in *; lia|].
  destruct (find_spec (alloc_filter (built args) q) (carve_choice (built args) q) s) as (r & Hfind & Hr).
  { apply Forall_forall. intros c Hcin. apply alloc_filter_ok; [|by eapply WF_elem].
    unfold range_ok, LIM, pend in *. lia. }
  destruct r as [[i from]|].
  - destruct Hr as (Hi & Hv & Hin & Hch).
    destruct (carve_run 14 s (built args) q i from) as (bs & both & [Hw' Hlen Ho' _ Hup' _] & Hrun);
      [done..|lia|lia|done|done|done|done|done| |].
    { cbn. rewrite Hus. by intros [_ ?]. }
    change (6 + 9)%nat with (S 14). rewrite Hrun, settle_plain by done.
    exists (set_blocks s bs), (Some q). split; [done|]. split_and!; [|done|by exists b|].
    + constructor; cbn [pa_blocks pa_max set_blocks]; [done..| |]; unfold BASE_RB_SIZE; lia.
    + intros a. cbn. rewrite Ho'. cbn. by rewrite Hus.
  - exfalso. rewrite Forall_forall in Hr. specialize (Hr b Hb). unfold carve_choice in Hr. cbn in Hr.
    subst q. unfold pend in Hr. cbn in Hr. rewrite bool_decide_true in Hr by congruence.
    rename select (rb_used b = false) into Hub. rewrite Hub in Hr. cbn in Hr. zbool. lia.
Qed.

(** ** The loops over the map *)

Definition desc_range (d : RAMDescriptor) (a : Z) : Prop :=
  in_range (desc_phys_start d) (desc_page_count d * PAGE_4KIB) a.
Definition desc_ok (d : RAMDescriptor) : Prop :=
  range_ok (desc_phys_start d) (desc_page_count d * PAGE_4KIB) /\ 0 <= desc_page_count d.

(** No address is in two entries of the list. *)
Definition apart (d e : RAMDescriptor) : Prop := forall a, desc_range d a -> ~ desc_range e a.
Fixpoint disjoint_map (ds : list RAMDescriptor) : Prop :=
  match ds with [] => True | d :: ds => Forall (apart d) ds /\ disjoint_map ds end.

Lemma disjoint_perm ds ds' : ds ≡ₚ ds' -> disjoint_map ds -> disjoint_map ds'.
Proof.
  induction 1 as [|d l l' Hp IH|d e l|l1 l2 l3 _ IH1 _ IH2]; cbn; auto.
  - intros [Hd Hl]. split; [by rewrite <- Hp|auto].
  - rewrite !Forall_cons. intros ([Hde Hd] & He & Hl). split_and!; try done.
    intros a Ha Hb. by apply (Hde a).
Qed.

Lemma disjoint_unique ds d e a :
  disjoint_map ds -> d ∈ ds -> e ∈ ds -> desc_range d a -> desc_range e a -> d = e.
Proof.
  induction ds as [|f ds IH]; cbn; [by intros _ ?%elem_of_nil|]. rewrite !elem_of_cons, Forall_forall.
  intros [Hf Hds] [->|Hd] [->|He] Hda Hea; auto.
  - by destruct (Hf e He a).
  - by destruct (Hf d Hd a).
Qed.

(** The type that [init] gives the memory of a descriptor. *)
Definition boot_type (d : RAMDescriptor) : RAMType :=
  let ty := low_type (desc_phys_start d) (desc_ty d) in
  if is_conv d then ty else if ty_in RECLAMABLE (desc_ty d) then Reclaimable else ty.

Definition boot_block (d : RAMDescriptor) : RAMBlock :=
  mkRAMBlock (desc_phys_start d) (desc_page_count d * PAGE_4KIB) (boot_type d) false.

Lemma block_ok d : desc_ok d ->
  (is_conv d = true -> conv_block d = Ret (boot_block d)) /\
  (is_conv d = false -> rest_block d = Ret (boot_block d)).
Proof.
  intros [(Ha & Hs & Hb) Hc]. unfold conv_block, rest_block, boot_block, boot_type. unfold LIM in *.
  rewrite umul_ok, Ret_bind by lia. by split; intros ->.
Qed.

(** Adding the selected entries of a list: those of a disjoint list, all of
    them in memory that nobody owns. *)
Definition chosen_count (sel : RAMDescriptor -> bool) (ds : list RAMDescriptor) : Z :=
  Z.of_nat (length (filter (fun d => sel d = true) ds)).

Lemma chosen_count_cons sel d ds :
  chosen_count sel (d :: ds) = (if sel d then 1 else 0) + chosen_count sel ds.
Proof.
  unfold chosen_count. destruct (sel d) eqn:Hs.
  - rewrite filter_cons_True by done. cbn [length]. lia.
  - rewrite filter_cons_False by congruence. lia.
Qed.

Lemma add_each_spec sel blk ds s k :
  plain s k -> k + chosen_count sel ds <= BASE_RB_SIZE -> Forall desc_ok ds -> disjoint_map ds ->
  (forall d, d ∈ ds -> sel d = true -> blk d = Ret (boot_block d)) ->
  (forall d a, d ∈ ds -> sel d = true -> desc_range d a -> owner (vb s) a = None) ->
  exists s', add_each sel blk ds s = Ret s' /\ plain s' (k + chosen_count sel ds) /\ pa_ptr s' = pa_ptr s /\
    (forall d a, d ∈ ds -> sel d = true -> desc_range d a -> owner (vb s') a = Some (boot_type d, false)) /\
    (forall a, (forall d, d ∈ ds -> sel d = true -> ~ desc_range d a) -> owner (vb s') a = owner (vb s) a).
Proof.
  revert s k. induction ds as [|d ds IH]; intros s k Hp Hk Hok Hdis Hblk Hfree.
  { exists s. cbn. rewrite Z.add_0_r. split_and!; try done. intros d a Hd. by apply elem_of_nil in Hd. }
  rewrite chosen_count_cons in *. apply Forall_cons in Hok as [Hd Hok]. destruct Hdis as [Hsep Hdis].
  rewrite Forall_forall in Hsep. cbn [add_each]. assert (0 <= chosen_count sel ds) by (unfold chosen_count; lia).
  destruct (sel d) eqn:Hsel.
  - rewrite (Hblk d) by (done || by left). rewrite Ret_bind.
    destruct (plain_add s k (boot_block d) Hp) as (s1 & Hrun & Hp1 & Hptr & Ho); [lia|apply Hd| |].
    { intros a Ha. apply (Hfree d); [by left|done|exact Ha]. }
    rewrite Hrun, Ret_bind.
    destruct (IH s1 (k + 1) Hp1) as (s' & Hrun' & Hp' & Hptr' & Hin & Hout); [lia|done|done| | |].
    + intros e He. apply Hblk. by right.
    + intros e a He Hse Hea. rewrite Ho. unfold upd. rewrite decide_False by (intros Hda; by apply (Hsep e He a)).
      apply (Hfree e); [by right|done..].
    + exists s'. rewrite Z.add_assoc. split_and!; [done|done|by rewrite Hptr'| |].
      * intros e a [->|He]%elem_of_cons Hse Hea; [|by apply Hin].
        rewrite Hout by (intros f Hf _ Hfa; by apply (Hsep f Hf a)). rewrite Ho. unfold upd. by rewrite decide_True.
      * intros a Ha. rewrite Hout by (intros e He; apply Ha; by right). rewrite Ho. unfold upd.
        rewrite decide_False; [done|]. apply (Ha d); [by left|done].
  - rewrite Ret_bind. destruct (IH s k Hp) as (s' & Hrun' & Hp' & Hptr' & Hin & Hout); [lia|done|done| | |].
    + intros e He. apply Hblk. by right.
    + intros e a He. apply Hfree. by right.
    + exists s'. rewrite Z.add_0_l. split_and!; [done..| |].
      * intros e a [->|He]%elem_of_cons Hse; [congruence|]. by apply Hin.
      * intros a Ha. apply Hout. intros e He. apply Ha. by right.
Qed.

(** ** Three allocations from one stretch of free memory *)

(** [lo .. hi) is free conventional memory. *)
Definition tail (s : PhysAlloc) (lo hi : Z) : Prop :=
  (page_size | lo) /\ forall a, lo <= a < hi -> owner (vb s) a = Some (Conv, false).

(** What an allocation of [n] bytes takes from it at most. *)
Definition need (n : Z) : Z := aup (szal n) page_size.

Definition array_request (ty : RAMType) (n : Z) : AllocParams := AllocParams_as_type (AllocParams_new n) ty.

Lemma need_spec n : 0 <= n -> 1 <= szal n <= need n /\ (page_size | need n).
Proof.
  intros Hn. unfold need. pose proof (szal_spec n Hn). pose proof (aup_spec (szal n) page_size page_size_pos).
  split; [lia|tauto].
Qed.

Lemma plain_alloc_tail s k ty n lo hi :
  plain s k -> k + 4 <= BASE_RB_SIZE -> 0 <= n <= 2 ^ 61 -> ty_in NON_RAM ty = false ->
  tail s lo hi -> lo + need n <= hi ->
  exists s' q, PhysAlloc_alloc s (array_request ty n) = Ret (s', Some q) /\
    plain s' (k + 2) /\ pa_ptr s' = pa_ptr s /\ op_size q = szal n /\ (page_size | op_ptr q) /\
    (forall a, in_ptr q a -> owner (vb s) a = Some (Conv, false)) /\
    (forall a, owner (vb s') a = upd (owner (vb s)) (op_ptr q) (op_size q) (ty, true) a) /\
    tail s' (lo + need n) hi.
Proof.
  intros Hp Hk Hn Hty [Hlo Ht] Hroom. pose proof (need_spec n ltac:(lia)) as [[Hsz1 Hsz2] Hdiv].
  pose proof page_size_range as Hps. pose proof page_size_pos as Hpp.
  assert (params_ok (array_request ty n)) as Hok.
  { constructor; cbn; [lia|lia|done]. }
  destruct (plain_alloc s k (array_request ty n) Hp Hk Hok eq_refl) as (s' & r & Hrun & Hr); [|done|].
  { unfold ram_types. cbn. by rewrite Hty. }
  pose proof (pl_wf _ _ Hp) as Hw.
  destruct (owner_range_block (vb s) lo (lo + need n) (Conv, false)) as (b0 & Hb0 & Hx0 & Hlo0 & Hhi0); [done|lia| |].
  { intros a Ha. apply Ht. lia. }
  destruct r as [q|].
  2: { exfalso. destruct Hr as [_ Hno]. rewrite Forall_forall in Hno. specialize (Hno b0 Hb0).
       unfold roomy in Hno. cbn in Hno. unfold battr in Hx0. injection Hx0 as Hx0 Hx1.
       rewrite Hx1, bool_decide_true in Hno by done. cbn in Hno. zbool.
       pose proof (aup_least (rb_addr b0) page_size lo Hpp Hlo Hlo0). lia. }
  destruct Hr as (Hp' & Hptr & (b & Hb & Hroomy & Hq) & Ho). exists s', q.
  unfold roomy in Hroomy. cbn in Hroomy. zbool. cbn in Hq.
  pose proof (aup_spec (rb_addr b) page_size Hpp) as [Hup Hupd].
  assert (forall a, in_ptr q a -> in_block b a) as Hqb.
  { intros a Ha. subst q. unfold in_ptr, in_block, in_range, bend in *. cbn in Ha. lia. }
  split_and!; [done..|by subst q|by subst q| |done|].
  - intros a Ha. rewrite (owner_in _ b a Hw Hb) by auto. unfold battr. congruence.
  - split; [by apply Z.divide_add_r|]. intros a Ha. rewrite Ho. unfold upd.
    rewrite decide_False; [apply Ht; lia|]. intros Hqa. apply Hqb in Hqa as Hba.
    assert (b = b0) as ->.
    { destruct (decide (in_block b0 a)) as [Hb0a|Hn0]; [by apply (WF_unique _ b b0 a Hw)|].
      destruct (owner_range_block (vb s) lo hi (Conv, false)) as (b1 & Hb1 & Hx1 & Hlo1 & Hhi1); [done|lia|done|].
      assert (b1 = b0) as ->.
      { apply (WF_unique _ b1 b0 lo Hw Hb1 Hb0); unfold in_block, in_range, bend in *; lia. }
      destruct Hn0. unfold in_block, in_range, bend in *. lia. }
    pose proof (aup_least (rb_addr b0) page_size lo Hpp Hlo Hlo0).
    subst q. unfold in_range in Hqa. cbn in Hqa. lia.
Qed.

(** ** The whole of [init] *)

(** The address map of the firmware, with the types that [init] gives. *)
Definition boot_map (ds : list RAMDescriptor) (a : Z) : option (RAMType * bool) := owner (boot_block <$> ds) a.

Lemma boot_map_in ds d a :
  disjoint_map ds -> d ∈ ds -> desc_range d a -> boot_map ds a = Some (boot_type d, false).
Proof.
  intros Hdis Hd Hda. unfold boot_map. destruct (owner (boot_block <$> ds) a) as [x|] eqn:Ho.
  - apply owner_Some in Ho as (b & Hb & Hba & <-). apply list_elem_of_fmap in Hb as (e & -> & He).
    by rewrite (disjoint_unique ds d e a).
  - rewrite owner_None in Ho. destruct (Ho (boot_block d)); [|done]. apply list_elem_of_fmap. by exists d.
Qed.
Lemma boot_map_out ds a : (forall d, d ∈ ds -> ~ desc_range d a) -> boot_map ds a = None.
Proof.
  intros Hn. apply owner_None. intros b Hb. apply list_elem_of_fmap in Hb as (d & -> & Hd). by apply Hn.
Qed.

(** A stretch of one conventional entry that [init] can use. *)
Definition usable (ds : list RAMDescriptor) (lo hi : Z) : Prop :=
  (page_size | lo) /\ exists d, d ∈ ds /\ is_conv d = true /\ boot_type d = Conv /\
    desc_phys_start d <= lo /\ hi <= desc_phys_start d + desc_page_count d * PAGE_4KIB.

Lemma chosen_split ds :
  chosen_count is_conv ds + chosen_count (fun d => negb (is_conv d)) ds = Z.of_nat (length ds).
Proof. induction ds as [|d ds IH]; [done|]. rewrite !chosen_count_cons. cbn [length]. destruct (is_conv d); cbn; lia. Qed.
Lemma chosen_perm sel ds ds' : ds ≡ₚ ds' -> chosen_count sel ds = chosen_count sel ds'.
Proof. intros Hp. unfold chosen_count. by rewrite Hp. Qed.

Definition embedded (rb_addr : Z) : PhysAlloc :=
  mkPhysAlloc (mkOwnedPtr rb_addr (BASE_RB_SIZE * size_of_RAMBlock)) BASE_RB_SIZE false
    (replicate (Z.to_nat BASE_RB_SIZE) RAMBlock_new_invalid).

Lemma embedded_plain rb : plain (embedded rb) 0.
Proof. by constructor. Qed.

(** The first loop. *)
Lemma conv_loop rb ds ds' lo hi :
  ds' ≡ₚ ds -> Forall desc_ok ds -> disjoint_map ds -> chosen_count is_conv ds <= BASE_RB_SIZE -> usable ds lo hi ->
  exists s, add_each is_conv conv_block ds' (embedded rb) = Ret s /\ plain s (chosen_count is_conv ds) /\
    pa_ptr s = pa_ptr (embedded rb) /\ tail s lo hi /\
    (forall a x, owner (vb s) a = Some x -> boot_map ds a = Some x /\ exists d, d ∈ ds /\ is_conv d = true /\ desc_range d a) /\
    (forall d a, d ∈ ds -> is_conv d = true -> desc_range d a -> owner (vb s) a = Some (boot_type d, false)).
Proof.
  intros Hp Hok Hdis Hc (Hlo & d0 & Hd0 & Hcv0 & Hty0 & Hl0 & Hh0). rewrite <- (chosen_perm is_conv ds' ds Hp) in *.
  assert (Forall desc_ok ds') as Hok' by (by rewrite Hp). pose proof (disjoint_perm _ _ (symmetry Hp) Hdis) as Hdis'.
  destruct (add_each_spec is_conv conv_block ds' (embedded rb) 0 (embedded_plain rb))
    as (s & Hrun & Hpl & Hptr & Hin & Hout); [lia|done|done| |done|].
  { intros d Hd Hcv. apply (proj1 (Forall_forall _ _)) with (x := d) in Hok'; [|done]. by apply block_ok. }
  exists s. rewrite Z.add_0_l in Hpl. split_and!; [done|done|done| | |].
  - split; [done|]. intros a Ha. rewrite <- Hty0. apply Hin; [by rewrite Hp|done|]. unfold desc_range, in_range. lia.
  - intros a x Hx. destruct (boot_map ds a) as [y|] eqn:Hy.
    + apply owner_Some in Hy as (b & Hb & Hba & <-). apply list_elem_of_fmap in Hb as (d & -> & Hd).
      destruct (is_conv d) eqn:Hcv.
      * rewrite (Hin d a) in Hx; [|by rewrite Hp|done|done]. injection Hx as <-. split; [done|]. by exists d.
      * rewrite Hout in Hx; [done|]. intros e He Hce Hea. rewrite Hp in He.
        rewrite (disjoint_unique ds d e a) in Hcv by done. congruence.
    + rewrite Hout in Hx; [done|]. intros e He Hce Hea. rewrite Hp in He. by rewrite (boot_map_in ds e a) in Hy.
  - intros d a Hd. apply Hin. by rewrite Hp.
Qed.

Variable wikisort : (RAMDescriptor -> RAMDescriptor -> comparison) -> list RAMDescriptor -> list RAMDescriptor.
Hypothesis sort_perm : forall cmp ds, wikisort cmp ds ≡ₚ ds.
Hypothesis Hpage : page_size = 4096.

Lemma relocate_run rb s k lo hi :
  plain s k -> k + 4 <= BASE_RB_SIZE -> pa_ptr s = pa_ptr (embedded rb) -> tail s lo hi -> lo + need 3072 <= hi ->
  exists s' q, relocate_table (pa_ptr (embedded rb)) s = Ret s' /\ pa_ptr s' = q /\ plain s' (k + 2) /\
    op_size q = 4096 /\ (page_size | op_ptr q) /\ tail s' (lo + need 3072) hi /\
    (forall a, in_ptr q a -> owner (vb s) a = Some (Conv, false)) /\
    forall a, owner (vb s') a = upd (owner (vb s)) (op_ptr q) (op_size q) META a.
Proof.
  intros Hp Hk Hptr Ht Hroom. unfold relocate_table. rewrite Hptr, bool_decide_true by done.
  rewrite (pl_max _ _ Hp). change (umul 64 size_of_RAMBlock BASE_RB_SIZE) with (umul 64 24 128).
  rewrite umul_ok, Ret_bind by lia. change (24 * 128) with 3072.
  destruct (plain_alloc_tail s k Conv 3072 lo hi) as (s' & q & Hrun & Hp' & Hptr' & Hsz & Hal & Hfr & Ho & Ht'); [done|done|lia|done..|].
  change (AllocParams_new 3072) with (array_request Conv 3072). rewrite Hrun, Ret_bind. cbn [unwrap]. rewrite Ret_bind.
  exists (set_ptr_max s' q (pa_max s')), q. split_and!; try done.
  - destruct Hp'. by constructor.
  - rewrite Hsz. change 3072 with (BASE_RB_SIZE * size_of_RAMBlock). rewrite szal_table by done. by rewrite Hpage.
Qed.

Lemma alloc_array_run s k ty len size lo hi :
  plain s k -> k + 4 <= BASE_RB_SIZE -> 0 <= len * size <= 2 ^ 61 -> ty_in NON_RAM ty = false ->
  tail s lo hi -> lo + need (len * size) <= hi ->
  exists s' q, alloc_array ty len size s = Ret (s', q) /\ plain s' (k + 2) /\ pa_ptr s' = pa_ptr s /\
    op_size q = szal (len * size) /\ tail s' (lo + need (len * size)) hi /\
    (forall a, in_ptr q a -> owner (vb s) a = Some (Conv, false)) /\
    forall a, owner (vb s') a = upd (owner (vb s)) (op_ptr q) (op_size q) (ty, true) a.
Proof.
  intros Hp Hk Hn Hty Ht Hroom. unfold alloc_array. rewrite umul_ok, Ret_bind by lia.
  destruct (plain_alloc_tail s k ty (len * size) lo hi) as (s' & q & Hrun & Hp' & Hptr' & Hsz & _ & Hfr & Ho & Ht'); [done..|].
  change (AllocParams_as_type _ ty) with (array_request ty (len * size)). rewrite Hrun, Ret_bind. cbn [unwrap].
  rewrite Ret_bind. by exists s', q.
Qed.

(** The states after the three allocations: [o1] is the map of conventional
    memory, from which they took their ranges. *)
Record carved (ds : list RAMDescriptor) (o1 o4 : Z -> option (RAMType * bool)) (q0 ql qs : OwnedPtr) : Prop := {
  cv_conv : forall a x, o1 a = Some x -> boot_map ds a = Some x /\ exists d, d ∈ ds /\ is_conv d = true /\ desc_range d a;
  cv_all : forall d a, d ∈ ds -> is_conv d = true -> desc_range d a -> o1 a = Some (boot_type d, false);
  cv_0 : forall a, in_ptr q0 a -> o1 a = Some (Conv, false);
  cv_l : forall a, in_ptr ql a -> o1 a = Some (Conv, false) /\ ~ in_ptr q0 a;
  cv_s : forall a, in_ptr qs a -> o1 a = Some (Conv, false) /\ ~ in_ptr q0 a /\ ~ in_ptr ql a;
  cv_4 : forall a, o4 a = if decide (in_ptr qs a) then Some (ElfSegments, true)
    else if decide (in_ptr ql a) then Some (EfiRamLayout, true)
    else if decide (in_ptr q0 a) then Some META else o1 a
}.

Lemma carved_intro ds o1 o2 o3 o4 q0 ql qs :
  (forall a x, o1 a = Some x -> boot_map ds a = Some x /\ exists d, d ∈ ds /\ is_conv d = true /\ desc_range d a) ->
  (forall d a, d ∈ ds -> is_conv d = true -> desc_range d a -> o1 a = Some (boot_type d, false)) ->
  (forall a, in_ptr q0 a -> o1 a = Some (Conv, false)) ->
  (forall a, o2 a = upd o1 (op_ptr q0) (op_size q0) META a) ->
  (forall a, in_ptr ql a -> o2 a = Some (Conv, false)) ->
  (forall a, o3 a = upd o2 (op_ptr ql) (op_size ql) (EfiRamLayout, true) a) ->
  (forall a, in_ptr qs a -> o3 a = Some (Conv, false)) ->
  (forall a, o4 a = upd o3 (op_ptr qs) (op_size qs) (ElfSegments, true) a) ->
  carved ds o1 o4 q0 ql qs.
Proof.
  intros Hc Ha H0 Ho2 Hfl Ho3 Hfs Ho4.
  assert (forall a, in_ptr ql a -> o1 a = Some (Conv, false) /\ ~ in_ptr q0 a) as Hl.
  { intros a Hq. specialize (Hfl a Hq). rewrite Ho2 in Hfl. unfold upd in Hfl. by case_decide. }
  constructor; [done..| |].
  - intros a Hq. specialize (Hfs a Hq). rewrite Ho3 in Hfs. unfold upd in Hfs. case_decide; [done|].
    rewrite Ho2 in Hfs. unfold upd in Hfs. by case_decide.
  - intros a. rewrite Ho4. unfold upd.
    destruct (decide (in_ptr qs a)) as [Hq|Hq]; [by rewrite decide_True|rewrite decide_False, Ho3 by done].
    unfold upd. destruct (decide (in_ptr ql a)) as [Hq'|Hq']; [by rewrite decide_True|rewrite decide_False, Ho2 by done].
    unfold upd. by destruct (decide (in_ptr q0 a)) as [Hq0'|Hq0']; [rewrite decide_True|rewrite decide_False].
Qed.

Lemma carved_rest ds o1 o4 q0 ql qs d a :
  carved ds o1 o4 q0 ql qs -> disjoint_map ds -> d ∈ ds -> is_conv d = false -> desc_range d a -> o4 a = None.
Proof.
  intros [Hc _ H0 Hl Hs H4] Hdis Hd Hcv Hda.
  assert (o1 a = None) as Hn.
  { destruct (o1 a) as [x|] eqn:Hx; [|done]. destruct (Hc a x Hx) as (_ & e & He & Hce & Hea).
    rewrite (disjoint_unique ds d e a) in Hcv by done. congruence. }
  rewrite H4, !decide_False; [done|intros Hq..].
  - by rewrite (H0 a Hq) in Hn.
  - by rewrite (proj1 (Hl a Hq)) in Hn.
  - by rewrite (proj1 (Hs a Hq)) in Hn.
Qed.

(** The rest of the map completes it. *)
Lemma carved_view ds o1 o4 (o5 : Z -> option (RAMType * bool)) q0 ql qs :
  carved ds o1 o4 q0 ql qs -> disjoint_map ds ->
  (forall d a, d ∈ ds -> is_conv d = false -> desc_range d a -> o5 a = Some (boot_type d, false)) ->
  (forall a, (forall d, d ∈ ds -> is_conv d = false -> ~ desc_range d a) -> o5 a = o4 a) ->
  (forall a, in_ptr q0 a -> o5 a = Some META) /\
  forall a, (if decide (in_ptr q0 a) then Some (Conv, false) else o5 a) =
    if decide (in_ptr ql a) then Some (EfiRamLayout, true)
    else if decide (in_ptr qs a) then Some (ElfSegments, true) else boot_map ds a.
Proof.
  intros Hcv Hdis Hin Hout. pose proof Hcv as [Hc Hall H0 Hl Hs H4].
  assert (forall a, o1 a <> None -> o5 a = o4 a) as Hsame.
  { intros a Ha. apply Hout. intros d Hd Hcd Hda. destruct (o1 a) as [x|] eqn:Hx; [|done].
    destruct (Hc a x Hx) as (_ & e & He & Hce & Hea). rewrite (disjoint_unique ds d e a) in Hcd by done. congruence. }
  split.
  - intros a Ha. rewrite Hsame, H4 by (by rewrite H0).
    rewrite (decide_False (P := in_ptr qs a)) by (intros Hq; by destruct (Hs a Hq) as (? & ? & ?)).
    rewrite (decide_False (P := in_ptr ql a)) by (intros Hq; by destruct (Hl a Hq)). by rewrite decide_True.
  - intros a. destruct (decide (in_ptr q0 a)) as [Hq0|Hn0].
    { rewrite (decide_False (P := in_ptr ql a)) by (intros Hq; by destruct (Hl a Hq)).
      rewrite (decide_False (P := in_ptr qs a)) by (intros Hq; by destruct (Hs a Hq) as (? & ? & ?)). symmetry. apply Hc. by apply H0. }
    destruct (decide (in_ptr ql a)) as [Hql|Hnl].
    { rewrite Hsame, H4 by (by rewrite (proj1 (Hl a Hql))).
      rewrite (decide_False (P := in_ptr qs a)) by (intros Hq; by destruct (Hs a Hq) as (? & ? & ?)). by rewrite decide_True. }
    destruct (decide (in_ptr qs a)) as [Hqs|Hns].
    { rewrite Hsame, H4 by (by rewrite (proj1 (Hs a Hqs))). by rewrite decide_True. }
    destruct (o1 a) as [x|] eqn:Hx.
    { rewrite Hsame, H4, !decide_False by congruence. rewrite Hx. symmetry. by apply Hc. }
    destruct (boot_map ds a) as [y|] eqn:Hy.
    + apply owner_Some in Hy as (b & Hb & Hba & <-). apply list_elem_of_fmap in Hb as (d & -> & Hd).
      destruct (is_conv d) eqn:Hcd; [by rewrite (Hall d a) in Hx|]. by apply Hin.
    + rewrite Hout, H4, !decide_False; try done. intros d Hd _ Hda. by rewrite (boot_map_in ds d a) in Hy.
Qed.

Lemma rest_loop ds ds2 s4 k o1 q0 ql qs :
  plain s4 k -> carved ds o1 (owner (vb s4)) q0 ql qs -> ds2 ≡ₚ ds -> Forall desc_ok ds -> disjoint_map ds ->
  k + chosen_count (fun d => negb (is_conv d)) ds <= BASE_RB_SIZE ->
  exists s5, add_each (fun d => negb (is_conv d)) rest_block ds2 s4 = Ret s5 /\
    plain s5 (k + chosen_count (fun d => negb (is_conv d)) ds) /\ pa_ptr s5 = pa_ptr s4 /\
    (forall a, in_ptr q0 a -> owner (vb s5) a = Some META) /\
    forall a, (if decide (in_ptr q0 a) then Some (Conv, false) else owner (vb s5) a) =
      if decide (in_ptr ql a) then Some (EfiRamLayout, true)
      else if decide (in_ptr qs a) then Some (ElfSegments, true) else boot_map ds a.
Proof.
  intros Hpl4 Hcv Hp2 Hok Hdis Hk.
  destruct (add_each_spec (fun d => negb (is_conv d)) rest_block ds2 s4 k Hpl4)
    as (s5 & Hrun & Hpl5 & Hptr5 & Hin5 & Hout5).
  { by rewrite (chosen_perm _ ds2 ds Hp2). }
  { by rewrite Hp2. }
  { by apply (disjoint_perm ds). }
  { intros d Hd Hcd. rewrite Hp2 in Hd. apply block_ok; [|by apply negb_true_iff]. by apply (proj1 (Forall_forall _ _) Hok). }
  { intros d a Hd Hcd Hda. rewrite Hp2 in Hd. by apply (carved_rest ds _ _ _ _ _ d a Hcv Hdis Hd); [apply negb_true_iff|]. }
  rewrite (chosen_perm _ ds2 ds Hp2) in Hpl5.
  destruct (carved_view ds _ _ (owner (vb s5)) q0 ql qs Hcv Hdis) as [Hmeta Hview].
  { intros d a Hd Hcd. apply Hin5; [by rewrite Hp2|by rewrite Hcd]. }
  { intros a Ha. apply Hout5. intros d Hd Hcd. rewrite Hp2 in Hd. apply Ha; [done|by apply negb_true_iff]. }
  by exists s5.
Qed.

(** What [init] makes of the boot information [b]: the invariant, room in the
    table, the same map and segments, and the copies of both in what was free. *)
Record initialised (b b' : Boot) : Prop := {
  in_inv : INV (bt_pa b');
  in_init : pa_is_init (bt_pa b') = true;
  in_slack : 2 <= slack (bt_pa b');
  in_layout : bt_layout b' ≡ₚ bt_layout b;
  in_segs : bt_segs b' = bt_segs b;
  in_view : let ds := bt_layout b in
    let ql := mkOwnedPtr (bt_layout_ptr b') (szal (Z.of_nat (length ds) * size_of_RAMDescriptor)) in
    let qs := mkOwnedPtr (bt_seg_ptr b') (szal (Z.of_nat (length (bt_segs b)) * size_of_Segment)) in
    (forall a, in_ptr ql a -> boot_map ds a = Some (Conv, false) /\ ~ in_ptr qs a) /\
    (forall a, in_ptr qs a -> boot_map ds a = Some (Conv, false)) /\
    forall a, view (bt_pa b') a =
      if decide (in_ptr ql a) then Some (EfiRamLayout, true)
      else if decide (in_ptr qs a) then Some (ElfSegments, true) else boot_map ds a
}.

(** The map has at most 120 disjoint entries and a stretch of free memory for
    the table and the copies. *)
Record boot_ok (b : Boot) : Prop := {
  bk_init : pa_is_init (bt_pa b) = false;
  bk_descs : Forall desc_ok (bt_layout b);
  bk_disj : disjoint_map (bt_layout b);
  bk_len : Z.of_nat (length (bt_layout b)) <= 120;
  bk_segs : Z.of_nat (length (bt_segs b)) * size_of_Segment <= 2 ^ 61;
  bk_room : exists lo hi, usable (bt_layout b) lo hi /\
    lo + (need 3072 + need (Z.of_nat (length (bt_layout b)) * size_of_RAMDescriptor) +
          need (Z.of_nat (length (bt_segs b)) * size_of_Segment)) <= hi
}.

Lemma boot_map_run rb b :
  boot_ok b -> exists b', PhysAlloc_init wikisort rb b = Ret b' /\ initialised b b'.
Proof.
  intros [Hi Hok Hdis Hlen Hns (lo & hi & Hus & Hroom)]. set (ds := bt_layout b) in *.
  set (nl := Z.of_nat (length ds) * size_of_RAMDescriptor) in *.
  set (ns := Z.of_nat (length (bt_segs b)) * size_of_Segment) in *.
  set (ds1 := sort_noheap_by_key wikisort desc_page_count ds). set (ds2 := sort_noheap_by_key wikisort desc_phys_start ds1).
  assert (ds1 ≡ₚ ds) as Hp1 by apply sort_perm. assert (ds2 ≡ₚ ds) as Hp2 by (unfold ds2, sort_noheap_by_key; by rewrite sort_perm).
  assert (rev ds1 ≡ₚ ds) as Hpr by (by rewrite <- Permutation_rev).
  pose proof (chosen_split ds) as Hsum. set (nc := chosen_count is_conv ds) in *.
  assert (0 <= nc /\ 0 <= nl <= 2 ^ 61 /\ 0 <= ns) as (Hnc & Hnl & Hns0).
  { unfold nc, chosen_count, nl, ns, size_of_RAMDescriptor, size_of_Segment. lia. }
  assert (0 <= chosen_count (fun d => negb (is_conv d)) ds) as Hnr by (unfold chosen_count; lia).
  pose proof (need_spec nl ltac:(lia)) as [? _]. pose proof (need_spec ns Hns0) as [? _].
  unfold PhysAlloc_init. rewrite Hi. fold ds. fold (embedded rb). fold ds1.
  change (mkOwnedPtr rb (BASE_RB_SIZE * size_of_RAMBlock)) with (pa_ptr (embedded rb)).
  destruct (conv_loop rb ds (rev ds1) lo hi Hpr Hok Hdis) as (s1 & -> & Hpl1 & Hptr1 & Ht1 & Hc1 & Ha1);
    [unfold BASE_RB_SIZE; lia|done|]. rewrite Ret_bind.
  destruct (relocate_run rb s1 nc lo hi Hpl1) as (s2 & q0 & -> & Hq0 & Hpl2 & Hsz0 & Hal0 & Ht2 & Hf0 & Ho2);
    [unfold BASE_RB_SIZE; lia|done|done|lia|]. rewrite Ret_bind, (Permutation_length Hp1).
  destruct (alloc_array_run s2 (nc + 2) EfiRamLayout (Z.of_nat (length ds)) size_of_RAMDescriptor (lo + need 3072) hi)
    as (s3 & ql & -> & Hpl3 & Hptr3 & Hszl & Ht3 & Hfl & Ho3); [done|unfold BASE_RB_SIZE; lia|done|done|done|fold nl; lia|].
  rewrite Ret_bind. fold nl in Ht3, Hszl.
  destruct (alloc_array_run s3 (nc + 2 + 2) ElfSegments (Z.of_nat (length (bt_segs b))) size_of_Segment (lo + need 3072 + need nl) hi)
    as (s4 & qs & -> & Hpl4 & Hptr4 & Hszs & _ & Hfs & Ho4); [done|unfold BASE_RB_SIZE; lia|fold ns; lia|done|done|fold ns; lia|].
  rewrite Ret_bind. fold ns in Hszs. fold ds2.
  assert (carved ds (owner (vb s1)) (owner (vb s4)) q0 ql qs) as Hcv by (by eapply carved_intro).
  destruct (rest_loop ds ds2 s4 (nc + 2 + 2 + 2) (owner (vb s1)) q0 ql qs) as (s5 & -> & Hpl5 & Hptr5 & Hmeta & Hview);
    [done..|unfold BASE_RB_SIZE; lia|].
  rewrite Ret_bind. assert (pa_ptr s5 = q0) as Hptr by congruence.
  eexists. split; [done|]. assert (mkOwnedPtr (op_ptr ql) (szal nl) = ql) as Hql by (rewrite <- Hszl; by destruct ql).
  assert (mkOwnedPtr (op_ptr qs) (szal ns) = qs) as Hqs by (rewrite <- Hszs; by destruct qs).
  destruct Hpl5 as [Hw5 Hm5 Hl5 Hk5]. destruct Hcv as [Hcc _ _ Hcl Hcs _].
  constructor; cbn [bt_pa bt_layout bt_layout_ptr bt_segs bt_seg_ptr pa_is_init]; cbv zeta; fold ds nl ns;
    rewrite ?Hql, ?Hqs; [|done| |done|done|split_and!].
  - constructor; cbn; rewrite ?Hptr; try done; [lia|lia|].
    by rewrite Hsz0, Hm5, Hpage.
  - change (2 <= pa_max s5 - Z.of_nat (length (vb s5))). unfold BASE_RB_SIZE in *. lia.
  - intros a Ha. split; [by apply Hcc, Hcl|]. intros Hs. by destruct (Hcs a Hs) as (? & ? & ?).
  - intros a Ha. by apply Hcc, Hcs.
  - intros a. unfold view. cbn. rewrite Hptr. apply Hview.
Qed.

(** C19: [init] on any memory map of at most 120 disjoint entries with a
    stretch of conventional memory for the table and the two copies: it
    returns, the allocator's invariant holds, and the address map is the
    firmware's: conventional memory is free, the boot loader's is
    reclaimable, memory below 1 MiB is reserved on x86-64, and the copies of
    the map and of the segment list lie in what was free. *)
Theorem boot_map_spec rb b lo hi :
  pa_is_init (bt_pa b) = false -> let ds := bt_layout b in
  Forall desc_ok ds -> disjoint_map ds -> Z.of_nat (length ds) <= 120 -> usable ds lo hi ->
  let nl := Z.of_nat (length ds) * size_of_RAMDescriptor in
  let ns := Z.of_nat (length (bt_segs b)) * size_of_Segment in
  ns <= 2 ^ 61 -> lo + (need 3072 + need nl + need ns) <= hi ->
  exists b', PhysAlloc_init wikisort rb b = Ret b' /\ INV (bt_pa b') /\ pa_is_init (bt_pa b') = true /\
    2 <= slack (bt_pa b') /\ bt_layout b' ≡ₚ ds /\ bt_segs b' = bt_segs b /\
    let ql := mkOwnedPtr (bt_layout_ptr b') (szal nl) in
    let qs := mkOwnedPtr (bt_seg_ptr b') (szal ns) in
    (forall a, in_ptr ql a -> boot_map ds a = Some (Conv, false) /\ ~ in_ptr qs a) /\
    (forall a, in_ptr qs a -> boot_map ds a = Some (Conv, false)) /\
    forall a, view (bt_pa b') a =
      if decide (in_ptr ql a) then Some (EfiRamLayout, true)
      else if decide (in_ptr qs a) then Some (ElfSegments, true) else boot_map ds a.
Proof.
  cbn zeta. intros Hi Hok Hdis Hlen Hus Hns Hroom.
  destruct (boot_map_run rb b) as (b' & Hrun & [K1 K2 K3 K4 K5 (K6 & K7 & K8)]); [|by exists b'; split_and!].
  constructor; [done..|]. by exists lo, hi.
Qed.
End InitThms.

(** ** A machine with five entries in its memory map *)

Module InitDemo.
#[local] Existing Instance Demo.demo.

(** A sort: insertion. *)
Fixpoint insert_by (cmp : RAMDescriptor -> RAMDescriptor -> comparison) (d : RAMDescriptor) (ds : list RAMDescriptor) : list RAMDescriptor :=
  match ds with [] => [d] | e :: ds => match cmp d e with Gt => e :: insert_by cmp d ds | _ => d :: e :: ds end end.
Fixpoint sort_by (cmp : RAMDescriptor -> RAMDescriptor -> comparison) (ds : list RAMDescriptor) : list RAMDescriptor :=
  match ds with [] => [] | d :: ds => insert_by cmp d (sort_by cmp ds) end.

Lemma insert_perm cmp d ds : insert_by cmp d ds ≡ₚ d :: ds.
Proof.
  induction ds as [|e ds IH]; cbn; [done|]. case_match; [done..|]. rewrite IH. apply Permutation_swap.
Qed.
Lemma sort_perm cmp ds : sort_by cmp ds ≡ₚ ds.
Proof. induction ds as [|d ds IH]; cbn; [done|]. by rewrite insert_perm, IH. Qed.

Definition map0 : list RAMDescriptor :=
  [mkRAMDescriptor Conv 0x1000 0 0x9e 0; mkRAMDescriptor BootSvcData 0x100000 0 0x700 0;
   mkRAMDescriptor Conv 0x800000 0 0x1000 0; mkRAMDescriptor LoaderCode 0x1800000 0 0x80 0;
   mkRAMDescriptor MMIO 0xfec00000 0 1 0].
Definition boot0 : Boot := mkBoot PhysAlloc_empty map0 0x1900000 [mkSegment 0 0x4000 5 0x1000] 0x1901000.

Lemma map0_disjoint : disjoint_map map0.
Proof.
  unfold map0. cbn. split_and!; repeat (apply Forall_cons_2); try apply Forall_nil_2; try done.
  all: intros a; unfold desc_range, in_range; cbn; change PAGE_4KIB with 4096; lia.
Qed.

Lemma boot_map_spec_witness :
  exists b', PhysAlloc_init sort_by 0x2000000 boot0 = Ret b' /\ INV (bt_pa b') /\ pa_is_init (bt_pa b') = true /\
    2 <= slack (bt_pa b') /\ bt_layout b' ≡ₚ map0 /\ bt_segs b' = bt_segs boot0 /\
    let ql := mkOwnedPtr (bt_layout_ptr b') (szal 240) in
    let qs := mkOwnedPtr (bt_seg_ptr b') (szal 24) in
    (forall a, in_ptr ql a -> boot_map map0 a = Some (Conv, false) /\ ~ in_ptr qs a) /\
    (forall a, in_ptr qs a -> boot_map map0 a = Some (Conv, false)) /\
    forall a, view (bt_pa b') a =
      if decide (in_ptr ql a) then Some (EfiRamLayout, true)
      else if decide (in_ptr qs a) then Some (ElfSegments, true) else boot_map map0 a.
Proof.
  apply (boot_map_spec sort_by sort_perm Demo.page0 0x2000000 boot0 0x800000 0x1800000); try done.
  - cbn. repeat (apply Forall_cons_2); try apply Forall_nil_2; by vm_compute.
  - apply map0_disjoint.
  - split; [by exists 0x800|]. exists (mkRAMDescriptor Conv 0x800000 0 0x1000 0).
    split_and!; try done. do 2 right. by left.
Defined.
End InitDemo.
