(* ===== verification/Heap.v ===== *)
(** * Heap: page buffers and the kernel heap (ram/mod.rs)

    [PhysPageBuf], and [KheapHandler]: the handler that the heap allocator
    (the talc crate) calls when it is out of memory.  The handler takes
    physical memory, maps it behind the end of the heap, takes its identity
    mapping away and hands the longer heap to the allocator.  talc's [Span]
    and allocator are an interface. *)

From S2P Require Import Prelude Kargs Rvm RamUtil Physalloc Glacier.

(** [talc::Span] and the operations of [talc::Talc] that the handler calls. *)
Class TalcApi (Sp T : Type) : Type := {
  span_empty : Sp;
  span_from : Z -> Z -> Sp;                  (* the span of a slice *)
  span_size : Sp -> Z;
  span_is_empty : Sp -> bool;
  span_extend : Sp -> Z -> Z -> Sp;
  talc_claim : T -> Sp -> T * result unit unit;
  talc_extend : T -> Sp -> Sp -> T
}.

(** What the documentation of [Span] says. *)
Class SpanLaws (Sp T : Type) `{TalcApi Sp T} : Type := {
  span_base : Sp -> Z;
  span_empty_law : span_is_empty span_empty = true /\ span_size span_empty = 0;
  span_from_law : forall b n, 0 < n ->
    span_base (span_from b n) = b /\ span_size (span_from b n) = n /\ span_is_empty (span_from b n) = false;
  span_extend_law : forall s n, span_is_empty s = false -> 0 <= n ->
    span_base (span_extend s 0 n) = span_base s /\ span_size (span_extend s 0 n) = span_size s + n /\
    span_is_empty (span_extend s 0 n) = false
}.

(** ** [KheapHandler] *)

Record KheapHandler (Sp : Type) : Type := mkKheapHandler { kh_base : Z; kh_heap : Sp }.
Arguments mkKheapHandler {Sp}.
Arguments kh_base {Sp}.
Arguments kh_heap {Sp}.

(** What the handler calls of the kernel: [PHYS_ALLOC.alloc],
    [GLACIER.map_range] and [GLACIER.unmap_range] on one state. *)
Class KernelVm (M : Type) : Type := {
  vm_alloc : M -> AllocParams -> outcome (M * option OwnedPtr);
  vm_map : M -> Z -> Z -> Z -> Z -> outcome (M * result GlacierErr unit);
  vm_unmap : M -> Z -> Z -> outcome M
}.

Definition Machine_KernelVm `{Platform} {A : Type} `{!FrameAlloc A} (g : Glacier) : KernelVm (Machine A) := {|
  vm_alloc := fun st args => '(a, r) ← fa_alloc (m_fa st) args; Ret (set_fa st a, r);
  vm_map := fun st va pa size fl => map_range g va pa size fl st;
  vm_unmap := fun st va size => unmap_range g va size st
|}.

(** ** [PhysPageBuf] *)

Section Buffers.
Context `{Platform}.

Definition buffer_request (size : Z) : AllocParams :=
  AllocParams_as_type (AllocParams_align (AllocParams_new size) page_size) KernelData.

(** [new] and [drop]; the buffer is the range it owns. *)
Definition PhysPageBuf_new (s : PhysAlloc) (size : Z) : outcome (PhysAlloc * option OwnedPtr) :=
  PhysAlloc_alloc s (buffer_request size).
Definition PhysPageBuf_drop (s : PhysAlloc) (buf : OwnedPtr) : outcome PhysAlloc := PhysAlloc_free s buf.
End Buffers.

(** ** The heap *)

Section Heap.
Context `{Platform} {M : Type} `{!KernelVm M} {Sp T : Type} `{!TalcApi Sp T}.

Definition KheapHandler_new : KheapHandler Sp := mkKheapHandler 0 span_empty.
Definition KheapHandler_set_base (k : KheapHandler Sp) (b : Z) : KheapHandler Sp := mkKheapHandler b (kh_heap k).
Definition KheapHandler_set_heap (k : KheapHandler Sp) (h : Sp) : KheapHandler Sp := mkKheapHandler (kh_base k) h.
Definition KheapHandler_size (k : KheapHandler Sp) : Z := span_size (kh_heap k).

(** [init_heap]: the heap starts behind the kernel's image; [ksize] is
    [KINFO.read().size]. *)
Definition init_heap (ksize : Z) (k : KheapHandler Sp) : outcome (KheapHandler Sp) :=
  hh ← hihalf;
  s ← uadd 64 ksize hh;
  heap_base ← align_up s page_size;
  Ret (KheapHandler_set_base k heap_base).

(** [AllocParams::new(n).as_type(KernelData).align(page_size())] *)
Definition data_request (n : Z) : AllocParams :=
  AllocParams_align (AllocParams_as_type (AllocParams_new n) KernelData) page_size.

(** The state of the handler: the machine, the handler's fields (a field of
    the allocator in the code), and the allocator. *)
Record Oom : Type := mkOom { oo_st : M; oo_khh : KheapHandler Sp; oo_talc : T }.

(** The inner loop: halve the request until there is memory for it. *)
Fixpoint alloc_halving (fuel : nat) (try_sz : Z) (st : M) : outcome (M * option OwnedPtr) :=
  match fuel with
  | O => NoFuel
  | S fuel =>
      '(st, r) ← vm_alloc st (data_request try_sz);
      match r with
      | Some p => Ret (st, Some p)
      | None =>
          if page_size <? try_sz then
            d ← ushl 64 page_size 1;
            q ← udiv try_sz d;
            try_sz ← umul 64 q page_size;
            alloc_halving fuel try_sz st
          else Ret (st, None)
      end
  end.

(** The [unsafe] block: map the memory behind the heap, unmap its identity
    mapping, and hand it to the allocator.  The result of [map_range] is not
    looked at.  [false]: [claim] failed. *)
Definition grow_heap (ptr : OwnedPtr) (o : Oom) : outcome (Oom * bool) :=
  let khh := oo_khh o in
  va ← uadd 64 (kh_base khh) (KheapHandler_size khh);
  '(st, _) ← vm_map (oo_st o) va (op_ptr ptr) (op_size ptr) (K_RWO flags);
  st ← vm_unmap st (op_ptr ptr) (op_size ptr);
  if span_is_empty (kh_heap khh) then
    let heap := span_from (kh_base khh) (op_size ptr) in
    let '(talc, r) := talc_claim (oo_talc o) heap in
    Ret (mkOom st (KheapHandler_set_heap khh heap) talc, match r with Ok _ => true | Err _ => false end)
  else
    let old_heap := kh_heap khh in
    let new_heap := span_extend old_heap 0 (op_size ptr) in
    Ret (mkOom st (KheapHandler_set_heap khh new_heap) (talc_extend (oo_talc o) old_heap new_heap), true).

(** [while rem > 0] *)
Fixpoint oom_loop (fuel : nat) (rem : Z) (o : Oom) : outcome (Oom * result unit unit) :=
  match fuel with
  | O => NoFuel
  | S fuel =>
      if 0 <? rem then
        '(st, r) ← alloc_halving (S fuel) rem (oo_st o);
        let o := mkOom st (oo_khh o) (oo_talc o) in
        match r with
        | None => Ret (o, Err ())
        | Some ptr =>
            '(o, claimed) ← grow_heap ptr o;
            if (claimed : bool) then oom_loop fuel (usat_sub rem (op_size ptr)) o
            else Ret (o, Err ())
        end
      else Ret (o, Ok ())
  end.

(** [handle_oom]; [layout_size] is [layout.size()]. *)
Definition handle_oom (fuel : nat) (layout_size : Z) (o : Oom)
    : outcome (Oom * result unit unit) :=
  n ← umul 64 layout_size 2;
  size ← align_up n page_size;
  oom_loop fuel size o.
End Heap.
Arguments Oom M Sp T : clear implicits.
