(* ===== verification/GlacierMaps.v ===== *)
(** * GlacierMaps: mapping a list of ranges

    Several components map one range after the other ([reloc], the address
    space of a program): ranges with different pages are mapped independently
    of each other. *)

From S2P Require Import Prelude Kargs Rvm RamUtil Physalloc RvmFacts Glacier GlacierSpec GlacierThms.
From S2P Require Import BlockTable PhysallocSpec PhysallocThms GlacierRange Heap.

Record MapReq : Type := mkMapReq { mq_va : Z; mq_pa : Z; mq_size : Z; mq_fl : Z }.

Section Maps.
Context `{Platform} {A : Type} `{!FrameAlloc A} `{!FrameLaws A}.
Abbreviation St := (Machine A).
Abbreviation c := G_CFG.
Implicit Types (st : St) (τ : gmap (list Z) Z).

Variable lim : Z.
Hypothesis Hcfg : cfg_ok c.
Hypothesis Hlim : 0 < lim <= 2 ^ bits c 0.

(** [map_range] of each, until one fails. *)
Fixpoint map_reqs (g : Glacier) (rs : list MapReq) st : outcome (St * result GlacierErr unit) :=
  match rs with
  | [] => Ret (st, Ok ())
  | r :: rs =>
      '(st, x) ← map_range g (mq_va r) (mq_pa r) (mq_size r) (mq_fl r) st;
      match x with Ok _ => map_reqs g rs st | Err e => Ret (st, Err e) end
  end.

Definition mq_lo (r : MapReq) : Z := page_floor (mq_va r).
Definition mq_frames (r : MapReq) : Z := page_floor (mq_pa r).
Definition mq_pages (r : MapReq) : Z := pages_of (mq_va r) (mq_size r).

Record req_ok (r : MapReq) : Prop := {
  rq_va : 0 <= mq_va r /\ 0 <= mq_size r /\ mq_va r + mq_size r + page_size < 2 ^ 64;
  rq_pa : 0 <= mq_pa r < 2 ^ 64 /\ mq_frames r + mq_pages r * page_size <= 2 ^ 64;
  rq_fits : range_fits lim (mq_lo r) (mq_pages r)
}.

(** The address is in a page of the range. *)
Definition touches (r : MapReq) (va : Z) : Prop :=
  exists k, 0 <= k < mq_pages r /\ vpn c va = vpn c (page (mq_lo r) k).

Definition no_shared (rs : list MapReq) : Prop :=
  forall i j r r' va, rs !! i = Some r -> rs !! j = Some r' -> 0 <= va < 2 ^ 64 -> touches r va -> touches r' va -> i = j.

(** What the translations are when the ranges [rs] are mapped. *)
Record all_mapped g (rs : list MapReq) st st' : Prop := {
  am_in : forall r va k, r ∈ rs -> 0 <= va < 2 ^ 64 -> in_lim lim va -> 0 <= k < mq_pages r ->
    vpn c va = vpn c (page (mq_lo r) k) ->
    get_pa g va st' = Ret (entry_pa (Z.lor (page (mq_frames r) k) (mq_fl r)));
  am_out : forall va, 0 <= va < 2 ^ 64 -> in_lim lim va -> (forall r, r ∈ rs -> ~ touches r va) ->
    get_pa g va st' = get_pa g va st
}.

Lemma no_shared_cons r rs : no_shared (r :: rs) -> no_shared rs.
Proof. intros Hn i j r1 r2 va Hi Hj Hva H1 H2. by injection (Hn (S i) (S j) r1 r2 va Hi Hj Hva H1 H2). Qed.

Lemma no_shared_head r rs r' va :
  no_shared (r :: rs) -> r' ∈ rs -> 0 <= va < 2 ^ 64 -> touches r va -> ~ touches r' va.
Proof.
  intros Hn Hr' Hva Ht Ht'. apply list_elem_of_lookup_1 in Hr' as [j Hj].
  by specialize (Hn 0%nat (S j) r r' va eq_refl Hj Hva Ht Ht').
Qed.

(** The same by entries. *)
Record all_entered (rs : list MapReq) st τ st' τ' : Prop := {
  ae_in : forall r va k, r ∈ rs -> 0 <= va < 2 ^ 64 -> 0 <= k < mq_pages r -> vpn c va = vpn c (page (mq_lo r) k) ->
    pte st' τ' va = Z.lor (page (mq_frames r) k) (mq_fl r);
  ae_out : forall va, 0 <= va < 2 ^ 64 -> (forall r, r ∈ rs -> ~ touches r va) -> pte st' τ' va = pte st τ va
}.

(** The request that failed. *)
Definition failed_req g (rs : list MapReq) st (e : GlacierErr) : Prop :=
  exists pre r post st1 st2, rs = pre ++ r :: post /\ map_reqs g pre st = Ret (st1, Ok ()) /\
    map_range g (mq_va r) (mq_pa r) (mq_size r) (mq_fl r) st1 = Ret (st2, Err e).

Lemma map_reqs_entries g rs st τ :
  GInv lim g st τ -> Forall req_ok rs -> no_shared rs ->
  exists st' x τ', map_reqs g rs st = Ret (st', x) /\ GInv lim g st' τ' /\
    match x with Ok _ => all_entered rs st τ st' τ' | Err e => failed_req g rs st e end /\ evolves st τ st' τ'.
Proof.
  intros HG Hok. revert st τ HG. induction Hok as [|r rs Hr Hok IH]; intros st τ HG Hns.
  { exists st, (Ok ()), τ. split_and!; [done|done| |apply evolves_refl]. constructor; [|done]. intros r va k Hr. by apply elem_of_nil in Hr. }
  cbn [map_reqs]. destruct Hr as [(Hva & Hsz & Hvb) [Hpa Hpb] Hfit].
  destruct (map_range_entries lim Hcfg Hlim g st τ (mq_va r) (mq_pa r) (mq_size r) (mq_fl r) HG Hva Hsz Hvb Hpa Hpb Hfit)
    as (st1 & x & τ1 & j & Hrun & HG1 & Hj & [Hin Hout] & Hx & Hev). rewrite Hrun, Ret_bind.
  destruct x as [u|e]; [subst j|exists st1, (Err e), τ1; split_and!; [done|done|by exists [], r, rs, st, st1|done]].
  destruct (IH st1 τ1 HG1 (no_shared_cons _ _ Hns)) as (st' & x & τ' & -> & HG' & Hx & Hev').
  exists st', x, τ'. split_and!; [done|done| |by eapply evolves_trans]. destruct x as [u'|e].
  - destruct Hx as [Hin' Hout']. constructor.
    + intros r' va k [->|Hr']%elem_of_cons Ha Hk Hv; [|by apply (Hin' r' va k)].
      rewrite Hout'; [by apply Hin|done|]. intros r' Hr'. eapply no_shared_head; [done|done|done|]. by exists k.
    + intros va Ha Hn. rewrite Hout'; [|done|intros r' Hr'; apply Hn; by right].
      apply Hout. intros k Hk Hv. apply (Hn r); [by left|]. by exists k.
  - destruct Hx as (pre & r' & post & s1 & s2 & -> & Hp & Hs). exists (r :: pre), r', post, s1, s2.
    split_and!; [done| |done]. cbn [map_reqs]. by rewrite Hrun, Ret_bind.
Qed.

Lemma all_entered_mapped g rs st τ st' τ' :
  GInv lim g st τ -> GInv lim g st' τ' -> all_entered rs st τ st' τ' -> all_mapped g rs st st'.
Proof.
  intros [HT _] [HT' _] [Hin Hout]. constructor.
  - intros r va k Hr Hva Hl Hk Hv. by rewrite (get_pa_spec lim Hcfg g st' τ'), (Hin r va k).
  - intros va Hva Hl Hn. by rewrite (get_pa_spec lim Hcfg g st' τ'), (get_pa_spec lim Hcfg g st τ), Hout.
Qed.

Lemma map_reqs_run g rs st τ :
  GInv lim g st τ -> Forall req_ok rs -> no_shared rs ->
  exists st' x τ', map_reqs g rs st = Ret (st', x) /\ GInv lim g st' τ' /\
    match x with Ok _ => all_mapped g rs st st' | Err e => failed_req g rs st e end /\ evolves st τ st' τ'.
Proof.
  intros HG Hok Hns. destruct (map_reqs_entries g rs st τ HG Hok Hns) as (st' & x & τ' & Hrun & HG' & Hx & Hev).
  exists st', x, τ'. split_and!; [done|done| |done]. destruct x; [by eapply all_entered_mapped|done].
Qed.

(** ** Mapping again what is mapped

    It takes no memory, so it does not fail. *)

Lemma path_prefix st root τ k j va :
  Tree lim st root τ -> is_Some (τ !! path j va) -> (k <= j)%nat -> is_Some (τ !! path k va).
Proof.
  intros HT Hj Hk. destruct (τ !! path k va) eqn:Hn; [done|].
  rewrite (path_none lim st root τ k j va HT Hn Hk) in Hj. by destruct Hj.
Qed.

Lemma map_walk_present n k st root τ t va pa fl :
  Tree lim st root τ -> in_lim lim va -> Z.of_nat n + Z.of_nat k = lv c -> (0 < n)%nat -> τ !! path k va = Some t ->
  is_Some (τ !! leaf_path va) ->
  exists st', map_walk n (lv c) (Z.of_nat k) t va pa fl st = Ret (st', Ok ()) /\ m_fa st' = m_fa st.
Proof.
  intros HT Hv. pose proof (lv_bounds c Hcfg) as [? _]. revert k t.
  induction n as [|n IH]; intros k t Hk Hn Ht Hleaf; [lia|].
  cbn [map_walk]. rewrite index_ok, Ret_bind by (done || lia). rewrite usub_ok, Ret_bind by lia.
  destruct (Z.eqb_spec (Z.of_nat k) (lv c - 1)) as [Hlast|Hlast]; [by eexists|].
  assert (0 <= idx c (Z.of_nat k) va < nents lim (Z.of_nat k)) as Hi by (apply idx_nents; [done|lia|done]).
  pose proof (t_entry _ _ _ _ HT _ _ (idx c (Z.of_nat k) va) Ht) as He.
  rewrite depth_path, <- path_succ in He. specialize (He ltac:(lia) Hi).
  destruct (path_prefix st root τ (S k) (Z.to_nat (lv c - 1)) va HT Hleaf ltac:(lia)) as [u Hu]. rewrite Hu in He.
  destruct He as [Hvalid Hnext]. unfold valid in Hvalid. apply negb_true_iff in Hvalid. rewrite Hvalid.
  unfold mask in Hnext. rewrite Hnext. replace (Z.of_nat k + 1) with (Z.of_nat (S k)) by lia.
  apply IH; [lia|lia|done|done].
Qed.

Lemma map_page_present g st τ va pa fl :
  GInv lim g st τ -> 0 <= va < 2 ^ 64 -> in_lim lim va -> pte st τ va <> 0 ->
  exists st', map_page g va pa fl st = Ret (st', Ok ()) /\ m_fa st' = m_fa st.
Proof.
  intros [HT Hfa] Hva Hv Hp. pose proof (lv_bounds c Hcfg) as [? _]. unfold map_page. rewrite levels_ok, Ret_bind by done.
  pose proof (vpn_masked va Hva) as Hm.
  assert (is_Some (τ !! leaf_path va)) as Hleaf by (unfold pte, slot in Hp; destruct (τ !! leaf_path va); [by eexists|done]).
  rewrite <- (leaf_path_vpn Hcfg _ va Hm) in Hleaf.
  destruct (map_walk_present (Z.to_nat (lv c)) 0 st (root_table g) τ (root_table g) (Z.land va page_mask) (Z.land pa page_mask) fl HT)
    as (st1 & Hrun & Hf1); [by apply (in_lim_vpn lim Hcfg va)|lia|lia|by eapply t_root|done|].
  change (Z.of_nat 0) with 0 in Hrun. rewrite Hrun, Ret_bind.
  destruct (flush_ok st1 (Z.land va page_mask)) as (st2 & -> & Hf2 & _). rewrite Ret_bind. exists st2. by rewrite Hf2, Hf1.
Qed.

(** Every page of the request has an entry. *)
Definition has_pages st τ (r : MapReq) : Prop := forall k, 0 <= k < mq_pages r -> pte st τ (page (mq_lo r) k) <> 0.

Lemma map_each_present g m j st τ lo pa n fl :
  GInv lim g st τ -> range_fits lim lo n -> (page_size | pa) -> 0 <= pa -> pa + n * page_size <= 2 ^ 64 ->
  0 <= j -> j + Z.of_nat m = n -> (forall k, j <= k < n -> pte st τ (page lo k) <> 0) ->
  exists st', map_each g (page lo <$> seqZ j (Z.of_nat m)) lo pa fl st = Ret (st', Ok ()) /\ m_fa st' = m_fa st.
Proof.
  intros HG Hfit Hpd Hp0 Hpn. revert j st τ HG. induction m as [|m IH]; intros j st τ HG Hj Hm Hp; [by exists st|].
  rewrite (seqZ_cons j) by lia. rewrite fmap_cons. cbn [map_each].
  replace (Z.pred (Z.of_nat (S m))) with (Z.of_nat m) by lia.
  pose proof page_size_pos as Hps. destruct (Hfit) as [[Hlo Hld] Hhi Hnn Hl].
  assert (0 <= j * page_size /\ (j + 1) * page_size <= n * page_size) as [Hb1 Hb2]
    by (split; [apply Z.mul_nonneg_nonneg; lia|apply Z.mul_le_mono_nonneg_r; lia]).
  assert (usub 64 (page lo j) lo = Ret (j * page_size)) as -> by (unfold page; rewrite usub_ok by lia; f_equal; lia).
  rewrite Ret_bind, uadd_ok, Ret_bind by lia. fold (page pa j).
  assert (0 <= page lo j < 2 ^ 64 /\ in_lim lim (page lo j)) as [Hpl Hil] by (split; [unfold page; lia|apply Hl; lia]).
  destruct (map_page_present g st τ (page lo j) (page pa j) fl HG Hpl Hil) as (st1 & Hrun & Hf1); [apply Hp; lia|].
  destruct (map_page_run lim Hcfg Hlim g st τ (page lo j) (page pa j) fl HG Hpl Hil) as (st1' & r & τ1 & Hrun' & HG1 & _ & _ & _ & Hw).
  rewrite Hrun in Hrun'. injection Hrun' as <- <-. rewrite Hrun, Ret_bind.
  destruct (IH (Z.succ j) st1 τ1 HG1) as (st' & -> & Hf'); [lia|lia| |exists st'; by rewrite Hf'].
  intros k Hk. rewrite (writes_pte Hcfg _ _ _ _ _ _ (page lo k) Hw), decide_False; [apply Hp; lia|].
  intros Hv. apply (page_vpn_inj lim lo n) in Hv; [lia|done|lia|lia].
Qed.

Lemma map_range_present g st τ r :
  GInv lim g st τ -> req_ok r -> has_pages st τ r ->
  exists st', map_range g (mq_va r) (mq_pa r) (mq_size r) (mq_fl r) st = Ret (st', Ok ()) /\ m_fa st' = m_fa st.
Proof.
  intros HG [(Hva & Hs & Hb) [Hpa Hpb] Hfit] Hp. pose proof page_size_pos as Hps. pose proof (rf_n _ _ _ Hfit).
  unfold map_range. rewrite range_end_ok, Ret_bind by done.
  rewrite !page_va by lia. fold (page_floor (mq_va r)) (page_floor (mq_pa r)). rewrite step_by_pages by done.
  assert (0 <= page_floor (mq_pa r)) by (apply Z.mul_nonneg_nonneg; [apply Z.div_pos; lia|lia]).
  destruct (map_each_present g (Z.to_nat (mq_pages r)) 0 st τ (mq_lo r) (mq_frames r) (mq_pages r) (mq_fl r) HG Hfit)
    as (st' & Hrun & Hf'); [apply floor_divide|done|done|lia|lia|done|].
  rewrite Z2Nat.id in Hrun by lia. by exists st'.
Qed.

Lemma map_reqs_present g rs st τ :
  GInv lim g st τ -> Forall req_ok rs -> no_shared rs -> Forall (has_pages st τ) rs ->
  exists st' τ', map_reqs g rs st = Ret (st', Ok ()) /\ m_fa st' = m_fa st /\ GInv lim g st' τ' /\
    all_entered rs st τ st' τ' /\ evolves st τ st' τ'.
Proof.
  intros HG Hok Hns Hp.
  assert (exists st', map_reqs g rs st = Ret (st', Ok ()) /\ m_fa st' = m_fa st) as (st' & Hrun & Hf).
  { revert st τ HG Hp. induction Hok as [|r rs Hr Hok IH]; intros st τ HG Hp; [by exists st|].
    apply Forall_cons in Hp as [Hp Hps]. cbn [map_reqs].
    destruct (map_range_present g st τ r HG Hr Hp) as (st1 & Hrun & Hf1). rewrite Hrun, Ret_bind.
    destruct (Hr) as [(Hva & Hsz & Hvb) [Hpa Hpb] Hfit].
    destruct (map_range_entries lim Hcfg Hlim g st τ (mq_va r) (mq_pa r) (mq_size r) (mq_fl r) HG Hva Hsz Hvb Hpa Hpb Hfit)
      as (st1' & x & τ1 & j & Hrun' & HG1 & Hj & [Hin Hout] & Hx & _). rewrite Hrun in Hrun'. simplify_eq.
    destruct (IH (no_shared_cons _ _ Hns) st1' τ1 HG1) as (st' & -> & Hf'); [|exists st'; by rewrite Hf'].
    rewrite Forall_forall in Hps, Hok |- *. intros r' Hr' k Hk. pose proof (rq_fits r' (Hok r' Hr')) as Hfit'.
    rewrite Hout; [by apply (Hps r' Hr')|]. intros k' Hk' Hv.
    assert (0 <= page (mq_lo r') k < 2 ^ 64) as Hb.
    { destruct Hfit' as [[Hlo _] Hhi _ _]. pose proof page_size_pos as Hpz. unfold page.
      assert (0 <= k * page_size /\ (k + 1) * page_size <= mq_pages r' * page_size) as [? ?]
        by (split; [apply Z.mul_nonneg_nonneg; lia|apply Z.mul_le_mono_nonneg_r; lia]). lia. }
    apply (no_shared_head r rs r' (page (mq_lo r') k) Hns Hr' Hb); [by exists k'|by exists k]. }
  destruct (map_reqs_entries g rs st τ HG Hok Hns) as (st2 & x & τ' & Hrun2 & HG' & Hx & Hev).
  rewrite Hrun in Hrun2. simplify_eq. by exists st2, τ'.
Qed.

(** The entries of an address space are those of the requests and no others. *)
Record maps_only (rs : list MapReq) st τ : Prop := {
  mo_in : forall r va k, r ∈ rs -> 0 <= va < 2 ^ 64 -> 0 <= k < mq_pages r -> vpn c va = vpn c (page (mq_lo r) k) ->
    pte st τ va = Z.lor (page (mq_frames r) k) (mq_fl r);
  mo_out : forall va, 0 <= va < 2 ^ 64 -> (forall r, r ∈ rs -> ~ touches r va) -> pte st τ va = 0
}.

(** No page is in a request of both lists. *)
Definition separate (rs rs' : list MapReq) : Prop :=
  forall r r' va, r ∈ rs -> r' ∈ rs' -> 0 <= va < 2 ^ 64 -> touches r va -> ~ touches r' va.

(** The requests [new] replace those of [rs] that have their pages: [rs'] are
    the new ones and what is left. *)
Lemma maps_only_update rs new rs' st τ st' τ' :
  maps_only rs st τ -> all_entered new st τ st' τ' ->
  (forall r, r ∈ rs' -> r ∈ new \/ r ∈ rs /\ separate [r] new) -> new ⊆ rs' ->
  (forall r va, r ∈ rs -> touches r va -> exists r', r' ∈ rs' /\ touches r' va) ->
  maps_only rs' st' τ'.
Proof.
  intros [Hin Hout] [Hnew Hold] Hrs Hsub Hcov. constructor.
  - intros r va k Hr Hva Hk Hv. destruct (Hrs r Hr) as [Hn|[Hr0 Hsep]]; [by apply (Hnew r va k)|].
    rewrite Hold; [by apply (Hin r)|done|]. intros r' Hr'.
    apply (Hsep r r' va); [by left|done|done|by exists k].
  - intros va Hva Hno. rewrite Hold; [apply Hout; [done|]|done|]; intros r Hr Ht.
    + destruct (Hcov r va Hr Ht) as (r' & Hr' & Ht'). by apply (Hno r').
    + by apply (Hno r); [apply Hsub|].
Qed.

Lemma maps_only_app rs new st τ st' τ' :
  maps_only rs st τ -> all_entered new st τ st' τ' -> separate rs new -> maps_only (rs ++ new) st' τ'.
Proof.
  intros Hm Hn Hsep. apply (maps_only_update rs new _ st τ); [done|done| | |].
  - intros r [Hr|Hr]%elem_of_app; [right|by left]. split; [done|].
    intros r1 r' va [->|?%elem_of_nil]%elem_of_cons Hr'; [by apply Hsep|done].
  - intros r Hr. apply elem_of_app. by right.
  - intros r va Hr Ht. exists r. split; [apply elem_of_app; by left|done].
Qed.

Lemma maps_only_ext rs st st' τ : m_mem st' = m_mem st -> maps_only rs st τ -> maps_only rs st' τ.
Proof. intros Hm [Hin Hout]. constructor; intros; rewrite (pte_ext st); eauto. Qed.

(** Ranges whose pages are all different share none. *)
Definition vpns (r : MapReq) : list Z := (fun k => vpn c (page (mq_lo r) k)) <$> seqZ 0 (mq_pages r).

Lemma elem_vpns r va : touches r va <-> vpn c va ∈ vpns r.
Proof.
  unfold touches, vpns. rewrite list_elem_of_fmap. split.
  - intros (k & Hk & Hv). exists k. rewrite elem_of_seqZ. split; [done|lia].
  - intros (k & Hv & Hk%elem_of_seqZ). exists k. split; [lia|done].
Qed.

Lemma no_shared_vpns rs : NoDup (rs ≫= vpns) -> no_shared rs.
Proof.
  induction rs as [|r rs IH]; [intros _ i j r r' va Hi; by rewrite lookup_nil in Hi|].
  rewrite bind_cons, NoDup_app. intros (_ & Hd & Hn). specialize (IH Hn).
  assert (forall j r' va, rs !! j = Some r' -> touches r va -> touches r' va -> False) as Hx.
  { intros j r' va Hj Ht Ht'. apply elem_vpns in Ht, Ht'. apply (Hd _ Ht). apply list_elem_of_bind.
    exists r'. split; [done|]. by eapply list_elem_of_lookup_2. }
  intros [|i] [|j] r1 r2 va Hi Hj Hva H1 H2; cbn in Hi, Hj; simplify_eq; [done| | |].
  - by destruct (Hx j r2 va).
  - by destruct (Hx i r1 va).
  - f_equal. by apply (IH i j r1 r2 va).
Qed.
End Maps.

(** ** A machine whose frames are handed out from the bottom up *)

Module Bump.
#[export] Existing Instance Demo.demo.

(** The state is the next free address; nothing is ever given back. *)
#[export] Instance frames : FrameAlloc Z := {|
  fa_alloc := fun next args =>
    let n := aup (ap_size args) page_size in
    if next + n <=? 2 ^ 40 then Ret (next + n, Some (mkOwnedPtr next n)) else Ret (next, None);
  fa_free_raw := fun next _ _ => Ret next
|}.

#[export] Instance laws : FrameLaws Z.
Proof.
  refine {| fa_inv := fun next => 0 <= next /\ (page_size | next); fa_taken := fun next x => x < next; fa_room := fun _ => 0 |};
    cbn; [|intros; lia].
  intros next [Hn Hd]. change (aup page_size page_size) with page_size. pose proof page_size_pos as Hps.
  destruct (Z.leb_spec (next + page_size) (2 ^ 40)).
  - eexists _, _. split; [reflexivity|]. cbn. split_and!; [lia|apply Z.divide_add_r; [done|apply Z.divide_refl]|done|lia|lia| |].
    + unfold in_range. lia.
    + unfold in_range. intros x. lia.
  - eexists _, _. by split; [reflexivity|].
Defined.

Definition g : Glacier := mkGlacier 0x1000 true.
(** Empty tables, with [next] the first free address. *)
Definition machine (next : Z) : Machine Z := mkMachine next (fun _ => 0) [].
Definition all : Z := 2 ^ bits G_CFG 0.
Lemma bump_cfg : cfg_ok G_CFG.
Proof. unfold cfg_ok. simpl. lia. Qed.
Lemma bump_all : 0 < all <= 2 ^ bits G_CFG 0.
Proof. unfold all. split; [reflexivity|done]. Qed.

Lemma inv next : 0x2000 <= next -> (page_size | next) -> GInv all g (machine next) {[ [] := 0x1000 ]}.
Proof.
  intros Hn Hd. constructor; [|split; [simpl; lia|done]]. apply (fresh_tree all bump_cfg).
  - change page_size with 4096. split; [by exists 1|change (root_table g) with 0x1000; lia].
  - intros x Hx. unfold in_range in Hx. change page_size with 4096 in Hx. simpl. simpl in Hx. lia.
  - done.
Qed.

(** The conditions on a range, as a test. *)
Definition req_okb (r : MapReq) : bool :=
  (0 <=? mq_va r) && (0 <=? mq_size r) && (mq_va r + mq_size r + page_size <? 2 ^ 64) &&
  (0 <=? mq_pa r) && (mq_pa r <? 2 ^ 64) && (mq_frames r + mq_pages r * page_size <=? 2 ^ 64) &&
  (0 <=? mq_lo r) && (mq_lo r + mq_pages r * page_size <=? 2 ^ 64) && (0 <=? mq_pages r) &&
  (mq_pages r <=? 2 ^ (va_bits G_CFG - BPage_shift (psz G_CFG))).

Lemma req_okb_ok r : req_okb r = true -> req_ok all r.
Proof.
  unfold req_okb. rewrite !andb_true_iff, !Z.leb_le, !Z.ltb_lt.
  intros [[[[[[[[[? ?] ?] ?] ?] ?] ?] ?] ?] ?]. pose proof page_size_pos as Hps.
  constructor; [done|done|]. constructor; [split; [done|apply floor_divide]|done|done|].
  intros k Hk. apply (idx_range G_CFG bump_cfg 0). change (lv G_CFG) with 4. lia.
Qed.
End Bump.
