(* ===== verification/HeapThms.v ===== *)
(** * HeapThms: the out-of-memory handler, and page buffers *)

From S2P Require Import Prelude Kargs Rvm RamUtil Physalloc BlockTable PhysallocSpec PhysallocFree PhysallocInv PhysallocExpand PhysallocThms RvmFacts.
From S2P Require Import Glacier GlacierSpec GlacierThms GlacierRange GlacierUnmap Heap.

(** What the handler relies on: allocation of whole pages gives the size it
    was asked for, and the three services return and keep an invariant. *)
Class VmLaws `{Platform} (M : Type) `{KernelVm M} : Type := {
  vm_inv : M -> Prop;
  vm_alloc_law : forall m k, vm_inv m -> 0 < k -> k * page_size <= 2 ^ 61 ->
    exists m' r, vm_alloc m (data_request (k * page_size)) = Ret (m', r) /\ vm_inv m' /\
      match r with
      | Some p => op_size p = k * page_size /\ (page_size | op_ptr p) /\
                  0 <= op_ptr p /\ op_ptr p + op_size p <= 2 ^ 62
      | None => True
      end;
  vm_map_law : forall m va pa size fl, vm_inv m -> 0 <= va -> 0 <= size -> va + size + page_size < 2 ^ 64 ->
    0 <= pa -> pa + size <= 2 ^ 62 -> exists m' r, vm_map m va pa size fl = Ret (m', r) /\ vm_inv m';
  vm_unmap_law : forall m va size, vm_inv m -> 0 <= va -> 0 <= size -> va + size <= 2 ^ 62 ->
    exists m', vm_unmap m va size = Ret m' /\ vm_inv m'
}.

Section Oom.
Context `{Platform} {M : Type} `{!KernelVm M} `{!VmLaws M}.
Context {Sp T : Type} `{!TalcApi Sp T} `{!SpanLaws Sp T}.
Implicit Types (o : Oom M Sp T) (k : KheapHandler Sp).

(** The heap has [n] bytes from its base on. *)
Definition heap_ok k (n : Z) : Prop :=
  span_size (kh_heap k) = n /\
  if span_is_empty (kh_heap k) then n = 0 else span_base (kh_heap k) = kh_base k.

Lemma halving_spec fuel j m :
  vm_inv m -> 1 <= j <= Z.of_nat fuel -> j * page_size <= 2 ^ 61 ->
  exists m' r, alloc_halving fuel (j * page_size) m = Ret (m', r) /\ vm_inv m' /\
    match r with
    | Some p => exists i, 1 <= i <= j /\ op_size p = i * page_size /\ (page_size | op_ptr p) /\
                  0 <= op_ptr p /\ op_ptr p + op_size p <= 2 ^ 62
    | None => exists m0, vm_inv m0 /\ vm_alloc m0 (data_request page_size) = Ret (m', None)
    end.
Proof.
  revert j m. induction fuel as [|fuel IH]; intros j m Hm Hj Hb; [lia|]. cbn [alloc_halving].
  pose proof page_size_range as Hps.
  destruct (vm_alloc_law m j Hm ltac:(lia) Hb) as (m1 & r & Ha & Hm1 & Hr). rewrite Ha, Ret_bind.
  destruct r as [p|]; [exists m1, (Some p); split_and!; [done..|exists j; split_and!; [lia..|apply Hr|apply Hr|apply Hr|apply Hr]]|].
  destruct (Z.ltb_spec page_size (j * page_size)) as [Hlt|Hge].
  - assert (2 <= j) as Hj2.
    { destruct (Z.leb_spec 2 j); [done|]. assert (j = 1) as -> by lia. lia. }
    assert (page_size * 2 < 2 ^ 64) by (clear - Hps; lia).
    rewrite ushl_ok, Ret_bind by (change (2 ^ 1) with 2; lia). change (2 ^ 1) with 2.
    rewrite udiv_ok, Ret_bind by lia.
    replace (j * page_size / (page_size * 2)) with (j / 2)
      by (rewrite (Z.mul_comm page_size 2), Z.div_mul_cancel_r by lia; done).
    pose proof (Z.div_mod j 2 ltac:(lia)). pose proof (Z.mod_pos_bound j 2 ltac:(lia)).
    assert (j / 2 * page_size <= j * page_size) by (apply Z.mul_le_mono_nonneg_r; lia).
    assert (0 <= j / 2 * page_size) by (apply Z.mul_nonneg_nonneg; lia).
    rewrite umul_ok, Ret_bind by lia.
    destruct (IH (j / 2) m1 Hm1) as (m' & r & -> & Hm' & Hr'); [lia|lia|].
    exists m', r. split_and!; [done..|]. destruct r as [p|]; [|done].
    destruct Hr' as (i & Hi & Hrest). exists i. split; [lia|done].
  - exists m1, None. split_and!; [done..|]. exists m. split; [done|].
    assert (j = 1) as -> by (destruct (Z.leb_spec 2 j); [|lia]; assert (2 * page_size <= j * page_size) by (apply Z.mul_le_mono_nonneg_r; lia); lia).
    by rewrite Z.mul_1_l in Ha.
Qed.

(** One chunk. *)
Lemma grow_spec p o n :
  vm_inv (oo_st o) -> heap_ok (oo_khh o) n -> 0 <= kh_base (oo_khh o) -> 0 <= n -> 0 < op_size p ->
  kh_base (oo_khh o) + n + op_size p + page_size < 2 ^ 64 ->
  0 <= op_ptr p -> op_ptr p + op_size p <= 2 ^ 62 ->
  exists o' b, grow_heap p o = Ret (o', b) /\ vm_inv (oo_st o') /\
    heap_ok (oo_khh o') (n + op_size p) /\ kh_base (oo_khh o') = kh_base (oo_khh o) /\
    (b = false -> exists t, talc_claim (oo_talc o) (kh_heap (oo_khh o')) = (t, Err ())).
Proof.
  intros Hm [Hsz Hem] Hb0 Hn Hp Hb Hp0 Hp1. unfold grow_heap, KheapHandler_size. rewrite Hsz.
  pose proof page_size_pos as Hps. rewrite uadd_ok, Ret_bind by lia.
  destruct (vm_map_law (oo_st o) (kh_base (oo_khh o) + n) (op_ptr p) (op_size p) (K_RWO flags) Hm)
    as (m1 & r & -> & Hm1); [lia..|]. rewrite Ret_bind.
  destruct (vm_unmap_law m1 (op_ptr p) (op_size p) Hm1) as (m2 & -> & Hm2); [lia..|]. rewrite Ret_bind.
  destruct (span_is_empty (kh_heap (oo_khh o))) eqn:He.
  - rewrite Hem in *. clear Hem n. destruct (talc_claim _ _) as [t r'] eqn:Hc. eexists _, _. split; [done|].
    cbn [oo_st oo_khh oo_talc KheapHandler_set_heap kh_base kh_heap].
    destruct (span_from_law (kh_base (oo_khh o)) (op_size p) Hp) as (H1 & H2 & H3).
    rewrite Z.add_0_l. split_and!; [done| |done|].
    + split; [exact H2|]. cbn. by rewrite H3.
    + destruct r' as [|[]]; [done|]. intros _. by exists t.
  - eexists _, true. split; [done|]. cbn [oo_st oo_khh oo_talc KheapHandler_set_heap kh_base kh_heap].
    destruct (span_extend_law (kh_heap (oo_khh o)) (op_size p) He ltac:(lia)) as (H1 & H2 & H3).
    split_and!; [done| |done|done]. split; cbn; [by rewrite H2, Hsz|]. by rewrite H3, H1.
Qed.

(** How the handler can end. *)
Definition oom_post o n size (o' : Oom M Sp T) (r : result unit unit) : Prop :=
  exists got, vm_inv (oo_st o') /\ heap_ok (oo_khh o') (n + got) /\
    kh_base (oo_khh o') = kh_base (oo_khh o) /\ (page_size | got) /\ 0 <= got <= size /\
    match r with
    | Ok _ => got = size
    | Err _ =>
        (got < size /\ exists m0, vm_inv m0 /\ vm_alloc m0 (data_request page_size) = Ret (oo_st o', None)) \/
        (exists t t', talc_claim t (kh_heap (oo_khh o')) = (t', Err ()))
    end.

Lemma loop_spec fuel j o n :
  vm_inv (oo_st o) -> heap_ok (oo_khh o) n -> 0 <= kh_base (oo_khh o) -> 0 <= n ->
  0 <= j < Z.of_nat fuel -> j * page_size <= 2 ^ 61 ->
  kh_base (oo_khh o) + n + j * page_size + page_size < 2 ^ 64 ->
  exists o' r, oom_loop fuel (j * page_size) o = Ret (o', r) /\ oom_post o n (j * page_size) o' r.
Proof.
  revert j o n. induction fuel as [|fuel IH]; intros j o n Hm Hh Hb0 Hn Hj Hs Hb; [lia|].
  cbn [oom_loop]. pose proof page_size_pos as Hps.
  destruct (Z.ltb_spec 0 (j * page_size)) as [Hlt|Hge].
  2: { assert (j = 0) as -> by (destruct (Z.leb_spec 1 j); [|lia]; assert (1 * page_size <= j * page_size) by (apply Z.mul_le_mono_nonneg_r; lia); lia).
       eexists _, _. split; [done|]. exists 0. rewrite Z.add_0_r.
       split_and!; [done..|apply Z.divide_0_r|lia|lia|lia]. }
  assert (1 <= j) as Hj1 by (destruct (Z.leb_spec 1 j); [done|]; assert (j = 0) as -> by lia; lia).
  destruct (halving_spec (S fuel) j (oo_st o) Hm) as (m1 & r & Hrun & Hm1 & Hr); [lia|done|].
  rewrite Hrun, Ret_bind. set (o1 := mkOom m1 (oo_khh o) (oo_talc o)).
  destruct r as [p|].
  2: { eexists _, _. split; [done|]. exists 0. rewrite Z.add_0_r.
       split_and!; [done..|apply Z.divide_0_r|lia|lia|]. left. split; [lia|done]. }
  destruct Hr as (i & Hi & Hsz & Hal & Hp0 & Hp1).
  assert (1 * page_size <= i * page_size /\ i * page_size <= j * page_size) as [Hi1 Hi2]
    by (split; apply Z.mul_le_mono_nonneg_r; lia).
  destruct (grow_spec p o1 n) as (o2 & b & -> & Hm2 & Hh2 & Hb2 & Hcl); [done..|lia|cbn; lia|done|done|].
  rewrite Ret_bind. cbn [oo_khh] in Hb2. rewrite Hsz in Hh2.
  destruct b.
  - unfold usat_sub. rewrite Hsz. replace (Z.max 0 (j * page_size - i * page_size)) with ((j - i) * page_size) by lia.
    destruct (IH (j - i) o2 (n + i * page_size)) as (o' & r & -> & got & Hgm & Hgh & Hgb & Hgd & Hgs & Hgr);
      [done|done|by rewrite Hb2|lia|lia|lia|rewrite Hb2; cbn; lia|].
    exists o', r. split; [done|]. exists (i * page_size + got). rewrite Z.add_assoc.
    split_and!; [done|done|by rewrite Hgb, Hb2| |lia|lia|].
    + apply Z.divide_add_r; [apply Z.divide_factor_r|done].
    + destruct r; [lia|]. destruct Hgr as [[? ?]|?]; [left; split; [lia|done]|by right].
  - eexists _, _. split; [done|]. exists (i * page_size). split_and!; [done..|apply Z.divide_factor_r|lia|lia|].
    right. destruct (Hcl eq_refl) as [t Ht]. by exists (oo_talc o1), t.
Qed.

End Oom.

(** * The heap in the kernel's page tables, page buffers in the
    physical allocator, and witnesses *)

(** ** One chunk of the heap in the page tables *)

Section Chunk.
Context `{Platform} {A : Type} `{!FrameAlloc A} `{!FrameLaws A}.
Context {Sp T : Type} `{!TalcApi Sp T}.
Abbreviation St := (Machine A).
Abbreviation c := G_CFG.
Abbreviation L := (lv G_CFG).
Implicit Types (st : St) (τ : gmap (list Z) Z).

Variable lim : Z.
Hypothesis Hcfg : cfg_ok c.
Hypothesis Hlim : 0 < lim <= 2 ^ bits c 0.

Lemma way_path lo n p :
  is_way lo n p -> (length p < Z.to_nat L)%nat ->
  p ∈ (path <$> seq 0 (Z.to_nat L)) ≫= (fun f => f <$> (page lo <$> seqZ 0 n)).
Proof.
  intros (k & Hk & Hp)%Exists_exists Hl. apply list_elem_of_bind. exists (path (length p)). split.
  - apply list_elem_of_fmap. exists (page lo k). split; [done|]. apply list_elem_of_fmap. by exists k.
  - apply list_elem_of_fmap. exists (length p). split; [done|]. apply elem_of_seq. lia.
Qed.

(** The tables on the way to [n] pages are at most one per page and level. *)
Lemma ways_size st root τ lo n :
  Tree lim st root τ -> 0 <= n -> Z.of_nat (size (ways lo n τ)) <= n * L.
Proof.
  intros HT Hn. pose proof (lv_bounds c Hcfg) as [? _].
  set (l := (path <$> seq 0 (Z.to_nat L)) ≫= (fun f => f <$> (page lo <$> seqZ 0 n))).
  assert (dom (ways lo n τ) ⊆ list_to_set (C := gset (list Z)) l) as Hsub.
  { intros p [t Hp]%elem_of_dom. apply map_lookup_filter_Some in Hp as [Hp Hw]. cbn in Hw.
    apply elem_of_list_to_set, way_path; [done|]. pose proof (t_depth _ _ _ _ HT _ _ Hp). unfold depth in *. lia. }
  apply subseteq_size in Hsub. rewrite size_dom in Hsub.
  assert (size (list_to_set (C := gset (list Z)) l) <= length l)%nat as Hle.
  { clear. induction l as [|x l IH]; [done|]. cbn [list_to_set length].
    rewrite size_union_alt, size_singleton. pose proof (subseteq_size (list_to_set (C := gset (list Z)) l ∖ {[x]}) (list_to_set l) ltac:(set_solver)). lia. }
  assert (length l = (Z.to_nat L * Z.to_nat n)%nat) as Hlen.
  { unfold l. generalize (seq 0 (Z.to_nat L)) (length_seq (Z.to_nat L) 0). intros js <-.
    induction js as [|j js IH]; [done|]. cbn [fmap list_fmap]. rewrite bind_cons, length_app, IH.
    rewrite !length_fmap, length_seqZ. cbn. lia. }
  lia.
Qed.

(** a chunk that the handler adds to the heap is reachable through the
    pages behind the heap and through nothing else: the heap's new pages
    translate to the chunk's frames, the chunk's own addresses do not
    translate any more, and every other address translates as before. *)
Theorem grow_heap_maps g st τ p n (khh : KheapHandler Sp) (talc : T) :
  GInv lim g st τ ->
  let va := kh_base khh + KheapHandler_size khh in
  op_size p = n * page_size -> 0 < n -> (page_size | va) -> (page_size | op_ptr p) ->
  0 <= va -> va + op_size p + page_size < 2 ^ 64 -> 0 <= op_ptr p -> op_ptr p + op_size p + page_size < 2 ^ 62 ->
  range_fits lim va n -> range_fits lim (op_ptr p) n ->
  (forall i j, 0 <= i < n -> 0 <= j < n -> vpn c (page va i) <> vpn c (page (op_ptr p) j)) ->
  (forall st1 r, map_range g va (op_ptr p) (op_size p) (K_RWO flags) st = Ret (st1, r) ->
     r = Ok () /\ n * L + (L - 1) <= fa_room (m_fa st1)) ->
  exists o' b, grow_heap (KernelVm0 := Machine_KernelVm g) p (mkOom st khh talc) = Ret (o', b) /\
    (forall k, 0 <= k < n ->
       get_pa g (page va k) (oo_st o') = Ret (entry_pa (Z.lor (page (op_ptr p) k) (K_RWO flags))) /\
       get_pa g (page (op_ptr p) k) (oo_st o') = Ret None) /\
    forall a, 0 <= a < 2 ^ 64 -> in_lim lim a ->
      (forall k, 0 <= k < n -> vpn c a <> vpn c (page va k) /\ vpn c a <> vpn c (page (op_ptr p) k)) ->
      get_pa g a (oo_st o') = get_pa g a st.
Proof.
  intros HG va Hn Hn0 Hva Hpp Hva0 Hvb Hp0 Hpb Hfv Hfp Hdis Hmap. pose proof page_size_pos as Hps.
  assert (forall x, (page_size | x) -> page_floor x = x) as Hfl.
  { intros x [y ->]. unfold page_floor. by rewrite Z.div_mul by lia. }
  assert (forall x, (page_size | x) -> pages_of x (op_size p) = n) as Hpg.
  { intros x [y ->]. unfold pages_of. rewrite Hn, Z.div_mul by lia.
    replace (y * page_size + n * page_size + page_size - 1) with (page_size - 1 + (y + n) * page_size) by lia.
    rewrite Z.div_add, Z.div_small by lia. lia. }
  assert (0 <= n * page_size) by lia.
  destruct (map_range_run lim Hcfg Hlim g st τ va (op_ptr p) (op_size p) (K_RWO flags) HG)
    as (st1 & r & τ1 & j & Hr & HG1 & Hj & [Hin Hout] & Hrj & _); rewrite ?Hfl, ?Hpg by done; try (done || lia).
  rewrite Hfl, Hpg in * by done. destruct (Hmap st1 r Hr) as [-> Hroom]. rewrite Hrj in *.
  destruct (unmap_range_run lim Hcfg Hlim g st1 τ1 (op_ptr p) (op_size p) HG1)
    as (st2 & τ2 & Hr2 & HG2 & _ & _ & [Hin2 Hout2 _]); rewrite ?Hfl, ?Hpg by done; try (done || lia).
  { pose proof (ways_size st1 _ τ1 (op_ptr p) n (gi_tree _ _ _ _ HG1)). lia. }
  rewrite Hfl, Hpg in * by done.
  assert (forall x k, range_fits lim x n -> 0 <= k < n -> 0 <= page x k < 2 ^ 64 /\ in_lim lim (page x k)) as Hpage.
  { intros x k [[Hx _] Hhi _ Hl] Hk. split; [|by apply Hl]. unfold page.
    assert (0 <= k * page_size /\ (k + 1) * page_size <= n * page_size) as [? ?]
      by (split; [apply Z.mul_nonneg_nonneg; lia|apply Z.mul_le_mono_nonneg_r; lia]). lia. }
  unfold grow_heap. cbn [oo_khh oo_st oo_talc]. fold va. rewrite uadd_ok, Ret_bind by lia.
  cbn [vm_map vm_unmap Machine_KernelVm]. fold va. rewrite Hr, Ret_bind, Hr2, Ret_bind.
  assert ((forall k, 0 <= k < n -> get_pa g (page va k) st2 = Ret (entry_pa (Z.lor (page (op_ptr p) k) (K_RWO flags))) /\
       get_pa g (page (op_ptr p) k) st2 = Ret None) /\
    forall a, 0 <= a < 2 ^ 64 -> in_lim lim a ->
      (forall k, 0 <= k < n -> vpn c a <> vpn c (page va k) /\ vpn c a <> vpn c (page (op_ptr p) k)) ->
      get_pa g a st2 = get_pa g a st) as Hgoal.
  { split.
    - intros k Hk. destruct (Hpage va k Hfv Hk), (Hpage (op_ptr p) k Hfp Hk). split.
      + rewrite Hout2 by (done || (intros k' Hk'; by apply Hdis)). by apply Hin.
      + by apply (Hin2 _ k).
    - intros a Ha Hl Hne. rewrite Hout2 by (done || (intros k Hk; by apply Hne)).
      apply Hout; [done..|]. intros k Hk. by apply Hne. }
  destruct (span_is_empty (kh_heap khh)); [destruct (talc_claim _ _)|]; eexists _, _; (split; [reflexivity|exact Hgoal]).
Qed.
End Chunk.

(** ** Page buffers in the physical allocator *)

Section Buffers.
Context `{Platform}.
Hypothesis Hpage : page_size = 4096.

Lemma buffer_request_ok size : 0 <= size <= 2 ^ 61 -> params_ok (buffer_request size).
Proof.
  intros Hs. pose proof page_size_range. constructor; [done| |discriminate].
  change (ap_align (buffer_request size)) with (Z.max page_size 1). lia.
Qed.

(** a page buffer starts on a page and has at least the requested size
    of kernel data that was free before; dropping it gives the memory back,
    and no client can tell the state from the one before. *)
Theorem page_buf_roundtrip s size :
  INV s -> 0 <= size <= 2 ^ 61 ->
  exists s' r, PhysPageBuf_new s size = Ret (s', r) /\
    match r with
    | None => INV s' /\ forall a, view s' a = view s a
    | Some buf =>
        (page_size | op_ptr buf) /\ op_size buf = szal size /\ size <= op_size buf /\
        (forall a, in_ptr buf a -> view s a = Some (Conv, false) /\ view s' a = Some (KernelData, true)) /\
        exists s'', PhysPageBuf_drop s' buf = Ret s'' /\ INV s'' /\ forall a, view s'' a = view s a
    end.
Proof.
  intros Hinv Hs. destruct (alloc_run Hpage s (buffer_request size) Hinv (buffer_request_ok size Hs))
    as (s' & r & Hr & Hspec). exists s', r. split; [exact Hr|]. destruct r as [buf|]; [|done].
  destruct Hspec as [[Hi (Hsz & Hal & _) Hf Hv _ Hsl] Hfo].
  destruct (free_spec_n Hpage 11 s' buf Hi Hfo Hsl) as (s2 & Hr2 & Hi2 & Hv2 & _).
  change (ap_size (buffer_request size)) with size in Hsz.
  change (ap_align (buffer_request size)) with (Z.max page_size 1) in Hal.
  pose proof page_size_range as Hps. pose proof (szal_spec size ltac:(lia)).
  split_and!; [by rewrite Z.max_l in Hal by lia|done|lia| |].
  - intros a Ha. split; [by apply Hf|]. rewrite Hv. unfold upd. by rewrite decide_True.
  - exists s2. split_and!; [exact Hr2|done|]. intros a. rewrite Hv2. unfold upd at 1.
    case_decide as Hd; [symmetry; by apply Hf|]. rewrite Hv. unfold upd. by rewrite decide_False.
Qed.
End Buffers.

(** ** Witnesses *)

Module HeapDemo.
#[local] Existing Instance Demo.demo.
#[local] Existing Instance GlacierDemo.laws.

(** Spans and an allocator that accepts every heap. *)
Record SpanD : Type := mkSpanD { sd_base : Z; sd_size : Z }.
#[local] Instance talc : TalcApi SpanD unit := {|
  span_empty := mkSpanD 0 0;
  span_from := mkSpanD;
  span_size := sd_size;
  span_is_empty := fun s => sd_size s <=? 0;
  span_extend := fun s lo hi => mkSpanD (sd_base s - lo) (sd_size s + lo + hi);
  talc_claim := fun t _ => (t, Ok ());
  talc_extend := fun t _ _ => t
|}.
#[local] Instance span_laws : SpanLaws SpanD unit.
Proof.
  refine {| span_base := sd_base |}; cbn.
  - done.
  - intros b n Hn. split_and!; [done..|]. by apply Z.leb_gt.
  - intros [b m] n Hm Hn. cbn in *. apply Z.leb_gt in Hm.
    split_and!; [lia|lia|apply Z.leb_gt; lia].
Defined.

(** Memory that is handed out from the bottom up, at most two pages at once;
    mapping does nothing. *)
#[local] Instance bump : KernelVm Z := {|
  vm_alloc := fun next args =>
    if (next + ap_size args <=? 2 ^ 40) && (ap_size args <=? 2 * page_size)
    then Ret (next + ap_size args, Some (mkOwnedPtr next (ap_size args))) else Ret (next, None);
  vm_map := fun next _ _ _ _ => Ret (next, Ok ());
  vm_unmap := fun next _ _ => Ret next
|}.
#[local] Instance bump_laws : VmLaws Z.
Proof.
  refine {| vm_inv := fun next => 0 <= next /\ (page_size | next) |}; cbn.
  - intros next k [Hn Hd] Hk Hb. pose proof page_size_pos.
    destruct (Z.leb_spec (next + k * page_size) (2 ^ 40)), (Z.leb_spec (k * page_size) (2 * page_size));
      cbn [andb]; eexists _, _; (split; [reflexivity|]); try done.
    assert (0 <= k * page_size) by (apply Z.mul_nonneg_nonneg; lia). split.
    + split; [lia|]. apply Z.divide_add_r; [done|apply Z.divide_factor_r].
    + split_and!; [done..|cbn; lia].
  - intros. by eexists _, _.
  - intros. by eexists.
Defined.

Definition oom0 : Oom Z SpanD unit := mkOom 0x10000 (mkKheapHandler 0x40000000 span_empty) ().


Lemma handle_oom_5_pages :
  handle_oom 10 0x2800 oom0 = Ret (mkOom 0x15000 (mkKheapHandler 0x40000000 (mkSpanD 0x40000000 0x5000)) (), Ok ()).
Proof. vm_compute. reflexivity. Qed.

(** A chunk of one page in the kernel's page tables. *)
Definition chunk : OwnedPtr := mkOwnedPtr 0x5000 0x1000.
Definition khh0 : KheapHandler SpanD := mkKheapHandler 0x400000 span_empty.

Lemma chunk_room st1 r :
  map_range GlacierDemo.g0 0x400000 0x5000 0x1000 (K_RWO flags) GlacierDemo.m0 = Ret (st1, r) ->
  r = Ok () /\ 1 * lv G_CFG + (lv G_CFG - 1) <= fa_room (m_fa st1).
Proof.
  intros Hr. assert (match map_range GlacierDemo.g0 0x400000 0x5000 0x1000 (K_RWO flags) GlacierDemo.m0 with
    | Ret (st, Ok _) => 7 <=? pa_room (m_fa st) | _ => false end = true) as Ha by (vm_compute; reflexivity).
  rewrite Hr in Ha. destruct r as [[]|]; [|done]. split; [done|].
  change (lv G_CFG) with 4. change (fa_room (m_fa st1)) with (pa_room (m_fa st1)). zbool. lia.
Qed.

Lemma one_page x : 0 <= x < 2 ^ 40 -> (page_size | x) -> range_fits GlacierDemo.all x 1.
Proof.
  intros Hx Hd. constructor; [by split; [lia|]|change page_size with 4096; lia|vm_compute; split; discriminate|].
  intros k Hk. assert (k = 0) as -> by lia. unfold page. rewrite Z.mul_0_l, Z.add_0_r.
  unfold in_lim, GlacierDemo.all. apply (idx_range G_CFG GlacierDemo.cfg0 0 x). change (lv G_CFG) with 4. lia.
Qed.

Definition va0 : Z := kh_base khh0 + KheapHandler_size khh0.

Lemma grow_heap_maps_witness :
  exists o' b, grow_heap (KernelVm0 := Machine_KernelVm GlacierDemo.g0) chunk (mkOom GlacierDemo.m0 khh0 ()) = Ret (o', b) /\
    (forall k, 0 <= k < 1 ->
       get_pa GlacierDemo.g0 (page va0 k) (oo_st o') = Ret (entry_pa (Z.lor (page (op_ptr chunk) k) (K_RWO flags))) /\
       get_pa GlacierDemo.g0 (page (op_ptr chunk) k) (oo_st o') = Ret None) /\
    forall a, 0 <= a < 2 ^ 64 -> in_lim GlacierDemo.all a ->
      (forall k, 0 <= k < 1 -> vpn G_CFG a <> vpn G_CFG (page va0 k) /\ vpn G_CFG a <> vpn G_CFG (page (op_ptr chunk) k)) ->
      get_pa GlacierDemo.g0 a (oo_st o') = get_pa GlacierDemo.g0 a GlacierDemo.m0.
Proof.
  apply (grow_heap_maps GlacierDemo.all GlacierDemo.cfg0 GlacierDemo.all0 GlacierDemo.g0 GlacierDemo.m0
    {[ [] := 0x100000 ]} chunk 1 khh0 ()).
  - apply GlacierDemo.root_tree; [apply GlacierDemo.all0|by left].
  - reflexivity.
  - lia.
  - by exists 0x400.
  - by exists 5.
  - vm_compute. discriminate.
  - reflexivity.
  - vm_compute. discriminate.
  - reflexivity.
  - apply one_page; [vm_compute; split; [discriminate|done]|by exists 0x400].
  - apply one_page; [vm_compute; split; [discriminate|done]|by exists 5].
  - intros i j Hi Hj. assert (i = 0) as -> by lia. assert (j = 0) as -> by lia. vm_compute. discriminate.
  - apply chunk_room.
Defined.

Lemma unmap_range_spec_witness :
  exists st' τ', unmap_range GlacierDemo.g0 0x400000 0x3000 GlacierDemo.m0 = Ret st' /\
    GInv GlacierDemo.all GlacierDemo.g0 st' τ' /\ τ' ⊆ {[ [] := 0x100000 ]} /\
    unmapped GlacierDemo.all GlacierDemo.g0 GlacierDemo.m0 st' (page_floor 0x400000) (pages_of 0x400000 0x3000) /\
    forall g2 τ2, GInv GlacierDemo.all g2 GlacierDemo.m0 τ2 ->
      (forall a, in_tables τ2 a -> ~ in_tables {[ [] := 0x100000 ]} a) ->
      GInv GlacierDemo.all g2 st' τ2 /\
      forall va', 0 <= va' < 2 ^ 64 -> in_lim GlacierDemo.all va' -> get_pa g2 va' st' = get_pa g2 va' GlacierDemo.m0.
Proof.
  apply (unmap_range_spec GlacierDemo.all GlacierDemo.cfg0 GlacierDemo.all0);
    [apply GlacierDemo.root_tree; [apply GlacierDemo.all0|by left]|lia|lia|change page_size with 4096; lia| |].
  - constructor; [split; [vm_compute; discriminate|apply floor_divide]|vm_compute; discriminate|
      split; vm_compute; discriminate|].
    intros k Hk. change (pages_of 0x400000 0x3000) with 3 in Hk.
    assert (k = 0 \/ k = 1 \/ k = 2) as [-> | [-> | ->]] by lia; reflexivity.
  - vm_compute. discriminate.
Defined.

Lemma page_buf_roundtrip_witness :
  exists s' r, PhysPageBuf_new Demo.s0 512 = Ret (s', r) /\
    match r with
    | None => INV s' /\ forall a, view s' a = view Demo.s0 a
    | Some buf =>
        (page_size | op_ptr buf) /\ op_size buf = szal 512 /\ 512 <= op_size buf /\
        (forall a, in_ptr buf a -> view Demo.s0 a = Some (Conv, false) /\ view s' a = Some (KernelData, true)) /\
        exists s'', PhysPageBuf_drop s' buf = Ret s'' /\ INV s'' /\ forall a, view s'' a = view Demo.s0 a
    end.
Proof. apply (page_buf_roundtrip Demo.page0 Demo.s0 512 Demo.inv0). lia. Defined.

(** The handler does not look at the result of [map_range]: with a single
    free page it gives the allocator a heap of one page that is not mapped,
    and reports success. *)
Definition s1 : PhysAlloc :=
  mkPhysAlloc (mkOwnedPtr 0x1000 0x1000) 128 true
    ([mkRAMBlock 0x1000 0x1000 Conv true; mkRAMBlock 0x2000 0x1000 Conv false;
      mkRAMBlock 0x100000 0x80000 Kernel true] ++ replicate 125 RAMBlock_new_invalid).

Lemma oom_ignores_map_error :
  let oom := handle_oom (KernelVm0 := Machine_KernelVm GlacierDemo.g0) 10 512
    (mkOom (mkMachine s1 (fun _ => 0) []) khh0 ()) in
  match oom with
  | Ret (o', r) => Some (r, kh_heap (oo_khh o'), get_pa GlacierDemo.g0 0x400000 (oo_st o'))
  | _ => None
  end = Some (Ok (), mkSpanD 0x400000 0x1000, Ret None).
Proof. vm_compute. reflexivity. Qed.
End HeapDemo.
