(* ===== verification/Bytes.v ===== *)
(** * Bytes: little-endian integers and sub-slices of byte buffers

    A byte is a [Z] in [0 .. 256); a buffer is a list of bytes. *)

From S2P Require Import Prelude.

Definition is_byte (b : Z) : Prop := 0 <= b < 256.

(** [U16<LE>], [U32<LE>] and [U64<LE>]: [get] of their bytes, and back. *)
Fixpoint le_get (l : list Z) : Z :=
  match l with [] => 0 | b :: l => b + 256 * le_get l end.
Fixpoint le_put (n : nat) (x : Z) : list Z :=
  match n with O => [] | S n => x mod 256 :: le_put n (x / 256) end.

(** The field of a packed record at an offset. *)
Definition field (l : list Z) (off len : nat) : list Z := take len (drop off l).

(** [vec[i..]]: a panic when [i] is beyond the end. *)
Definition slice_from (l : list Z) (i : Z) : outcome (list Z) :=
  slice l i (Z.of_nat (length l) - i).

Definition zeros (n : Z) : list Z := replicate (Z.to_nat n) 0.

Lemma le_put_length n x : length (le_put n x) = n.
Proof. revert x. induction n as [|n IH]; intros x; simpl; [done|by rewrite IH]. Qed.

Lemma le_put_bytes n x : Forall is_byte (le_put n x).
Proof.
  revert x. induction n as [|n IH]; intros x; simpl; constructor; [|done].
  apply Z.mod_pos_bound. lia.
Qed.

Lemma le_get_put n x : 0 <= x < 256 ^ Z.of_nat n -> le_get (le_put n x) = x.
Proof.
  revert x. induction n as [|n IH]; intros x Hx.
  - change (256 ^ Z.of_nat 0) with 1 in Hx. simpl. lia.
  - cbn [le_put le_get]. rewrite Nat2Z.inj_succ, Z.pow_succ_r in Hx by lia.
    rewrite IH.
    + pose proof (Z.div_mod x 256 ltac:(lia)). lia.
    + split; [apply Z.div_pos; lia|]. apply Z.div_lt_upper_bound; lia.
Qed.

Lemma le_get_bound l : Forall is_byte l -> 0 <= le_get l < 256 ^ Z.of_nat (length l).
Proof.
  induction 1 as [|b l Hb _ IH]; [simpl; change (256 ^ Z.of_nat 0) with 1; lia|].
  cbn [le_get length]. rewrite Nat2Z.inj_succ, Z.pow_succ_r by lia. unfold is_byte in Hb. lia.
Qed.

(** Parts of a buffer are digits of its value. *)
Lemma le_get_drop l o :
  Forall is_byte l -> le_get (drop o l) = le_get l / 256 ^ Z.of_nat o.
Proof.
  intros Hl. revert o. induction Hl as [|b l Hb Hl IH]; intros o.
  { rewrite drop_nil. simpl. symmetry. apply Z.div_0_l. pose proof (Z.pow_pos_nonneg 256 (Z.of_nat o)). lia. }
  destruct o as [|o]; [cbn [drop]; by rewrite Z.div_1_r|]. cbn [drop le_get]. rewrite IH.
  rewrite Nat2Z.inj_succ, Z.pow_succ_r, <- Z.div_div by (try lia; apply Z.pow_pos_nonneg; lia).
  f_equal. unfold is_byte in Hb. rewrite Z.mul_comm, Z.div_add, Z.div_small by lia. lia.
Qed.

Lemma le_get_take l n :
  Forall is_byte l -> le_get (take n l) = le_get l mod 256 ^ Z.of_nat n.
Proof.
  intros Hl. revert n. induction Hl as [|b l Hb Hl IH]; intros n.
  { by rewrite take_nil. }
  destruct n as [|n]; [cbn [take]; change (256 ^ Z.of_nat 0) with 1; by rewrite Z.mod_1_r|].
  cbn [take le_get]. rewrite IH, Nat2Z.inj_succ, Z.pow_succ_r by lia. unfold is_byte in Hb.
  assert (0 < 256 ^ Z.of_nat n) by (apply Z.pow_pos_nonneg; lia).
  set (m := 256 ^ Z.of_nat n) in *. set (x := le_get l).
  pose proof (Z.div_mod x m ltac:(lia)). pose proof (Z.mod_pos_bound x m ltac:(lia)).
  apply Z.mod_unique_pos with (q := x / m); nia.
Qed.

(** ** Slices *)

Lemma slice_ok {A} (l : list A) i n :
  0 <= i -> 0 <= n -> i + n <= Z.of_nat (length l) ->
  slice l i n = Ret (take (Z.to_nat n) (drop (Z.to_nat i) l)).
Proof.
  intros Hi Hn Hl. unfold slice.
  destruct (Z.leb_spec 0 i), (Z.leb_spec 0 n), (Z.leb_spec (i + n) (Z.of_nat (length l))); done || lia.
Qed.

Lemma slice_panic {A} (l : list A) i n :
  Z.of_nat (length l) < i + n \/ i < 0 \/ n < 0 -> slice l i n = Panic.
Proof.
  intros Hb. unfold slice.
  destruct (Z.leb_spec 0 i), (Z.leb_spec 0 n), (Z.leb_spec (i + n) (Z.of_nat (length l))); done || lia.
Qed.

Lemma slice_from_ok l i :
  0 <= i <= Z.of_nat (length l) -> slice_from l i = Ret (drop (Z.to_nat i) l).
Proof.
  intros Hi. unfold slice_from. rewrite slice_ok by lia. rewrite take_ge; [done|].
  rewrite length_drop. lia.
Qed.

(** The pure overwrite of a part of a list. *)
Definition patch {A} (l : list A) (i : nat) (src : list A) : list A :=
  take i l ++ src ++ drop (i + length src) l.

Lemma splice_ok {A} (l : list A) i src :
  0 <= i -> i + Z.of_nat (length src) <= Z.of_nat (length l) ->
  splice l i src = Ret (patch l (Z.to_nat i) src).
Proof.
  intros Hi Hl. unfold splice, patch.
  destruct (Z.leb_spec 0 i), (Z.leb_spec (i + Z.of_nat (length src)) (Z.of_nat (length l))); done || lia.
Qed.

Lemma patch_length {A} (l : list A) i src :
  (i + length src <= length l)%nat -> length (patch l i src) = length l.
Proof. intros Hl. unfold patch. rewrite !length_app, length_take, length_drop. lia. Qed.

Lemma lookup_patch {A} (l : list A) i src k :
  (i + length src <= length l)%nat ->
  patch l i src !! k =
    if decide (i <= k < i + length src)%nat then src !! (k - i)%nat else l !! k.
Proof.
  intros Hl. unfold patch. case_decide as Hk.
  - rewrite lookup_app_r by (rewrite length_take; lia). rewrite length_take.
    rewrite lookup_app_l by lia. f_equal. lia.
  - destruct (decide (k < i)%nat).
    + rewrite lookup_app_l by (rewrite length_take; lia). by rewrite lookup_take_lt.
    + rewrite lookup_app_r by (rewrite length_take; lia). rewrite length_take.
      rewrite lookup_app_r by lia. rewrite lookup_drop. f_equal. lia.
Qed.

Lemma lookup_sub {A} (l : list A) i n k :
  take n (drop i l) !! k = if decide (k < n)%nat then l !! (i + k)%nat else None.
Proof.
  case_decide as Hk.
  - by rewrite lookup_take_lt, lookup_drop.
  - by rewrite lookup_take_ge by lia.
Qed.

(** Reading what was just written. *)
Lemma patch_read {A} (l : list A) i src :
  (i + length src <= length l)%nat -> take (length src) (drop i (patch l i src)) = src.
Proof.
  intros Hl. apply list_eq. intros k. rewrite lookup_sub, lookup_patch by done.
  case_decide; [|symmetry; apply lookup_ge_None; lia].
  rewrite decide_True by lia. f_equal. lia.
Qed.

(** ** Bit fields *)

(** Joining a field to the bits below it. *)
Lemma lor_field a b k :
  0 <= k -> 0 <= a < 2 ^ k -> Z.lor a (Z.shiftl b k) = a + b * 2 ^ k.
Proof.
  intros Hk Ha. rewrite <- Z.shiftl_mul_pow2 by done.
  assert (Z.land a (Z.shiftl b k) = 0) as Hl.
  { apply Z.bits_inj'. intros n Hn. rewrite Z.land_spec, Z.bits_0, Z.shiftl_spec by done.
    destruct (Z.ltb_spec n k).
    - rewrite (Z.testbit_neg_r b) by lia. apply andb_false_r.
    - destruct (decide (a = 0)) as [->|]; [by rewrite Z.bits_0|].
      rewrite (Z.bits_above_log2 a); [done|lia|]. apply Z.log2_lt_pow2; [lia|].
      apply Z.lt_le_trans with (2 ^ k); [lia|]. apply Z.pow_le_mono_r; lia. }
  rewrite <- Z.lxor_lor by done. symmetry. by apply Z.add_nocarry_lxor.
Qed.

#[global] Arguments le_put : simpl never.
#[global] Arguments le_get : simpl never.
#[global] Arguments field : simpl never.
