(* ===== verification/Memory.v ===== *)
(** * Memory: bytes, and little-endian words of several bytes

    The memory that assembly code, the boot loader and the relocation of the
    kernel work on: a byte for every address. *)

From S2P Require Import Prelude Bytes.

(** ** Accesses of [n] bytes *)

Definition Mem : Type := Z -> Z.

Fixpoint load (n : nat) (m : Mem) (a : Z) : Z :=
  match n with O => 0 | S n => m a + 256 * load n m (a + 1) end.
Fixpoint store (n : nat) (m : Mem) (a v : Z) : Mem :=
  match n with
  | O => m
  | S n => fun x => if x =? a then v mod 256 else store n m (a + 1) (v / 256) x
  end.

Fixpoint store_words (m : Mem) (a : Z) (ws : list Z) : Mem :=
  match ws with [] => m | w :: ws => store 8 (store_words m (a + 8) ws) a w end.

(** The words of a 128-bit value. *)
Definition halves (x : Z) : list Z := [x mod 2 ^ 64; x / 2 ^ 64].

(** ** Bytes and words in memory *)

Lemma store_other n m a v x : x < a \/ a + Z.of_nat n <= x -> store n m a v x = m x.
Proof.
  revert a v. induction n as [|n IH]; intros a v Hx; [done|]. cbn [store].
  destruct (Z.eqb_spec x a); [lia|]. apply IH. lia.
Qed.

Lemma store_digit n m a v i : 0 <= i < Z.of_nat n -> store n m a v (a + i) = (v / 256 ^ i) mod 256.
Proof.
  revert a v i. induction n as [|n IH]; intros a v i Hi; [lia|]. cbn [store].
  destruct (Z.eqb_spec (a + i) a).
  - assert (i = 0) as -> by lia. by rewrite Z.div_1_r.
  - replace (a + i) with (a + 1 + (i - 1)) by lia. rewrite IH by lia.
    rewrite Z.div_div by (try apply Z.pow_pos_nonneg; lia). rewrite <- Z.pow_succ_r by lia.
    do 3 f_equal. lia.
Qed.

Lemma load_digits n m a v :
  (forall i, 0 <= i < Z.of_nat n -> m (a + i) = (v / 256 ^ i) mod 256) -> load n m a = v mod 256 ^ Z.of_nat n.
Proof.
  revert a v. induction n as [|n IH]; intros a v Hd; [by rewrite Z.mod_1_r|]. cbn [load].
  rewrite (IH (a + 1) (v / 256)).
  - specialize (Hd 0 ltac:(lia)). rewrite Z.add_0_r, Z.div_1_r in Hd. rewrite Hd.
    rewrite Nat2Z.inj_succ, Z.pow_succ_r by lia. rewrite Z.rem_mul_r by (try apply Z.pow_pos_nonneg; lia). lia.
  - intros i Hi. rewrite Z.div_div by (try apply Z.pow_pos_nonneg; lia). rewrite <- Z.pow_succ_r by lia.
    rewrite <- Hd by lia. f_equal. lia.
Qed.

Lemma load_ext n m m' a :
  (forall x, a <= x < a + Z.of_nat n -> m x = m' x) -> load n m a = load n m' a.
Proof.
  revert a. induction n as [|n IH]; intros a Hx; [done|]. cbn [load].
  rewrite (Hx a) by lia. f_equal. f_equal. apply IH. intros x ?. apply Hx. lia.
Qed.

Lemma load_split n k m a : load (n + k) m a = load n m a + 256 ^ Z.of_nat n * load k m (a + Z.of_nat n).
Proof.
  revert a. induction n as [|n IH]; intros a.
  - cbn [load Nat.add]. rewrite Z.add_0_r. change (256 ^ Z.of_nat 0) with 1. lia.
  - cbn [load Nat.add]. rewrite IH, Nat2Z.inj_succ, Z.pow_succ_r by lia.
    replace (a + 1 + Z.of_nat n) with (a + Z.succ (Z.of_nat n)) by lia. lia.
Qed.

Lemma load_bound n m a : (forall x, is_byte (m x)) -> 0 <= load n m a < 256 ^ Z.of_nat n.
Proof.
  intros Hm. revert a. induction n as [|n IH]; intros a; [cbn; change (256 ^ Z.of_nat 0) with 1; lia|].
  cbn [load]. rewrite Nat2Z.inj_succ, Z.pow_succ_r by lia. specialize (IH (a + 1)). pose proof (Hm a) as Ha.
  unfold is_byte in Ha. lia.
Qed.

Lemma load_store n k m a v : (k <= n)%nat -> load k (store n m a v) a = v mod 256 ^ Z.of_nat k.
Proof. intros Hk. apply load_digits. intros i Hi. apply store_digit. lia. Qed.

Lemma load_store_hi n k o m a v :
  (o + k <= n)%nat -> load k (store n m a v) (a + Z.of_nat o) = (v / 256 ^ Z.of_nat o) mod 256 ^ Z.of_nat k.
Proof.
  intros Hk. apply load_digits. intros i Hi. rewrite <- Z.add_assoc, store_digit by lia.
  rewrite Z.div_div by (apply Z.pow_nonzero || apply Z.pow_pos_nonneg; lia). by rewrite <- Z.pow_add_r by lia.
Qed.

Lemma load_store_other n k m a v x :
  x + Z.of_nat k <= a \/ a + Z.of_nat n <= x -> load k (store n m a v) x = load k m x.
Proof. intros Hx. apply load_ext. intros y Hy. apply store_other. lia. Qed.

Lemma store_byte n m a v x : (forall y, is_byte (m y)) -> is_byte (store n m a v x).
Proof.
  intros Hm. revert a v. induction n as [|n IH]; intros a v; [apply Hm|]. cbn [store].
  case_match; [apply Z.mod_pos_bound; lia|apply IH].
Qed.

#[global] Arguments load : simpl never.
#[global] Arguments store : simpl never.

(** ** The words from an address on *)

Definition is_word (w : Z) : Prop := 0 <= w < 2 ^ 64.
Definition reads (m : Mem) (a : Z) (ws : list Z) : Prop :=
  forall i w, ws !! i = Some w -> load 8 m (a + 8 * Z.of_nat i) = w.

Lemma reads_nil m a : reads m a [].
Proof. intros i w Hi. by rewrite lookup_nil in Hi. Qed.

Lemma reads_cons m a w ws : reads m a (w :: ws) <-> load 8 m a = w /\ reads m (a + 8) ws.
Proof.
  split.
  - intros Hr. split.
    + specialize (Hr 0%nat w eq_refl). by rewrite Z.add_0_r in Hr.
    + intros i x Hi. rewrite <- (Hr (S i) x Hi). f_equal. lia.
  - intros [Hw Hr] [|i] x Hi; cbn in Hi.
    + injection Hi as <-. by rewrite Z.add_0_r.
    + rewrite <- (Hr i x Hi). f_equal. lia.
Qed.

Lemma reads_app m a ws ws' : reads m a (ws ++ ws') <-> reads m a ws /\ reads m (a + 8 * Z.of_nat (length ws)) ws'.
Proof.
  revert a. induction ws as [|w ws IH]; intros a.
  - cbn. rewrite Z.add_0_r. pose proof (reads_nil m a). tauto.
  - cbn [app length]. rewrite !reads_cons, IH.
    replace (a + 8 + 8 * Z.of_nat (length ws)) with (a + 8 * Z.of_nat (S (length ws))) by lia. tauto.
Qed.

Lemma reads_lookup m a ws i w : reads m a ws -> ws !! i = Some w -> load 8 m (a + 8 * Z.of_nat i) = w.
Proof. intros Hr. apply Hr. Qed.

Lemma reads_ext m m' a ws :
  (forall x, a <= x < a + 8 * Z.of_nat (length ws) -> m x = m' x) -> reads m a ws -> reads m' a ws.
Proof.
  intros Hx Hr i w Hi. rewrite <- (Hr i w Hi). apply load_ext. intros x Hin. symmetry. apply Hx.
  apply lookup_lt_Some in Hi. lia.
Qed.

Lemma reads_store n m a v x ws :
  x + Z.of_nat n <= a \/ a + 8 * Z.of_nat (length ws) <= x -> reads m a ws -> reads (store n m x v) a ws.
Proof. intros Hx. apply reads_ext. intros y Hy. rewrite store_other; [done|lia]. Qed.

Lemma reads_push m a v ws : is_word v -> reads m a ws -> reads (store 8 m (a - 8) v) (a - 8) (v :: ws).
Proof.
  intros Hv Hr. apply reads_cons. split.
  - rewrite load_store by lia. apply Z.mod_small. done.
  - replace (a - 8 + 8) with a by lia. apply reads_store; [lia|done].
Qed.

Lemma reads_store_words m a ws : Forall is_word ws -> reads (store_words m a ws) a ws.
Proof.
  intros Hw. revert a. induction Hw as [|w ws Hw _ IH]; intros a; [apply reads_nil|].
  cbn [store_words]. pose proof (reads_push _ _ _ _ Hw (IH (a + 8))) as Hp.
  by replace (a + 8 - 8) with a in Hp by lia.
Qed.

Lemma store_words_other m a ws x :
  x < a \/ a + 8 * Z.of_nat (length ws) <= x -> store_words m a ws x = m x.
Proof.
  revert a. induction ws as [|w ws IH]; intros a Hx; [done|]. cbn [store_words length] in *.
  rewrite store_other by lia. apply IH. lia.
Qed.

(** The memories agree outside [lo, hi). *)
Definition same_outside (lo hi : Z) (m m' : Mem) : Prop := forall x, x < lo \/ hi <= x -> m' x = m x.

Lemma same_refl lo hi m : same_outside lo hi m m.
Proof. by intros x _. Qed.
Lemma same_trans lo hi m m' m'' : same_outside lo hi m m' -> same_outside lo hi m' m'' -> same_outside lo hi m m''.
Proof. intros H H' x Hx. rewrite H', H by done. done. Qed.
Lemma same_store lo hi n m a v : lo <= a -> a + Z.of_nat n <= hi -> same_outside lo hi m (store n m a v).
Proof. intros ? ? x Hx. apply store_other. lia. Qed.
Lemma same_weaken lo hi lo' hi' m m' : lo' <= lo -> hi <= hi' -> same_outside lo hi m m' -> same_outside lo' hi' m m'.
Proof. intros ? ? Hs x Hx. apply Hs. lia. Qed.
Lemma same_reads lo hi m m' a ws :
  same_outside lo hi m m' -> a + 8 * Z.of_nat (length ws) <= lo \/ hi <= a -> reads m a ws -> reads m' a ws.
Proof. intros Hs Ha. apply reads_ext. intros x Hx. symmetry. apply Hs. lia. Qed.
Lemma same_load lo hi m m' n a :
  same_outside lo hi m m' -> a + Z.of_nat n <= lo \/ hi <= a -> load n m' a = load n m a.
Proof. intros Hs Ha. apply load_ext. intros x Hx. apply Hs. lia. Qed.

Lemma wrap_sub_small a b : 0 <= a - b < 2 ^ 64 -> uwrap_sub 64 a b = a - b.
Proof. intros. unfold uwrap_sub. by rewrite Z.mod_small. Qed.
Lemma wrap_add_small a b : 0 <= a + b < 2 ^ 64 -> uwrap_add 64 a b = a + b.
Proof. intros. unfold uwrap_add. by rewrite Z.mod_small. Qed.
