(* ===== verification/Elf.v ===== *)
(** * Elf: the tables of the kernel's image, as the loader and the kernel read them

    The records of the dynamic section (kargs.rs of both programs), the
    arguments that the loader hands to the kernel, and the program headers of
    an ELF file as the xmas_elf crate presents them. *)

From S2P Require Import Prelude Rvm Bytes Memory Kargs.

(** ** Program headers (xmas_elf) *)

Inductive PhType : Type := PhLoad | PhDynamic | PhOther.
#[export] Instance PhType_eq_dec : EqDecision PhType.
Proof. solve_decision. Defined.

Record ProgramHeader : Type := mkPh {
  ph_type : PhType;
  ph_offset : Z;
  ph_file_size : Z;
  ph_mem_size : Z;
  ph_virtual_addr : Z;
  ph_flags : Z;
  ph_align : Z
}.
Record ElfFile : Type := mkElf { entry_point : Z; program_iter : list ProgramHeader }.

Definition is_load (ph : ProgramHeader) : bool := bool_decide (ph_type ph = PhLoad).

(** [.min().unwrap()] and [.max().unwrap()] *)
Definition iter_min (l : list Z) : outcome Z :=
  match l with [] => Panic | x :: l => Ret (foldl Z.min x l) end.
Definition iter_max (l : list Z) : outcome Z :=
  match l with [] => Panic | x :: l => Ret (foldl Z.max x l) end.

(** ** What the loader hands over *)

Record KernelInfo : Type := mkKernelInfo {
  ki_size : Z; ki_ep : Z; ki_seg_ptr : Z; ki_seg_len : Z; ki_dyn_ptr : Z; ki_dyn_len : Z
}.
Definition KernelInfo_empty : KernelInfo := mkKernelInfo 0 0 0 0 0 0.

Record SysInfo : Type := mkSysInfo {
  si_layout_ptr : Z; si_layout_len : Z; si_acpi_ptr : Z; si_dtb_ptr : Z; si_disk_uuid : list Z
}.
Definition SysInfo_empty : SysInfo := mkSysInfo 0 0 0 0 (replicate 16 0).

Record KargsBlock : Type := mkKargs { ka_kernel : KernelInfo; ka_sys : SysInfo; ka_kbase : Z }.

(** The statics [KINFO], [SYSINFO] and [KBASE], and [set_kargs]. *)
Record BootStatics : Type := mkStatics { KINFO : KernelInfo; SYSINFO : SysInfo; KBASE : Z }.
Definition BootStatics_init : BootStatics := mkStatics KernelInfo_empty SysInfo_empty 0.
Definition set_kargs (kargs : KargsBlock) (s : BootStatics) : BootStatics :=
  mkStatics (ka_kernel kargs) (ka_sys kargs) (ka_kbase kargs).

(** ** The dynamic section *)

Record DynEntry : Type := mkDyn { dy_tag : Z; dy_val : Z }.
Record SymEntry : Type := mkSym {
  sy_name : Z; sy_info : Z; sy_other : Z; sy_shndx : Z; sy_value : Z; sy_size : Z
}.
(** [addend] is the bit pattern of the [isize]. *)
Record RelaEntry : Type := mkRela { re_offset : Z; re_info : Z; re_addend : Z }.

Definition size_of_DynEntry : Z := 16.
Definition size_of_SymEntry : Z := 24.
Definition size_of_RelaEntry : Z := 24.

Definition read_dyn (m : Mem) (p : Z) : DynEntry := mkDyn (load 8 m p) (load 8 m (p + 8)).
Definition read_sym (m : Mem) (p : Z) : SymEntry :=
  mkSym (load 4 m p) (load 1 m (p + 4)) (load 1 m (p + 5)) (load 2 m (p + 6)) (load 8 m (p + 8)) (load 8 m (p + 16)).
Definition read_rela (m : Mem) (p : Z) : RelaEntry :=
  mkRela (load 8 m p) (load 8 m (p + 8)) (load 8 m (p + 16)).

(** [slice::from_raw_parts(ptr as *const DynEntry, len)] *)
Definition read_dyns (m : Mem) (p : Z) (n : nat) : list DynEntry :=
  (fun i => read_dyn m (p + size_of_DynEntry * i)) <$> seqZ 0 (Z.of_nat n).

Definition DT_NULL : Z := 0.
Definition DT_STRTAB : Z := 5.
Definition DT_SYMTAB : Z := 6.
Definition DT_RELA : Z := 7.
Definition DT_RELASZ : Z := 8.

(** ** Relocation types *)

Definition R_REL `{Platform} : Z := match target_arch with X86_64 => 8 | AArch64 => 1027 end.
Definition R_SYM `{Platform} : list Z :=
  match target_arch with X86_64 => [1; 6; 7] | AArch64 => [257; 1025; 1026] end.

(** [entry.info & 0xffffffff] *)
Definition rela_ty (e : RelaEntry) : Z := Z.land (re_info e) 0xffffffff.
Definition is_sym_ty `{Platform} (ty : Z) : bool := bool_decide (ty ∈ R_SYM).
