(* ===== verification/Flint.v ===== *)
(** * Flint: the boot loader (efi/src/main.rs)

    [flint] reads the kernel's ELF file, copies its segments to memory,
    relocates the copy to the address where it lies, finds the tables of the
    firmware and the disk, and enters the kernel.  The firmware (the uefi
    crate) and the ELF parser (xmas_elf) are an interface. *)

From S2P Require Import Prelude Rvm RamUtil Bytes Memory Kargs Elf.

(** ** The firmware *)

Inductive CfgGuid : Type := ACPI_GUID | ACPI2_GUID | SMBIOS3_GUID | OtherGuid.
#[export] Instance CfgGuid_eq_dec : EqDecision CfgGuid.
Proof. solve_decision. Defined.
Record ConfigTableEntry : Type := mkCfg { cfg_guid : CfgGuid; cfg_address : Z }.

(** A handle of the block protocol: whether it opens, its media, and the
    buffer after [read_blocks] of block 1. *)
Record BlockHandle : Type := mkBlockHandle {
  bh_opens : bool; bh_is_logical_partition : bool; bh_block_size : Z; bh_block1 : option (list Z)
}.

Class Uefi (W : Type) : Type := {
  (* [get_image_file_system], then opening and reading "\unix" *)
  unix_file : W -> option (option (list Z));
  elf_new : list Z -> option ElfFile;
  allocate_pages : Z -> W -> W * option Z;
  free_pages : Z -> Z -> W -> W;
  config_table : W -> list ConfigTableEntry;
  block_handles : W -> option (list BlockHandle);
  exit_boot_services : W -> Z * Z               (* buffer and length of the memory map *)
}.

(** ** The kernel's image *)

Section Load.
Context `{Platform}.

(** [file_binary[offset..][..file_size]] *)
Definition file_slice (file : list Z) (offset file_size : Z) : outcome (list Z) :=
  rest ← slice_from file offset;
  slice rest 0 file_size.

(** [src.copy_to(dst, src.len())] *)
Definition put_bytes (m : Mem) (dst : Z) (src : list Z) : Mem :=
  fun a => if (dst <=? a) && (a <? dst + Z.of_nat (length src)) then nth (Z.to_nat (a - dst)) src 0 else m a.

(** The ends of the segments to load, and the size of the image. *)
Fixpoint load_ends (phs : list ProgramHeader) : outcome (list Z) :=
  match phs with
  | [] => Ret []
  | ph :: phs =>
      if is_load ph then
        e ← uadd 64 (ph_virtual_addr ph) (ph_mem_size ph);
        es ← load_ends phs;
        Ret (e :: es)
      else load_ends phs
  end.

Definition image_size (elf : ElfFile) : outcome Z := ends ← load_ends (program_iter elf); iter_max ends.

Definition load_segment (kbase : Z) (file : list Z) (ph : ProgramHeader) (m : Mem) : outcome (Mem * Segment) :=
  phys_addr ← uadd 64 kbase (ph_virtual_addr ph);
  let seg := mkSegment (ph_virtual_addr ph) (ph_mem_size ph) (ph_flags ph) (ucast 32 (ph_align ph)) in
  let m := zero_bytes m phys_addr (ph_mem_size ph) in
  src ← file_slice file (ph_offset ph) (ph_file_size ph);
  Ret (put_bytes m phys_addr src, seg).

(** The loop over the program headers; the list is the array at [seg_ptr]. *)
Fixpoint load_segments (kbase : Z) (file : list Z) (phs : list ProgramHeader) (m : Mem)
    : outcome (Mem * list Segment) :=
  match phs with
  | [] => Ret (m, [])
  | ph :: phs =>
      if is_load ph then
        '(m, seg) ← load_segment kbase file ph m;
        '(m, segs) ← load_segments kbase file phs m;
        Ret (m, seg :: segs)
      else load_segments kbase file phs m
  end.

(** Address and length of the dynamic section. *)
Fixpoint find_dynamic (phs : list ProgramHeader) : Z * Z :=
  match phs with
  | [] => (0, 0)
  | ph :: phs =>
      if bool_decide (ph_type ph = PhDynamic) then (ph_virtual_addr ph, ph_mem_size ph / size_of_DynEntry)
      else find_dynamic phs
  end.

Record DynVars : Type := mkDynVars { rela_ptr : Z; rela_sz : Z; symtab : Z; strtab : Z }.

Fixpoint parse_dynamic (dynamic : list DynEntry) (v : DynVars) : DynVars :=
  match dynamic with
  | [] => v
  | e :: dynamic =>
      if dy_tag e =? DT_NULL then v
      else if dy_tag e =? DT_RELA then parse_dynamic dynamic (mkDynVars (dy_val e) (rela_sz v) (symtab v) (strtab v))
      else if dy_tag e =? DT_RELASZ then parse_dynamic dynamic (mkDynVars (rela_ptr v) (dy_val e) (symtab v) (strtab v))
      else if dy_tag e =? DT_SYMTAB then parse_dynamic dynamic (mkDynVars (rela_ptr v) (rela_sz v) (dy_val e) (strtab v))
      else if dy_tag e =? DT_STRTAB then parse_dynamic dynamic (mkDynVars (rela_ptr v) (rela_sz v) (symtab v) (dy_val e))
      else parse_dynamic dynamic v
  end.

(** One relocation. *)
Definition apply_rela (kbase symbols : Z) (entry : RelaEntry) (m : Mem) : outcome Mem :=
  let ty := rela_ty entry in
  let sym_idx := Z.shiftr (re_info entry) 32 in
  reloc_addr ← uadd 64 kbase (re_offset entry);
  if ty =? R_REL then Ret (store 8 m reloc_addr (uwrap_add 64 kbase (re_addend entry)))
  else if is_sym_ty ty then
    let sym := read_sym m (symbols + size_of_SymEntry * sym_idx) in
    sym_addr ← uadd 64 kbase (sy_value sym);
    Ret (store 8 m reloc_addr (uwrap_add 64 sym_addr (re_addend entry)))
  else Ret m.

(** [for entry in rela.iter()], from entry [i] on with [n] left. *)
Fixpoint apply_relas (n : nat) (kbase symbols rela i : Z) (m : Mem) : outcome Mem :=
  match n with
  | O => Ret m
  | S n =>
      m ← apply_rela kbase symbols (read_rela m (rela + size_of_RelaEntry * i)) m;
      apply_relas n kbase symbols rela (i + 1) m
  end.

(** From the dynamic section to the end of the relocation. *)
Definition relocate_image (kbase dyn_ptr dyn_len : Z) (m : Mem) : outcome Mem :=
  d ← uadd 64 dyn_ptr kbase;
  let v := parse_dynamic (read_dyns m d (Z.to_nat dyn_len)) (mkDynVars 0 0 0 0) in
  let rela_len := rela_sz v / size_of_RelaEntry in
  rela ← uadd 64 (rela_ptr v) kbase;
  symbols ← uadd 64 (symtab v) kbase;
  apply_relas (Z.to_nat rela_len) kbase symbols rela 0 m.
End Load.

(** ** The tables of the firmware, and the disk *)

(** [acpi_ptr] and [dtb_ptr] *)
Fixpoint scan_config (config : list ConfigTableEntry) (acpi_ptr dtb_ptr : Z) : Z * Z :=
  match config with
  | [] => (acpi_ptr, dtb_ptr)
  | cfg :: config =>
      let isacpi := bool_decide (cfg_guid cfg = ACPI_GUID) && (acpi_ptr =? 0) in
      let isacpi2 := bool_decide (cfg_guid cfg = ACPI2_GUID) in
      let isdtb := bool_decide (cfg_guid cfg = SMBIOS3_GUID) in
      let acpi_ptr' := if (isacpi && (acpi_ptr =? 0)) || isacpi2 then cfg_address cfg else acpi_ptr in
      let dtb_ptr' := if isdtb then cfg_address cfg else dtb_ptr in
      scan_config config acpi_ptr' dtb_ptr'
  end.

(** The bytes of "EFI PART" *)
Definition b_efi_part : list Z := [0x45; 0x46; 0x49; 0x20; 0x50; 0x41; 0x52; 0x54].

Section Flint.
Context `{Platform} {W : Type} `{!Uefi W}.

Definition alloc_pages (n : Z) (w : W) : outcome (W * Z) :=
  let '(w, r) := allocate_pages n w in p ← unwrap r; Ret (w, p).

(** [align_up(n, PAGE_4KIB) / PAGE_4KIB] *)
Definition pages_for (n : Z) : outcome Z := a ← align_up n PAGE_4KIB; udiv a PAGE_4KIB.

(** The file, in memory of its own. *)
Definition read_unix (w : W) : outcome (W * list Z) :=
  match unix_file w with
  | None => Ret (w, [])
  | Some f =>
      file ← unwrap f;
      n ← pages_for (Z.of_nat (length file));
      '(w, _) ← alloc_pages n w;
      Ret (w, file)
  end.

(** The identifier of the first whole disk with a partition table. *)
Fixpoint find_disk (handles : list BlockHandle) (w : W) : outcome (W * list Z) :=
  match handles with
  | [] => Ret (w, replicate 16 0)
  | h :: handles =>
      if negb (bh_opens h) || bh_is_logical_partition h then find_disk handles w
      else
        gpt_header_pages ← pages_for (bh_block_size h);
        '(w, gpt_header_ptr) ← alloc_pages gpt_header_pages w;
        match bh_block1 h with
        | Some gpt_header =>
            sig ← slice gpt_header 0 8;
            if bool_decide (sig = b_efi_part) then uuid ← slice gpt_header 56 16; Ret (w, uuid)
            else find_disk handles (free_pages gpt_header_ptr gpt_header_pages w)
        | None => find_disk handles (free_pages gpt_header_ptr gpt_header_pages w)
        end
  end.

Definition disk_uuid_of (w : W) : outcome (W * list Z) :=
  match block_handles w with Some handles => find_disk handles w | None => Ret (w, replicate 16 0) end.

(** The state in which the kernel is entered: memory, the segment array, the
    arguments and the address that is called. *)
Record Entered : Type := mkEntered { en_mem : Mem; en_segs : list Segment; en_kargs : KargsBlock; en_ignite : Z }.

Definition flint (w : W) (m : Mem) : outcome (W * Entered) :=
  '(w, file_binary) ← read_unix w;
  elf ← unwrap (elf_new file_binary);
  let ep := entry_point elf in
  ksize ← image_size elf;
  kernel_pages ← pages_for ksize;
  '(w, kbase) ← alloc_pages kernel_pages w;
  '(w, seg_ptr) ← alloc_pages 1 w;
  '(m, segs) ← load_segments kbase file_binary (program_iter elf) m;
  let '(dyn_ptr, dyn_len) := find_dynamic (program_iter elf) in
  m ← relocate_image kbase dyn_ptr dyn_len m;
  let '(acpi_ptr, dtb_ptr) := scan_config (config_table w) 0 0 in
  '(w, disk_uuid) ← disk_uuid_of w;
  ignite ← uadd 64 ep kbase;
  let '(layout_ptr, layout_len) := exit_boot_services w in
  let sysinfo := mkKargs (mkKernelInfo ksize ep seg_ptr (Z.of_nat (length segs)) dyn_ptr dyn_len)
                   (mkSysInfo layout_ptr layout_len acpi_ptr dtb_ptr disk_uuid) kbase in
  Ret (w, mkEntered m segs sysinfo ignite).
End Flint.
