(* ===== verification/Block.v ===== *)
(** * Block: block devices (device/block.rs) and device files (filesys/dev.rs)

    The trait [BlockDevice] is a record of operations over the state [W] of
    the hardware; [DiskLaws] is what the documentation of a block device
    promises.  [DevFile] and [PartDev] are block devices and files at once. *)

From S2P Require Import Prelude Bytes.
#[global] Open Scope string_scope.
#[global] Open Scope list_scope.
#[global] Open Scope Z_scope.

(** [read_block] is given the length of its buffer and returns the bytes. *)
Record BlockDevice (W : Type) : Type := mkBlockDevice {
  block_size : Z;
  block_count : Z;
  read_block : W -> Z -> Z -> outcome (result string (list Z));
  write_block : W -> list Z -> Z -> outcome (W * result string unit);
  devid : Z
}.
Arguments mkBlockDevice {W}.
Arguments block_size {W}.
Arguments block_count {W}.
Arguments read_block {W}.
Arguments write_block {W}.
Arguments devid {W}.

(** ** Device identifiers: [Type:8][Location:32][Partition:24] *)

Inductive BlockDevType : Type := PCIe | USB | RamDisk | Legacy.
Definition BlockDevType_repr (t : BlockDevType) : Z :=
  match t with PCIe => 0x01 | USB => 0x02 | RamDisk => 0x03 | Legacy => 0x04 end.

Definition DevId : Type := Z.
Definition DevId_new (init : Z) : DevId := init.
Definition DevId_ty (d : DevId) (t : BlockDevType) : DevId :=
  let d := Z.land d (unot 64 (Z.shiftl 0xff 56)) in
  Z.lor d (Z.shiftl (BlockDevType_repr t) 56).
Definition DevId_loc (d : DevId) (loc : Z) : DevId :=
  let d := Z.land d (unot 64 (Z.shiftl 0xffffffff 24)) in
  Z.lor d (Z.shiftl loc 24).
Definition DevId_part (d : DevId) (part : Z) : DevId :=
  let d := Z.land d (unot 64 0xffffff) in
  Z.lor d (Z.land (part + 1) 0xffffff).
Definition DevId_build (d : DevId) : Z := d.

(** ** File metadata (filesys/vfn.rs) *)

Inductive FType : Type := Fifo | CharDev | Directory | BlockDev | Regular | SymLink | Socket.
#[export] Instance FType_eq_dec : EqDecision FType.
Proof. solve_decision. Defined.

Definition FType_repr (t : FType) : Z :=
  match t with
  | Fifo => 1 | CharDev => 2 | Directory => 4 | BlockDev => 6 | Regular => 8
  | SymLink => 0xa | Socket => 0xc
  end.

Record FMeta : Type := mkFMeta {
  fm_fid : Z;
  fm_hostdev : Z;
  fm_size : Z;
  fm_ftype : FType;
  fm_perm : Z;
  fm_uid : Z;
  fm_gid : Z
}.

(** The counter [FID]; [fetch_add] wraps. *)
Definition FID_init : Z := 2.
Definition vfid (fid : Z) : Z * Z := (uwrap_add 64 fid 1, fid).

Definition FMeta_default (fid hostdev : Z) (ftype : FType) : FMeta :=
  let perm := match ftype with
              | Regular => 0x644 | Directory => 0x755 | BlockDev => 0x640 | CharDev => 0x640
              | Fifo => 0x644 | SymLink => 511 (* 0o777 *) | Socket => 0x644
              end in
  mkFMeta fid hostdev 0 ftype perm 0 0.
Definition FMeta_vfs_only (fid : Z) (ftype : FType) : Z * FMeta :=
  let '(fid, v) := vfid fid in (fid, FMeta_default v 0 ftype).
Definition FMeta_set_size (m : FMeta) (size : Z) : FMeta :=
  mkFMeta (fm_fid m) (fm_hostdev m) size (fm_ftype m) (fm_perm m) (fm_uid m) (fm_gid m).

Section Device.
Context `{Build} {W : Type}.
Implicit Types (dev : BlockDevice W) (w : W).

(** ** Bytes of a block device: the common text of [DevFile] and [PartDev] *)

(** [offset / bs], [(offset + len).div_ceil(bs)], [(end - start) * bs] *)
Definition block_span (bs len offset : Z) : outcome (Z * Z * Z) :=
  start ← udiv offset bs;
  e ← uadd 64 offset len;
  e ← udiv_ceil e bs;
  d ← usub 64 e start;
  n ← umul 64 d bs;
  Ret (start, e, n).

Definition bytes_read dev w (len offset : Z) : outcome (result string (list Z)) :=
  let bs := block_size dev in
  '(start, _, n) ← block_span bs len offset;
  vec ←? read_block dev w n start;
  r ← urem offset bs;
  v ← slice_from vec r;
  b ← slice v 0 len;
  Ret (Ok b).

Definition bytes_write dev w (buf : list Z) (offset : Z) : outcome (W * result string unit) :=
  let bs := block_size dev in
  '(start, e, n) ← block_span bs (Z.of_nat (length buf)) offset;
  let vec := zeros n in
  let len := Z.of_nat (length vec) in
  _ ← slice vec 0 bs;
  r ← read_block dev w bs start;
  match r with
  | Err m => Ret (w, Err m)
  | Ok first =>
      vec ← splice vec 0 first;
      last ← usub 64 len bs;
      l ← usub 64 e 1;
      r ← read_block dev w bs l;
      match r with
      | Err m => Ret (w, Err m)
      | Ok final =>
          vec ← splice vec last final;
          o ← urem offset bs;
          vec ← splice vec o buf;
          write_block dev w vec start
      end
  end.

(** ** [DevFile] *)

Record DevFile : Type := mkDevFile { df_dev : BlockDevice W; df_meta : FMeta }.

Definition DevFile_as_blkdev (d : DevFile) : BlockDevice W := df_dev d.
Definition DevFile_total_size (d : DevFile) : outcome Z :=
  umul 64 (block_size (df_dev d)) (block_count (df_dev d)).
Definition DevFile_new (fid : Z) dev : outcome (Z * DevFile) :=
  let '(fid, v) := vfid fid in
  let meta := FMeta_default v 1 BlockDev in
  n ← DevFile_total_size (mkDevFile dev meta);
  Ret (fid, mkDevFile dev (FMeta_set_size meta n)).
Definition DevFile_read (d : DevFile) := bytes_read (DevFile_as_blkdev d).
Definition DevFile_write (d : DevFile) := bytes_write (DevFile_as_blkdev d).
Definition DevFile_truncate (d : DevFile) (size : Z) : result string unit :=
  Err "This is not a file".

(** ** [PartDev] *)

Record PartDev : Type := mkPartDev {
  pd_dev : BlockDevice W;
  pd_meta : FMeta;
  pd_devid : Z;
  pd_start_lba : Z;
  pd_block_count : Z
}.

Definition PartDev_as_blkdev (d : PartDev) : BlockDevice W :=
  mkBlockDevice (block_size (pd_dev d)) (pd_block_count d)
    (fun w n lba => l ← uadd 64 lba (pd_start_lba d); read_block (pd_dev d) w n l)
    (fun w buf lba => l ← uadd 64 lba (pd_start_lba d); write_block (pd_dev d) w buf l)
    (pd_devid d).
Definition PartDev_total_size (d : PartDev) : outcome Z :=
  umul 64 (block_size (pd_dev d)) (pd_block_count d).
Definition PartDev_new (fid : Z) dev (part_no start_lba count : Z) : outcome (Z * PartDev) :=
  let id := DevId_build (DevId_part (DevId_new (devid dev)) part_no) in
  let '(fid, v) := vfid fid in
  let meta := FMeta_default v 1 BlockDev in
  n ← PartDev_total_size (mkPartDev dev meta id start_lba count);
  Ret (fid, mkPartDev dev (FMeta_set_size meta n) id start_lba count).
Definition PartDev_read (d : PartDev) := bytes_read (PartDev_as_blkdev d).
Definition PartDev_write (d : PartDev) := bytes_write (PartDev_as_blkdev d).
Definition PartDev_truncate (d : PartDev) (size : Z) : result string unit :=
  Err "This is not a file".
End Device.
