(* ===== verification/BlockThms.v ===== *)
(** * BlockThms: a device file is the disk's bytes

    [DiskLaws] is the contract of a block device; a partition of a lawful
    device is a lawful device; reads and writes of any offset and length on a
    lawful device are reads and writes of its bytes. *)

From S2P Require Import Prelude RvmFacts Bytes Block.

(** Reads and writes of whole blocks inside the device; either may fail. *)
Class DiskLaws {W : Type} (dev : BlockDevice W) : Type := {
  disk : W -> list Z;
  dl_bs : 0 < block_size dev;
  dl_cap : 0 <= block_count dev /\ block_size dev * block_count dev < 2 ^ 63;
  dl_len : forall w, Z.of_nat (length (disk w)) = block_size dev * block_count dev;
  dl_read : forall w n lba, 0 <= lba -> 0 <= n -> (block_size dev | n) ->
    lba * block_size dev + n <= block_size dev * block_count dev ->
    exists r, read_block dev w n lba = Ret r /\
      match r with
      | Ok b => b = take (Z.to_nat n) (drop (Z.to_nat (lba * block_size dev)) (disk w))
      | Err _ => True
      end;
  dl_write : forall w buf lba, 0 <= lba -> (block_size dev | Z.of_nat (length buf)) ->
    lba * block_size dev + Z.of_nat (length buf) <= block_size dev * block_count dev ->
    exists w' r, write_block dev w buf lba = Ret (w', r) /\
      match r with
      | Ok _ => disk w' = patch (disk w) (Z.to_nat (lba * block_size dev)) buf
      | Err _ => forall k, ~ (Z.to_nat (lba * block_size dev) <= k <
                              Z.to_nat (lba * block_size dev) + length buf)%nat ->
                   disk w' !! k = disk w !! k
      end
}.
Arguments disk {W} dev {_}.

Section Files.
Context `{Build} {W : Type} (dev : BlockDevice W) `{!DiskLaws dev}.
Abbreviation bs := (block_size dev).
Abbreviation cap := (block_size dev * block_count dev).

(** The blocks that a range of bytes touches. *)
Lemma block_span_ok len offset :
  0 <= offset -> 0 <= len -> offset + len <= cap ->
  exists start e, block_span bs len offset = Ret (start, e, (e - start) * bs) /\
    start = offset / bs /\ 0 <= start <= e /\ start * bs <= offset < start * bs + bs /\
    offset + len <= e * bs < offset + len + bs /\ e * bs <= cap /\
    (start = e -> len = 0 /\ offset = start * bs).
Proof.
  intros Ho Hl Hb. pose proof (dl_bs (dev := dev)) as Hbs. pose proof (dl_cap (dev := dev)) as [Hc1 Hc2].
  set (start := offset / bs). set (e := (offset + len + bs - 1) / bs).
  pose proof (Z.div_mod offset bs ltac:(lia)) as Hd. pose proof (Z.mod_pos_bound offset bs Hbs) as Hm.
  pose proof (Z.div_mod (offset + len + bs - 1) bs ltac:(lia)) as Hd'.
  pose proof (Z.mod_pos_bound (offset + len + bs - 1) bs Hbs) as Hm'. fold start in Hd. fold e in Hd'.
  assert (0 <= start) by (apply Z.div_pos; lia).
  assert (e * bs < (block_count dev + 1) * bs) as He1 by lia.
  apply Z.mul_lt_mono_pos_r in He1; [|done].
  assert (e * bs <= block_count dev * bs) as He2 by (apply Z.mul_le_mono_nonneg_r; lia).
  assert ((start - 1) * bs < e * bs) as Hse by lia. apply Z.mul_lt_mono_pos_r in Hse; [|done].
  assert (start * bs <= e * bs) by (apply Z.mul_le_mono_nonneg_r; lia).
  assert (0 <= e - start) as Hse0 by lia. assert (e < 2 ^ 63) as He63 by nia.
  exists start, e. split.
  - unfold block_span. rewrite udiv_ok, Ret_bind by lia. rewrite uadd_ok, Ret_bind by lia.
    rewrite udiv_ceil_ok, Ret_bind by lia. fold start e. rewrite usub_ok, Ret_bind by lia.
    rewrite umul_ok by lia. done.
  - split_and!; try done; try lia; intros ->; nia.
Qed.

Lemma read_run w len offset :
  0 <= offset -> 0 <= len -> offset + len <= cap ->
  exists r, bytes_read dev w len offset = Ret r /\
    match r with
    | Ok b => b = take (Z.to_nat len) (drop (Z.to_nat offset) (disk dev w))
    | Err _ => True
    end.
Proof.
  intros Ho Hl Hb. pose proof (dl_bs (dev := dev)) as Hbs.
  destruct (block_span_ok len offset Ho Hl Hb) as (start & e & Hspan & -> & Hse & Hs & He & Hc & _).
  unfold bytes_read. rewrite Hspan, Ret_bind. set (start := offset / bs) in *.
  destruct (dl_read (dev := dev) w ((e - start) * bs) start) as (r & -> & Hr);
    [lia|nia|apply Z.divide_factor_r|lia|].
  destruct r as [vec|m]; [|by exists (Err m)].
  pose proof (dl_len (dev := dev) w) as Hlen.
  assert (length vec = Z.to_nat ((e - start) * bs)) as Hv.
  { rewrite Hr, length_take, length_drop. lia. }
  cbn [try_bind]. unfold try_bind. rewrite Ret_bind, urem_ok, Ret_bind by lia.
  assert (offset mod bs = offset - start * bs) as Hmod by (rewrite Z.mod_eq by lia; unfold start; lia).
  rewrite slice_from_ok, Ret_bind by lia.
  rewrite slice_ok, Ret_bind by (rewrite ?length_drop; lia).
  eexists. split; [done|]. simpl. rewrite Hr. apply list_eq. intros k.
  change (Z.to_nat 0) with 0%nat. rewrite !lookup_sub, lookup_drop, lookup_sub.
  case_decide; [|done]. rewrite decide_True by lia. f_equal. lia.
Qed.

(** a read of any offset and length inside the device returns exactly
    those bytes of the disk, whatever the alignment, or the error of the
    device; it does not panic. *)
Theorem bytes_read_spec w len offset :
  0 <= offset -> 0 <= len -> offset + len <= cap ->
  exists r, bytes_read dev w len offset = Ret r /\
    match r with
    | Ok b => b = take (Z.to_nat len) (drop (Z.to_nat offset) (disk dev w))
    | Err _ => True
    end.
Proof. apply read_run. Qed.

(** The buffer that [bytes_write] builds: the old bytes of the first and the
    last block, and the new bytes in their place. *)
Lemma rmw_buffer (D : list Z) (n o s : nat) (b : nat) (first final buf : list Z) (k : nat) :
  first = take b (drop s D) -> final = take b (drop (s + n - b) D) ->
  (s + n <= length D)%nat -> (b <= n)%nat -> (o + length buf <= n)%nat -> (o < b)%nat ->
  (n < o + length buf + b)%nat -> (k < n)%nat ->
  patch (patch (patch (replicate n 0) 0 first) (n - b) final) o buf !! k =
    if decide (o <= k < o + length buf)%nat then buf !! (k - o)%nat else D !! (s + k)%nat.
Proof.
  intros -> -> Hs Hb Ho Hob Hn Hk.
  assert (length (take b (drop s D)) = b) as Hf by (rewrite length_take, length_drop; lia).
  assert (length (take b (drop (s + n - b) D)) = b) as Hl by (rewrite length_take, length_drop; lia).
  assert (length (patch (replicate n 0) 0 (take b (drop s D))) = n) as H1
    by (rewrite patch_length, length_replicate; [done|rewrite length_replicate; lia]).
  assert (length (patch (patch (replicate n 0) 0 (take b (drop s D))) (n - b)
    (take b (drop (s + n - b) D))) = n) as H2 by (rewrite patch_length; [done|lia]).
  rewrite lookup_patch by lia. case_decide; [done|].
  rewrite lookup_patch by lia. case_decide.
  - rewrite Hl in *. rewrite lookup_sub, decide_True by lia. f_equal. lia.
  - rewrite lookup_patch by (rewrite length_replicate; lia). rewrite Hf, Hl in *.
    rewrite decide_True by lia. rewrite lookup_sub, decide_True by lia. f_equal. lia.
Qed.

(** The whole blocks that a write puts on the device. *)
Definition one_write w (w' : W) : Prop :=
  w' = w \/ exists vec lba r, write_block dev w vec lba = Ret (w', r) /\ 0 <= lba /\
    (bs | Z.of_nat (length vec)) /\ lba * bs + Z.of_nat (length vec) <= cap.

Lemma write_run w buf offset :
  0 <= offset -> buf <> [] -> offset + Z.of_nat (length buf) <= cap ->
  exists w' r, bytes_write dev w buf offset = Ret (w', r) /\ one_write w w' /\
    match r with
    | Ok _ => disk dev w' = patch (disk dev w) (Z.to_nat offset) buf
    | Err _ => forall k, Z.of_nat k < offset - bs \/ offset + Z.of_nat (length buf) + bs <= Z.of_nat k ->
                 disk dev w' !! k = disk dev w !! k
    end.
Proof.
  intros Ho Hne Hb. pose proof (dl_bs (dev := dev)) as Hbs.
  pose proof (dl_cap (dev := dev)) as [Hc1 Hc2].
  assert (0 < length buf)%nat as Hbl by (destruct buf; [done|simpl; lia]).
  destruct (block_span_ok (Z.of_nat (length buf)) offset Ho ltac:(lia) Hb)
    as (start & e & Hspan & -> & Hse & Hs & He & Hc & Hz).
  unfold bytes_write. rewrite Hspan, Ret_bind. set (start := offset / bs) in *.
  assert (start <> e) as Hne' by (intros Heq; destruct (Hz Heq); lia).
  assert (bs <= (e - start) * bs) as Hn by nia.
  set (n := (e - start) * bs) in *. assert (n = e * bs - start * bs) as Hne2 by (unfold n; lia).
  pose proof (dl_len (dev := dev) w) as Hlen.
  assert (Z.of_nat (length (zeros n)) = n) as Hzn by (unfold zeros; rewrite length_replicate; lia).
  rewrite slice_ok, Ret_bind by lia.
  destruct (dl_read (dev := dev) w bs start) as (r1 & -> & Hr1); [lia|lia|apply Z.divide_refl|lia|].
  rewrite Ret_bind. destruct r1 as [first|m]; [|exists w, (Err m); split_and!; [done|by left|done]].
  assert (Z.of_nat (length first) = bs) as Hf by (rewrite Hr1, length_take, length_drop; lia).
  rewrite splice_ok, Ret_bind by lia. rewrite Hzn, (usub_ok 64 n bs), Ret_bind by lia.
  rewrite usub_ok, Ret_bind by lia.
  destruct (dl_read (dev := dev) w bs (e - 1)) as (r2 & -> & Hr2); [lia|lia|apply Z.divide_refl|lia|].
  rewrite Ret_bind. destruct r2 as [final|m]; [|exists w, (Err m); split_and!; [done|by left|done]].
  assert (Z.of_nat (length final) = bs) as Hl by (rewrite Hr2, length_take, length_drop; lia).
  assert (offset mod bs = offset - start * bs) as Hmod by (rewrite Z.mod_eq by lia; unfold start; lia).
  pose proof (patch_length (zeros n) 0 first ltac:(lia)) as Hp1.
  change (Z.to_nat 0) with 0%nat.
  rewrite splice_ok, Ret_bind by lia.
  pose proof (patch_length (patch (zeros n) 0 first) (Z.to_nat (n - bs)) final ltac:(lia)) as Hp2.
  rewrite urem_ok, Ret_bind by lia. rewrite Hmod. rewrite splice_ok, Ret_bind by lia.
  set (vec := patch _ (Z.to_nat (offset - start * bs)) buf).
  assert (Z.of_nat (length vec) = n) as Hvec by (unfold vec; rewrite patch_length; lia).
  destruct (dl_write (dev := dev) w vec start) as (w' & r & Hrun & Hr);
    [lia|rewrite Hvec; apply Z.divide_factor_r|lia|]. rewrite Hrun.
  exists w', r. split; [done|]. split.
  { right. exists vec, start, r. split_and!; [done|lia|rewrite Hvec; apply Z.divide_factor_r|lia]. }
  destruct r as [u|m].
  - rewrite Hr. apply list_eq. intros k. rewrite !lookup_patch by lia.
    destruct (decide (Z.to_nat (start * bs) <= k < Z.to_nat (start * bs) + length vec)%nat) as [Hk|Hk].
    2: { by rewrite decide_False by lia. }
    unfold vec, zeros. replace (Z.to_nat (n - bs)) with (Z.to_nat n - Z.to_nat bs)%nat by lia.
    rewrite (rmw_buffer (disk dev w) (Z.to_nat n) _ (Z.to_nat (start * bs)) (Z.to_nat bs));
      [|done| |lia..].
    + replace (Z.to_nat (start * bs) + (k - Z.to_nat (start * bs)))%nat with k by lia.
      destruct (decide (Z.to_nat offset <= k < Z.to_nat offset + length buf)%nat).
      * rewrite decide_True by lia. f_equal. lia.
      * by rewrite decide_False by lia.
    + rewrite Hr2. f_equal. f_equal. lia.
  - intros k Hk. apply Hr. lia.
Qed.


(** what is written is read back. *)
Theorem write_then_read w buf offset w' b :
  0 <= offset -> buf <> [] -> offset + Z.of_nat (length buf) <= cap ->
  bytes_write dev w buf offset = Ret (w', Ok ()) ->
  bytes_read dev w' (Z.of_nat (length buf)) offset = Ret (Ok b) -> b = buf.
Proof.
  intros Ho Hne Hb Hw Hr.
  destruct (write_run w buf offset Ho Hne Hb) as (w1 & r & Hw1 & _ & Hspec).
  rewrite Hw1 in Hw. simplify_eq.
  destruct (read_run w' (Z.of_nat (length buf)) offset Ho ltac:(lia) Hb) as (r & Hr1 & Hspec').
  rewrite Hr1 in Hr. simplify_eq. rewrite Hspec, Nat2Z.id. apply patch_read.
  pose proof (dl_len (dev := dev) w). lia.
Qed.

(** an empty write at the start of a block panics: the code slices one
    block out of an empty buffer. *)
Theorem empty_write_panics w offset :
  0 <= offset <= cap -> (bs | offset) -> bytes_write dev w [] offset = Panic.
Proof.
  intros Ho [x ->]. pose proof (dl_bs (dev := dev)) as Hbs.
  destruct (block_span_ok 0 (x * bs) ltac:(lia) ltac:(lia) ltac:(lia))
    as (start & e & Hspan & Hst & Hse & Hs & He & Hc & Hz).
  unfold bytes_write. change (Z.of_nat (length [])) with 0. rewrite Hspan, Ret_bind. rewrite Z.div_mul in Hst by lia.
  subst start. assert (e = x) as -> by nia. unfold zeros. rewrite Z.sub_diag.
  by rewrite slice_panic by (simpl; lia).
Qed.
End Files.

(** ** A partition is a block device *)

Section Partition.
Context `{Build} {W : Type} (d : PartDev (W := W)) `{!DiskLaws (pd_dev d)}.
Abbreviation bs := (block_size (pd_dev d)).
Abbreviation base := (pd_start_lba d * block_size (pd_dev d)).

Hypothesis Hstart : 0 <= pd_start_lba d.
Hypothesis Hcount : 0 <= pd_block_count d.
Hypothesis Hin : pd_start_lba d + pd_block_count d <= block_count (pd_dev d).

Definition part_disk (w : W) : list Z :=
  take (Z.to_nat (bs * pd_block_count d)) (drop (Z.to_nat base) (disk (pd_dev d) w)).

Lemma part_inside :
  0 <= base /\ base + bs * pd_block_count d <= bs * block_count (pd_dev d) /\
  0 <= bs * pd_block_count d.
Proof.
  pose proof (dl_bs (dev := pd_dev d)) as Hbs.
  assert (0 <= base) by (apply Z.mul_nonneg_nonneg; lia).
  assert (0 <= bs * pd_block_count d) by (apply Z.mul_nonneg_nonneg; lia).
  pose proof (Z.mul_le_mono_nonneg_r _ _ bs ltac:(lia) Hin). lia.
Qed.

Lemma part_len w : Z.of_nat (length (part_disk w)) = bs * pd_block_count d.
Proof.
  pose proof part_inside. pose proof (dl_len (dev := pd_dev d) w).
  unfold part_disk. rewrite length_take, length_drop. lia.
Qed.

Lemma part_lba lba : 0 <= lba -> lba * bs <= bs * pd_block_count d ->
  uadd 64 lba (pd_start_lba d) = Ret (lba + pd_start_lba d) /\
  (lba + pd_start_lba d) * bs = base + lba * bs.
Proof.
  intros Hl Hb. pose proof (dl_bs (dev := pd_dev d)) as Hbs.
  pose proof (dl_cap (dev := pd_dev d)) as [? Hcap].
  assert (lba <= pd_block_count d) by (apply (Z.mul_le_mono_pos_r _ _ bs); lia).
  assert (1 * block_count (pd_dev d) <= bs * block_count (pd_dev d))
    by (apply Z.mul_le_mono_nonneg_r; lia).
  split; [apply uadd_ok; lia|lia].
Qed.

Lemma part_read w n lba :
  0 <= lba -> 0 <= n -> (bs | n) -> lba * bs + n <= bs * pd_block_count d ->
  exists r, read_block (PartDev_as_blkdev d) w n lba = Ret r /\
    match r with
    | Ok b => b = take (Z.to_nat n) (drop (Z.to_nat (lba * bs)) (part_disk w))
    | Err _ => True
    end.
Proof.
  intros Hl Hn Hd Hb. destruct (part_lba lba Hl ltac:(lia)) as [Ha He].
  pose proof part_inside as (? & ? & ?). pose proof (dl_bs (dev := pd_dev d)).
  cbn [read_block PartDev_as_blkdev]. rewrite Ha, Ret_bind.
  destruct (dl_read (dev := pd_dev d) w n (lba + pd_start_lba d)) as (r & -> & Hr); [lia..|done|lia|].
  exists r. split; [done|]. destruct r as [b|]; [|done]. rewrite Hr. apply list_eq. intros k.
  unfold part_disk. rewrite !lookup_sub. case_decide; [|done].
  rewrite ?lookup_sub, ?decide_True by nia. f_equal. nia.
Qed.

Lemma part_write w buf lba :
  0 <= lba -> (bs | Z.of_nat (length buf)) ->
  lba * bs + Z.of_nat (length buf) <= bs * pd_block_count d ->
  exists w' r, write_block (PartDev_as_blkdev d) w buf lba = Ret (w', r) /\
    (forall k, ~ base <= Z.of_nat k < base + bs * pd_block_count d ->
       disk (pd_dev d) w' !! k = disk (pd_dev d) w !! k) /\
    match r with
    | Ok _ => part_disk w' = patch (part_disk w) (Z.to_nat (lba * bs)) buf
    | Err _ => forall k, ~ (Z.to_nat (lba * bs) <= k < Z.to_nat (lba * bs) + length buf)%nat ->
                 part_disk w' !! k = part_disk w !! k
    end.
Proof.
  intros Hl Hd Hb. destruct (part_lba lba Hl ltac:(lia)) as [Ha He].
  pose proof part_inside as (Hi1 & Hi2 & Hi3). pose proof (dl_bs (dev := pd_dev d)) as Hbs.
  assert (0 <= lba * bs) as Hlb by (apply Z.mul_nonneg_nonneg; lia).
  pose proof (part_len w) as Hpl. pose proof (dl_len (dev := pd_dev d) w) as Hdl.
  cbn [write_block PartDev_as_blkdev]. rewrite Ha, Ret_bind.
  destruct (dl_write (dev := pd_dev d) w buf (lba + pd_start_lba d)) as (w' & r & -> & Hr);
    [lia|done|lia|].
  exists w', r. split; [done|]. rewrite He in Hr. split.
  - intros k Hk. destruct r; [|apply Hr; lia]. rewrite Hr, lookup_patch by lia.
    by rewrite decide_False by lia.
  - destruct r as [u|m].
    + apply list_eq. intros k. rewrite lookup_patch by lia. unfold part_disk at 1 2.
      rewrite !lookup_sub, Hr. case_decide; [|case_decide; [|done]].
      * rewrite lookup_patch by lia. destruct (decide _) as [Hk|Hk].
        -- rewrite decide_True by lia. f_equal. lia.
        -- by rewrite decide_False by lia.
      * exfalso. lia.
    + intros k Hk. unfold part_disk. rewrite !lookup_sub. case_decide; [|done]. apply Hr. lia.
Qed.

(** A partition of a lawful device is a lawful device. *)
#[export] Instance PartDev_DiskLaws : DiskLaws (PartDev_as_blkdev d).
Proof.
  refine {| disk := part_disk |}.
  - apply (dl_bs (dev := pd_dev d)).
  - pose proof part_inside. pose proof (dl_cap (dev := pd_dev d)). cbn [block_count block_size PartDev_as_blkdev]. lia.
  - apply part_len.
  - apply part_read.
  - intros w buf lba H1 H2 H3. destruct (part_write w buf lba H1 H2 H3) as (w' & r & Hr & _ & Hs).
    by exists w', r.
Defined.

(** a write inside a partition cannot touch a byte outside it, whether
    the device accepts it or not, and on success it is exactly the write of
    those bytes of the partition. *)
Theorem partition_confined w buf offset :
  0 <= offset -> buf <> [] -> offset + Z.of_nat (length buf) <= bs * pd_block_count d ->
  exists w' r, PartDev_write d w buf offset = Ret (w', r) /\
    (forall k, ~ base <= Z.of_nat k < base + bs * pd_block_count d ->
       disk (pd_dev d) w' !! k = disk (pd_dev d) w !! k) /\
    (r = Ok () -> part_disk w' = patch (part_disk w) (Z.to_nat offset) buf).
Proof.
  intros Ho Hne Hb.
  destruct (write_run (PartDev_as_blkdev d) w buf offset Ho Hne Hb) as (w' & r & Hr & Hone & Hs).
  exists w', r. split; [done|]. split.
  - destruct Hone as [->|(vec & lba & r' & Hw & H1 & H2 & H3)]; [done|].
    destruct (part_write w vec lba H1 H2 H3) as (w1 & r1 & Hr1 & Hout & _).
    rewrite Hr1 in Hw. by simplify_eq.
  - intros ->. exact Hs.
Qed.
End Partition.

(** ** A disk in memory, for the witnesses *)

Module RamDiskDemo.
#[local] Instance build : Build := {| overflow_checks := true |}.

(** Four blocks of four bytes. *)
Definition ram (w : list Z) : list Z := take 16 (w ++ replicate 16 0).

Definition ram_dev : BlockDevice (list Z) :=
  mkBlockDevice 4 4
    (fun w n lba => Ret (if lba * 4 + n <=? 16
       then Ok (take (Z.to_nat n) (drop (Z.to_nat (lba * 4)) (ram w))) else Err "out of range"))
    (fun w buf lba => Ret (if lba * 4 + Z.of_nat (length buf) <=? 16
       then (patch (ram w) (Z.to_nat (lba * 4)) buf, Ok ()) else (w, Err "out of range")))
    (Z.shiftl 1 56).

Lemma ram_length w : length (ram w) = 16%nat.
Proof. unfold ram. rewrite length_take, length_app, length_replicate. lia. Qed.

Lemma ram_id w : length w = 16%nat -> ram w = w.
Proof. intros Hw. unfold ram. by rewrite take_app_length'. Qed.

#[export] Instance ram_laws : DiskLaws ram_dev.
Proof.
  refine {| disk := ram |}; simpl.
  - lia.
  - lia.
  - intros w. by rewrite ram_length.
  - intros w n lba H1 H2 _ H3. destruct (Z.leb_spec (lba * 4 + n) 16); [|lia].
    eexists. split; [done|]. done.
  - intros w buf lba H1 _ H3. destruct (Z.leb_spec (lba * 4 + Z.of_nat (length buf)) 16); [|lia].
    eexists _, _. split; [done|]. simpl. apply ram_id.
    rewrite patch_length; [apply ram_length|]. rewrite ram_length. lia.
Defined.

(** Two partitions of one block each. *)
Definition p1 : PartDev := mkPartDev ram_dev (FMeta_default 2 1 BlockDev) 0 1 1.
Definition disk0 : list Z := [0;1;2;3;4;5;6;7;8;9;10;11;12;13;14;15].

Lemma bytes_read_spec_witness :
  exists r, bytes_read ram_dev disk0 6 3 = Ret r /\
    match r with
    | Ok b => b = take (Z.to_nat 6) (drop (Z.to_nat 3) (disk ram_dev disk0))
    | Err _ => True
    end.
Proof. apply (bytes_read_spec ram_dev disk0 6 3); simpl; lia. Defined.


Lemma write_then_read_witness :
  exists w' b, bytes_write ram_dev disk0 [100; 101; 102] 6 = Ret (w', Ok ()) /\
    bytes_read ram_dev w' 3 6 = Ret (Ok b) /\ b = [100; 101; 102].
Proof.
  eexists _, _. split; [vm_compute; reflexivity|]. split; [vm_compute; reflexivity|].
  apply (write_then_read ram_dev disk0 [100; 101; 102] 6
    [0;1;2;3;4;5;100;101;102;9;10;11;12;13;14;15]);
    [lia|done|simpl; lia|vm_compute; reflexivity|vm_compute; reflexivity].
Defined.

Lemma empty_write_panics_witness : bytes_write ram_dev disk0 [] 8 = Panic.
Proof. apply (empty_write_panics ram_dev disk0 8); [simpl; lia|by exists 2]. Defined.

Lemma partition_confined_witness :
  exists w' r, PartDev_write p1 disk0 [100; 101] 1 = Ret (w', r) /\
    (forall k, ~ 4 <= Z.of_nat k < 8 -> disk ram_dev w' !! k = disk ram_dev disk0 !! k) /\
    (r = Ok () -> part_disk p1 w' = patch (part_disk p1 disk0) (Z.to_nat 1) [100; 101]).
Proof. apply (partition_confined p1); simpl; (lia || done). Defined.

(** nothing checks a write against the size of the partition: one byte
    past its end lands in the next partition. *)
Theorem partition_write_escapes :
  exists w', PartDev_write p1 disk0 [100] 4 = Ret (w', Ok ()) /\
    pd_block_count p1 * block_size ram_dev = 4 /\
    disk ram_dev disk0 !! 8%nat = Some 8 /\ disk ram_dev w' !! 8%nat = Some 100.
Proof. eexists. split_and!; [vm_compute; reflexivity|reflexivity..]. Qed.
End RamDiskDemo.

(** ** Device identifiers *)

(** The fields of an identifier. *)
Definition id_type (d : DevId) : Z := Z.shiftr d 56.
Definition id_loc (d : DevId) : Z := Z.land (Z.shiftr d 24) 0xffffffff.
Definition id_part (d : DevId) : Z := Z.land d 0xffffff.

Lemma id_fields d :
  0 <= d < 2 ^ 64 ->
  id_type d = d / 2 ^ 56 /\ id_loc d = d / 2 ^ 24 mod 2 ^ 32 /\ id_part d = d mod 2 ^ 24.
Proof.
  intros Hd. unfold id_type, id_loc, id_part.
  change 0xffffffff with (Z.ones 32). change 0xffffff with (Z.ones 24).
  by rewrite !Z.shiftr_div_pow2, !Z.land_ones by lia.
Qed.

Lemma DevId_ty_eq d t : DevId_ty d t = d mod 2 ^ 56 + BlockDevType_repr t * 2 ^ 56.
Proof.
  unfold DevId_ty. change (unot 64 (Z.shiftl 0xff 56)) with (Z.ones 56).
  rewrite Z.land_ones by lia. apply lor_field; [lia|]. apply Z.mod_pos_bound. lia.
Qed.

Lemma DevId_loc_eq d loc :
  0 <= d < 2 ^ 64 -> 0 <= loc < 2 ^ 32 ->
  DevId_loc d loc = d mod 2 ^ 24 + (loc + d / 2 ^ 56 * 2 ^ 32) * 2 ^ 24.
Proof.
  intros Hd Hl. unfold DevId_loc.
  change (unot 64 (Z.shiftl 0xffffffff 24)) with (Z.lor (Z.ones 24) (unot 64 (2 ^ 56 - 1))).
  rewrite Z.land_lor_distr_r, Z.land_ones, land_unot by lia.
  rewrite <- Z.lor_assoc, (Z.lor_comm (d / 2 ^ 56 * 2 ^ 56)).
  rewrite <- (Z.shiftl_mul_pow2 (d / 2 ^ 56)) by lia.
  rewrite lor_field by (rewrite ?Z.shiftl_mul_pow2; lia).
  rewrite Z.shiftl_mul_pow2 by lia.
  replace (loc * 2 ^ 24 + d / 2 ^ 56 * 2 ^ 56) with ((loc + d / 2 ^ 56 * 2 ^ 32) * 2 ^ 24) by lia.
  rewrite <- (Z.shiftl_mul_pow2 _ 24) by lia. rewrite lor_field; [by rewrite Z.shiftl_mul_pow2 by lia|lia|].
  apply Z.mod_pos_bound. lia.
Qed.

Lemma DevId_part_eq d part :
  0 <= d < 2 ^ 64 -> DevId_part d part = (part + 1) mod 2 ^ 24 + d / 2 ^ 24 * 2 ^ 24.
Proof.
  intros Hd. unfold DevId_part. change 0xffffff with (2 ^ 24 - 1) at 1.
  rewrite land_unot by lia. change 0xffffff with (Z.ones 24). rewrite Z.land_ones by lia.
  rewrite Z.lor_comm, <- (Z.shiftl_mul_pow2 (d / 2 ^ 24)) by lia. rewrite lor_field; [by rewrite ?Z.shiftl_mul_pow2 by lia|lia|].
  apply Z.mod_pos_bound. lia.
Qed.

Lemma devid_run d t loc part :
  0 <= d < 2 ^ 64 -> 0 <= loc < 2 ^ 32 -> 0 <= part < 2 ^ 32 ->
  (id_type (DevId_ty d t) = BlockDevType_repr t /\
   id_loc (DevId_ty d t) = id_loc d /\ id_part (DevId_ty d t) = id_part d) /\
  (id_type (DevId_loc d loc) = id_type d /\
   id_loc (DevId_loc d loc) = loc /\ id_part (DevId_loc d loc) = id_part d) /\
  (id_type (DevId_part d part) = id_type d /\
   id_loc (DevId_part d part) = id_loc d /\ id_part (DevId_part d part) = (part + 1) mod 2 ^ 24).
Proof.
  intros Hd Hl Hp. assert (1 <= BlockDevType_repr t <= 4) as Ht by (destruct t; simpl; lia).
  rewrite DevId_ty_eq, DevId_loc_eq, DevId_part_eq by done.
  destruct (id_fields d Hd) as (-> & -> & ->).
  pose proof (Z.mod_pos_bound d (2 ^ 56) ltac:(lia)). pose proof (Z.mod_pos_bound d (2 ^ 24) ltac:(lia)).
  pose proof (Z.mod_pos_bound (part + 1) (2 ^ 24) ltac:(lia)).
  assert (0 <= d / 2 ^ 56 < 2 ^ 8) by (split; [apply Z.div_pos|apply Z.div_lt_upper_bound]; lia).
  assert (0 <= d / 2 ^ 24 < 2 ^ 40) by (split; [apply Z.div_pos|apply Z.div_lt_upper_bound]; lia).
  edestruct id_fields as (-> & -> & ->); [|edestruct id_fields as (-> & -> & ->);
    [|edestruct id_fields as (-> & -> & ->); [|]]]; [lia..|].
  change (2 ^ 56) with (2 ^ 24 * 2 ^ 32).
  split_and!; Z.to_euclidean_division_equations; lia.
Qed.

Lemma devid_parts d part :
  0 <= d < 2 ^ 64 -> 0 <= part < 2 ^ 32 ->
  id_type (DevId_part d part) = id_type d /\ id_loc (DevId_part d part) = id_loc d /\
  id_part (DevId_part d part) = (part + 1) mod 2 ^ 24.
Proof. intros Hd Hp. by apply (devid_run d PCIe 0 part). Qed.

(** the builder of device identifiers sets one field of
    [Type:8][Location:32][Partition:24] and keeps the other two; a partition
    number [p] is recorded as [p + 1] modulo 2^24, so that 0 means the whole
    device. *)
Theorem devid_fields d t loc part :
  0 <= d < 2 ^ 64 -> 0 <= loc < 2 ^ 32 -> 0 <= part < 2 ^ 32 ->
  (id_type (DevId_ty d t) = BlockDevType_repr t /\
   id_loc (DevId_ty d t) = id_loc d /\ id_part (DevId_ty d t) = id_part d) /\
  (id_type (DevId_loc d loc) = id_type d /\
   id_loc (DevId_loc d loc) = loc /\ id_part (DevId_loc d loc) = id_part d) /\
  (id_type (DevId_part d part) = id_type d /\
   id_loc (DevId_part d part) = id_loc d /\ id_part (DevId_part d part) = (part + 1) mod 2 ^ 24).
Proof. apply devid_run. Qed.

Lemma devid_fields_witness :
  (id_type (DevId_ty 0x1234 PCIe) = BlockDevType_repr PCIe /\
   id_loc (DevId_ty 0x1234 PCIe) = id_loc 0x1234 /\ id_part (DevId_ty 0x1234 PCIe) = id_part 0x1234) /\
  (id_type (DevId_loc 0x1234 7) = id_type 0x1234 /\
   id_loc (DevId_loc 0x1234 7) = 7 /\ id_part (DevId_loc 0x1234 7) = id_part 0x1234) /\
  (id_type (DevId_part 0x1234 3) = id_type 0x1234 /\
   id_loc (DevId_part 0x1234 3) = id_loc 0x1234 /\ id_part (DevId_part 0x1234 3) = (3 + 1) mod 2 ^ 24).
Proof. apply (devid_fields 0x1234 PCIe 7 3); lia. Defined.
