(* ===== verification/Gpt.v ===== *)
(** * Gpt: the UEFI partition table (filesys/gpt.rs)

    The header and the entries are packed little-endian records; their
    [read_from_bytes] (zerocopy) fails exactly when the slice does not have
    the size of the record. *)

From S2P Require Import Prelude Bytes Block BlockThms.

Record UUIDPartitionTable : Type := mkUUIDPartitionTable {
  gh_sign : list Z;
  gh_ver : Z;
  gh_headsize : Z;
  gh_crc32 : Z;
  gh__0 : Z;
  gh_lba_here : Z;
  gh_lba_backup : Z;
  gh_lba_conv_first : Z;
  gh_lba_conv_last : Z;
  gh_disk_uuid : list Z;
  gh_partentry_lba : Z;
  gh_partentry_num : Z;
  gh_partentry_len : Z;
  gh_partentry_crc : Z
}.
Definition size_of_UUIDPartitionTable : Z := 92.

Record UUIDPartitionEntry : Type := mkUUIDPartitionEntry {
  ge_type_uuid : list Z;
  ge_unique_uuid : list Z;
  ge_first_lba : Z;
  ge_last_lba : Z;
  ge_attr : Z;
  ge_name : list Z
}.
Definition size_of_UUIDPartitionEntry : Z := 128.

(** [FromBytes::read_from_bytes] of the two records. *)
Definition read_header (b : list Z) : option UUIDPartitionTable :=
  if Z.of_nat (length b) =? size_of_UUIDPartitionTable then
    Some (mkUUIDPartitionTable (field b 0 8) (le_get (field b 8 4)) (le_get (field b 12 4))
      (le_get (field b 16 4)) (le_get (field b 20 4)) (le_get (field b 24 8))
      (le_get (field b 32 8)) (le_get (field b 40 8)) (le_get (field b 48 8)) (field b 56 16)
      (le_get (field b 72 8)) (le_get (field b 80 4)) (le_get (field b 84 4))
      (le_get (field b 88 4)))
  else None.
Definition read_entry (b : list Z) : option UUIDPartitionEntry :=
  if Z.of_nat (length b) =? size_of_UUIDPartitionEntry then
    Some (mkUUIDPartitionEntry (field b 0 16) (field b 16 16) (le_get (field b 32 8))
      (le_get (field b 40 8)) (le_get (field b 48 8))
      ((fun i => le_get (field b (56 + 2 * i) 2)) <$> seq 0 36))
  else None.

(** [b"EFI PART"] *)
Definition GPT_SIGN : list Z := [0x45; 0x46; 0x49; 0x20; 0x50; 0x41; 0x52; 0x54].
Definition PART_EFI : list Z :=
  [0x28; 0x73; 0x2a; 0xc1; 0x1f; 0xf8; 0xd2; 0x11;
   0xba; 0x4b; 0x00; 0xa0; 0xc9; 0x3e; 0xc9; 0x3b].

(** The message carries the number of the entry. *)
Inductive GptErr : Type :=
  | DeviceErr (m : string)
  | BadHeader
  | BadSignature
  | BadEntry (p : Z).

Section Gpt.
Context `{Build} {W : Type}.

Record UEFIPartition : Type := mkUEFIPartition {
  up_dev : BlockDevice W;
  up_head : UUIDPartitionTable;
  up_entries : list UUIDPartitionEntry
}.

(** An error of the device becomes the error of the caller. *)
Definition dev_read (dev : BlockDevice W) (w : W) (n lba : Z) : outcome (result GptErr (list Z)) :=
  r ← read_block dev w n lba;
  Ret (match r with Ok b => Ok b | Err m => Err (DeviceErr m) end).

(** The loop over the entries, from the [p]-th on. *)
Fixpoint gpt_entries (n : nat) (p ent_size : Z) (ent_buf : list Z)
    (acc : list UUIDPartitionEntry) : outcome (result GptErr (list UUIDPartitionEntry)) :=
  match n with
  | O => Ret (Ok acc)
  | S n =>
      start ← umul 64 p ent_size;
      e ← uadd 64 start ent_size;
      b ← slice ent_buf start (e - start);
      match read_entry b with
      | None => Ret (Err (BadEntry p))
      | Some entry =>
          if bool_decide (ge_type_uuid entry = replicate 16 0) then
            gpt_entries n (p + 1) ent_size ent_buf acc
          else if bool_decide (ge_unique_uuid entry = replicate 16 0) then
            gpt_entries n (p + 1) ent_size ent_buf acc
          else gpt_entries n (p + 1) ent_size ent_buf (acc ++ [entry])
      end
  end.

Definition UEFIPartition_new (dev : BlockDevice W) (w : W)
    : outcome (result GptErr UEFIPartition) :=
  buf ←? dev_read dev w (block_size dev) 1;
  h ← slice buf 0 size_of_UUIDPartitionTable;
  match read_header h with
  | None => Ret (Err BadHeader)
  | Some head =>
      if bool_decide (gh_sign head ≠ GPT_SIGN) then Ret (Err BadSignature) else
      let ent_size := gh_partentry_len head in
      let ent_num := gh_partentry_num head in
      n ← umul 64 ent_size ent_num;
      ent_buf ←? dev_read dev w n (gh_partentry_lba head);
      entries ←? gpt_entries (Z.to_nat ent_num) 0 ent_size ent_buf [];
      Ret (Ok (mkUEFIPartition dev head entries))
  end.

Definition get_disk_uuid (u : UEFIPartition) : list Z := gh_disk_uuid (up_head u).

(** The loop of [get_parts]; [fid] is the counter of file numbers. *)
Fixpoint parts_from (dev : BlockDevice W) (i : Z) (es : list UUIDPartitionEntry) (fid : Z)
    : outcome (Z * list (PartDev (W := W))) :=
  match es with
  | [] => Ret (fid, [])
  | entry :: es =>
      let start := ge_first_lba entry in
      d ← usub 64 (ge_last_lba entry) start;
      count ← uadd 64 d 1;
      '(fid, part) ← PartDev_new fid dev (ucast 32 i) start count;
      '(fid, parts) ← parts_from dev (i + 1) es fid;
      Ret (fid, part :: parts)
  end.
Definition get_parts (u : UEFIPartition) (fid : Z) : outcome (Z * list (PartDev (W := W))) :=
  parts_from (up_dev u) 0 (up_entries u) fid.
End Gpt.

(** ** The format, as a writer of partition tables produces it *)

Definition put_header (h : UUIDPartitionTable) : list Z :=
  gh_sign h ++ le_put 4 (gh_ver h) ++ le_put 4 (gh_headsize h) ++ le_put 4 (gh_crc32 h) ++
  le_put 4 (gh__0 h) ++ le_put 8 (gh_lba_here h) ++ le_put 8 (gh_lba_backup h) ++
  le_put 8 (gh_lba_conv_first h) ++ le_put 8 (gh_lba_conv_last h) ++ gh_disk_uuid h ++
  le_put 8 (gh_partentry_lba h) ++ le_put 4 (gh_partentry_num h) ++
  le_put 4 (gh_partentry_len h) ++ le_put 4 (gh_partentry_crc h).

Definition put_entry (e : UUIDPartitionEntry) : list Z :=
  ge_type_uuid e ++ ge_unique_uuid e ++ le_put 8 (ge_first_lba e) ++ le_put 8 (ge_last_lba e) ++
  le_put 8 (ge_attr e) ++ concat (le_put 2 <$> ge_name e).

Definition in_width (n : nat) (x : Z) : Prop := 0 <= x < 256 ^ Z.of_nat n.

Record header_ok (h : UUIDPartitionTable) : Prop := {
  ho_sign : length (gh_sign h) = 8%nat;
  ho_uuid : length (gh_disk_uuid h) = 16%nat;
  ho_words : Forall (in_width 4) [gh_ver h; gh_headsize h; gh_crc32 h; gh__0 h;
                gh_partentry_num h; gh_partentry_len h; gh_partentry_crc h];
  ho_longs : Forall (in_width 8) [gh_lba_here h; gh_lba_backup h; gh_lba_conv_first h;
                gh_lba_conv_last h; gh_partentry_lba h]
}.

Record entry_ok (e : UUIDPartitionEntry) : Prop := {
  eo_type : length (ge_type_uuid e) = 16%nat;
  eo_unique : length (ge_unique_uuid e) = 16%nat;
  eo_longs : Forall (in_width 8) [ge_first_lba e; ge_last_lba e; ge_attr e];
  eo_name : length (ge_name e) = 36%nat /\ Forall (in_width 2) (ge_name e)
}.

(** ** Reading back what was written *)

Lemma field_head a r k : length a = k -> field (a ++ r) 0 k = a.
Proof. intros <-. unfold field. rewrite drop_0. apply take_app_length. Qed.

Lemma field_skip a r k o n :
  length a = k -> (k <= o)%nat -> field (a ++ r) o n = field r (o - k) n.
Proof.
  intros <- Ho. unfold field. rewrite drop_app, (drop_ge a) by done. done.
Qed.

Ltac field_at a r k o n H :=
  first [ rewrite (field_head a r k H) | rewrite (field_skip a r k o n H) by lia; cbn [Nat.sub] ].
Ltac field_step :=
  match goal with
  | |- context [field (le_put ?k ?x ++ ?r) ?o ?n] =>
      field_at (le_put k x) r k o n (le_put_length k x)
  | H : length ?a = ?k |- context [field (?a ++ ?r) ?o ?n] => field_at a r k o n H
  end.
Ltac forall_inv :=
  repeat match goal with H : Forall _ (_ :: _) |- _ => apply Forall_cons in H as [? H] end.

Lemma field_all a k : length a = k -> field a 0 k = a.
Proof. intros <-. unfold field. rewrite drop_0. apply firstn_all. Qed.

Lemma put_header_length h : header_ok h -> length (put_header h) = 92%nat.
Proof.
  intros [Hs Hu _ _]. unfold put_header. rewrite !length_app, !le_put_length, Hs, Hu. done.
Qed.

Lemma put_entry_length e : entry_ok e -> length (put_entry e) = 128%nat.
Proof.
  intros [Ht Hu _ [Hn _]]. unfold put_entry. rewrite !length_app, !le_put_length, Ht, Hu.
  assert (forall l, length (concat (le_put 2 <$> l)) = (2 * length l)%nat) as ->; [|by rewrite Hn].
  induction l as [|x l IH]; [done|]. rewrite fmap_cons. cbn [concat].
  rewrite length_app, le_put_length, IH. simpl. lia.
Qed.

Lemma read_put_header h : header_ok h -> read_header (put_header h) = Some h.
Proof.
  intros Hok. unfold read_header. rewrite put_header_length by done.
  destruct Hok as [Hs Hu Hw Hl]. unfold in_width in *. forall_inv.
  change (Z.of_nat 92 =? size_of_UUIDPartitionTable) with true. cbn match.
  unfold put_header. repeat field_step.
  rewrite !field_all by apply le_put_length.
  rewrite !le_get_put by done. by destruct h.
Qed.

Lemma field_units l i :
  (i < length l)%nat -> Forall (in_width 2) l ->
  le_get (field (concat (le_put 2 <$> l)) (2 * i) 2) = nth i l 0.
Proof.
  revert i. induction l as [|x l IH]; intros i Hi Hf; simpl in Hi; [lia|].
  apply Forall_cons in Hf as [Hx Hf]. rewrite fmap_cons. cbn [concat].
  destruct i as [|i].
  - change (2 * 0)%nat with 0%nat. rewrite field_head by apply le_put_length. by apply le_get_put.
  - rewrite (field_skip (le_put 2 x) _ 2) by (apply le_put_length || lia).
    replace (2 * S i - 2)%nat with (2 * i)%nat by lia. apply IH; [lia|done].
Qed.

Lemma read_put_entry e : entry_ok e -> read_entry (put_entry e) = Some e.
Proof.
  intros Hok. unfold read_entry. rewrite put_entry_length by done.
  destruct Hok as [Ht Hu Hl [Hn Hw]]. unfold in_width in Hl. forall_inv.
  change (Z.of_nat 128 =? size_of_UUIDPartitionEntry) with true. cbn match.
  assert ((fun i => le_get (field (put_entry e) (56 + 2 * i) 2)) <$> seq 0 36 = ge_name e) as ->.
  2: { unfold put_entry. repeat field_step. rewrite !le_get_put by done. by destruct e. }
  apply list_eq_same_length with 36%nat; [done|by rewrite length_fmap, length_seq|].
  intros i x y Hi Hx Hy. rewrite list_lookup_fmap, lookup_seq_lt in Hx by done.
  simpl in Hx. injection Hx as <-. unfold put_entry.
  rewrite !(field_skip _ _ 16), !(field_skip _ _ 8) by (done || apply le_put_length || lia).
  match goal with |- context [field _ ?o 2] => replace o with (2 * i)%nat by lia end.
  rewrite field_units by (done || lia). by apply nth_lookup_Some with (d := 0) in Hy.
Qed.

(** ** What the reader makes of a partition table *)

Definition live (e : UUIDPartitionEntry) : Prop :=
  ge_type_uuid e <> replicate 16 0 /\ ge_unique_uuid e <> replicate 16 0.
#[export] Instance live_dec e : Decision (live e).
Proof. unfold live. apply _. Defined.

Section GptThms.
Context `{Build} {W : Type}.
Implicit Types (dev : BlockDevice W) (es : list UUIDPartitionEntry).

Lemma concat_entries_length es :
  Forall entry_ok es -> length (concat (put_entry <$> es)) = (128 * length es)%nat.
Proof.
  induction 1 as [|e es He _ IH]; [done|]. rewrite fmap_cons. cbn [concat].
  rewrite length_app, put_entry_length, IH by done. simpl. lia.
Qed.

Lemma gpt_entries_spec es pre p acc :
  Forall entry_ok es -> length pre = (128 * p)%nat -> Z.of_nat (p + length es) < 2 ^ 32 ->
  gpt_entries (length es) (Z.of_nat p) 128 (pre ++ concat (put_entry <$> es)) acc =
    Ret (Ok (acc ++ filter live es)).
Proof.
  intros Hes. revert pre p acc. induction Hes as [|e es He Hes IH]; intros pre p acc Hp Hb.
  { simpl. by rewrite app_nil_r. }
  cbn [length gpt_entries] in *. rewrite umul_ok, Ret_bind by lia. rewrite uadd_ok, Ret_bind by lia.
  rewrite fmap_cons. cbn [concat]. pose proof (put_entry_length e He) as Hl.
  replace (Z.of_nat p * 128 + 128 - Z.of_nat p * 128) with 128 by lia.
  rewrite slice_ok, Ret_bind by (rewrite ?length_app; lia).
  replace (Z.to_nat (Z.of_nat p * 128)) with (length pre) by lia.
  rewrite drop_app_length. change (Z.to_nat 128) with 128%nat. rewrite <- Hl, take_app_length.
  rewrite read_put_entry by done. cbn match.
  replace (pre ++ put_entry e ++ concat (put_entry <$> es))
    with ((pre ++ put_entry e) ++ concat (put_entry <$> es)) by by rewrite app_assoc.
  replace (Z.of_nat p + 1) with (Z.of_nat (S p)) by lia.
  assert (length (pre ++ put_entry e) = (128 * S p)%nat) as Hl' by (rewrite length_app; lia).
  rewrite filter_cons. unfold live at 1.
  case_bool_decide as Ht; [|case_bool_decide as Hu].
  - rewrite decide_False by (intros [? _]; done). apply IH; [done|lia].
  - rewrite decide_False by (intros [_ ?]; done). apply IH; [done|lia].
  - rewrite decide_True by done. rewrite IH by (done || lia). by rewrite <- app_assoc.
Qed.

(** The device holds the table: a header in block 1, the entries where it
    says. *)
Record holds_gpt dev (w : W) (h : UUIDPartitionTable) (pad : list Z) es : Prop := {
  hg_header : read_block dev w (block_size dev) 1 = Ret (Ok (put_header h ++ pad));
  hg_ok : header_ok h;
  hg_sign : gh_sign h = GPT_SIGN;
  hg_len : gh_partentry_len h = 128;
  hg_num : gh_partentry_num h = Z.of_nat (length es);
  hg_entries : read_block dev w (128 * Z.of_nat (length es)) (gh_partentry_lba h) =
    Ret (Ok (concat (put_entry <$> es)));
  hg_es : Forall entry_ok es
}.

Lemma header_slice h pad :
  header_ok h -> slice (put_header h ++ pad) 0 size_of_UUIDPartitionTable = Ret (put_header h).
Proof.
  intros Hok. pose proof (put_header_length h Hok) as Hl. unfold size_of_UUIDPartitionTable.
  rewrite slice_ok by (rewrite ?length_app; lia). change (Z.to_nat 0) with 0%nat. rewrite drop_0.
  replace (Z.to_nat 92) with (length (put_header h)) by lia. by rewrite take_app_length.
Qed.

Lemma header_num h : header_ok h ->
  0 <= gh_partentry_num h < 2 ^ 32 /\ 0 <= gh_partentry_len h < 2 ^ 32.
Proof.
  intros [_ _ Hw _]. unfold in_width in Hw. forall_inv.
  change (256 ^ Z.of_nat 4) with (2 ^ 32) in *. done.
Qed.

(** C38: parsing a partition table gives back the header that was written and
    the entries in use, in order: an entry whose type or identifier is zero
    is skipped. *)
Theorem gpt_roundtrip dev w h pad es :
  holds_gpt dev w h pad es ->
  UEFIPartition_new dev w = Ret (Ok (mkUEFIPartition dev h (filter live es))).
Proof.
  intros [Hh Hok Hs Hl Hn He Hes]. unfold UEFIPartition_new, dev_read.
  rewrite Hh. cbn [try_bind]. unfold try_bind. rewrite !Ret_bind, header_slice, Ret_bind by done.
  rewrite read_put_header by done. rewrite bool_decide_false by (intros Hc; by apply Hc).
  destruct (header_num h Hok) as [Hb _]. rewrite Hl, Hn in *. rewrite umul_ok, Ret_bind by lia.
  rewrite He, !Ret_bind. rewrite Nat2Z.id.
  pose proof (gpt_entries_spec es [] 0 [] Hes eq_refl ltac:(simpl; lia)) as Hg.
  change (Z.of_nat 0) with 0 in Hg. cbn [app] in Hg. by rewrite Hg.
Qed.

(** a header without the signature is refused, whatever else it says;
    and a table whose entries do not have 128 bytes is refused at the first
    entry. *)
Theorem gpt_refused dev w h pad b :
  read_block dev w (block_size dev) 1 = Ret (Ok (put_header h ++ pad)) -> header_ok h ->
  (gh_sign h <> GPT_SIGN -> UEFIPartition_new dev w = Ret (Err BadSignature)) /\
  (gh_sign h = GPT_SIGN -> gh_partentry_len h <> 128 -> 0 < gh_partentry_num h ->
   read_block dev w (gh_partentry_len h * gh_partentry_num h) (gh_partentry_lba h) = Ret (Ok b) ->
   Z.of_nat (length b) = gh_partentry_len h * gh_partentry_num h ->
   UEFIPartition_new dev w = Ret (Err (BadEntry 0))).
Proof.
  intros Hh Hok. unfold UEFIPartition_new, dev_read. rewrite Hh. unfold try_bind.
  rewrite !Ret_bind, header_slice, Ret_bind by done. rewrite read_put_header by done.
  destruct (header_num h Hok) as [Hb1 Hb2]. split.
  - intros Hs. by rewrite bool_decide_true.
  - intros Hs Hl Hn Hr Hlen. rewrite bool_decide_false by (intros Hc; by apply Hc).
    rewrite umul_ok, Ret_bind by nia. rewrite Hr, !Ret_bind.
    destruct (Z.to_nat (gh_partentry_num h)) as [|n] eqn:Hnn; [lia|]. cbn [gpt_entries].
    rewrite umul_ok, Ret_bind by lia. rewrite uadd_ok, Ret_bind by lia.
    rewrite slice_ok, Ret_bind by nia. unfold read_entry.
    destruct (Z.eqb_spec (Z.of_nat (length (take (Z.to_nat (0 * gh_partentry_len h +
      gh_partentry_len h - 0 * gh_partentry_len h)) (drop (Z.to_nat (0 * gh_partentry_len h)) b))))
      size_of_UUIDPartitionEntry) as [Hz|]; [exfalso|by rewrite Ret_bind].
    rewrite length_take, length_drop in Hz. unfold size_of_UUIDPartitionEntry in Hz. nia.
Qed.

(** ** The partitions *)

(** What the partition device of an entry must be. *)
Definition part_of dev (i : Z) (e : UUIDPartitionEntry) (p : PartDev (W := W)) : Prop :=
  pd_dev p = dev /\ pd_start_lba p = ge_first_lba e /\
  pd_block_count p = ge_last_lba e - ge_first_lba e + 1 /\
  pd_devid p = DevId_part (devid dev) i /\
  fm_size (pd_meta p) = block_size dev * pd_block_count p /\ fm_ftype (pd_meta p) = BlockDev.

Definition extent_ok dev (e : UUIDPartitionEntry) : Prop :=
  0 <= ge_first_lba e <= ge_last_lba e /\ ge_last_lba e < 2 ^ 64 /\
  ge_last_lba e - ge_first_lba e + 1 < 2 ^ 64 /\
  0 <= block_size dev * (ge_last_lba e - ge_first_lba e + 1) < 2 ^ 64.

Lemma parts_from_spec dev es i fid :
  Forall (extent_ok dev) es -> 0 <= i -> i + Z.of_nat (length es) <= 2 ^ 32 ->
  exists fid' ps, parts_from dev i es fid = Ret (fid', ps) /\ length ps = length es /\
    forall k e, es !! k = Some e -> exists p, ps !! k = Some p /\ part_of dev (i + Z.of_nat k) e p.
Proof.
  intros Hes. revert i fid. induction Hes as [|e es (He1 & He2 & He3 & He4) Hes IH];
    intros i fid Hi Hb; cbn [parts_from].
  { exists fid, []. split_and!; [done..|]. by intros [|k] e ?. }
  cbn [length] in Hb. rewrite usub_ok, Ret_bind by lia. rewrite uadd_ok, Ret_bind by lia.
  unfold PartDev_new, PartDev_total_size. cbn [pd_dev pd_block_count vfid].
  rewrite umul_ok, !Ret_bind by lia.
  destruct (IH (i + 1) (uwrap_add 64 fid 1)) as (fid' & ps & -> & Hl & Hps); [lia|lia|].
  rewrite Ret_bind. eexists _, _. split; [done|]. split; [simpl; by rewrite Hl|].
  intros [|k] e' Hk; simplify_eq/=.
  - eexists. split; [done|]. unfold part_of. simpl. split_and!; try done.
    unfold DevId_new, DevId_build, ucast. f_equal. rewrite Z.mod_small by lia. lia.
  - destruct (Hps k e' Hk) as (p & Hp & Hpo). exists p. split; [done|].
    by replace (i + Z.of_nat (S k)) with (i + 1 + Z.of_nat k) by lia.
Qed.

(** [get_parts] makes one partition device per entry, in order, with
    the extent of the entry (both ends included) and the size in bytes; the
    device identifiers are pairwise distinct and none is the disk's. *)
Theorem get_parts_spec (u : UEFIPartition (W := W)) fid :
  Forall (extent_ok (up_dev u)) (up_entries u) ->
  Z.of_nat (length (up_entries u)) < 2 ^ 24 - 1 ->
  0 <= devid (up_dev u) < 2 ^ 64 -> id_part (devid (up_dev u)) = 0 ->
  exists fid' ps, get_parts u fid = Ret (fid', ps) /\
    length ps = length (up_entries u) /\
    (forall k e, up_entries u !! k = Some e ->
       exists p, ps !! k = Some p /\ part_of (up_dev u) (Z.of_nat k) e p) /\
    NoDup (devid (up_dev u) :: (pd_devid <$> ps)).
Proof.
  intros Hes Hn Hd Hp0. unfold get_parts.
  destruct (parts_from_spec (up_dev u) (up_entries u) 0 fid Hes) as (fid' & ps & Hr & Hl & Hps);
    [lia|lia|]. exists fid', ps. split_and!; [done..| |].
  { intros k e Hk. destruct (Hps k e Hk) as (p & ? & ?). by exists p. }
  assert (forall k p, ps !! k = Some p ->
    pd_devid p = DevId_part (devid (up_dev u)) (Z.of_nat k) /\ Z.of_nat k < 2 ^ 24 - 1) as Hid.
  { intros k p Hk. pose proof (lookup_lt_Some _ _ _ Hk).
    destruct (lookup_lt_is_Some_2 (up_entries u) k ltac:(lia)) as [e He].
    destruct (Hps k e He) as (p' & Hp' & (_ & _ & _ & Hid & _)). assert (p' = p) as -> by congruence.
    split; [exact Hid|lia]. }
  assert (forall k, 0 <= k < 2 ^ 24 - 1 ->
    id_part (DevId_part (devid (up_dev u)) k) = k + 1) as Hpart.
  { intros k Hk. destruct (devid_parts (devid (up_dev u)) k Hd ltac:(lia)) as (_ & _ & ->).
    by rewrite Z.mod_small by lia. }
  apply NoDup_cons. split.
  - intros (p & Hp & (k & Hk)%list_elem_of_lookup)%list_elem_of_fmap.
    destruct (Hid k p Hk) as [Hp' ?]. rewrite Hp' in Hp.
    assert (id_part (devid (up_dev u)) = Z.of_nat k + 1) by (rewrite Hp; apply Hpart; lia). lia.
  - apply NoDup_alt. intros i j x Hi Hj. rewrite list_lookup_fmap in Hi, Hj.
    destruct (ps !! i) as [p|] eqn:Hpi; [|done]. destruct (ps !! j) as [q|] eqn:Hqj; [|done].
    simplify_eq/=. destruct (Hid i p Hpi) as [Hp1 ?], (Hid j q Hqj) as [Hq1 ?].
    assert (Z.of_nat i + 1 = Z.of_nat j + 1); [|lia].
    rewrite <- (Hpart (Z.of_nat i)), <- (Hpart (Z.of_nat j)) by lia. congruence.
Qed.
End GptThms.

Module GptDemo.
#[local] Instance build : Build := {| overflow_checks := true |}.

Definition hdr : UUIDPartitionTable :=
  mkUUIDPartitionTable GPT_SIGN 0x10000 92 0 0 1 99 34 90 (replicate 16 7) 2 2 128 0.
Definition ent1 : UUIDPartitionEntry :=
  mkUUIDPartitionEntry PART_EFI (replicate 16 1) 34 50 0 (replicate 36 0x41).
Definition ent2 : UUIDPartitionEntry :=
  mkUUIDPartitionEntry (replicate 16 0) (replicate 16 2) 51 60 0 (replicate 36 0).

(** A disk of 512-byte blocks that holds this table. *)
Definition gpt_dev : BlockDevice unit :=
  mkBlockDevice 512 100
    (fun _ n lba => Ret (if lba =? 1 then Ok (put_header hdr ++ replicate 420 0)
                         else if lba =? 2 then Ok (concat (put_entry <$> [ent1; ent2]))
                         else Err "range"))
    (fun w _ _ => Ret (w, Err "read only")) (Z.shiftl 1 56).

Ltac forall_range := repeat constructor; unfold in_width; vm_compute; (discriminate || reflexivity || idtac).

Lemma hdr_ok : header_ok hdr.
Proof. constructor; [reflexivity|reflexivity|forall_range..]. Qed.
Lemma ents_ok : Forall entry_ok [ent1; ent2].
Proof. repeat constructor; forall_range. Qed.

Lemma gpt_roundtrip_witness :
  UEFIPartition_new gpt_dev () =
    Ret (Ok (mkUEFIPartition gpt_dev hdr (filter live [ent1; ent2]))) /\
  filter live [ent1; ent2] = [ent1].
Proof.
  split; [|vm_compute; reflexivity].
  apply (gpt_roundtrip gpt_dev () hdr (replicate 420 0) [ent1; ent2]).
  constructor; [reflexivity|apply hdr_ok|reflexivity..|apply ents_ok].
Defined.

Lemma gpt_refused_witness :
  (gh_sign hdr <> GPT_SIGN -> UEFIPartition_new gpt_dev () = Ret (Err BadSignature)) /\
  (gh_sign hdr = GPT_SIGN -> gh_partentry_len hdr <> 128 -> 0 < gh_partentry_num hdr ->
   read_block gpt_dev () (gh_partentry_len hdr * gh_partentry_num hdr) (gh_partentry_lba hdr) =
     Ret (Ok (concat (put_entry <$> [ent1; ent2]))) ->
   Z.of_nat (length (concat (put_entry <$> [ent1; ent2]))) =
     gh_partentry_len hdr * gh_partentry_num hdr ->
   UEFIPartition_new gpt_dev () = Ret (Err (BadEntry 0))).
Proof.
  apply (gpt_refused gpt_dev () hdr (replicate 420 0)); [reflexivity|apply hdr_ok].
Defined.

Definition upart : UEFIPartition := mkUEFIPartition gpt_dev hdr [ent1].

Lemma get_parts_spec_witness :
  exists fid' ps, get_parts upart 7 = Ret (fid', ps) /\
    length ps = length (up_entries upart) /\
    (forall k e, up_entries upart !! k = Some e ->
       exists p, ps !! k = Some p /\ part_of (up_dev upart) (Z.of_nat k) e p) /\
    NoDup (devid (up_dev upart) :: (pd_devid <$> ps)).
Proof.
  apply (get_parts_spec upart 7); [|reflexivity|split; [discriminate|reflexivity]|reflexivity].
  apply Forall_singleton. unfold extent_ok. simpl. lia.
Defined.
End GptDemo.
