(* ===== verification/Fat.v ===== *)
(** * Fat: the FAT file system, read only (filesys/parts/fat.rs)

    The packed records are read at their byte offsets.  A name is the list of
    its UTF-8 bytes.  The chains of clusters are followed with a fuel: on a
    cyclic chain the code does not terminate. *)

From S2P Require Import Prelude Bytes Block.

(** ** Text: what the code uses of [core::str] *)

Definition in_rng (lo hi b : Z) : bool := (lo <=? b) && (b <=? hi).
Definition cont : Z -> bool := in_rng 0x80 0xbf.

(** [from_utf8]: whether the bytes are well formed (Unicode, table 3-7). *)
Fixpoint utf8_valid (n : nat) (l : list Z) : bool :=
  match n with
  | O => false
  | S n =>
      match l with
      | [] => true
      | a :: r =>
          if a <=? 0x7f then utf8_valid n r
          else if in_rng 0xc2 0xdf a then
            match r with b :: r => cont b && utf8_valid n r | _ => false end
          else if in_rng 0xe0 0xef a then
            match r with
            | b :: d :: r =>
                (if a =? 0xe0 then in_rng 0xa0 0xbf b
                 else if a =? 0xed then in_rng 0x80 0x9f b else cont b) &&
                cont d && utf8_valid n r
            | _ => false
            end
          else if in_rng 0xf0 0xf4 a then
            match r with
            | b :: d :: e :: r =>
                (if a =? 0xf0 then in_rng 0x90 0xbf b
                 else if a =? 0xf4 then in_rng 0x80 0x8f b else cont b) &&
                cont d && cont e && utf8_valid n r
            | _ => false
            end
          else false
      end
  end.
Definition from_utf8 (l : list Z) : option (list Z) :=
  if utf8_valid (S (length l)) l then Some l else None.

(** [trim_end] on the reversed bytes: the characters with the property
    White_Space. *)
Fixpoint trim_rev (n : nat) (l : list Z) : list Z :=
  match n with
  | O => l
  | S n =>
      match l with
      | a :: r =>
          if in_rng 0x09 0x0d a || (a =? 0x20) then trim_rev n r else
          match r with
          | b :: r' =>
              if (b =? 0xc2) && ((a =? 0x85) || (a =? 0xa0)) then trim_rev n r' else
              match r' with
              | d :: r'' =>
                  if ((d =? 0xe1) && (b =? 0x9a) && (a =? 0x80)) ||
                     ((d =? 0xe2) && (b =? 0x80) &&
                        (in_rng 0x80 0x8a a || (a =? 0xa8) || (a =? 0xa9) || (a =? 0xaf))) ||
                     ((d =? 0xe2) && (b =? 0x81) && (a =? 0x9f)) ||
                     ((d =? 0xe3) && (b =? 0x80) && (a =? 0x80))
                  then trim_rev n r'' else l
              | [] => l
              end
          | [] => l
          end
      | [] => []
      end
  end.
Definition trim_end (l : list Z) : list Z := rev (trim_rev (length l) (rev l)).

Definition ascii_lower (b : Z) : Z := if in_rng 0x41 0x5a b then b + 32 else b.
Definition eq_ignore_ascii_case (a b : list Z) : bool :=
  bool_decide (ascii_lower <$> a = ascii_lower <$> b).

(** ** Directory entries *)

Record FatDirEnt : Type := mkFatDirEnt {
  de_name : list Z;
  de_ext : list Z;
  de_attr : Z;
  de_fst_clus_hi : Z;
  de_fst_clus_lo : Z;
  de_file_size : Z
}.
Definition size_of_FatDirEnt : Z := 32.

(** The record read from its 32 bytes; the time stamps are not used. *)
Definition read_dirent (b : list Z) : FatDirEnt :=
  mkFatDirEnt (field b 0 8) (field b 8 3) (le_get (field b 11 1))
    (le_get (field b 20 2)) (le_get (field b 26 2)) (le_get (field b 28 4)).

Definition FatDirEnt_filename (e : FatDirEnt) : option (list Z) :=
  match from_utf8 (de_name e) with
  | None => None
  | Some name =>
      match from_utf8 (de_ext e) with
      | None => None
      | Some ext =>
          let name := trim_end name in
          let ext := trim_end ext in
          if bool_decide (ext = []) then Some name else Some (name ++ [0x2e] ++ ext)
      end
  end.

Definition FatDirEnt_ftype (e : FatDirEnt) : FType :=
  if negb (Z.land (de_attr e) 0x10 =? 0) then Directory else Regular.

(** [(hi as u32) << 16 | lo as u32] *)
Definition first_clust (e : FatDirEnt) : Z :=
  Z.lor (Z.shiftl (de_fst_clus_hi e) 16) (de_fst_clus_lo e).

(** ** The volume *)

Record BootParamBlock : Type := mkBootParamBlock {
  byts_per_sec : Z;
  sec_per_clus : Z;
  rsvd_sec_cnt : Z;
  num_fats : Z;
  root_ent_cnt : Z;
  tot_sec16 : Z;
  fat_sz16 : Z;
  tot_sec32 : Z
}.
Definition size_of_BootParamBlock : nat := 36.
Definition read_bpb (b : list Z) : BootParamBlock :=
  mkBootParamBlock (le_get (field b 11 2)) (le_get (field b 13 1)) (le_get (field b 14 2))
    (le_get (field b 16 1)) (le_get (field b 17 2)) (le_get (field b 19 2))
    (le_get (field b 22 2)) (le_get (field b 32 4)).

Record Fat32BpbExt : Type := mkFat32BpbExt { fat_sz32 : Z; root_clus : Z }.
Definition size_of_Fat32BpbExt : nat := 28.
Definition read_ext32 (b : list Z) (off : nat) : Fat32BpbExt :=
  mkFat32BpbExt (le_get (field b off 4)) (le_get (field b (off + 8) 4)).

Record Fat12BpbExt : Type := mkFat12BpbExt { vol_id : Z; vol_lab : list Z; fil_sys_type : list Z }.
Definition read_ext12 (b : list Z) (off : nat) : Fat12BpbExt :=
  mkFat12BpbExt (le_get (field b (off + 3) 4)) (field b (off + 7) 11) (field b (off + 18) 8).

Inductive FatType : Type := Fat12 | Fat16 | Fat32 (ext : Fat32BpbExt).

Section Fat.
Context `{Build} {W : Type}.

Record FileAllocTable : Type := mkFileAllocTable {
  ft_part : BlockDevice W;
  ft_bpb : BootParamBlock;
  ft_ext32 : option Fat32BpbExt;
  ft_ext12 : Fat12BpbExt
}.
Implicit Types (fs : FileAllocTable) (w : W).

Definition FileAllocTable_new (part : BlockDevice W) w : outcome (option FileAllocTable) :=
  r ← read_block part w 512 0;
  match r with
  | Err _ => Ret None
  | Ok buf =>
      let bpb := read_bpb buf in
      let is_32bit := fat_sz16 bpb =? 0 in
      let offset := size_of_BootParamBlock in
      let '(ext32, offset) :=
        if is_32bit then (Some (read_ext32 buf offset), (offset + size_of_Fat32BpbExt)%nat)
        else (None, offset) in
      Ret (Some (mkFileAllocTable part bpb ext32 (read_ext12 buf offset)))
  end.

Definition fat_sz fs : Z :=
  match ft_ext32 fs with Some ext32 => fat_sz32 ext32 | None => fat_sz16 (ft_bpb fs) end.

(** The sectors of the root directory are counted in [u16] here ... *)
Definition clust_cnt fs : outcome Z :=
  let b := ft_bpb fs in
  let tot_sct := Z.max (tot_sec32 b) (tot_sec16 b) in
  n ← umul 16 (root_ent_cnt b) 32;
  m ← usub 16 (byts_per_sec b) 1;
  t ← uadd 16 n m;
  root_dir_sct ← udiv t (byts_per_sec b);
  f ← umul 32 (num_fats b) (fat_sz fs);
  m ← uadd 32 (rsvd_sec_cnt b) f;
  m ← uadd 32 m root_dir_sct;
  data_sec ← usub 32 tot_sct m;
  udiv data_sec (sec_per_clus b).

Definition fat_type fs : outcome FatType :=
  match ft_ext32 fs with
  | Some ext32 => Ret (Fat32 ext32)
  | None => n ← clust_cnt fs; Ret (if n <=? 4084 then Fat12 else Fat16)
  end.

(** ... and in [usize] here. *)
Definition clust2sct fs (clust : Z) : outcome Z :=
  let b := ft_bpb fs in
  n ← umul 64 (root_ent_cnt b) 32;
  m ← usub 16 (byts_per_sec b) 1;
  t ← uadd 64 n m;
  root_dir_sct ← udiv t (byts_per_sec b);
  f ← umul 64 (num_fats b) (fat_sz fs);
  base ← uadd 64 (rsvd_sec_cnt b) f;
  data_sct_base ← uadd 64 base root_dir_sct;
  c ← usub 32 clust 2;
  d ← umul 64 c (sec_per_clus b);
  uadd 64 data_sct_base d.

Definition end_mark (t : FatType) : Z :=
  match t with Fat12 => 0x0ff8 | Fat16 => 0xfff8 | Fat32 _ => 0x0ffffff8 end.

(** The byte offset of the entry of a cluster in the table. *)
Definition fat_offset (t : FatType) (clust : Z) : outcome Z :=
  match t with
  | Fat12 => h ← ushr 64 clust 1; uadd 64 clust h
  | Fat16 => umul 64 clust 2
  | Fat32 _ => umul 64 clust 4
  end.

(** The entry, out of the bytes of its sector. *)
Definition fat_entry (t : FatType) (clust : Z) (buf : list Z) (ent_off : Z) : outcome Z :=
  match t with
  | Fat12 | Fat16 =>
      raw ← slice buf ent_off 2;
      let raw := le_get raw in
      Ret (match t with
           | Fat12 => if Z.land clust 1 =? 0 then Z.land raw 0x0fff else Z.shiftr raw 4
           | _ => raw
           end)
  | Fat32 _ =>
      raw ← slice buf ent_off 4;
      Ret (Z.land (le_get raw) 0x0fffffff)
  end.

Definition next_clust fs w (clust : Z) : outcome (option Z) :=
  let b := ft_bpb fs in
  t ← fat_type fs;
  fat_off ← fat_offset t clust;
  q ← udiv fat_off (byts_per_sec b);
  fat_sct ← uadd 64 (rsvd_sec_cnt b) q;
  ent_off ← urem fat_off (byts_per_sec b);
  r ← read_block (ft_part fs) w (block_size (ft_part fs)) fat_sct;
  match r with
  | Err _ => Ret None
  | Ok buf =>
      entry ← fat_entry t clust buf ent_off;
      Ret (if end_mark t <=? entry then None else Some entry)
  end.

(** ** Files *)

Record FatFile : Type := mkFatFile {
  fl_dirent : FatDirEnt;
  fl_fs : FileAllocTable;
  fl_hostdev : Z;
  fl_fid : Z
}.
Definition FatFile_new fs (dirent : FatDirEnt) (fid : Z) : FatFile :=
  mkFatFile dirent fs (devid (ft_part fs)) fid.

Definition FatFile_meta (f : FatFile) : FMeta :=
  mkFMeta (fl_fid f) (fl_hostdev f) (de_file_size (fl_dirent f)) (FatDirEnt_ftype (fl_dirent f))
    511 (* 0o777 *) 0xffff 0xffff.

(** The entries of one buffer: the closure [f] has the state [S]; it stops
    the search with a result, a free entry ([0x00]) ends the directory. *)
Inductive scan_end (T : Type) : Type := SFound (t : T) | SStop | SNext.
Arguments SFound {T}.
Arguments SStop {T}.
Arguments SNext {T}.

(** The [i]-th 32-byte record of the buffer. *)
Definition ent_at (buf : list Z) (i : nat) : FatDirEnt := read_dirent (field buf (32 * i) 32).

Definition skipped (e : FatDirEnt) : bool :=
  (le_get (take 1 (de_name e)) =? 0xe5) || (de_attr e =? 0x0f) ||
  negb (Z.land (de_attr e) 0x08 =? 0).
Definition is_end (e : FatDirEnt) : bool := le_get (take 1 (de_name e)) =? 0x00.

Fixpoint scan_ents {S T} (f : S -> FatDirEnt -> Z -> S * option T) (clust : Z) (buf : list Z)
    (n i : nat) (s : S) : S * scan_end T :=
  match n with
  | O => (s, SNext)
  | Datatypes.S n =>
      let ent := ent_at buf i in
      if is_end ent then (s, SStop)
      else if skipped ent then scan_ents f clust buf n (Datatypes.S i) s
      else
        let fid := Z.lor (Z.shiftl clust 32) (Z.of_nat i) in
        let '(s, r) := f s ent fid in
        match r with
        | Some t => (s, SFound t)
        | None => scan_ents f clust buf n (Datatypes.S i) s
        end
  end.

(** The loop of [for_each_ent]. *)
Fixpoint each_clust {S T} (fuel : nat) (file : FatFile) w (is_chained : bool)
    (f : S -> FatDirEnt -> Z -> S * option T) (clust : Z) (s : S)
    : outcome (S * result string (option T)) :=
  match fuel with
  | O => NoFuel
  | Datatypes.S fuel =>
      let fs := fl_fs file in
      let b := ft_bpb fs in
      sct ← (if is_chained then clust2sct fs clust
             else n ← umul 64 (num_fats b) (fat_sz fs); uadd 64 (rsvd_sec_cnt b) n);
      buf_size ← (if is_chained then umul 64 (byts_per_sec b) (sec_per_clus b)
                  else umul 64 (root_ent_cnt b) size_of_FatDirEnt);
      r ← read_block (ft_part fs) w buf_size sct;
      match r with
      | Err e => Ret (s, Err ("FAT32 read error: " +:+ e))
      | Ok buf =>
          let ent_cnt := (length buf / 32)%nat in
          match scan_ents f clust buf ent_cnt 0 s with
          | (s, SFound t) => Ret (s, Ok (Some t))
          | (s, SStop) => Ret (s, Ok None)
          | (s, SNext) =>
              if negb is_chained then Ret (s, Ok None) else
              nc ← next_clust fs w clust;
              match nc with
              | Some nc => each_clust fuel file w is_chained f nc s
              | None => Ret (s, Ok None)
              end
          end
      end
  end.

Definition for_each_ent {S T} (fuel : nat) (file : FatFile) w
    (f : S -> FatDirEnt -> Z -> S * option T) (s : S)
    : outcome (S * result string (option T)) :=
  if bool_decide (FatDirEnt_ftype (fl_dirent file) ≠ Directory)
  then Ret (s, Err "This is not a directory") else
  let clust := first_clust (fl_dirent file) in
  each_clust fuel file w (negb (clust =? 0)) f clust s.

(** [list]: the closure collects the names. *)
Definition list_step (names : list (list Z)) (e : FatDirEnt) (fid : Z)
    : list (list Z) * option unit :=
  match FatDirEnt_filename e with
  | Some name => (names ++ [name], None)
  | None => (names, None)
  end.
Definition FatFile_list (fuel : nat) (file : FatFile) w : outcome (result string (list (list Z))) :=
  '(names, r) ← for_each_ent fuel file w list_step [];
  Ret (match r with Ok _ => Ok names | Err e => Err e end).

(** [walk]: the first entry whose name matches. *)
Definition walk_step fs (name : list Z) (_ : unit) (e : FatDirEnt) (fid : Z)
    : unit * option FatFile :=
  match FatDirEnt_filename e with
  | Some fname =>
      if eq_ignore_ascii_case fname name then ((), Some (FatFile_new fs e fid)) else ((), None)
  | None => ((), None)
  end.
Definition FatFile_walk (fuel : nat) (file : FatFile) w (name : list Z)
    : outcome (result string FatFile) :=
  '(_, r) ← for_each_ent fuel file w (walk_step (fl_fs file) name) ();
  Ret (match r with
       | Ok (Some f) => Ok f
       | Ok None => Err "File not found"
       | Err e => Err e
       end).

(** The first loop of [read]: skip whole clusters. *)
Fixpoint skip_clust (fuel : nat) fs w (clust_size skip_rem clust : Z)
    : outcome (option (Z * Z)) :=
  match fuel with
  | O => NoFuel
  | Datatypes.S fuel =>
      if clust_size <=? skip_rem then
        skip_rem ← usub 64 skip_rem clust_size;
        nc ← next_clust fs w clust;
        match nc with
        | Some nc => skip_clust fuel fs w clust_size skip_rem nc
        | None => Ret None
        end
      else Ret (Some (skip_rem, clust))
  end.

(** The second loop: copy cluster by cluster into the buffer. *)
Fixpoint copy_clust (fuel : nat) fs w (clust_size skip_rem bytes_rem clust : Z) (buf : list Z)
    : outcome (result string (list Z)) :=
  match fuel with
  | O => NoFuel
  | Datatypes.S fuel =>
      if 0 <? bytes_rem then
        sct ← clust2sct fs clust;
        r ← read_block (ft_part fs) w clust_size sct;
        match r with
        | Err e => Ret (Err ("FAT32 read error: " +:+ e))
        | Ok clust_buf =>
            d ← usub 64 clust_size skip_rem;
            let read_size := Z.min bytes_rem d in
            read_start ← usub 64 (Z.of_nat (length buf)) bytes_rem;
            src ← slice clust_buf skip_rem read_size;
            buf ← splice buf read_start src;
            bytes_rem ← usub 64 bytes_rem read_size;
            nc ← next_clust fs w clust;
            match nc with
            | Some nc => copy_clust fuel fs w clust_size 0 bytes_rem nc buf
            | None => Ret (Ok buf)
            end
        end
      else Ret (Ok buf)
  end.

Definition FatFile_read (fuel : nat) (file : FatFile) w (buf : list Z) (offset : Z)
    : outcome (result string (list Z)) :=
  if bool_decide (FatDirEnt_ftype (fl_dirent file) ≠ Regular)
  then Ret (Err "This file is not IOable") else
  let b := ft_bpb (fl_fs file) in
  clust_size ← umul 64 (byts_per_sec b) (sec_per_clus b);
  r ← skip_clust fuel (fl_fs file) w clust_size offset (first_clust (fl_dirent file));
  match r with
  | None => Ret (Ok buf)
  | Some (skip_rem, clust) =>
      copy_clust fuel (fl_fs file) w clust_size skip_rem (Z.of_nat (length buf)) clust buf
  end.

(** [root]: a directory entry for the root is made up. *)
Definition root_dirent (clust : Z) : FatDirEnt :=
  mkFatDirEnt [0x2f; 0x20; 0x20; 0x20; 0x20; 0x20; 0x20; 0x20] [0x20; 0x20; 0x20] 0x10
    (ucast 16 (Z.shiftr clust 16)) (ucast 16 (Z.land clust 0xffff)) 0.
Definition FileAllocTable_root fs : outcome FatFile :=
  t ← fat_type fs;
  let clust := match t with Fat32 ext32 => root_clus ext32 | _ => 0 end in
  Ret (FatFile_new fs (root_dirent clust) 0).
End Fat.
Arguments SFound {T}.
Arguments SStop {T}.
Arguments SNext {T}.
