(* ===== verification/FatThms.v ===== *)
(** * FatThms: following chains of clusters

    The table as an array of 12, 16 or 28 bit entries, the data of a file as
    the concatenation of its clusters, a directory as the list of its visible
    entries. *)

From S2P Require Import Prelude RvmFacts Bytes Block BlockThms Fat.

Section Chains.
Context `{Build} {W : Type}.
Implicit Types (fs : FileAllocTable (W := W)) (w : W).

(** The fields of the boot block are unsigned integers of their width. *)
Record bpb_ok fs : Prop := {
  bo_bps : 0 < byts_per_sec (ft_bpb fs) < 2 ^ 16;
  bo_spc : 0 < sec_per_clus (ft_bpb fs) < 2 ^ 8;
  bo_rsvd : 0 <= rsvd_sec_cnt (ft_bpb fs) < 2 ^ 16;
  bo_fats : 0 <= num_fats (ft_bpb fs) < 2 ^ 8;
  bo_root : 0 <= root_ent_cnt (ft_bpb fs) < 2 ^ 16;
  bo_fatsz : 0 <= fat_sz fs < 2 ^ 32
}.

Definition clust_size fs : Z := byts_per_sec (ft_bpb fs) * sec_per_clus (ft_bpb fs).

Lemma clust_size_ok fs : bpb_ok fs ->
  umul 64 (byts_per_sec (ft_bpb fs)) (sec_per_clus (ft_bpb fs)) = Ret (clust_size fs) /\
  0 < clust_size fs < 2 ^ 24.
Proof.
  intros [Hb Hs _ _ _ _]. unfold clust_size.
  assert (0 < byts_per_sec (ft_bpb fs) * sec_per_clus (ft_bpb fs) < 2 ^ 16 * 2 ^ 8) as Hc by nia.
  split; [apply umul_ok; lia|lia].
Qed.

(** The first sector of the data area. *)
Definition data_base fs : Z :=
  let b := ft_bpb fs in
  rsvd_sec_cnt b + num_fats b * fat_sz fs +
  (root_ent_cnt b * 32 + (byts_per_sec b - 1)) / byts_per_sec b.

Lemma clust2sct_ok fs c :
  bpb_ok fs -> 2 <= c < 2 ^ 32 ->
  clust2sct fs c = Ret (data_base fs + (c - 2) * sec_per_clus (ft_bpb fs)).
Proof.
  intros [Hb Hs Hr Hf Hro Hz] Hc. unfold clust2sct, data_base.
  assert (0 <= num_fats (ft_bpb fs) * fat_sz fs < 2 ^ 8 * 2 ^ 32) as Hm by nia.
  assert (0 <= (root_ent_cnt (ft_bpb fs) * 32 + (byts_per_sec (ft_bpb fs) - 1)) /
    byts_per_sec (ft_bpb fs) < 2 ^ 22) as Hd
    by (split; [apply Z.div_pos; lia|apply Z.div_lt_upper_bound; nia]).
  assert (0 <= (c - 2) * sec_per_clus (ft_bpb fs) < 2 ^ 32 * 2 ^ 8) as Hcs by nia.
  rewrite (umul_ok 64 (root_ent_cnt _)), Ret_bind by lia. rewrite (usub_ok 16), Ret_bind by lia.
  rewrite uadd_ok, Ret_bind by lia. rewrite udiv_ok, Ret_bind by lia.
  rewrite (umul_ok 64 (num_fats _)), Ret_bind by lia. rewrite (uadd_ok 64 (rsvd_sec_cnt _)), Ret_bind by lia.
  rewrite uadd_ok, Ret_bind by lia. rewrite (usub_ok 32), Ret_bind by lia.
  rewrite umul_ok, Ret_bind by lia. by rewrite uadd_ok by lia.
Qed.

(** the sectors of different clusters do not overlap, and every cluster
    lies behind the reserved sectors, the tables and the root directory. *)
Theorem clusters_disjoint fs c c' :
  bpb_ok fs -> 2 <= c < c' -> c' < 2 ^ 32 ->
  exists s s', clust2sct fs c = Ret s /\ clust2sct fs c' = Ret s' /\
    s + sec_per_clus (ft_bpb fs) <= s' /\
    rsvd_sec_cnt (ft_bpb fs) + num_fats (ft_bpb fs) * fat_sz fs <= s /\
    root_ent_cnt (ft_bpb fs) * 32 <=
      (s - (rsvd_sec_cnt (ft_bpb fs) + num_fats (ft_bpb fs) * fat_sz fs)) * byts_per_sec (ft_bpb fs).
Proof.
  intros Hok Hc Hc'. eexists _, _.
  split; [apply clust2sct_ok; [done|lia]|]. split; [apply clust2sct_ok; [done|lia]|].
  destruct Hok as [Hb Hs Hr Hf Hro Hz]. unfold data_base.
  set (b := byts_per_sec (ft_bpb fs)) in *. set (n := root_ent_cnt (ft_bpb fs) * 32 + (b - 1)).
  pose proof (Z.div_mod n b ltac:(lia)) as Hd. pose proof (Z.mod_pos_bound n b ltac:(lia)) as Hm.
  assert (0 <= n / b) by (apply Z.div_pos; unfold n; lia). unfold n in *.
  split_and!; [nia|nia|]. clear Hf Hz.
  set (k := (root_ent_cnt (ft_bpb fs) * 32 + (b - 1)) / b) in *.
  assert (0 <= (c - 2) * sec_per_clus (ft_bpb fs)) as Hcs by nia.
  set (e := (c - 2) * sec_per_clus (ft_bpb fs)) in *. nia.
Qed.

(** ** The chain of a file *)

Inductive chain fs w : Z -> list Z -> Prop :=
  | chain_last c : next_clust fs w c = Ret None -> chain fs w c [c]
  | chain_next c c' cs : next_clust fs w c = Ret (Some c') -> chain fs w c' cs ->
      chain fs w c (c :: cs).

(** The cluster [c] holds the bytes [d]. *)
Definition holds fs w (c : Z) (d : list Z) : Prop :=
  exists s, clust2sct fs c = Ret s /\
    read_block (ft_part fs) w (clust_size fs) s = Ret (Ok d) /\
    Z.of_nat (length d) = clust_size fs.

(** What the copying loop leaves in the buffer. *)
Lemma copy_clust_spec fs w fuel skip rem c cs ds buf :
  bpb_ok fs -> chain fs w c cs -> Forall2 (holds fs w) cs ds -> (length cs < fuel)%nat ->
  0 <= skip < clust_size fs -> 0 <= rem <= Z.of_nat (length buf) -> Z.of_nat (length buf) < 2 ^ 63 ->
  copy_clust fuel fs w (clust_size fs) skip rem c buf =
    Ret (Ok (patch buf (Z.to_nat (Z.of_nat (length buf) - rem))
               (take (Z.to_nat rem) (drop (Z.to_nat skip) (concat ds))))).
Proof.
  intros Hok Hch. revert fuel skip rem ds buf.
  pose proof (clust_size_ok fs Hok) as [_ Hcs].
  assert (forall buf : list Z, patch buf (length buf) [] = buf) as Hnil.
  { intros buf. unfold patch. rewrite firstn_all. simpl. rewrite Nat.add_0_r, drop_all.
    by rewrite app_nil_r. }
  induction Hch as [c Hn|c c' cs Hn Hch IH]; intros fuel skip rem ds buf Hds Hfuel Hsk Hrem Hlen;
    (destruct fuel as [|fuel]; [simpl in Hfuel; lia|]); cbn [copy_clust].
  all: destruct (Z.ltb_spec 0 rem);
    [|assert (rem = 0) as -> by lia; rewrite Z.sub_0_r, Nat2Z.id; simpl; by rewrite Hnil].
  all: apply Forall2_cons_inv_l in Hds as (d & ds' & (s & Hs & Hr & Hd) & Hds & ->).
  all: rewrite Hs, Ret_bind, Hr, Ret_bind, (usub_ok 64 (clust_size fs) skip), Ret_bind by lia.
  all: rewrite (usub_ok 64 (Z.of_nat _) rem), Ret_bind by lia.
  all: set (n := Z.min rem (clust_size fs - skip)).
  all: rewrite slice_ok, Ret_bind by lia.
  all: set (src := take (Z.to_nat n) (drop (Z.to_nat skip) d)).
  all: assert (Z.of_nat (length src) = n) as Hsrc
    by (unfold src; rewrite length_take, length_drop; lia).
  all: rewrite splice_ok, Ret_bind by lia.
  all: rewrite usub_ok, Ret_bind by lia; rewrite Hn, Ret_bind.
  - apply Forall2_nil_inv_l in Hds as ->. cbn [concat]. rewrite app_nil_r. do 3 f_equal.
    unfold src. apply list_eq. intros k. rewrite !lookup_sub.
    repeat case_decide; try done; [lia|symmetry; apply lookup_ge_None_2; lia].
  - set (buf' := patch buf _ src).
    assert (length buf' = length buf) as Hl' by (apply patch_length; lia).
    rewrite (IH fuel 0 (rem - n) ds' buf'); [|done|simpl in Hfuel; lia|lia|lia|lia].
    do 2 f_equal. rewrite Hl'. cbn [concat]. change (Z.to_nat 0) with 0%nat. rewrite drop_0.
    set (all := take (Z.to_nat rem) (drop (Z.to_nat skip) (d ++ concat ds'))).
    assert (all = src ++ take (Z.to_nat (rem - n)) (concat ds')) as ->.
    { unfold all, src. rewrite drop_app_le by lia. rewrite take_app, length_drop.
      destruct (Z.leb_spec rem (clust_size fs - skip)) as [Hle|Hgt].
      - replace n with rem by (unfold n; lia). rewrite Z.sub_diag.
        replace (Z.to_nat rem - (length d - Z.to_nat skip))%nat with 0%nat by lia. done.
      - replace n with (clust_size fs - skip) by (unfold n; lia). f_equal.
        + rewrite !take_ge by (rewrite length_drop; lia). done.
        + f_equal. lia. }
    set (tl := take (Z.to_nat (rem - n)) (concat ds')).
    assert (length tl <= Z.to_nat (rem - n))%nat as Htl by (unfold tl; rewrite length_take; lia).
    apply list_eq. intros k. unfold buf'.
    rewrite !lookup_patch by (rewrite ?length_app, ?patch_length; lia). rewrite length_app.
    repeat case_decide; try lia; try done.
    + rewrite lookup_app_r by lia. f_equal. lia.
    + rewrite lookup_app_l by lia. done.
Qed.

Lemma skip_clust_spec fs w fuel off c cs :
  bpb_ok fs -> chain fs w c cs -> (length cs < fuel)%nat -> 0 <= off < 2 ^ 64 ->
  match drop (Z.to_nat (off / clust_size fs)) cs with
  | c' :: cs' => skip_clust fuel fs w (clust_size fs) off c = Ret (Some (off mod clust_size fs, c')) /\
                 chain fs w c' (c' :: cs')
  | [] => skip_clust fuel fs w (clust_size fs) off c = Ret None
  end.
Proof.
  intros Hok Hch. pose proof (clust_size_ok fs Hok) as [_ Hcs]. revert fuel off.
  induction Hch as [c Hn|c c' cs Hn Hch IH]; intros fuel off Hfuel Hoff;
    (destruct fuel as [|fuel]; [simpl in Hfuel; lia|]); cbn [skip_clust];
    destruct (Z.leb_spec (clust_size fs) off) as [Hle|Hlt].
  - assert (1 <= off / clust_size fs) by (apply Z.div_le_lower_bound; lia).
    rewrite drop_ge by (simpl; lia). rewrite usub_ok, Ret_bind by lia. by rewrite Hn.
  - rewrite Z.div_small, Z.mod_small by lia. split; [done|]. by constructor.
  - assert (1 <= off / clust_size fs) by (apply Z.div_le_lower_bound; lia).
    rewrite usub_ok, Ret_bind by lia. rewrite Hn, Ret_bind.
    specialize (IH fuel (off - clust_size fs) ltac:(simpl in Hfuel; lia) ltac:(lia)).
    assert ((off - clust_size fs) / clust_size fs = off / clust_size fs + -1) as Hdiv
      by (rewrite <- Z.div_add by lia; f_equal; lia).
    assert ((off - clust_size fs) mod clust_size fs = off mod clust_size fs) as Hmod
      by (rewrite <- (Z.mod_add off (-1)) by lia; f_equal; lia).
    rewrite Hdiv, Hmod in IH.
    replace (Z.to_nat (off / clust_size fs)) with (S (Z.to_nat (off / clust_size fs + -1))) by lia.
    cbn [drop]. exact IH.
  - rewrite Z.div_small, Z.mod_small by lia. split; [done|]. by apply chain_next with c'.
Qed.

Lemma holds_length fs w cs ds :
  Forall2 (holds fs w) cs ds -> Forall (fun d => Z.of_nat (length d) = clust_size fs) ds.
Proof. induction 1 as [|c d cs ds (s & _ & _ & Hd) _ IH]; by constructor. Qed.

Lemma concat_drop fs (ds : list (list Z)) k :
  Forall (fun d => Z.of_nat (length d) = clust_size fs) ds ->
  concat (drop k ds) = drop (k * Z.to_nat (clust_size fs)) (concat ds).
Proof.
  intros Hds. revert k. induction Hds as [|d ds Hd Hds IH]; intros k.
  - destruct k; simpl; by rewrite ?drop_nil.
  - destruct k as [|k]; [by rewrite !drop_0|]. cbn [drop concat]. rewrite IH.
    rewrite drop_app, (drop_ge d) by lia. simpl. f_equal. lia.
Qed.

(** C7: reading a file is reading the concatenation of the clusters of its
    chain: the buffer is filled with those bytes from the offset on, as far
    as they go, and the rest of it is left alone.  The loops end when the
    chain does. *)
Theorem fat_read_spec (file : FatFile (W := W)) w fuel cs ds buf offset :
  bpb_ok (fl_fs file) -> FatDirEnt_ftype (fl_dirent file) = Regular ->
  chain (fl_fs file) w (first_clust (fl_dirent file)) cs ->
  Forall2 (holds (fl_fs file) w) cs ds -> (length cs < fuel)%nat ->
  0 <= offset < 2 ^ 64 -> Z.of_nat (length buf) < 2 ^ 63 ->
  FatFile_read fuel file w buf offset =
    Ret (Ok (patch buf 0 (take (length buf) (drop (Z.to_nat offset) (concat ds))))).
Proof.
  intros Hok Hty Hch Hds Hfuel Hoff Hlen. unfold FatFile_read.
  rewrite bool_decide_false by (intros Hc; by apply Hc).
  destruct (clust_size_ok (fl_fs file) Hok) as [-> Hcs]. rewrite Ret_bind.
  pose proof (skip_clust_spec (fl_fs file) w fuel offset _ cs Hok Hch Hfuel Hoff) as Hskip.
  pose proof (holds_length _ _ _ _ Hds) as Hdl.
  set (sz := clust_size (fl_fs file)) in *. set (k := Z.to_nat (offset / sz)) in *.
  assert (Z.to_nat offset = (k * Z.to_nat sz + Z.to_nat (offset mod sz))%nat) as Hsplit.
  { pose proof (Z.div_mod offset sz ltac:(lia)). pose proof (Z.mod_pos_bound offset sz ltac:(lia)).
    assert (0 <= offset / sz) by (apply Z.div_pos; lia). unfold k.
    rewrite <- Z2Nat.inj_mul, <- Z2Nat.inj_add by lia. f_equal. lia. }
  rewrite Hsplit, <- drop_drop, <- (concat_drop (fl_fs file)) by done.
  pose proof (Forall2_drop _ _ _ k Hds) as Hds'.
  destruct (drop k cs) as [|c' cs'] eqn:Hk.
  - rewrite Hskip, Ret_bind. apply Forall2_nil_inv_l in Hds' as ->. simpl. rewrite drop_nil, take_nil.
    unfold patch. simpl. by rewrite drop_0.
  - destruct Hskip as [-> Hch']. rewrite Ret_bind.
    pose proof (Z.mod_pos_bound offset sz ltac:(lia)) as Hm.
    unfold sz. erewrite copy_clust_spec; [|done|exact Hch'|exact Hds'| |exact Hm|lia|done].
    + rewrite Z.sub_diag, Nat2Z.id. done.
    + rewrite <- Hk, length_drop. lia.
Qed.
End Chains.
