(* ===== verification/FatDir.v ===== *)
(** * FatDir: directories, and the entries of the table

    A directory is the list of its visible entries up to the end mark;
    [for_each_ent] is a fold over that list, [list] and [walk] are what one
    expects of it.  The table is one little-endian integer, an entry is a bit
    field of it. *)

From S2P Require Import Prelude RvmFacts Bytes Block BlockThms Fat FatThms.

(** ** The entries of a directory *)

(** The records of one buffer, with their identifiers. *)
Definition rec_at (clust : Z) (buf : list Z) (i : nat) : FatDirEnt * Z :=
  (ent_at buf i, Z.lor (Z.shiftl clust 32) (Z.of_nat i)).
Definition buf_recs (clust : Z) (buf : list Z) : list (FatDirEnt * Z) :=
  rec_at clust buf <$> seq 0 (length buf / 32).

Fixpoint visible (l : list (FatDirEnt * Z)) : list (FatDirEnt * Z) :=
  match l with
  | [] => []
  | p :: l => if is_end p.1 then [] else if skipped p.1 then visible l else p :: visible l
  end.

Definition has_end (l : list (FatDirEnt * Z)) : bool := existsb (fun p => is_end p.1) l.

Lemma visible_app l1 l2 :
  visible (l1 ++ l2) = if has_end l1 then visible l1 else visible l1 ++ visible l2.
Proof.
  induction l1 as [|p l1 IH]; [done|]. cbn [app visible has_end existsb].
  destruct (is_end p.1); [done|]. fold (has_end l1). rewrite IH.
  destruct (skipped p.1); [done|]. by destruct (has_end l1).
Qed.

(** The fold with an early exit that the closure argument stands for. *)
Fixpoint run {S T} (f : S -> FatDirEnt -> Z -> S * option T) (s : S)
    (l : list (FatDirEnt * Z)) : S * option T :=
  match l with
  | [] => (s, None)
  | p :: l => match f s p.1 p.2 with (s, Some t) => (s, Some t) | (s, None) => run f s l end
  end.

Lemma run_app {S T} (f : S -> FatDirEnt -> Z -> S * option T) s l1 l2 :
  run f s (l1 ++ l2) = match run f s l1 with (s, Some t) => (s, Some t) | (s, None) => run f s l2 end.
Proof.
  revert s. induction l1 as [|p l1 IH]; intros s; [done|]. cbn [app run].
  destruct (f s p.1 p.2) as [s' [t|]]; [done|apply IH].
Qed.

Lemma scan_ents_run {S T} (f : S -> FatDirEnt -> Z -> S * option T) clust buf n i s :
  scan_ents f clust buf n i s =
    let l := rec_at clust buf <$> seq i n in
    match run f s (visible l) with
    | (s, Some t) => (s, SFound t)
    | (s, None) => (s, if has_end l then SStop else SNext)
    end.
Proof.
  revert i s. induction n as [|n IH]; intros i s; [done|]. cbn [scan_ents seq fmap list_fmap].
  cbn zeta. cbn [visible has_end existsb]. cbn [rec_at fst snd].
  destruct (is_end (ent_at buf i)); [reflexivity|]. destruct (skipped (ent_at buf i)).
  - rewrite IH. done.
  - cbn [run rec_at fst snd]. destruct (f s (ent_at buf i) _) as [s' [t|]]; [done|]. apply IH.
Qed.

Section Directories.
Context `{Build} {W : Type}.
Implicit Types (fs : FileAllocTable (W := W)) (file : FatFile (W := W)) (w : W).

(** The buffers of a directory: those of the chain of its clusters, or the
    fixed root directory of FAT12 and FAT16 (cluster 0). *)
Definition dir_bufs fs w (c : Z) (bufs : list (Z * list Z)) : Prop :=
  if c =? 0 then
    exists buf, bufs = [(0, buf)] /\
      read_block (ft_part fs) w (root_ent_cnt (ft_bpb fs) * 32)
        (rsvd_sec_cnt (ft_bpb fs) + num_fats (ft_bpb fs) * fat_sz fs) = Ret (Ok buf)
  else chain fs w c bufs.*1 /\ Forall (fun p => holds fs w p.1 p.2) bufs.

Definition dir_ents (bufs : list (Z * list Z)) : list (FatDirEnt * Z) :=
  visible (concat ((fun p => buf_recs p.1 p.2) <$> bufs)).

Lemma each_chained {S T} fuel file w (f : S -> FatDirEnt -> Z -> S * option T) c bufs s :
  bpb_ok (fl_fs file) -> chain (fl_fs file) w c bufs.*1 ->
  Forall (fun p => holds (fl_fs file) w p.1 p.2) bufs -> (length bufs < fuel)%nat ->
  each_clust fuel file w true f c s =
    let '(s, r) := run f s (dir_ents bufs) in Ret (s, Ok r).
Proof.
  intros Hok. revert fuel c s. induction bufs as [|[c0 d] bufs IH]; intros fuel c s Hch Hh Hfuel.
  { inversion Hch. }
  destruct fuel as [|fuel]; [simpl in Hfuel; lia|]. cbn [each_clust].
  apply Forall_cons in Hh as [(sec & Hs & Hr & _) Hh].
  assert (c0 = c) as -> by (by inversion Hch). cbn [fst snd] in Hs, Hr.
  rewrite Hs, Ret_bind. rewrite (proj1 (clust_size_ok _ Hok)), Ret_bind. rewrite Hr, Ret_bind.
  rewrite scan_ents_run. fold (buf_recs c d). cbn zeta.
  unfold dir_ents. cbn [fmap list_fmap concat fst snd]. rewrite visible_app.
  destruct (has_end (buf_recs c d)) eqn:He.
  { by destruct (run f s (visible (buf_recs c d))) as [s' [t|]]. }
  rewrite run_app. destruct (run f s (visible (buf_recs c d))) as [s' [t|]]; [done|].
  cbn [negb]. inversion Hch as [c1 Hn Hc1 Hnil|c1 c2 cs Hn Hch' Hc1 Hcs].
  - rewrite Hn, Ret_bind. symmetry in Hnil. apply fmap_nil_inv in Hnil as ->. done.
  - rewrite Hn, Ret_bind. rewrite (IH fuel c2 s'); [done|done|done|simpl in Hfuel; lia].
Qed.

(** The walk over a directory is a fold over its visible entries. *)
Lemma each_ent_run {S T} fuel file w (f : S -> FatDirEnt -> Z -> S * option T) bufs s :
  bpb_ok (fl_fs file) -> FatDirEnt_ftype (fl_dirent file) = Directory ->
  dir_bufs (fl_fs file) w (first_clust (fl_dirent file)) bufs -> (length bufs < fuel)%nat ->
  for_each_ent fuel file w f s = let '(s, r) := run f s (dir_ents bufs) in Ret (s, Ok r).
Proof.
  intros Hok Hty Hb Hfuel. unfold for_each_ent, dir_bufs in *.
  rewrite bool_decide_false by (intros Hc; by apply Hc).
  destruct (Z.eqb_spec (first_clust (fl_dirent file)) 0) as [Hz|Hz]; cbn [negb].
  - destruct Hb as (buf & -> & Hr). destruct fuel as [|fuel]; [simpl in Hfuel; lia|].
    cbn [each_clust]. destruct Hok as [Hb Hs Hrs Hf Hro Hsz].
    assert (0 <= num_fats (ft_bpb (fl_fs file)) * fat_sz (fl_fs file) < 2 ^ 8 * 2 ^ 32) by nia.
    rewrite (umul_ok 64 (num_fats _)), Ret_bind by lia. rewrite uadd_ok, Ret_bind by lia.
    unfold size_of_FatDirEnt. rewrite umul_ok, Ret_bind by lia. rewrite Hr, Ret_bind.
    rewrite scan_ents_run. rewrite Hz. fold (buf_recs 0 buf). cbn zeta.
    unfold dir_ents. cbn [fmap list_fmap concat fst snd]. rewrite app_nil_r.
    destruct (run f s (visible (buf_recs 0 buf))) as [s' [t|]]; [done|].
    by destruct (has_end (buf_recs 0 buf)).
  - destruct Hb as [Hch Hh]. by apply each_chained.
Qed.

(** The names of the directory: entries whose bytes are not text have none. *)
Definition names (l : list (FatDirEnt * Z)) : list (list Z) :=
  omap (fun p => FatDirEnt_filename p.1) l.

Lemma run_list l acc : run list_step acc l = (acc ++ names l, None).
Proof.
  revert acc. induction l as [|p l IH]; intros acc; [by rewrite app_nil_r|].
  cbn [run]. unfold list_step at 1. unfold names. cbn [omap list_omap].
  destruct (FatDirEnt_filename p.1) as [n|]; rewrite IH; [|done]. by rewrite <- app_assoc.
Qed.

(** listing a directory returns the names of its visible entries in
    order, up to the first free entry; deleted entries, long-name records
    and volume labels do not appear, nor do the records behind the end. *)
Theorem fat_list_spec fuel file w bufs :
  bpb_ok (fl_fs file) -> FatDirEnt_ftype (fl_dirent file) = Directory ->
  dir_bufs (fl_fs file) w (first_clust (fl_dirent file)) bufs -> (length bufs < fuel)%nat ->
  FatFile_list fuel file w = Ret (Ok (names (dir_ents bufs))).
Proof.
  intros Hok Hty Hb Hf. unfold FatFile_list. rewrite (each_ent_run _ _ _ _ bufs) by done.
  rewrite run_list. by rewrite Ret_bind.
Qed.

(** An entry has the name, ignoring the case of ASCII letters. *)
Definition named (name : list Z) (p : FatDirEnt * Z) : bool :=
  match FatDirEnt_filename p.1 with
  | Some n => eq_ignore_ascii_case n name
  | None => false
  end.

Lemma run_walk fs name l :
  run (walk_step fs name) () l =
    ((), (fun p => FatFile_new fs p.1 p.2) <$> List.find (named name) l).
Proof.
  induction l as [|p l IH]; [done|]. cbn [List.find run]. unfold walk_step at 1. unfold named at 1.
  destruct (FatDirEnt_filename p.1) as [n|]; [|exact IH].
  by destruct (eq_ignore_ascii_case n name).
Qed.

Lemma find_named name l :
  match List.find (named name) l with
  | Some p => exists pre post n, l = pre ++ p :: post /\ FatDirEnt_filename p.1 = Some n /\
      eq_ignore_ascii_case n name = true /\
      Forall (fun m => eq_ignore_ascii_case m name = false) (names pre)
  | None => Forall (fun m => eq_ignore_ascii_case m name = false) (names l)
  end.
Proof.
  induction l as [|p l IH]; [constructor|]. cbn [List.find]. unfold named at 1, names at 2.
  cbn [omap list_omap]. destruct (FatDirEnt_filename p.1) as [n|] eqn:Hn.
  - destruct (eq_ignore_ascii_case n name) eqn:He.
    + exists [], l, n. split_and!; done.
    + destruct (List.find (named name) l) as [q|].
      * destruct IH as (pre & post & m & -> & ? & ? & Hpre). exists (p :: pre), post, m.
        split_and!; try done. unfold names. cbn [omap list_omap]. rewrite Hn. by constructor.
      * by constructor.
  - destruct (List.find (named name) l) as [q|]; [|exact IH].
    destruct IH as (pre & post & m & -> & ? & ? & Hpre). exists (p :: pre), post, m.
    split_and!; try done. unfold names. cbn [omap list_omap]. by rewrite Hn.
Qed.

(** C37: looking a name up in a directory gives the file of the first visible
    entry that has the name, ignoring case; "File not found" is returned
    exactly when none of the names that [list] returns matches. *)
Theorem fat_walk_spec fuel file w bufs name :
  bpb_ok (fl_fs file) -> FatDirEnt_ftype (fl_dirent file) = Directory ->
  dir_bufs (fl_fs file) w (first_clust (fl_dirent file)) bufs -> (length bufs < fuel)%nat ->
  (exists pre e fid post n, dir_ents bufs = pre ++ (e, fid) :: post /\
     FatDirEnt_filename e = Some n /\ eq_ignore_ascii_case n name = true /\
     Forall (fun m => eq_ignore_ascii_case m name = false) (names pre) /\
     FatFile_walk fuel file w name = Ret (Ok (FatFile_new (fl_fs file) e fid))) \/
  (Forall (fun m => eq_ignore_ascii_case m name = false) (names (dir_ents bufs)) /\
   FatFile_walk fuel file w name = Ret (Err "File not found")).
Proof.
  intros Hok Hty Hb Hf. unfold FatFile_walk. rewrite (each_ent_run _ _ _ _ bufs) by done.
  rewrite run_walk. pose proof (find_named name (dir_ents bufs)) as Hfind.
  destruct (List.find (named name) (dir_ents bufs)) as [[e fid]|]; [left|by right].
  destruct Hfind as (pre & post & n & -> & Hn & He & Hpre). by exists pre, e, fid, post, n.
Qed.
End Directories.

(** ** The entries of the table *)

Section Table.
Context `{Build} {W : Type}.
Implicit Types (fs : FileAllocTable (W := W)) (w : W).
Abbreviation bps fs := (byts_per_sec (ft_bpb fs)).

(** The width of an entry, and the table of the volume as one integer. *)
Definition ent_bits (t : FatType) : Z := match t with Fat12 => 12 | Fat16 => 16 | Fat32 _ => 32 end.
Definition ent_mask (t : FatType) : Z := match t with Fat12 => 12 | Fat16 => 16 | Fat32 _ => 28 end.
Definition table (d : list Z) fs : Z :=
  le_get (drop (Z.to_nat (rsvd_sec_cnt (ft_bpb fs) * bps fs)) d).
Definition table_entry (d : list Z) fs (t : FatType) (c : Z) : Z :=
  (table d fs / 2 ^ (ent_bits t * c)) mod 2 ^ ent_mask t.

(** The bytes that the code reads for the entry of [c]. *)
Definition ent_first (t : FatType) (c : Z) : Z := ent_bits t * c / 8.
Definition ent_bytes (t : FatType) : Z := match t with Fat32 _ => 4 | _ => 2 end.

Lemma fat_offset_ok t c : 0 <= c < 2 ^ 32 -> fat_offset t c = Ret (ent_first t c).
Proof.
  intros Hc. unfold fat_offset, ent_first. destruct t; simpl.
  - rewrite ushr_ok, Ret_bind by lia. change (2 ^ 1) with 2.
    assert (0 <= c / 2 <= c) by (split; [apply Z.div_pos; lia|apply Z.div_le_upper_bound; lia]).
    rewrite uadd_ok by lia. f_equal.
    replace (12 * c) with (c * 3 * 4) by lia. rewrite (Z.div_mul_cancel_r _ 2 4) by lia.
    replace (c * 3) with (c + c * 2) by lia. rewrite Z.div_add by lia. lia.
  - rewrite umul_ok by lia. f_equal. replace (16 * c) with (c * 2 * 8) by lia. by rewrite Z.div_mul.
  - rewrite umul_ok by lia. f_equal. replace (32 * c) with (c * 4 * 8) by lia. by rewrite Z.div_mul.
Qed.

Lemma mod_shift x a b k :
  0 <= a -> 0 <= b -> 0 <= k <= a -> (x / 2 ^ b) mod 2 ^ a / 2 ^ k = (x / 2 ^ (b + k)) mod 2 ^ (a - k).
Proof.
  intros Ha Hb Hk. rewrite <- !Z.shiftr_div_pow2, <- !Z.land_ones by lia.
  apply Z.bits_inj'. intros n Hn.
  rewrite Z.shiftr_spec, !Z.land_spec, !Z.shiftr_spec, !Z.testbit_ones by lia.
  replace (n + k + b) with (n + (b + k)) by lia. f_equal.
  destruct (Z.leb_spec 0 (n + k)), (Z.ltb_spec (n + k) a), (Z.leb_spec 0 n), (Z.ltb_spec n (a - k));
    done || lia.
Qed.

Lemma mod_low x a b : 0 <= b <= a -> (x mod 2 ^ a) mod 2 ^ b = x mod 2 ^ b.
Proof.
  intros Hb. replace (2 ^ a) with (2 ^ b * 2 ^ (a - b)) by (rewrite <- Z.pow_add_r by lia; f_equal; lia).
  assert (0 < 2 ^ b) by (apply Z.pow_pos_nonneg; lia).
  assert (0 < 2 ^ (a - b)) by (apply Z.pow_pos_nonneg; lia).
  rewrite Z.rem_mul_r by lia.
  rewrite (Z.mul_comm (2 ^ b)), Z.mod_add, Z.mod_mod by lia. done.
Qed.

(** The value that the code computes from the bytes of the entry. *)
Lemma entry_value t c (x raw : Z) :
  0 <= c -> raw = (x / 256 ^ ent_first t c) mod 256 ^ ent_bytes t ->
  match t with
  | Fat12 => if Z.land c 1 =? 0 then Z.land raw 0x0fff else Z.shiftr raw 4
  | Fat16 => raw
  | Fat32 _ => Z.land raw 0x0fffffff
  end = (x / 2 ^ (ent_bits t * c)) mod 2 ^ ent_mask t.
Proof.
  intros Hc ->. unfold ent_first. change 256 with (2 ^ 8).
  assert (0 <= ent_bits t * c / 8) by (apply Z.div_pos; [destruct t; simpl; lia|lia]).
  rewrite <- !Z.pow_mul_r by (destruct t; simpl in *; lia). destruct t; simpl in *.
  - change (Z.land c 1) with (Z.land c (Z.ones 1)). rewrite Z.land_ones by lia. change (2 ^ 1) with 2.
    pose proof (Z.div_mod c 2 ltac:(lia)). pose proof (Z.mod_pos_bound c 2 ltac:(lia)).
    destruct (Z.eqb_spec (c mod 2) 0) as [He|Ho].
    + change 0x0fff with (Z.ones 12). rewrite Z.land_ones, mod_low by lia. do 3 f_equal.
      replace (12 * c) with ((3 * (c / 2)) * 8) by lia. rewrite Z.div_mul by lia. lia.
    + rewrite Z.shiftr_div_pow2, mod_shift by lia. do 3 f_equal.
      replace (12 * c) with (4 + (3 * (c / 2) + 1) * 8) by lia. rewrite Z.div_add by lia.
      change (4 / 8) with 0. lia.
  - do 3 f_equal. replace (16 * c) with ((2 * c) * 8) by lia. rewrite Z.div_mul by lia. lia.
  - change 0x0fffffff with (Z.ones 28). rewrite Z.land_ones, mod_low by lia. do 3 f_equal.
    replace (32 * c) with ((4 * c) * 8) by lia. rewrite Z.div_mul by lia. lia.
Qed.

(** The sector and the offset where the code looks for the entry. *)
Definition ent_sct fs t c : Z := rsvd_sec_cnt (ft_bpb fs) + ent_first t c / bps fs.
Definition ent_off fs t c : Z := ent_first t c mod bps fs.

Lemma ent_first_bound t c : 0 <= c < 2 ^ 28 -> 0 <= ent_first t c < 2 ^ 32.
Proof.
  intros Hc. unfold ent_first. split; [apply Z.div_pos; destruct t; simpl; lia|].
  apply Z.div_lt_upper_bound; [lia|]. destruct t; simpl; lia.
Qed.

(** [next_clust] up to the inspection of the entry. *)
Lemma next_clust_run fs w t c :
  bpb_ok fs -> fat_type fs = Ret t -> 0 <= c < 2 ^ 28 ->
  next_clust fs w c =
    (r ← read_block (ft_part fs) w (block_size (ft_part fs)) (ent_sct fs t c);
     match r with
     | Err _ => Ret None
     | Ok buf => entry ← fat_entry t c buf (ent_off fs t c);
                 Ret (if end_mark t <=? entry then None else Some entry)
     end).
Proof.
  intros Hok Ht Hc. destruct Hok as [Hb Hs Hr Hf Hro Hz]. pose proof (ent_first_bound t c Hc).
  unfold next_clust. rewrite Ht, Ret_bind, fat_offset_ok, Ret_bind by lia.
  rewrite udiv_ok, Ret_bind by lia.
  assert (0 <= ent_first t c / bps fs < 2 ^ 32) by
    (split; [apply Z.div_pos; lia|apply Z.div_lt_upper_bound; nia]).
  rewrite uadd_ok, Ret_bind by lia. by rewrite urem_ok, Ret_bind by lia.
Qed.


(** a 12-bit entry that straddles two sectors panics: the code reads one
    sector only and slices two bytes of it. *)
Theorem fat12_straddle_panics fs w c buf :
  bpb_ok fs -> fat_type fs = Ret Fat12 -> 0 <= c < 2 ^ 28 ->
  (c + c / 2) mod bps fs = bps fs - 1 ->
  read_block (ft_part fs) w (block_size (ft_part fs))
    (rsvd_sec_cnt (ft_bpb fs) + (c + c / 2) / bps fs) = Ret (Ok buf) ->
  Z.of_nat (length buf) = bps fs -> next_clust fs w c = Panic.
Proof.
  intros Hok Ht Hc Hoff Hr Hl. rewrite (next_clust_run fs w Fat12 c) by done.
  pose proof (fat_offset_ok Fat12 c ltac:(lia)) as Ho. simpl in Ho.
  assert (0 <= c / 2 <= c) by (split; [apply Z.div_pos; lia|apply Z.div_le_upper_bound; lia]).
  rewrite ushr_ok, Ret_bind in Ho by lia. change (2 ^ 1) with 2 in Ho. rewrite uadd_ok in Ho by lia.
  injection Ho as Ho. unfold ent_sct, ent_off. rewrite <- Ho, Hr, Ret_bind. unfold fat_entry.
  rewrite slice_panic by lia. done.
Qed.
End Table.
