(* ===== verification/FatTerm.v ===== *)
(** * FatTerm: termination of the loops of the FAT file system

    A read ends on every volume, even when the chain is cyclic: every turn of
    its loops consumes a cluster of the offset or of the buffer.  The walk over
    a directory does not have this property. *)

From S2P Require Import Prelude RvmFacts Bytes Block BlockThms Fat FatThms FatDir.

(** The computation does not run out of fuel. *)
Definition ends {A} (m : outcome A) : Prop := m <> NoFuel.

Lemma ends_bind {A B} (m : outcome A) (f : A -> outcome B) :
  ends m -> (forall a, m = Ret a -> ends (f a)) -> ends (m ≫= f).
Proof. destruct m; unfold ends; intros Hm Hf; [by apply Hf|done|done]. Qed.
Lemma ends_Ret {A} (a : A) : ends (Ret a).
Proof. done. Qed.
Lemma ends_arith `{Build} w x : ends (arith w x).
Proof. unfold ends, arith. destruct (fits w x); [done|]. by destruct overflow_checks. Qed.
Lemma ends_udiv a b : ends (udiv a b).
Proof. unfold ends, udiv. by destruct (b =? 0). Qed.
Lemma ends_urem a b : ends (urem a b).
Proof. unfold ends, urem. by destruct (b =? 0). Qed.
Lemma ends_ushr `{Build} w a k : ends (ushr w a k).
Proof. unfold ends, ushr. destruct (k <? w); [done|]. by destruct overflow_checks. Qed.
Lemma ends_slice {A} (l : list A) i n : ends (slice l i n).
Proof. unfold ends, slice. by destruct (_ && _ && _). Qed.
Lemma ends_splice {A} (l : list A) i s : ends (splice l i s).
Proof. unfold ends, splice. by destruct (_ && _). Qed.

Create HintDb ends.
#[export] Hint Resolve ends_Ret ends_arith ends_udiv ends_urem ends_ushr ends_slice ends_splice : ends.
Ltac ends :=
  repeat (apply ends_bind; [|intros ? _]); unfold uadd, usub, umul in *; auto with ends.

Section Terminates.
Context `{Build} {W : Type}.
Implicit Types (fs : FileAllocTable (W := W)) (file : FatFile (W := W)) (w : W).

Lemma ends_clust2sct fs c : ends (clust2sct fs c).
Proof. unfold clust2sct. ends. Qed.
Lemma ends_fat_type fs : ends (fat_type fs).
Proof. unfold fat_type. destruct (ft_ext32 fs); [done|]. unfold clust_cnt. ends. Qed.

(** The size of the root directory is computed in [u16]: a volume with 2048
    root entries or more panics as soon as its type is asked for. *)
Lemma big_root_panics fs :
  overflow_checks = true -> ft_ext32 fs = None -> 2048 <= root_ent_cnt (ft_bpb fs) ->
  fat_type fs = Panic.
Proof.
  intros Ho Hn Hr. unfold fat_type. rewrite Hn. unfold clust_cnt, umul, arith, fits. rewrite Ho.
  destruct (Z.ltb_spec (root_ent_cnt (ft_bpb fs) * 32) (2 ^ 16)); [lia|]. by rewrite andb_false_r.
Qed.

Lemma ends_next_clust fs w c :
  (forall n lba, ends (read_block (ft_part fs) w n lba)) -> ends (next_clust fs w c).
Proof.
  intros Hr. unfold next_clust. apply ends_bind; [apply ends_fat_type|]. intros t _.
  apply ends_bind; [unfold fat_offset; destruct t; ends|]. intros o _.
  apply ends_bind; [ends|]. intros q _. apply ends_bind; [ends|]. intros s _.
  apply ends_bind; [ends|]. intros p _. apply ends_bind; [done|]. intros [buf|m] _; [|ends].
  apply ends_bind; [|ends]. unfold fat_entry. destruct t; ends.
Qed.

Lemma skip_clust_ends fs w fuel sz off c :
  (forall n lba, ends (read_block (ft_part fs) w n lba)) -> 0 < sz -> 0 <= off < 2 ^ 64 ->
  off / sz < Z.of_nat fuel -> ends (skip_clust fuel fs w sz off c).
Proof.
  intros Hr Hsz. revert off c. induction fuel as [|fuel IH]; intros off c Ho Hf.
  { assert (0 <= off / sz) by (apply Z.div_pos; lia). lia. }
  cbn [skip_clust]. destruct (Z.leb_spec sz off) as [Hle|]; [|ends].
  rewrite usub_ok, Ret_bind by lia. apply ends_bind; [by apply ends_next_clust|].
  intros [nc|] _; [|ends]. apply IH; [lia|].
  replace (off - sz) with (off + (-1) * sz) by lia. rewrite Z.div_add by lia. lia.
Qed.

Lemma splice_length {A} (l : list A) i src l' : splice l i src = Ret l' -> length l' = length l.
Proof.
  unfold splice. destruct (_ && _) eqn:Hb; [|done]. intros [= <-]. zbool. apply Z.leb_le in H0, H1.
  rewrite !length_app, length_take, length_drop. lia.
Qed.

Lemma copy_clust_ends fs w fuel sz skip rem c buf :
  (forall n lba, ends (read_block (ft_part fs) w n lba)) -> 0 <= skip < sz -> sz < 2 ^ 24 ->
  0 <= rem <= Z.of_nat (length buf) -> Z.of_nat (length buf) < 2 ^ 63 ->
  (rem + skip) / sz + 1 < Z.of_nat fuel -> ends (copy_clust fuel fs w sz skip rem c buf).
Proof.
  intros Hr Hsk Hsz. revert skip rem c buf Hsk.
  induction fuel as [|fuel IH]; intros skip rem c buf Hsk Hrem Hlen Hf.
  { assert (0 <= (rem + skip) / sz) by (apply Z.div_pos; lia). lia. }
  cbn [copy_clust]. destruct (Z.ltb_spec 0 rem) as [Hpos|]; [|ends].
  apply ends_bind; [apply ends_clust2sct|]. intros sct _.
  apply ends_bind; [done|]. intros [d|m] _; [|ends].
  rewrite (usub_ok 64 sz skip), Ret_bind by lia. rewrite (usub_ok 64 (Z.of_nat _) rem), Ret_bind by lia.
  apply ends_bind; [apply ends_slice|]. intros src _.
  apply ends_bind; [apply ends_splice|]. intros buf' Hb%splice_length.
  rewrite usub_ok, Ret_bind by lia. apply ends_bind; [by apply ends_next_clust|].
  intros [nc|] _; [|ends]. destruct (Z.min_spec rem (sz - skip)) as [[Hlt Hm]|[Hge Hm]]; rewrite Hm.
  - rewrite Z.sub_diag. destruct fuel as [|fuel]; [|simpl; ends].
    assert (0 <= (rem + skip) / sz) by (apply Z.div_pos; lia). lia.
  - apply IH; [lia|lia|lia|]. replace (rem - (sz - skip) + 0) with (rem + skip + (-1) * sz) by lia.
    rewrite Z.div_add by lia. lia.
Qed.


(** listing a directory whose chain returns to a cluster without an end
    mark does not terminate: no amount of fuel is enough. *)
Theorem cyclic_dir_diverges file w d fuel :
  let c := first_clust (fl_dirent file) in
  bpb_ok (fl_fs file) -> FatDirEnt_ftype (fl_dirent file) = Directory -> c <> 0 ->
  holds (fl_fs file) w c d -> has_end (buf_recs c d) = false ->
  next_clust (fl_fs file) w c = Ret (Some c) ->
  FatFile_list fuel file w = NoFuel.
Proof.
  intros c Hok Hty Hc (s & Hs & Hr & _) He Hn. unfold FatFile_list, for_each_ent.
  rewrite bool_decide_false by (intros Hx; by apply Hx). fold c.
  destruct (Z.eqb_spec c 0) as [|_]; [done|]. cbn [negb].
  enough (forall acc, each_clust fuel file w true list_step c acc = NoFuel) as ->; [done|].
  induction fuel as [|fuel IH]; intros acc; [done|]. cbn [each_clust].
  rewrite Hs, Ret_bind, (proj1 (clust_size_ok _ Hok)), Ret_bind, Hr, Ret_bind, scan_ents_run.
  fold (buf_recs c d). cbn zeta. rewrite run_list, He. cbn [negb]. rewrite Hn, Ret_bind. apply IH.
Qed.
End Terminates.
