(* ===== verification/FatDemo.v ===== *)
(** * FatDemo: the theorems of the FAT file system on a concrete volume

    Eight sectors of 64 bytes: boot sector, one table, a root directory of two
    entries, five clusters.  Cluster 2 is followed by 3, cluster 4 is a
    directory, the chain of cluster 5 returns to 5. *)

From S2P Require Import Prelude RvmFacts Bytes Block BlockThms Fat FatThms FatDir FatTerm.

#[local] Instance build : Build := {| overflow_checks := true |}.

(** ** The image *)

Definition text8 (l : list Z) : list Z := take 8 (l ++ replicate 8 0x20).
Definition put_dirent (name ext : list Z) (attr clust size : Z) : list Z :=
  text8 name ++ take 3 (ext ++ replicate 3 0x20) ++ [attr] ++ replicate 8 0 ++
  le_put 2 (Z.shiftr clust 16) ++ replicate 4 0 ++ le_put 2 clust ++ le_put 4 size.

Definition bpb0 : BootParamBlock := mkBootParamBlock 64 1 1 1 2 8 1 0.
Definition boot : list Z :=
  replicate 11 0 ++ le_put 2 64 ++ [1] ++ le_put 2 1 ++ [1] ++ le_put 2 2 ++ le_put 2 8 ++ [0xf8] ++
  le_put 2 1 ++ replicate 8 0 ++ le_put 4 0 ++ replicate 28 0.
Definition fat0 : list Z :=
  le_put 64 (0xff8 + 0xfff * 2 ^ 12 + 3 * 2 ^ 24 + 0xfff * 2 ^ 36 + 0xfff * 2 ^ 48 + 5 * 2 ^ 60).
Definition HELLO : list Z := [0x48; 0x45; 0x4c; 0x4c; 0x4f].
Definition TXT : list Z := [0x54; 0x58; 0x54].
Definition SUB : list Z := [0x53; 0x55; 0x42].
Definition root0 : list Z := put_dirent HELLO TXT 0x20 2 100 ++ put_dirent SUB [] 0x10 4 0.
Definition clust2 : list Z := replicate 64 0x41.
Definition clust3 : list Z := replicate 64 0x42.
Definition clust4 : list Z := put_dirent [0xe5] [] 0x20 0 0 ++ put_dirent [0x42] [0x43] 0x20 3 64.
Definition clust5 : list Z := put_dirent [0x58] [] 0x20 0 0 ++ put_dirent [0x59] [] 0x20 0 0.
Definition image : list Z :=
  Eval vm_compute in boot ++ fat0 ++ root0 ++ clust2 ++ clust3 ++ clust4 ++ clust5 ++ replicate 64 0.

Definition vol : BlockDevice unit :=
  mkBlockDevice 64 8 (fun _ n lba => Ret (Ok (take (Z.to_nat n) (drop (Z.to_nat (lba * 64)) image))))
    (fun w _ _ => Ret (w, Err "read only")) 1.

#[local] Instance vol_laws : DiskLaws vol.
Proof.
  refine {| disk := fun _ => image |}; try done.
  - intros w n lba _ _ _ _. by eexists.
  - intros w buf lba _ _ _. exists w, (Err "read only"). done.
Defined.

Definition fs0 : FileAllocTable (W := unit) :=
  mkFileAllocTable vol bpb0 None (mkFat12BpbExt 0 (replicate 11 0) (replicate 8 0)).
Definition dent (name ext : list Z) (attr clust size : Z) : FatDirEnt :=
  mkFatDirEnt (text8 name) (take 3 (ext ++ replicate 3 0x20)) attr 0 clust size.
Definition hello : FatFile := FatFile_new fs0 (dent HELLO TXT 0x20 2 100) 0.
Definition sub : FatFile := FatFile_new fs0 (dent SUB [] 0x10 4 0) 1.
Definition loop : FatFile := FatFile_new fs0 (dent SUB [] 0x10 5 0) 2.
Definition root_file : FatFile := FatFile_new fs0 (root_dirent 0) 0.

Example mount_fs0 : FileAllocTable_new vol () = Ret (Some fs0).
Proof. vm_compute. reflexivity. Qed.
Example root_fs0 : FileAllocTable_root fs0 = Ret root_file.
Proof. vm_compute. reflexivity. Qed.
Example type_fs0 : fat_type fs0 = Ret Fat12.
Proof. reflexivity. Qed.

Lemma fs0_ok : bpb_ok fs0.
Proof. constructor; vm_compute; (split; [discriminate|reflexivity]) || (split; reflexivity). Qed.

Lemma holds0 c d :
  2 <= c <= 6 -> d = take 64 (drop (Z.to_nat ((c + 1) * 64)) image) -> length d = 64%nat -> holds fs0 () c d.
Proof.
  intros Hc -> Hl. exists (c + 1). rewrite (clust2sct_ok _ _ fs0_ok) by lia. split_and!; [|done|].
  - f_equal. change (data_base fs0) with 3. simpl. lia.
  - rewrite Hl. done.
Qed.

Lemma chain2 : chain fs0 () 2 [2; 3].
Proof. apply chain_next with 3; [reflexivity|]. by apply chain_last. Qed.
Lemma chain4 : chain fs0 () 4 [4].
Proof. by apply chain_last. Qed.
Lemma holds23 : Forall2 (holds fs0 ()) [2; 3] [clust2; clust3].
Proof. repeat constructor; apply holds0; done || reflexivity. Qed.
Lemma sub_bufs : dir_bufs fs0 () 4 [(4, clust4)].
Proof. split; [apply chain4|]. apply Forall_singleton. by apply holds0. Qed.

(** ** The witnesses *)

Lemma clusters_disjoint_witness :
  exists s s', clust2sct fs0 2 = Ret s /\ clust2sct fs0 3 = Ret s' /\
    s + sec_per_clus (ft_bpb fs0) <= s' /\
    rsvd_sec_cnt (ft_bpb fs0) + num_fats (ft_bpb fs0) * fat_sz fs0 <= s /\
    root_ent_cnt (ft_bpb fs0) * 32 <=
      (s - (rsvd_sec_cnt (ft_bpb fs0) + num_fats (ft_bpb fs0) * fat_sz fs0)) * byts_per_sec (ft_bpb fs0).
Proof. apply (clusters_disjoint fs0 2 3); [apply fs0_ok|lia|lia]. Defined.

(** Four bytes across the border of the two clusters: "AABB". *)
Lemma fat_read_spec_witness :
  FatFile_read 5 hello () (replicate 4 0) 62 = Ret (Ok [0x41; 0x41; 0x42; 0x42]).
Proof.
  apply (fat_read_spec hello () 5 [2; 3] [clust2; clust3] (replicate 4 0) 62);
    [apply fs0_ok|reflexivity|apply chain2|apply holds23|simpl; lia|lia|vm_compute; reflexivity].
Defined.

Lemma fat_list_spec_witness : FatFile_list 3 sub () = Ret (Ok [[0x42; 0x2e; 0x43]]).
Proof.
  apply (fat_list_spec 3 sub () [(4, clust4)]);
    [apply fs0_ok|reflexivity|apply sub_bufs|simpl; lia].
Defined.

Lemma fat_walk_spec_witness :
  (exists pre e fid post n, dir_ents [(4, clust4)] = pre ++ (e, fid) :: post /\
     FatDirEnt_filename e = Some n /\ eq_ignore_ascii_case n [0x62; 0x2e; 0x63] = true /\
     Forall (fun m => eq_ignore_ascii_case m [0x62; 0x2e; 0x63] = false) (names pre) /\
     FatFile_walk 3 sub () [0x62; 0x2e; 0x63] = Ret (Ok (FatFile_new fs0 e fid))) \/
  (Forall (fun m => eq_ignore_ascii_case m [0x62; 0x2e; 0x63] = false) (names (dir_ents [(4, clust4)])) /\
   FatFile_walk 3 sub () [0x62; 0x2e; 0x63] = Ret (Err "File not found")).
Proof.
  apply (fat_walk_spec 3 sub () [(4, clust4)] [0x62; 0x2e; 0x63]);
    [apply fs0_ok|reflexivity|apply sub_bufs|simpl; lia].
Defined.


(** Entry 42 occupies the bytes 63 and 64 of the table. *)
Lemma fat12_straddle_panics_witness : next_clust fs0 () 42 = Panic.
Proof.
  apply (fat12_straddle_panics fs0 () 42 fat0); [apply fs0_ok|reflexivity|lia|reflexivity..].
Defined.


Lemma cyclic_dir_diverges_witness : FatFile_list 1000 loop () = NoFuel.
Proof.
  apply (cyclic_dir_diverges loop () clust5 1000);
    [apply fs0_ok|reflexivity|done|apply holds0; done|reflexivity|reflexivity].
Defined.
