(* ===== verification/Vfs.v ===== *)
(** * Vfs: the virtual file system (filesys/mod.rs, filesys/vfn.rs,
    filesys/parts/vpart.rs)

    An [Arc<dyn VirtFNode>] of a [VirtFile] or a [VirtDir] is an index into a
    store, because these two have interior mutability and may be shared; the
    other implementors of the trait ([DevFile], [PartDev], [FatFile]) never
    change and are values.  A path and a name are lists of UTF-8 bytes.  The
    state is the store, the table of mounted partitions, the counter of file
    numbers and the contents of the devices.  Nodes that nothing refers to stay
    in the store; allocation succeeds. *)

From stdpp Require Import sorting pretty.
From Stdlib Require Import Ascii.
From S2P Require Import Prelude Printk Bytes Block Gpt Fat.
#[local] Open Scope Z_scope.

(** ** Paths *)

Definition slash : Z := 0x2f.
Definition str (s : string) : list Z := (fun a => Z.of_N (N_of_ascii a)) <$> String.list_ascii_of_string s.

(** [path.split('/')] *)
Fixpoint split (l : list Z) : list (list Z) :=
  match l with
  | [] => [[]]
  | a :: l =>
      if a =? slash then [] :: split l
      else match split l with
           | x :: xs => (a :: x) :: xs
           | [] => [[a]]
           end
  end.

(** [["", ".", ".."].contains(&part)] *)
Definition dotdot : list Z := [0x2e; 0x2e].
Definition special (part : list Z) : bool :=
  bool_decide (part = []) || bool_decide (part = [0x2e]) || bool_decide (part = dotdot).

Definition get_file_name (path : list Z) : option (list Z) :=
  let name := List.last (split path) [] in
  if special name then None else Some name.

(** [ends_with('/')]; [rfind('/')]; [truncate]: an index that [rfind] returns
    for an ASCII character, or 1 behind a leading '/', is on a boundary of
    characters. *)
Definition ends_with_slash (l : list Z) : bool :=
  match last l with Some a => a =? slash | None => false end.
Fixpoint rfind (l : list Z) : option nat :=
  match l with
  | [] => None
  | a :: l =>
      match rfind l with
      | Some i => Some (S i)
      | None => if a =? slash then Some O else None
      end
  end.
Definition pop_path (path_now : list Z) : list Z :=
  match rfind path_now with
  | Some pos => take (Nat.max pos 1) path_now
  | None => path_now
  end.
Definition push_path (path_now part : list Z) : list Z :=
  (if ends_with_slash path_now then path_now else path_now ++ [slash]) ++ part.

(** The order of [String] keys. *)
Fixpoint bytes_le (a b : list Z) : bool :=
  match a, b with
  | [], _ => true
  | _ :: _, [] => false
  | x :: a, y :: b => (x <? y) || ((x =? y) && bytes_le a b)
  end.
Definition bytes_lep (a b : list Z) : Prop := bytes_le a b = true.
#[export] Instance bytes_lep_dec a b : Decision (bytes_lep a b).
Proof. unfold bytes_lep. apply _. Defined.

(** [Vec::resize(n, 0)]: more than [isize::MAX] bytes is a capacity overflow. *)
Definition vec_resize (l : list Z) (n : Z) : outcome (list Z) :=
  if n <? 2 ^ 63 then Ret (take (Z.to_nat n) l ++ zeros (n - Z.of_nat (length l))) else Panic.

(** ** Nodes *)

Record VFileData : Type := mkVFileData { vf_meta : FMeta; vf_data : list Z }.

Section Vfs.
Context `{Build} {W : Type} (fuel : nat).

Inductive vnode : Type :=
  | VRef (i : nat)
  | VDev (d : DevFile (W := W))
  | VPart (d : PartDev (W := W))
  | VFat (f : FatFile (W := W)).

Record VirtDir : Type := mkVirtDir { vd_meta : FMeta; vd_files : gmap (list Z) vnode }.
Inductive node : Type := NFile (f : VFileData) | NDir (d : VirtDir).

(** The two implementors of [Partition]. *)
Inductive partition : Type := PVirt (root : nat) | PFat (fs : FileAllocTable (W := W)).

Record Vfs : Type := mkVfs {
  store : list node;
  parts : gmap (list Z) partition;
  fid_next : Z;
  world : W
}.
Implicit Types (st : Vfs) (n : vnode) (path name : list Z).

Definition set_store st s := mkVfs s (parts st) (fid_next st) (world st).
Definition set_parts st p := mkVfs (store st) p (fid_next st) (world st).
Definition set_fid st f := mkVfs (store st) (parts st) f (world st).
Definition set_world st w := mkVfs (store st) (parts st) (fid_next st) w.

(** Code that changes the state and returns a [Result]; the [?] operator. *)
Definition M (A : Type) : Type := Vfs -> outcome (Vfs * result string A).
Definition retM {A} (a : A) : M A := fun st => Ret (st, Ok a).
Definition errM {A} (e : string) : M A := fun st => Ret (st, Err e).
Definition bindM {A B} (m : M A) (f : A -> M B) : M B := fun st =>
  '(st, r) ← m st; match r with Ok a => f a st | Err e => Ret (st, Err e) end.
Definition reads {A} (f : Vfs -> outcome (result string A)) : M A := fun st =>
  r ← f st; Ret (st, r).

Definition Arc_new (nd : node) : M vnode := fun st =>
  Ret (set_store st (store st ++ [nd]), Ok (VRef (length (store st)))).

(** [VirtFile] *)
Definition VirtFile_new : M node := fun st =>
  let '(fid, meta) := FMeta_vfs_only (fid_next st) Regular in
  Ret (set_fid st fid, Ok (NFile (mkVFileData meta []))).

Definition VirtFile_read (f : VFileData) (buf : list Z) (offset : Z) : outcome (result string (list Z)) :=
  let len := Z.of_nat (length (vf_data f)) in
  if len <=? offset then Ret (Err "Offset out of bounds") else
  d ← usub 64 len offset;
  let read_len := Z.min (Z.of_nat (length buf)) d in
  src ← slice (vf_data f) offset read_len;
  buf ← splice buf 0 src;
  Ret (Ok buf).

Definition VirtFile_write (f : VFileData) (buf : list Z) (offset : Z) : outcome VFileData :=
  write_end ← uadd 64 (Z.of_nat (length buf)) offset;
  let new_size := Z.max write_end (Z.of_nat (length (vf_data f))) in
  data ← vec_resize (vf_data f) new_size;
  data ← splice data offset buf;
  Ret (mkVFileData (FMeta_set_size (vf_meta f) new_size) data).

Definition VirtFile_truncate (f : VFileData) (size : Z) : outcome VFileData :=
  data ← vec_resize (vf_data f) size;
  Ret (mkVFileData (FMeta_set_size (vf_meta f) size) data).

(** [VirtDir] *)
Definition VirtDir_new : M node := fun st =>
  let '(fid, meta) := FMeta_vfs_only (fid_next st) Directory in
  Ret (set_fid st fid, Ok (NDir (mkVirtDir meta ∅))).

Definition VirtDir_list (d : VirtDir) : list (list Z) :=
  merge_sort bytes_lep (map_to_list (vd_files d)).*1.

Definition VirtDir_walk (d : VirtDir) name : result string vnode :=
  match vd_files d !! name with Some n => Ok n | None => Err "No such file" end.

Definition VirtDir_link (i : nat) (d : VirtDir) name (n : vnode) : M unit := fun st =>
  match vd_files d !! name with
  | Some _ => Ret (st, Err "File already exists")
  | None =>
      let d := mkVirtDir (vd_meta d) (<[name := n]> (vd_files d)) in
      Ret (set_store st (<[i := NDir d]> (store st)), Ok ())
  end.

Definition VirtDir_create (i : nat) (d : VirtDir) name (ftype : FType) : M unit :=
  match ftype with
  | Regular => bindM (bindM VirtFile_new Arc_new) (VirtDir_link i d name)
  | Directory => bindM (bindM VirtDir_new Arc_new) (VirtDir_link i d name)
  | _ => errM "Unsupported file type for creation"
  end.

Definition VirtDir_remove (i : nat) (d : VirtDir) name : M unit := fun st =>
  match vd_files d !! name with
  | Some _ =>
      let d := mkVirtDir (vd_meta d) (delete name (vd_files d)) in
      Ret (set_store st (<[i := NDir d]> (store st)), Ok ())
  | None => Ret (st, Err "No such file")
  end.

(** ** The trait [VirtFNode]: each method dispatches on the node; where an
    implementor has none, the default of the trait is an error.  A reference
    without a node does not exist in the code. *)

Definition deref st (i : nat) : outcome node := unwrap (store st !! i).

Definition node_meta st n : outcome FMeta :=
  match n with
  | VRef i => nd ← deref st i; Ret (match nd with NFile f => vf_meta f | NDir d => vd_meta d end)
  | VDev d => Ret (df_meta d)
  | VPart d => Ret (pd_meta d)
  | VFat f => Ret (FatFile_meta f)
  end.

Definition not_ioable : string := "This file is not IOable".
Definition not_a_directory : string := "This is not a directory".

Definition node_read st n (buf : list Z) (offset : Z) : outcome (result string (list Z)) :=
  match n with
  | VRef i => nd ← deref st i;
      match nd with
      | NFile f => VirtFile_read f buf offset
      | NDir _ => Ret (Err not_ioable)
      end
  | VDev d => DevFile_read d (world st) (Z.of_nat (length buf)) offset
  | VPart d => PartDev_read d (world st) (Z.of_nat (length buf)) offset
  | VFat f => FatFile_read fuel f (world st) buf offset
  end.

Definition node_write n (buf : list Z) (offset : Z) : M unit := fun st =>
  match n with
  | VRef i => nd ← deref st i;
      match nd with
      | NFile f =>
          f ← VirtFile_write f buf offset;
          Ret (set_store st (<[i := NFile f]> (store st)), Ok ())
      | NDir _ => Ret (st, Err not_ioable)
      end
  | VDev d => '(w, r) ← DevFile_write d (world st) buf offset; Ret (set_world st w, r)
  | VPart d => '(w, r) ← PartDev_write d (world st) buf offset; Ret (set_world st w, r)
  | VFat _ => Ret (st, Err not_ioable)
  end.

Definition node_truncate n (size : Z) : M unit := fun st =>
  match n with
  | VRef i => nd ← deref st i;
      match nd with
      | NFile f =>
          f ← VirtFile_truncate f size;
          Ret (set_store st (<[i := NFile f]> (store st)), Ok ())
      | NDir _ => Ret (st, Err not_ioable)
      end
  | VDev d => Ret (st, DevFile_truncate d size)
  | VPart d => Ret (st, PartDev_truncate d size)
  | VFat _ => Ret (st, Err not_ioable)
  end.

Definition node_list st n : outcome (result string (list (list Z))) :=
  match n with
  | VRef i => nd ← deref st i;
      Ret (match nd with NFile _ => Err not_a_directory | NDir d => Ok (VirtDir_list d) end)
  | VDev _ | VPart _ => Ret (Err not_a_directory)
  | VFat f => FatFile_list fuel f (world st)
  end.

Definition node_walk st n name : outcome (result string vnode) :=
  match n with
  | VRef i => nd ← deref st i;
      Ret (match nd with NFile _ => Err not_a_directory | NDir d => VirtDir_walk d name end)
  | VDev _ | VPart _ => Ret (Err not_a_directory)
  | VFat f =>
      r ← FatFile_walk fuel f (world st) name;
      Ret (match r with Ok f => Ok (VFat f) | Err e => Err e end)
  end.

(** The three methods that change a directory. *)
Definition on_dir n (f : nat -> VirtDir -> M unit) : M unit := fun st =>
  match n with
  | VRef i => nd ← deref st i;
      match nd with NFile _ => Ret (st, Err not_a_directory) | NDir d => f i d st end
  | _ => Ret (st, Err not_a_directory)
  end.
Definition node_create n name (ftype : FType) : M unit :=
  on_dir n (fun i d => VirtDir_create i d name ftype).
Definition node_link n name (target : vnode) : M unit :=
  on_dir n (fun i d => VirtDir_link i d name target).
Definition node_remove n name : M unit := on_dir n (fun i d => VirtDir_remove i d name).

(** [Partition::root] *)
Definition part_root (p : partition) : outcome vnode :=
  match p with
  | PVirt i => Ret (VRef i)
  | PFat fs => f ← FileAllocTable_root fs; Ret (VFat f)
  end.

(** ** Walking a path: [stack] has its top first *)

Fixpoint walk_loop st (root : vnode) (isparent : bool) (partlen i : nat) (comps : list (list Z))
    (stack : list vnode) (path_now : list Z) : outcome (result string vnode) :=
  let last := default root (head stack) in
  match comps with
  | [] => Ret (Ok last)
  | part :: comps =>
      meta ← node_meta st last;
      if bool_decide (fm_ftype meta ≠ Directory) then Ret (Err "Directory walk error") else
      if negb (special part) then
        if isparent && (partlen - 1 <=? i)%nat then Ret (Ok last) else
        let path_now := push_path path_now part in
        match parts st !! path_now with
        | Some mounted =>
            r ← part_root mounted;
            walk_loop st root isparent partlen (S i) comps (r :: stack) path_now
        | None =>
            n ←? node_walk st last part;
            walk_loop st root isparent partlen (S i) comps (n :: stack) path_now
        end
      else if bool_decide (part = dotdot) && negb (bool_decide (length stack = 0%nat)) then
        walk_loop st root isparent partlen (S i) comps (tail stack) (pop_path path_now)
      else walk_loop st root isparent partlen (S i) comps stack path_now
  end.

Definition walk_inner st path (isparent : bool) : outcome (result string vnode) :=
  match parts st !! [slash] with
  | None => Ret (Err "VFS not initialised")
  | Some p =>
      root ← part_root p;
      let comps := split path in
      walk_loop st root isparent (length comps) 0 comps [] []
  end.

Definition vfs_walk st path := walk_inner st path false.
Definition vfs_walk_parent st path := walk_inner st path true.

(** ** The operations of [VirtualFileSystem] *)

Definition vfs_init : M unit :=
  bindM (bindM VirtDir_new Arc_new) (fun n st =>
    match n with
    | VRef i => Ret (set_parts st (<[[slash] := PVirt i]> (parts st)), Ok ())
    | _ => Panic
    end).

Definition vfs_read path (buf : list Z) (offset : Z) : M (list Z) :=
  bindM (reads (fun st => walk_inner st path false)) (fun n => reads (fun st => node_read st n buf offset)).
Definition vfs_write path (buf : list Z) (offset : Z) : M unit :=
  bindM (reads (fun st => walk_inner st path false)) (fun n => node_write n buf offset).
Definition vfs_truncate path (size : Z) : M unit :=
  bindM (reads (fun st => walk_inner st path false)) (fun n => node_truncate n size).
Definition vfs_list path : M (list (list Z)) :=
  bindM (reads (fun st => walk_inner st path false)) (fun n => reads (fun st => node_list st n)).

Definition in_parent path (f : vnode -> list Z -> M unit) : M unit :=
  bindM (reads (fun st => walk_inner st path true)) (fun dir =>
    match get_file_name path with
    | Some filename => f dir filename
    | None => errM "Invalid path"
    end).
Definition vfs_create path (ftype : FType) : M unit :=
  in_parent path (fun dir filename => node_create dir filename ftype).
Definition vfs_link path (n : vnode) : M unit :=
  in_parent path (fun dir filename => node_link dir filename n).
Definition vfs_unlink path : M unit :=
  in_parent path (fun dir filename => node_remove dir filename).

Definition vfs_mount path (part : partition) : M unit := fun st =>
  match parts st !! path with
  | Some _ => Ret (st, Err "Mount point already exists")
  | None =>
      r ← walk_inner st path false;
      match r with
      | Err _ => Ret (st, Err "Mount point does not exist")
      | Ok dir =>
          meta ← node_meta st dir;
          if bool_decide (fm_ftype meta ≠ Directory)
          then Ret (st, Err "Mount point is not a directory")
          else Ret (set_parts st (<[path := part]> (parts st)), Ok ())
      end
  end.

Definition vfs_unmount path : M unit := fun st =>
  if bool_decide (path = [slash]) then Ret (st, Err "Cannot unmount root") else
  match parts st !! path with
  | Some _ => Ret (set_parts st (delete path (parts st)), Ok ())
  | None => Ret (st, Err "No such mount point")
  end.

(** ** [init_filesys] *)

Definition GptErr_msg (e : GptErr) : string :=
  match e with
  | DeviceErr m => m
  | BadHeader => "Failed to parse GPT header"
  | BadSignature => "Invalid GPT signature"
  | BadEntry p => "Failed to parse GPT entry " +:+ pretty p
  end.

(** The partitions of the disk [devname], from the [i]-th on. *)
Fixpoint init_parts (devdir : vnode) (devname : string) (i : N) (ps : list (PartDev (W := W))) : M unit :=
  match ps with
  | [] => retM ()
  | part :: ps =>
      bindM (fun st =>
        r ← FileAllocTable_new (PartDev_as_blkdev part) (world st);
        match r with
        | Some fat =>
            let name := str ("/mnt/" +:+ devname +:+ "p" +:+ pretty i) in
            bindM (vfs_create name Directory) (fun _ => vfs_mount name (PFat fat)) st
        | None => Ret (st, Ok ())
        end) (fun _ =>
      bindM (node_link devdir (str (devname +:+ "p" +:+ pretty i)) (VPart part)) (fun _ =>
      init_parts devdir devname (i + 1) ps))
  end.

(** The disks, from the [idx]-th on. *)
Fixpoint init_disks (devdir : vnode) (idx : N) (devs : list (BlockDevice W)) : M unit :=
  match devs with
  | [] => retM ()
  | dev :: devs =>
      let devname := "block" +:+ pretty idx in
      bindM (fun st => '(fid, block) ← DevFile_new (fid_next st) dev; Ret (set_fid st fid, Ok (VDev block)))
        (fun block =>
      bindM (node_link devdir (str devname) block) (fun _ =>
      bindM (reads (fun st =>
        r ← UEFIPartition_new dev (world st);
        Ret (match r with Ok u => Ok u | Err e => Err (GptErr_msg e) end))) (fun uefi_partable =>
      bindM (fun st => '(fid, ps) ← get_parts uefi_partable (fid_next st); Ret (set_fid st fid, Ok ps)) (fun ps =>
      bindM (init_parts devdir devname 0 ps) (fun _ =>
      init_disks devdir (idx + 1) devs)))))
  end.

Definition hello_rs : list Z :=
  str ("fn main() {" +:+ String (ascii_of_N 10) "    println!(" +:+ String (ascii_of_N 34) "Hello, world!" +:+
       String (ascii_of_N 34) ");" +:+ String (ascii_of_N 10) "}").

(** [as_blkdev] of a node. *)
Definition node_as_blkdev n : option (BlockDevice W) :=
  match n with
  | VDev d => Some (DevFile_as_blkdev d)
  | VPart d => Some (PartDev_as_blkdev d)
  | VRef _ | VFat _ => None
  end.

Definition type_label (t : FType) : string :=
  match t with
  | Regular => "Regular:  " | Directory => "Directory:" | BlockDev => "BlockDev: " | CharDev => "CharDev:  "
  | Fifo => "FIFO:     " | SymLink => "SymLink:  " | Socket => "Socket:   "
  end.

(** What is printed of each entry of [/dev]; a name is any bytes. *)
Fixpoint ls_entries st (dir : vnode) (entries : list (list Z)) : outcome (list Z) :=
  match entries with
  | [] => Ret []
  | entry :: entries =>
      r ← node_walk st dir entry;
      match r with
      | Err _ => Panic
      | Ok vfn =>
          meta ← node_meta st vfn;
          let line := str ("    " +:+ type_label (fm_ftype meta) +:+ "  ") ++ entry ++ str newline ++
            str ("    File ID     " +:+ pretty (fm_fid meta) +:+ newline +:+
                 "    Host Device " +:+ pretty (fm_hostdev meta) +:+ newline) in
          let dev := match node_as_blkdev vfn with
            | Some d => str ("    Device ID   " +:+ pretty (devid d) +:+ newline)
            | None => []
            end in
          rest ← ls_entries st dir entries;
          Ret (line ++ dev ++ rest)
      end
  end.
Definition ls_dev st : outcome (result string (list Z)) :=
  r ← vfs_walk st (str "/dev");
  match r with
  | Err e => Ret (Err e)
  | Ok vdirn =>
      l ← node_list st vdirn;
      match l with
      | Err _ => Ret (Ok [])
      | Ok entries => out ← ls_entries st vdirn entries; Ret (Ok (str ("in /dev:" +:+ newline) ++ out))
      end
  end.

(** The first 64 bytes of the kernel's image on the first partition. *)
Definition xd_unix st : outcome (result string (list Z)) :=
  r ← vfs_walk st (str "/mnt/block0p0/unix");
  match r with
  | Ok fnode =>
      meta ← node_meta st fnode;
      b ← node_read st fnode (zeros 64) 0;
      match b with
      | Err _ => Panic
      | Ok buf =>
          Ret (Ok (str ("Found /mnt/block0p0/unix" +:+ newline +:+ "    size: " +:+ pretty (fm_size meta) +:+ " bytes" +:+ newline +:+
            "First 64 bytes of /mnt/block0p0/unix:" +:+ newline +:+ dump_bytes buf)))
      end
  | Err e => Ret (Ok (str ("Error finding /mnt/block0p0/unix: " +:+ e +:+ newline)))
  end.

(** Up to the dump of [/src/main.rs]. *)
Definition setup_filesys (devs : list (BlockDevice W)) : M (list Z) :=
  bindM vfs_init (fun _ =>
  bindM (vfs_create (str "/dev") Directory) (fun _ =>
  bindM (vfs_create (str "/mnt") Directory) (fun _ =>
  bindM (reads (fun st => vfs_walk st (str "/dev"))) (fun devdir =>
  bindM (init_disks devdir 0 devs) (fun _ =>
  bindM (bindM VirtFile_new Arc_new) (fun n =>
  bindM (vfs_link (str "/main.rs") n) (fun _ =>
  bindM (vfs_write (str "/main.rs") hello_rs 0) (fun _ =>
  bindM (reads (fun st => vfs_walk st (str "/main.rs"))) (fun file =>
  bindM (bindM VirtDir_new Arc_new) (fun src =>
  bindM (vfs_link (str "/src") src) (fun _ =>
  bindM (vfs_link (str "/src/main.rs") file) (fun _ =>
  bindM (vfs_unlink (str "/main.rs")) (fun _ =>
  vfs_read (str "/src/main.rs") (zeros 13) 26))))))))))))).

(** The result is what is printed. *)
Definition init_filesys (devs : list (BlockDevice W)) : M (list Z) :=
  bindM (setup_filesys devs) (fun buf =>
  bindM (reads ls_dev) (fun ls =>
  bindM (reads xd_unix) (fun xd =>
  retM (str (dump_bytes buf) ++ ls ++ xd)))).
End Vfs.
