(* ===== verification/VfsPath.v ===== *)
(** * VfsPath: resolving a path

    The loop of [walk_inner] keeps a stack of nodes and, in parallel, a string
    [path_now] that it edits in place.  The reference resolution keeps one
    trail of named nodes; the string is always the canonical path of the
    trail, which is what makes the lookup of mount points right. *)

From S2P Require Import Prelude Bytes Block Gpt Fat Vfs.

(** ** Components and canonical paths *)

(** A component that names an entry. *)
Definition comp_ok (c : list Z) : Prop := (slash ∉ c) /\ special c = false.

(** ["/a/b/c"] from its components, the last one first. *)
Fixpoint key (names : list (list Z)) : list Z :=
  match names with [] => [] | c :: names => key names ++ slash :: c end.

(** The names that a sequence of components leaves, the last one first. *)
Definition canon1 (names : list (list Z)) (c : list Z) : list (list Z) :=
  if special c then (if bool_decide (c = dotdot) then tail names else names) else c :: names.
Definition canon : list (list Z) -> list (list Z) -> list (list Z) := foldl canon1.
Definition canon_path (path : list Z) : list Z := key (canon [] (split path)).

Lemma split_ne path : split path <> [].
Proof. destruct path as [|a l]; simpl; [done|]. destruct (a =? slash); [done|]. by destruct (split l). Qed.

Lemma split_app p q : split (p ++ slash :: q) = split p ++ split q.
Proof.
  induction p as [|a p IH]; simpl.
  - done.
  - rewrite IH. destruct (a =? slash); [done|].
    pose proof (split_ne p). destruct (split p); [done|]. done.
Qed.

Lemma split_noslash c : slash ∉ c -> split c = [c].
Proof.
  induction c as [|a c IH]; [done|]. intros Hc. apply not_elem_of_cons in Hc as [Ha Hc].
  simpl. rewrite IH by done. destruct (Z.eqb_spec a slash); congruence.
Qed.

Lemma split_comps path : Forall (fun c => slash ∉ c) (split path).
Proof.
  induction path as [|a l IH]; simpl; [constructor; [apply not_elem_of_nil|constructor]|].
  destruct (Z.eqb_spec a slash) as [|Ha]; [constructor; [apply not_elem_of_nil|done]|].
  pose proof (split_ne l). destruct (split l) as [|x xs]; [done|]. apply Forall_cons in IH as [Hx Hxs].
  constructor; [|done]. apply not_elem_of_cons. by split; [congruence|].
Qed.

Lemma split_key names : Forall (fun c => slash ∉ c) names -> split (key names) = [] :: rev names.
Proof.
  induction 1 as [|c names Hc Hn IH]; [done|]. cbn [key]. rewrite split_app, IH, split_noslash by done.
  done.
Qed.

Lemma canon_app t a b : canon t (a ++ b) = canon (canon t a) b.
Proof. apply foldl_app. Qed.

Lemma canon_comps names t :
  Forall comp_ok names -> canon t (rev names) = names ++ t.
Proof.
  intros Hn. revert t. induction Hn as [|c names [_ Hs] Hn IH]; intros t; [done|].
  cbn [rev]. rewrite canon_app, IH. unfold canon. simpl. unfold canon1. by rewrite Hs.
Qed.

Lemma canon_ok t cs : Forall comp_ok t -> Forall (fun c => slash ∉ c) cs -> Forall comp_ok (canon t cs).
Proof.
  intros Ht Hcs. revert t Ht. induction Hcs as [|c cs Hc Hcs IH]; intros t Ht; [done|].
  unfold canon. simpl. apply IH. unfold canon1. destruct (special c) eqn:Hs.
  - case_bool_decide; [|done]. destruct t; [done|]. by inversion Ht.
  - by constructor.
Qed.

(** The canonical paths are the fixed points of [canon_path]. *)
Lemma canon_key names : Forall comp_ok names -> canon_path (key names) = key names.
Proof.
  intros Hn. unfold canon_path. rewrite split_key.
  - change (canon [] ([] :: rev names)) with (canon [] (rev names)).
    by rewrite canon_comps, app_nil_r.
  - eapply Forall_impl; [exact Hn|]. by intros c [? _].
Qed.

Lemma key_length_lt c names : (length (key names) < length (key (c :: names)))%nat.
Proof. simpl. rewrite length_app. simpl. lia. Qed.

Lemma rfind_key a c : slash ∉ c -> rfind (a ++ slash :: c) = Some (length a).
Proof.
  intros Hc. induction a as [|b a IH]; simpl.
  - assert (rfind c = None) as ->; [|done].
    induction c as [|b c IH]; [done|]. apply not_elem_of_cons in Hc as [Hb Hc]. simpl.
    rewrite IH by done. destruct (Z.eqb_spec b slash); congruence.
  - by rewrite IH.
Qed.

(** ** The string of the loop and the trail *)

Definition path_rel (path_now : list Z) (names : list (list Z)) : Prop :=
  match names with [] => path_now = [] \/ path_now = [slash] | _ => path_now = key names end.

Lemma push_rel p names c :
  Forall comp_ok names -> path_rel p names -> push_path p c = key (c :: names).
Proof.
  intros Hn Hp. unfold push_path. destruct names as [|c' names].
  { destruct Hp as [->| ->]; done. }
  cbn [path_rel] in Hp. subst p. apply Forall_cons in Hn as [[Hsl Hsp] _].
  assert (ends_with_slash (key (c' :: names)) = false) as ->.
  { unfold ends_with_slash. cbn [key]. destruct c' as [|a c'] using rev_ind; [done|].
    replace (key names ++ slash :: c' ++ [a]) with ((key names ++ slash :: c') ++ [a])
      by (by rewrite <- app_assoc). rewrite last_snoc. apply Z.eqb_neq. intros ->.
    apply Hsl, elem_of_app. right. by apply list_elem_of_singleton. }
  cbn [key]. by rewrite <- app_assoc.
Qed.

Lemma pop_rel p c names :
  Forall comp_ok (c :: names) -> path_rel p (c :: names) -> path_rel (pop_path p) names.
Proof.
  intros Hn Hp. cbn [path_rel] in Hp. subst p. apply Forall_cons in Hn as [[Hsl _] Hn].
  unfold pop_path. cbn [key]. rewrite rfind_key by done. destruct names as [|c' names].
  - right. done.
  - cbn [path_rel]. rewrite Nat.max_l.
    + by rewrite take_app_length.
    + cbn [key]. rewrite length_app. simpl. lia.
Qed.

(** ** The reference resolution *)

Section Resolve.
Context `{Build} {W : Type} (fuel : nat).
Implicit Types (st : Vfs (W := W)) (n root : vnode (W := W)).

(** Named nodes, the last one first. *)
Definition trail : Type := list (list Z * vnode (W := W)).
Definition top root (t : trail) : vnode (W := W) := default root (snd <$> head t).

Definition is_dir st n : outcome bool :=
  meta ← node_meta st n; Ret (bool_decide (fm_ftype meta = Directory)).

Definition enter st root (t : trail) (c : list Z) : outcome (result string trail) :=
  match parts st !! key (c :: t.*1) with
  | Some mounted => r ← part_root mounted; Ret (Ok ((c, r) :: t))
  | None => n ←? node_walk fuel st (top root t) c; Ret (Ok ((c, n) :: t))
  end.

Definition resolve1 st root (t : trail) (c : list Z) : outcome (result string trail) :=
  d ← is_dir st (top root t);
  if negb d then Ret (Err "Directory walk error") else
  if special c then Ret (Ok (if bool_decide (c = dotdot) then tail t else t))
  else enter st root t c.

Fixpoint resolve st root (t : trail) (cs : list (list Z)) : outcome (result string trail) :=
  match cs with
  | [] => Ret (Ok t)
  | c :: cs => t ←? resolve1 st root t c; resolve st root t cs
  end.

Lemma resolve_app st root t a b :
  resolve st root t (a ++ b) = t ←? resolve st root t a; resolve st root t b.
Proof.
  revert t. induction a as [|c a IH]; intros t; [done|]. cbn [app resolve]. unfold try_bind.
  destruct (resolve1 st root t c) as [[t'|e]| |]; [|done|done|done].
  rewrite !Ret_bind. apply IH.
Qed.

(** The names of the trail depend on the components only. *)
Lemma resolve1_names st root t c t' :
  resolve1 st root t c = Ret (Ok t') -> t'.*1 = canon1 t.*1 c.
Proof.
  unfold resolve1, canon1. intros (d & _ & Hr)%bind_Ret. destruct d; [|done]. simpl in Hr.
  destruct (special c).
  - injection Hr as <-. case_bool_decide; [by destruct t|done].
  - unfold enter in Hr. destruct (parts st !! _).
    + apply bind_Ret in Hr as (r & _ & [= <-]). done.
    + unfold try_bind in Hr. apply bind_Ret in Hr as ([n|e] & _ & Hr); [|done]. by injection Hr as <-.
Qed.

Lemma resolve_names st root t cs t' :
  resolve st root t cs = Ret (Ok t') -> t'.*1 = canon t.*1 cs.
Proof.
  revert t. induction cs as [|c cs IH]; intros t; cbn [resolve]; [by intros [= <-]|].
  unfold try_bind. intros ([t1|e] & H1 & Hr)%bind_Ret; [|done]. unfold canon. simpl.
  rewrite <- (resolve1_names _ _ _ _ _ H1). by apply IH.
Qed.

(** The loop over a prefix of the components, [K] being what it does with
    the rest. *)
Lemma loop_resolve st root isparent len i cs rest t p (K : trail -> outcome (result string (vnode (W := W)))) :
  isparent = false \/ (i + length cs <= len - 1)%nat ->
  Forall comp_ok t.*1 -> Forall (fun c => slash ∉ c) cs -> path_rel p t.*1 ->
  (forall t' p', Forall comp_ok t'.*1 -> path_rel p' t'.*1 ->
     walk_loop fuel st root isparent len (i + length cs) rest t'.*2 p' = K t') ->
  walk_loop fuel st root isparent len i (cs ++ rest) t.*2 p = t' ←? resolve st root t cs; K t'.
Proof.
  revert i t p. induction cs as [|c cs IH]; intros i t p Hi Ht Hcs Hp HK.
  { cbn [app resolve]. unfold try_bind. rewrite Ret_bind, <- (HK t p) by done. simpl. by rewrite Nat.add_0_r. }
  apply Forall_cons in Hcs as [Hc Hcs]. cbn [app walk_loop resolve].
  cbn [length] in Hi, HK. rewrite <- Nat.add_succ_comm in HK.
  assert (isparent = false \/ (S i + length cs <= len - 1)%nat) as Hi' by (destruct Hi; [by left|right; lia]).
  assert (default root (head t.*2) = top root t) as -> by (by destruct t).
  unfold resolve1, is_dir, try_bind. destruct (node_meta st (top root t)) as [m| |]; [|done|done].
  rewrite !Ret_bind. destruct (decide (fm_ftype m = Directory)) as [Hd|Hd].
  2:{ rewrite bool_decide_true, bool_decide_false by done. done. }
  rewrite (bool_decide_false (fm_ftype m ≠ Directory)) by (intros Hx; by apply Hx).
  rewrite (bool_decide_true (fm_ftype m = Directory)) by done. cbn [negb].
  destruct (special c) eqn:Hs; cbn [negb].
  - rewrite Ret_bind. case_bool_decide as Hdd; cbn [andb]; [|by apply IH].
    destruct t as [|[c' n'] t]; [by apply (IH _ [])|].
    rewrite bool_decide_false by done. cbn [negb tail].
    change (tail ((c', n') :: t).*2) with t.*2. apply IH; [done|by inversion Ht|done| |done].
    eapply pop_rel; [exact Ht|exact Hp].
  - assert (isparent && (len - 1 <=? i)%nat = false) as ->.
    { destruct Hi as [->|Hi]; [done|]. apply andb_false_iff. right. apply Nat.leb_gt. lia. }
    rewrite (push_rel _ t.*1) by done. unfold enter.
    assert (comp_ok c) by done. destruct (parts st !! key (c :: t.*1)) as [mnt|].
    + destruct (part_root mnt) as [r| |]; [|done|done]. rewrite !Ret_bind.
      apply (IH _ ((c, r) :: t)); [done|by constructor|done..].
    + unfold try_bind. destruct (node_walk fuel st (top root t) c) as [[n|e]| |]; [|done|done|done].
      rewrite !Ret_bind. apply (IH _ ((c, n) :: t)); [done|by constructor|done..].
Qed.

(** The node of the root partition. *)
Definition root_of st : outcome (result string (vnode (W := W))) :=
  match parts st !! [slash] with
  | None => Ret (Err "VFS not initialised")
  | Some p => r ← part_root p; Ret (Ok r)
  end.

Definition resolve_path st (cs : list (list Z)) : outcome (result string (vnode (W := W) * trail)) :=
  root ←? root_of st; t ←? resolve st root [] cs; Ret (Ok (root, t)).

Lemma walk_false st path :
  walk_inner fuel st path false =
    '(root, t) ←? resolve_path st (split path); Ret (Ok (top root t)).
Proof.
  unfold walk_inner, resolve_path, root_of. destruct (parts st !! [slash]) as [p|]; [|done].
  destruct (part_root p) as [root| |]; [|done|done]. unfold try_bind. rewrite !Ret_bind.
  rewrite <- (app_nil_r (split path)) at 2.
  rewrite (loop_resolve st root false _ 0 (split path) [] [] [] (fun t => Ret (Ok (top root t))));
    [|by left|constructor|apply split_comps|by left|by intros [|]].
  unfold try_bind. by destruct (resolve st root [] (split path)) as [[t|e]| |].
Qed.

(** The parent of a path that ends in a name: all components but the last. *)
Lemma walk_true st path cs name :
  split path = cs ++ [name] -> special name = false ->
  walk_inner fuel st path true =
    '(root, t) ←? resolve_path st cs; d ← is_dir st (top root t);
    Ret (if (d : bool) then Ok (top root t) else Err "Directory walk error").
Proof.
  intros Hsp Hs. pose proof (split_comps path) as Hc. unfold walk_inner, resolve_path, root_of.
  destruct (parts st !! [slash]) as [p|]; [|done].
  destruct (part_root p) as [root| |]; [|done|done]. unfold try_bind. rewrite !Ret_bind.
  rewrite Hsp in *. apply Forall_app in Hc as [Hc _].
  rewrite (loop_resolve st root true _ 0 cs [name] [] []
    (fun t : trail => d ← is_dir st (top root t); Ret (if (d : bool) then Ok (top root t) else Err "Directory walk error")));
    [|right; rewrite length_app; simpl; lia|constructor|done|by left|].
  { unfold try_bind. by destruct (resolve st root [] cs) as [[t|e]| |]. }
  intros t p' _ _. cbn [walk_loop]. assert (default root (head t.*2) = top root t) as -> by (by destruct t).
  unfold is_dir. destruct (node_meta st (top root t)) as [m| |]; [|done|done]. rewrite !Ret_bind.
  destruct (decide (fm_ftype m = Directory)) as [Hd|Hd].
  2:{ rewrite bool_decide_true, bool_decide_false by done. done. }
  rewrite (bool_decide_false (fm_ftype m ≠ Directory)) by (intros Hx; by apply Hx).
  rewrite (bool_decide_true (fm_ftype m = Directory)) by done. rewrite Hs. cbn [negb andb].
  destruct (Nat.leb_spec (length (cs ++ [name]) - 1) (0 + length cs)); [done|].
  rewrite length_app in *. simpl in *. lia.
Qed.

Lemma file_name_split path name :
  get_file_name path = Some name -> exists cs, split path = cs ++ [name] /\ comp_ok name.
Proof.
  unfold get_file_name. pose proof (split_ne path) as Hne. pose proof (split_comps path) as Hc.
  destruct (exists_last Hne) as (cs & x & Heq). rewrite Heq in *. rewrite List.last_last.
  destruct (special x) eqn:Hs; [done|]. intros [= <-]. exists cs. split; [done|].
  apply Forall_app in Hc as [_ Hc]. split; [by inversion Hc|done].
Qed.
End Resolve.
