(* ===== verification/VfsThms.v ===== *)
(** * VfsThms: the operations of the virtual file system

    What a successful call changes, and what every path resolves to after it.
    States that only grow ([vfs_le]) keep every successful resolution. *)

From S2P Require Import Prelude RvmFacts Bytes Block Gpt Fat Vfs VfsPath.

Section Vfs.
Context `{Build} {W : Type} (fuel : nat).
Implicit Types (st : Vfs (W := W)) (n m root : vnode (W := W)) (path : list Z).

(** C8: walking a path is the resolution of its components from the root
    over one trail of named nodes, in which every mount point is looked up
    under the canonical path of the trail; the names of the trail are the
    lexical canonical form of the path. *)
Theorem walk_spec st path :
  vfs_walk fuel st path =
    ('(root, t) ←? resolve_path fuel st (split path); Ret (Ok (top root t))) /\
  (forall root t, resolve_path fuel st (split path) = Ret (Ok (root, t)) ->
     key t.*1 = canon_path path).
Proof.
  split; [apply walk_false|]. intros root t. unfold resolve_path, try_bind.
  intros ([r|e] & _ & Hr)%bind_Ret; [|done]. apply bind_Ret in Hr as ([t'|e] & Ht & Hr); [|done].
  injection Hr as -> ->. apply resolve_names in Ht. by rewrite Ht.
Qed.

(** ** Growing states *)

Definition node_le (a b : node (W := W)) : Prop :=
  match a, b with
  | NFile f, NFile f' => fm_ftype (vf_meta f') = fm_ftype (vf_meta f)
  | NDir d, NDir d' => vd_meta d' = vd_meta d /\ vd_files d ⊆ vd_files d'
  | _, _ => False
  end.

Record vfs_le st st' : Prop := {
  vl_store : forall i a, store st !! i = Some a -> exists b, store st' !! i = Some b /\ node_le a b;
  vl_parts : parts st' = parts st;
  vl_world : world st' = world st
}.

Lemma node_le_refl a : node_le a a.
Proof. by destruct a. Qed.
Lemma vfs_le_refl st : vfs_le st st.
Proof. constructor; [|done..]. intros i a Ha. exists a. split; [done|apply node_le_refl]. Qed.

#[export] Instance vfs_le_trans : Transitive vfs_le.
Proof.
  intros a b c [Hs Hp Hw] [Hs' Hp' Hw']. constructor; [|congruence..].
  intros i x Hx. destruct (Hs i x Hx) as (y & Hy & Hxy). destruct (Hs' i y Hy) as (z & Hz & Hyz).
  exists z. split; [done|]. destruct x, y, z; simpl in *; try done; [congruence|].
  destruct Hxy as [Hm Hxy], Hyz as [Hm' Hyz]. split; [congruence|]. by transitivity (vd_files d0).
Qed.

Lemma deref_Some st i a : deref st i = Ret a <-> store st !! i = Some a.
Proof. unfold deref. destruct (store st !! i); simpl; split; congruence. Qed.

Lemma is_dir_le st st' n b : vfs_le st st' -> is_dir st n = Ret b -> is_dir st' n = Ret b.
Proof.
  intros [Hs _ _]. unfold is_dir, node_meta. destruct n as [i| | |]; [|done..].
  intros (m & (a & Ha%deref_Some & [= <-])%bind_Ret & [= <-])%bind_Ret.
  destruct (Hs i a Ha) as (a' & Ha' & Hle). unfold deref. rewrite Ha'. cbn [unwrap]. rewrite !Ret_bind.
  destruct a, a'; simpl in Hle; try done; [by rewrite Hle|]. by destruct Hle as [-> _].
Qed.

Lemma node_walk_le st st' n name m :
  vfs_le st st' -> node_walk fuel st n name = Ret (Ok m) -> node_walk fuel st' n name = Ret (Ok m).
Proof.
  intros [Hs _ Hw]. unfold node_walk. rewrite Hw. destruct n as [i| | |]; [|done..].
  intros (a & Ha%deref_Some & Hr)%bind_Ret. destruct (Hs i a Ha) as (a' & Ha' & Hle).
  unfold deref. rewrite Ha'. cbn [unwrap]. rewrite Ret_bind.
  destruct a as [|d], a' as [|d']; simpl in Hle; try done. destruct Hle as [_ Hle].
  unfold VirtDir_walk in *. destruct (vd_files d !! name) as [m'|] eqn:Hd; [|done].
  by rewrite (lookup_weaken _ _ _ _ Hd Hle).
Qed.

Lemma resolve_le st st' root t cs t' :
  vfs_le st st' -> resolve fuel st root t cs = Ret (Ok t') -> resolve fuel st' root t cs = Ret (Ok t').
Proof.
  intros Hle. revert t. induction cs as [|c cs IH]; intros t; cbn [resolve]; [done|].
  unfold try_bind. intros ([t1|e] & H1 & Hr)%bind_Ret; [|done].
  assert (resolve1 fuel st' root t c = Ret (Ok t1)) as ->; [|by rewrite Ret_bind; apply IH].
  unfold resolve1 in *. apply bind_Ret in H1 as (d & Hd & H1). rewrite (is_dir_le st st' _ d) by done.
  rewrite Ret_bind. destruct d; [|done]. cbn [negb] in *. destruct (special c); [done|].
  unfold enter in *. rewrite (vl_parts _ _ Hle). destruct (parts st !! _); [done|].
  unfold try_bind in *. apply bind_Ret in H1 as ([m|e] & Hw & H1); [|done].
  by rewrite (node_walk_le st st' _ _ m), Ret_bind.
Qed.

Lemma resolve_path_le st st' cs r :
  vfs_le st st' -> resolve_path fuel st cs = Ret (Ok r) -> resolve_path fuel st' cs = Ret (Ok r).
Proof.
  intros Hle. unfold resolve_path, root_of, try_bind. rewrite (vl_parts _ _ Hle).
  intros ([root|e] & Hroot & Hr)%bind_Ret; [|done]. rewrite Hroot, Ret_bind.
  apply bind_Ret in Hr as ([t|e] & Ht & Hr); [|done]. by rewrite (resolve_le st st' _ _ _ t).
Qed.

Lemma walk_le st st' path m :
  vfs_le st st' -> vfs_walk fuel st path = Ret (Ok m) -> vfs_walk fuel st' path = Ret (Ok m).
Proof.
  unfold vfs_walk. rewrite !walk_false. unfold try_bind. intros Hle ([r|e] & Hp & Hr)%bind_Ret; [|done].
  rewrite (resolve_path_le st st' _ r) by done. by rewrite Ret_bind.
Qed.

(** ** The directory of the last component *)

Lemma in_parent_inv path f st r :
  in_parent fuel path f st = Ret r ->
  (exists cs name root t, split path = cs ++ [name] /\ comp_ok name /\
     resolve_path fuel st cs = Ret (Ok (root, t)) /\ is_dir st (top root t) = Ret true /\
     f (top root t) name st = Ret r) \/
  (exists e, r = (st, Err e)).
Proof.
  unfold in_parent, bindM, reads. intros ([st' w] & Hw & Hr)%bind_Ret.
  apply bind_Ret in Hw as (w' & Hw & [= <- <-]). destruct w' as [dir|e]; [|right; injection Hr as <-; eauto].
  destruct (get_file_name path) as [name|] eqn:Hn; [left|right; unfold errM in Hr; injection Hr as <-; eauto].
  destruct (file_name_split path name Hn) as (cs & Hsp & Hok). exists cs, name.
  rewrite (walk_true fuel st path cs name) in Hw; [|done|apply Hok]. unfold try_bind in Hw.
  apply bind_Ret in Hw as ([[root t]|e] & Hp & Hw); [|done].
  apply bind_Ret in Hw as (d & Hd & Hw). destruct d; [|done]. injection Hw as <-. by exists root, t.
Qed.

Lemma is_dir_ref st i :
  is_dir st (VRef i) = Ret true ->
  exists nd, store st !! i = Some nd /\
    fm_ftype (match nd with NFile f => vf_meta f | NDir d => vd_meta d end) = Directory.
Proof.
  unfold is_dir, node_meta. intros (m & (a & Ha%deref_Some & [= <-])%bind_Ret & [= Hd])%bind_Ret.
  exists a. split; [done|]. by apply bool_decide_eq_true in Hd.
Qed.

Lemma on_dir_inv st n f st' :
  on_dir n f st = Ret (st', Ok ()) ->
  exists i d, n = VRef i /\ store st !! i = Some (NDir d) /\ f i d st = Ret (st', Ok ()).
Proof.
  unfold on_dir. destruct n as [i| | |]; [|done..].
  intros (nd & Hnd%deref_Some & Hr)%bind_Ret. destruct nd as [|d]; [done|]. by exists i, d.
Qed.

(** The last step of a walk, into a directory of the store. *)
Lemma walk_last st path cs name root t i d :
  split path = cs ++ [name] -> comp_ok name -> resolve_path fuel st cs = Ret (Ok (root, t)) ->
  top root t = VRef i -> is_dir st (VRef i) = Ret true -> store st !! i = Some (NDir d) ->
  parts st !! canon_path path = None ->
  vfs_walk fuel st path = Ret (VirtDir_walk d name).
Proof.
  intros Hsp [Hc Hs] Hp Htop Hd Hi Hm. unfold vfs_walk. rewrite walk_false, Hsp. unfold resolve_path in *.
  unfold try_bind in *. apply bind_Ret in Hp as ([root'|e] & Hroot & Hp); [|done].
  apply bind_Ret in Hp as ([t'|e] & Ht & Hp); [|done]. injection Hp as -> ->.
  rewrite Hroot, Ret_bind, resolve_app. unfold try_bind. rewrite Ht, Ret_bind. cbn [resolve].
  unfold resolve1, try_bind. rewrite Htop, Hd, Ret_bind. cbn [negb]. rewrite Hs. unfold enter.
  assert (key (name :: t.*1) = canon_path path) as ->.
  { unfold canon_path. rewrite Hsp, canon_app, (resolve_names _ _ _ _ _ _ Ht). unfold canon at 2. simpl.
    unfold canon1 at 1. by rewrite Hs. }
  rewrite Hm, Htop. unfold node_walk, try_bind, deref. rewrite Hi. cbn [unwrap]. rewrite Ret_bind.
  unfold VirtDir_walk. by destruct (vd_files d !! name).
Qed.

(** ** What the operations do to the state *)

Definition add_entry st (i : nat) (d : VirtDir) (name : list Z) n : Vfs :=
  set_store st (<[i := NDir (mkVirtDir (vd_meta d) (<[name := n]> (vd_files d)))]> (store st)).

Lemma link_inv i d name n st st' :
  VirtDir_link i d name n st = Ret (st', Ok ()) ->
  vd_files d !! name = None /\ st' = add_entry st i d name n.
Proof. unfold VirtDir_link. destruct (vd_files d !! name); [done|]. by intros [= <-]. Qed.

Lemma add_entry_le st i d name n :
  store st !! i = Some (NDir d) -> vd_files d !! name = None -> vfs_le st (add_entry st i d name n).
Proof.
  intros Hi Hn. constructor; [|done..]. intros j a Ha. unfold add_entry. cbn [store set_store].
  destruct (decide (i = j)) as [<-|Hne].
  - rewrite list_lookup_insert_eq by (by eapply lookup_lt_Some). eexists. split; [done|].
    assert (a = NDir d) as -> by congruence. split; [done|]. by apply insert_subseteq.
  - rewrite list_lookup_insert_ne by done. exists a. split; [done|apply node_le_refl].
Qed.

Lemma add_entry_at st i d name n :
  store st !! i = Some (NDir d) ->
  store (add_entry st i d name n) !! i =
    Some (NDir (mkVirtDir (vd_meta d) (<[name := n]> (vd_files d)))).
Proof. intros Hi. unfold add_entry. cbn. apply list_lookup_insert_eq. by eapply lookup_lt_Some. Qed.

(** A new name in a directory that [cs] resolves to is found by the walk. *)
Lemma walk_added st st' path cs name root t i d n :
  split path = cs ++ [name] -> comp_ok name -> resolve_path fuel st cs = Ret (Ok (root, t)) ->
  top root t = VRef i -> is_dir st (VRef i) = Ret true -> vfs_le st st' ->
  store st' !! i = Some (NDir d) -> vd_files d !! name = Some n ->
  parts st !! canon_path path = None -> vfs_walk fuel st' path = Ret (Ok n).
Proof.
  intros Hsp Hn Hp Htop Hd Hle Hi Hf Hm.
  rewrite (walk_last st' path cs name root t i d); try done.
  - unfold VirtDir_walk. by rewrite Hf.
  - by apply (resolve_path_le st).
  - by apply (is_dir_le st).
  - by rewrite (vl_parts _ _ Hle).
Qed.

(** after a successful [link] the path resolves to the node that was
    linked, and every path that resolved before resolves to the same node. *)
Theorem link_then_walk st st' path n :
  vfs_link fuel path n st = Ret (st', Ok ()) -> parts st !! canon_path path = None ->
  vfs_walk fuel st' path = Ret (Ok n) /\
  (forall q m, vfs_walk fuel st q = Ret (Ok m) -> vfs_walk fuel st' q = Ret (Ok m)).
Proof.
  intros [(cs & name & root & t & Hsp & Hn & Hp & Hd & Hf)|[e He]]%in_parent_inv Hm; [|done].
  apply on_dir_inv in Hf as (i & d & Htop & Hi & [Hnone ->]%link_inv). rewrite Htop in Hd.
  pose proof (add_entry_le st i d name n Hi Hnone) as Hle. split; [|intros q m; by apply walk_le].
  apply (walk_added st _ path cs name root t i (mkVirtDir (vd_meta d) (<[name := n]> (vd_files d)))); try done.
  - by apply add_entry_at.
  - cbn. by rewrite lookup_insert_eq.
Qed.

(** A node as [create] makes it. *)
Definition fresh_node (fid : Z) (ftype : FType) : node (W := W) :=
  match ftype with
  | Directory => NDir (mkVirtDir (FMeta_default fid 0 Directory) ∅)
  | _ => NFile (mkVFileData (FMeta_default fid 0 Regular) [])
  end.

Lemma create_inv i d name ftype st st' :
  store st !! i = Some (NDir d) -> VirtDir_create i d name ftype st = Ret (st', Ok ()) ->
  exists st1, (ftype = Regular \/ ftype = Directory) /\ vfs_le st st1 /\
    store st1 = store st ++ [fresh_node (fid_next st) ftype] /\ parts st1 = parts st /\
    store st1 !! i = Some (NDir d) /\ fid_next st' = uwrap_add 64 (fid_next st) 1 /\
    vd_files d !! name = None /\ st' = add_entry st1 i d name (VRef (length (store st))).
Proof.
  intros Hi Hc.
  set (st1 := set_store (set_fid st (uwrap_add 64 (fid_next st) 1))
    (store st ++ [fresh_node (fid_next st) ftype])).
  assert ((ftype = Regular \/ ftype = Directory) /\
    VirtDir_link i d name (VRef (length (store st))) st1 = Ret (st', Ok ())) as [Hty Hl].
  { unfold VirtDir_create in Hc. destruct ftype; try done; split; auto. }
  apply link_inv in Hl as [Hnone ->]. exists st1. split_and!; try done.
  - constructor; [|done..]. intros j a Ha. exists a. split; [|apply node_le_refl].
    by apply lookup_app_l_Some.
  - by apply lookup_app_l_Some.
Qed.

(** a successful [create] makes a file or directory that is empty, has
    the next file number and size 0, and that the path then resolves to;
    every path that resolved before resolves to the same node.  Other types
    are refused. *)
Theorem create_then_walk st st' path ftype :
  vfs_create fuel path ftype st = Ret (st', Ok ()) -> parts st !! canon_path path = None ->
  (ftype = Regular \/ ftype = Directory) /\
  vfs_walk fuel st' path = Ret (Ok (VRef (length (store st)))) /\
  (forall a, store st' !! length (store st) = Some a -> a = fresh_node (fid_next st) ftype) /\
  is_Some (store st' !! length (store st)) /\
  (forall q m, vfs_walk fuel st q = Ret (Ok m) -> vfs_walk fuel st' q = Ret (Ok m)).
Proof.
  intros [(cs & name & root & t & Hsp & Hn & Hp & Hd & Hf)|[e He]]%in_parent_inv Hm; [|done].
  apply on_dir_inv in Hf as (i & d & Htop & Hi & Hc). rewrite Htop in Hd.
  destruct (create_inv i d name ftype st st' Hi Hc)
    as (st1 & Hty & Hle1 & Hst1 & Hp1 & Hi1 & _ & Hnone & ->).
  set (new := VRef (length (store st))).
  pose proof (add_entry_le st1 i d name new Hi1 Hnone) as Hle2.
  assert (vfs_le st (add_entry st1 i d name new)) as Hle by (by transitivity st1).
  assert (store (add_entry st1 i d name new) !! length (store st) =
    Some (fresh_node (fid_next st) ftype)) as Hnew.
  { unfold add_entry. cbn. pose proof (lookup_lt_Some _ _ _ Hi). rewrite list_lookup_insert_ne by lia.
    rewrite Hst1. by apply list_lookup_middle. }
  split; [done|]. split; [|split; [|split; [by eexists|intros q m; by apply walk_le]]].
  - apply (walk_added st _ path cs name root t i (mkVirtDir (vd_meta d) (<[name := new]> (vd_files d)))); try done.
    + by apply add_entry_at.
    + cbn. by rewrite lookup_insert_eq.
  - intros a Ha. congruence.
Qed.

(** a name that exists is never overwritten: linking at a path that
    resolves is refused and changes nothing. *)
Theorem link_existing_refused st path n m name :
  vfs_walk fuel st path = Ret (Ok m) -> get_file_name path = Some name ->
  parts st !! canon_path path = None ->
  exists e, vfs_link fuel path n st = Ret (st, Err e) /\
    (e = "File already exists" \/ e = not_a_directory)%string.
Proof.
  intros Hw Hname Hm. destruct (file_name_split path name Hname) as (cs & Hsp & [Hc Hs]).
  unfold vfs_link, in_parent, bindM, reads. rewrite (walk_true fuel st path cs name) by done.
  unfold vfs_walk in Hw. rewrite walk_false, Hsp in Hw. unfold resolve_path, try_bind in *.
  apply bind_Ret in Hw as ([[root0 t0]|e] & Hw & Hlast); [|done]. injection Hlast as Hm'.
  apply bind_Ret in Hw as ([root|e] & Hroot & Hw); [|done].
  apply bind_Ret in Hw as ([t'|e] & Ht & Hw); [|done]. injection Hw as -> ->.
  rewrite resolve_app in Ht. unfold try_bind in Ht. apply bind_Ret in Ht as ([t|e] & Ht & Hr); [|done].
  rewrite Hroot, Ret_bind, Ht, !Ret_bind. cbn [resolve] in Hr. unfold try_bind, resolve1 in Hr.
  apply bind_Ret in Hr as ([t1|e] & Hr & Ht1); [|done]. injection Ht1 as ->. apply bind_Ret in Hr as (b & Hb & Hr).
  rewrite Hb, !Ret_bind. destruct b; [|done]. cbn; rewrite Hname. cbn [negb] in Hr.
  rewrite Hs in Hr. unfold enter in Hr.
  assert (key (name :: t.*1) = canon_path path) as Hk.
  { unfold canon_path. rewrite Hsp, canon_app, (resolve_names _ _ _ _ _ _ Ht). unfold canon at 2. simpl.
    unfold canon1 at 1. by rewrite Hs. }
  rewrite Hk, Hm in Hr. unfold try_bind in Hr. apply bind_Ret in Hr as ([n'|e] & Hr & Hn'); [|done].
  unfold node_link, on_dir. destruct (top _ t) as [i| | |]; [|exists not_a_directory; split; [done|by right]..].
  unfold node_walk in Hr. apply bind_Ret in Hr as (nd & Hnd & [= Hr]). rewrite Hnd, Ret_bind.
  destruct nd as [f|d]; [exists not_a_directory; split; [done|by right]|].
  unfold VirtDir_walk in Hr. unfold VirtDir_link. destruct (vd_files d !! name); [|done].
  eexists. split; [done|by left].
Qed.
End Vfs.
