(* ===== verification/VfsFiles.v ===== *)
(** * VfsFiles: removing names, and the contents of files *)

From S2P Require Import Prelude RvmFacts Bytes Block Gpt Fat Vfs VfsPath VfsThms.

(** ** Virtual files *)

Section VirtFile.
Context `{Build}.
Implicit Types (f : VFileData).

(** The size in the metadata is the number of bytes. *)
Definition file_ok f : Prop :=
  fm_size (vf_meta f) = Z.of_nat (length (vf_data f)) /\ Z.of_nat (length (vf_data f)) < 2 ^ 63.

Lemma vec_resize_ok l n :
  0 <= n < 2 ^ 63 -> vec_resize l n = Ret (take (Z.to_nat n) l ++ zeros (n - Z.of_nat (length l))).
Proof. intros Hn. unfold vec_resize. destruct (Z.ltb_spec n (2 ^ 63)); [done|lia]. Qed.

Lemma file_write_run f buf offset :
  file_ok f -> 0 <= offset -> Z.of_nat (length buf) + offset < 2 ^ 63 ->
  let n := Z.max (Z.of_nat (length buf) + offset) (Z.of_nat (length (vf_data f))) in
  VirtFile_write f buf offset = Ret (mkVFileData (FMeta_set_size (vf_meta f) n)
    (patch (vf_data f ++ zeros (n - Z.of_nat (length (vf_data f)))) (Z.to_nat offset) buf)).
Proof.
  intros [_ Hl] Ho He n. unfold VirtFile_write. rewrite uadd_ok, Ret_bind by lia. fold n.
  rewrite vec_resize_ok, Ret_bind by lia. rewrite take_ge by lia.
  rewrite splice_ok, Ret_bind; [done|lia|].
  unfold zeros. rewrite length_app, length_replicate. lia.
Qed.

(** a write to a virtual file stores the buffer at the offset, keeps
    every other byte, fills a gap behind the old end with zeros, and makes
    the size in the metadata the new length; it does not panic below the
    limit of a vector. *)
Theorem file_write_spec f buf offset :
  file_ok f -> 0 <= offset -> Z.of_nat (length buf) + offset < 2 ^ 63 ->
  exists f', VirtFile_write f buf offset = Ret f' /\ file_ok f' /\
    Z.of_nat (length (vf_data f')) = Z.max (Z.of_nat (length buf) + offset) (Z.of_nat (length (vf_data f))) /\
    forall k, (k < length (vf_data f'))%nat ->
      vf_data f' !! k =
        if decide (offset <= Z.of_nat k < offset + Z.of_nat (length buf))
        then buf !! (k - Z.to_nat offset)%nat
        else if decide (k < length (vf_data f))%nat then vf_data f !! k else Some 0.
Proof.
  intros Hok Ho He. rewrite (file_write_run f buf offset) by done. eexists. split; [done|]. cbn.
  set (n := Z.max _ _). destruct Hok as [_ Hl].
  set (z := zeros (n - Z.of_nat (length (vf_data f)))).
  assert (length z = Z.to_nat (n - Z.of_nat (length (vf_data f)))) as Hz by apply length_replicate.
  assert (Z.of_nat (length (patch (vf_data f ++ z) (Z.to_nat offset) buf)) = n) as Hlen
    by (rewrite patch_length; rewrite length_app; lia).
  unfold file_ok. cbn. rewrite Hlen. split_and!; [done|lia|done|].
  intros k Hk. rewrite lookup_patch by (rewrite length_app; lia). case_decide; case_decide; try lia; [done|].
  case_decide; [by rewrite lookup_app_l|]. rewrite lookup_app_r by lia. unfold z, zeros.
  rewrite lookup_replicate_2; [done|lia].
Qed.

(** A read behind a write sees the buffer that was written. *)
Lemma write_read_run f buf old offset :
  file_ok f -> 0 <= offset -> Z.of_nat (length buf) + offset < 2 ^ 63 -> buf <> [] ->
  length old = length buf ->
  exists f', VirtFile_write f buf offset = Ret f' /\ VirtFile_read f' old offset = Ret (Ok buf).
Proof.
  intros Hok Ho He Hne Hold. rewrite (file_write_run f buf offset) by done. eexists. split; [done|].
  unfold VirtFile_read. cbn. destruct Hok as [_ Hl]. set (n := Z.max _ _).
  set (z := zeros (n - Z.of_nat (length (vf_data f)))).
  assert (length z = Z.to_nat (n - Z.of_nat (length (vf_data f)))) as Hz by apply length_replicate.
  assert (Z.of_nat (length (patch (vf_data f ++ z) (Z.to_nat offset) buf)) = n) as Hlen
    by (rewrite patch_length; rewrite length_app; lia). rewrite Hlen.
  assert (0 < Z.of_nat (length buf)) by (destruct buf; [done|simpl; lia]).
  destruct (Z.leb_spec n offset); [lia|]. rewrite usub_ok, Ret_bind by lia.
  rewrite slice_ok, Ret_bind by lia.
  replace (Z.to_nat (Z.min (Z.of_nat (length old)) (n - offset))) with (length buf) by lia.
  rewrite patch_read by (rewrite length_app; lia). rewrite splice_ok, Ret_bind by lia. unfold patch. simpl.
  rewrite drop_ge by lia. by rewrite app_nil_r.
Qed.

(** truncating sets the length and the size, keeps the bytes below it
    and extends with zeros. *)
Theorem file_truncate_spec f size :
  0 <= size < 2 ^ 63 ->
  exists f', VirtFile_truncate f size = Ret f' /\ file_ok f' /\
    Z.of_nat (length (vf_data f')) = size /\
    forall k, Z.of_nat k < size ->
      vf_data f' !! k = if decide (k < length (vf_data f))%nat then vf_data f !! k else Some 0.
Proof.
  intros Hs. unfold VirtFile_truncate. rewrite vec_resize_ok, Ret_bind by done. eexists. split; [done|].
  unfold file_ok. cbn. rewrite length_app, length_take. unfold zeros. rewrite length_replicate.
  split_and!; [lia..|]. intros k Hk. case_decide.
  - rewrite lookup_app_l by (rewrite length_take; lia). by rewrite lookup_take_lt by lia.
  - rewrite lookup_app_r by (rewrite length_take; lia). rewrite lookup_replicate_2; [done|].
    rewrite length_take. lia.
Qed.

(** a write whose end exceeds the largest vector panics, in every build:
    the sum overflows or wraps below the offset, or the vector cannot grow. *)
Theorem file_write_huge_panics f buf offset :
  file_ok f -> 0 <= offset < 2 ^ 64 -> Z.of_nat (length buf) < 2 ^ 63 -> buf <> [] ->
  2 ^ 63 <= Z.of_nat (length buf) + offset -> VirtFile_write f buf offset = Panic.
Proof.
  intros [_ Hl] Ho Hb Hne He. unfold VirtFile_write, uadd, arith.
  assert (0 < Z.of_nat (length buf)) by (destruct buf; [done|simpl; lia]).
  destruct (fits 64 (Z.of_nat (length buf) + offset)) eqn:Hf.
  - rewrite Ret_bind. unfold vec_resize. destruct (Z.ltb_spec (Z.max (Z.of_nat (length buf) + offset)
      (Z.of_nat (length (vf_data f)))) (2 ^ 63)); [lia|done].
  - assert (2 ^ 64 <= Z.of_nat (length buf) + offset) as Hbig.
    { destruct (decide (Z.of_nat (length buf) + offset < 2 ^ 64)); [|lia].
      assert (fits 64 (Z.of_nat (length buf) + offset) = true) by (apply fits_true; lia). congruence. }
    destruct overflow_checks; [done|]. rewrite Ret_bind.
    set (e := (Z.of_nat (length buf) + offset) mod 2 ^ 64).
    assert (e < offset) as Hlt.
    { unfold e. replace (Z.of_nat (length buf) + offset) with
        ((Z.of_nat (length buf) + offset - 2 ^ 64) + 1 * 2 ^ 64) by lia.
      rewrite Z.mod_add, Z.mod_small by lia. lia. }
    unfold vec_resize. set (n := Z.max _ _). destruct (Z.ltb_spec n (2 ^ 63)); [|done].
    rewrite Ret_bind. unfold splice. set (d := _ ++ _).
    assert (Z.of_nat (length d) <= Z.max 0 n) as Hd.
    { unfold d, zeros. rewrite length_app, length_take, length_replicate. lia. }
    destruct (Z.leb_spec (offset + Z.of_nat (length buf)) (Z.of_nat (length d))); [lia|].
    by rewrite andb_false_r.
Qed.
End VirtFile.

(** ** Names and contents *)

Section Names.
Context `{Build} {W : Type} (fuel : nat).
Implicit Types (st : Vfs (W := W)) (n m root : vnode (W := W)) (path : list Z).

Definition del_entry st (i : nat) (d : VirtDir) (name : list Z) : Vfs (W := W) :=
  set_store st (<[i := NDir (mkVirtDir (vd_meta d) (delete name (vd_files d)))]> (store st)).

Definition gone : string := "No such file".

(** A step after a removal: as before, or the name is gone. *)
Lemma resolve1_del st root t c t' i d name :
  store st !! i = Some (NDir d) -> resolve1 fuel st root t c = Ret (Ok t') ->
  resolve1 fuel (del_entry st i d name) root t c = Ret (Ok t') \/
  resolve1 fuel (del_entry st i d name) root t c = Ret (Err gone).
Proof.
  intros Hi. unfold resolve1.
  assert (forall b, is_dir st (top root t) = Ret b -> is_dir (del_entry st i d name) (top root t) = Ret b) as Hdir.
  { intros b. unfold is_dir, node_meta, deref. destruct (top root t) as [j| | |]; [|done..].
    cbn. destruct (decide (i = j)) as [<-|Hne]; [|by rewrite list_lookup_insert_ne].
    rewrite list_lookup_insert_eq by (by eapply lookup_lt_Some). by rewrite Hi. }
  intros (b & Hb & Hr)%bind_Ret. rewrite (Hdir b Hb), Ret_bind. destruct b; [|done].
  cbn [negb] in *. destruct (special c); [by left|]. unfold enter in *. cbn [parts del_entry set_store].
  destruct (parts st !! _); [by left|]. unfold try_bind in *.
  apply bind_Ret in Hr as ([m|e] & Hw & Hr); [|done]. injection Hr as <-.
  assert (node_walk fuel (del_entry st i d name) (top root t) c = Ret (Ok m) \/
          node_walk fuel (del_entry st i d name) (top root t) c = Ret (Err gone)) as [->| ->];
    [|rewrite Ret_bind; by left|by right].
  unfold node_walk, deref in *. destruct (top root t) as [j| | |]; [|by left..]. cbn.
  destruct (decide (i = j)) as [<-|Hne]; [|rewrite list_lookup_insert_ne by done; by left].
  rewrite list_lookup_insert_eq by (by eapply lookup_lt_Some). rewrite Hi in Hw. cbn in *.
  injection Hw as Hw. rewrite Ret_bind. unfold VirtDir_walk in *. cbn.
  destruct (decide (name = c)) as [<-|Hnc]; [rewrite lookup_delete_eq; by right|].
  rewrite lookup_delete_ne by done. left. by rewrite Hw.
Qed.

Lemma resolve_del st root t cs t' i d name :
  store st !! i = Some (NDir d) -> resolve fuel st root t cs = Ret (Ok t') ->
  resolve fuel (del_entry st i d name) root t cs = Ret (Ok t') \/
  resolve fuel (del_entry st i d name) root t cs = Ret (Err gone).
Proof.
  intros Hi. revert t. induction cs as [|c cs IH]; intros t; cbn [resolve]; [by left|].
  unfold try_bind. intros ([t1|e] & H1 & Hr)%bind_Ret; [|done].
  destruct (resolve1_del st root t c t1 i d name Hi H1) as [->| ->]; rewrite Ret_bind; [by apply IH|by right].
Qed.

Lemma resolve_path_del st cs r i d name :
  store st !! i = Some (NDir d) -> resolve_path fuel st cs = Ret (Ok r) ->
  resolve_path fuel (del_entry st i d name) cs = Ret (Ok r) \/
  resolve_path fuel (del_entry st i d name) cs = Ret (Err gone).
Proof.
  intros Hi. unfold resolve_path, root_of. cbn [parts del_entry set_store]. unfold try_bind.
  intros ([root|e] & Hroot & Hr)%bind_Ret; [|done]. rewrite Hroot, Ret_bind.
  apply bind_Ret in Hr as ([t|e] & Ht & Hr); [|done].
  destruct (resolve_del st root [] cs t i d name Hi Ht) as [->| ->]; rewrite Ret_bind; [by left|by right].
Qed.

Lemma walk_del st path m i d name :
  store st !! i = Some (NDir d) -> vfs_walk fuel st path = Ret (Ok m) ->
  vfs_walk fuel (del_entry st i d name) path = Ret (Ok m) \/
  vfs_walk fuel (del_entry st i d name) path = Ret (Err gone).
Proof.
  intros Hi. unfold vfs_walk. rewrite !walk_false. unfold try_bind.
  intros ([[root t]|e] & Hp & Hr)%bind_Ret; [|done].
  destruct (resolve_path_del st _ _ i d name Hi Hp) as [->| ->]; rewrite Ret_bind; [by left|by right].
Qed.

(** after a successful [unlink] the path no longer resolves, and every
    other path resolves to the same node as before unless it went through
    the removed name: then the error says so. *)
Theorem unlink_then_walk st st' path :
  vfs_unlink fuel path st = Ret (st', Ok ()) -> parts st !! canon_path path = None ->
  vfs_walk fuel st' path = Ret (Err gone) /\
  (forall q m, vfs_walk fuel st q = Ret (Ok m) ->
     vfs_walk fuel st' q = Ret (Ok m) \/ vfs_walk fuel st' q = Ret (Err gone)).
Proof.
  intros [(cs & name & root & t & Hsp & Hn & Hp & Hd & Hf)|[e He]]%in_parent_inv Hm; [|done].
  apply on_dir_inv in Hf as (i & d & Htop & Hi & Hr). rewrite Htop in Hd.
  unfold VirtDir_remove in Hr. destruct (vd_files d !! name) eqn:Hname; [|done]. injection Hr as <-.
  fold (del_entry st i d name). split; [|intros q m'; by apply walk_del].
  assert (store (del_entry st i d name) !! i = Some (NDir (mkVirtDir (vd_meta d) (delete name (vd_files d))))) as Hi'
    by (apply list_lookup_insert_eq; by eapply lookup_lt_Some).
  assert (is_dir (del_entry st i d name) (VRef i) = Ret true) as Hd'.
  { unfold is_dir, node_meta, deref in *. rewrite Hi'. rewrite Hi in Hd. exact Hd. }
  destruct (resolve_path_del st cs _ i d name Hi Hp) as [Hp'|Hp'].
  - rewrite (walk_last fuel _ path cs name root t i _ Hsp Hn Hp' Htop Hd' Hi' Hm). unfold VirtDir_walk. cbn.
    by rewrite lookup_delete_eq.
  - unfold vfs_walk. rewrite walk_false, Hsp. revert Hp'. unfold resolve_path, try_bind.
    intros ([r|e] & -> & Hp')%bind_Ret; rewrite ?Ret_bind; [|by injection Hp' as ->].
    apply bind_Ret in Hp' as ([t'|e] & Ht & Hp'); [done|]. injection Hp' as ->.
    rewrite resolve_app. unfold try_bind. by rewrite Ht.
Qed.

Lemma set_file_le st i f f' :
  store st !! i = Some (NFile f) -> fm_ftype (vf_meta f') = fm_ftype (vf_meta f) ->
  vfs_le st (set_store st (<[i := NFile f']> (store st))).
Proof.
  intros Hi Hf. constructor; [|done..]. intros j a Ha. cbn.
  destruct (decide (i = j)) as [<-|Hne].
  - rewrite list_lookup_insert_eq by (by eapply lookup_lt_Some). eexists. split; [done|].
    assert (a = NFile f) as -> by congruence. done.
  - rewrite list_lookup_insert_ne by done. exists a. split; [done|apply node_le_refl].
Qed.

(** C36: what is written to a file under one path is read back under every
    path that resolves to the same file (hard links share the contents), and
    no path changes its meaning. *)
Theorem write_then_read_shared st path path' i f buf old offset :
  vfs_walk fuel st path = Ret (Ok (VRef i)) -> vfs_walk fuel st path' = Ret (Ok (VRef i)) ->
  store st !! i = Some (NFile f) -> file_ok f ->
  0 <= offset -> Z.of_nat (length buf) + offset < 2 ^ 63 -> buf <> [] -> length old = length buf ->
  exists st', vfs_write fuel path buf offset st = Ret (st', Ok ()) /\
    vfs_read fuel path' old offset st' = Ret (st', Ok buf) /\
    (forall q m, vfs_walk fuel st q = Ret (Ok m) -> vfs_walk fuel st' q = Ret (Ok m)).
Proof.
  intros Hw Hw' Hi Hok Ho He Hne Hold.
  destruct (write_read_run f buf old offset Hok Ho He Hne Hold) as (f' & Hwr & Hrd).
  assert (fm_ftype (vf_meta f') = fm_ftype (vf_meta f)) as Hty.
  { rewrite (file_write_run f buf offset) in Hwr by done. by injection Hwr as <-. }
  pose proof (set_file_le st i f f' Hi Hty) as Hle.
  set (st' := set_store st (<[i := NFile f']> (store st))) in *. exists st'.
  assert (store st' !! i = Some (NFile f')) as Hi'
    by (apply list_lookup_insert_eq; by eapply lookup_lt_Some).
  split_and!; [| |intros q m; by apply walk_le].
  - unfold vfs_write, bindM, reads. fold (vfs_walk fuel st path). rewrite Hw, !Ret_bind.
    unfold node_write, deref. rewrite Hi. cbn [unwrap]. by rewrite Ret_bind, Hwr.
  - unfold vfs_read, bindM, reads. fold (vfs_walk fuel st' path').
    rewrite (walk_le fuel st st' path' _ Hle Hw'), !Ret_bind.
    unfold node_read, deref. rewrite Hi'. cbn [unwrap]. by rewrite Ret_bind, Hrd.
Qed.
End Names.

(** * Mount points *)

Section Mount.
Context `{Build} {W : Type} (fuel : nat).
Implicit Types (st : Vfs (W := W)) (n m root : vnode (W := W)) (path : list Z) (part : partition (W := W)).

Lemma mount_inv st st' path part :
  vfs_mount fuel path part st = Ret (st', Ok ()) ->
  parts st !! path = None /\ st' = set_parts st (<[path := part]> (parts st)) /\
  path <> [slash] /\
  exists root t, resolve_path fuel st (split path) = Ret (Ok (root, t)) /\
    is_dir st (top root t) = Ret true.
Proof.
  unfold vfs_mount. destruct (parts st !! path) eqn:Hp; [done|].
  intros (r & Hw & Hr)%bind_Ret. destruct r as [dir|e]; [|done].
  apply bind_Ret in Hr as (meta & Hmeta & Hr). case_bool_decide as Hd; [done|]. injection Hr as <-.
  rewrite walk_false in Hw. unfold try_bind in Hw.
  apply bind_Ret in Hw as ([[root t]|e] & Hres & Hw); [|done]. injection Hw as <-.
  split_and!; [done|done| |].
  - intros ->. unfold resolve_path, root_of in Hres. by rewrite Hp in Hres.
  - exists root, t. split; [done|]. unfold is_dir. rewrite Hmeta, Ret_bind. f_equal.
    apply bool_decide_true. by destruct (decide (fm_ftype meta = Directory)).
Qed.

(** Mounting changes what is found only under the key itself. *)
Lemma enter_mount st root t c path part :
  key (c :: t.*1) <> path ->
  enter fuel (set_parts st (<[path := part]> (parts st))) root t c = enter fuel st root t c.
Proof. intros Hk. unfold enter. cbn [parts set_parts]. by rewrite lookup_insert_ne. Qed.

Lemma resolve1_mount st root t c path part :
  (special c = false -> key (c :: t.*1) <> path) ->
  resolve1 fuel (set_parts st (<[path := part]> (parts st))) root t c = resolve1 fuel st root t c.
Proof.
  intros Hk. unfold resolve1.
  change (is_dir (set_parts st (<[path := part]> (parts st))) (top root t)) with (is_dir st (top root t)).
  destruct (is_dir st (top root t)) as [b| |]; [|done..]. rewrite !Ret_bind. destruct (negb b); [done|].
  destruct (special c); [done|]. by apply enter_mount, Hk.
Qed.

Lemma root_mount st path part :
  path <> [slash] -> root_of (set_parts st (<[path := part]> (parts st))) = root_of st.
Proof. intros Hp. unfold root_of. cbn [parts set_parts]. by rewrite lookup_insert_ne. Qed.

Lemma resolve_inert st root t cs path part :
  canon_path path <> path -> Forall comp_ok t.*1 -> Forall (fun c => slash ∉ c) cs ->
  resolve fuel (set_parts st (<[path := part]> (parts st))) root t cs = resolve fuel st root t cs.
Proof.
  intros Hp. revert t. induction cs as [|c cs IH]; intros t Ht Hcs; [done|].
  apply Forall_cons in Hcs as [Hc Hcs]. cbn [resolve]. rewrite resolve1_mount.
  - unfold try_bind. destruct (resolve1 fuel st root t c) as [[t1|e]| |] eqn:H1; [|done..].
    rewrite !Ret_bind. apply IH; [|done]. rewrite (resolve1_names _ _ _ _ _ _ H1).
    apply (canon_ok _ [c]); [done|by constructor].
  - intros Hs Hk. apply Hp. rewrite <- Hk. apply canon_key. by constructor.
Qed.

(** C40: mounting under a path that is not in canonical form (a trailing or a
    doubled slash, "." or "..", no leading slash) succeeds and has no effect:
    every path resolves as before, so the file system cannot be reached. *)
Theorem noncanonical_mount_inert st st' path part :
  vfs_mount fuel path part st = Ret (st', Ok ()) -> canon_path path <> path ->
  forall q, vfs_walk fuel st' q = vfs_walk fuel st q.
Proof.
  intros (_ & -> & Hns & _)%mount_inv Hp q. unfold vfs_walk. rewrite !walk_false. f_equal.
  unfold resolve_path. rewrite root_mount by done. unfold try_bind.
  destruct (root_of st) as [[root|e]| |]; [|done..]. rewrite !Ret_bind.
  rewrite resolve_inert; [done|done|constructor|apply split_comps].
Qed.

Lemma resolve_below st root t names path part :
  Forall comp_ok names -> (length (key (rev names ++ t.*1)) < length path)%nat ->
  resolve fuel (set_parts st (<[path := part]> (parts st))) root t names = resolve fuel st root t names.
Proof.
  revert t. induction names as [|c names IH]; intros t Hn Hl; [done|].
  apply Forall_cons in Hn as [[Hc Hs] Hn]. cbn [resolve rev] in *. rewrite <- app_assoc in Hl. simpl in Hl.
  assert (forall a b, (length (key b) <= length (key (a ++ b)))%nat) as Hmono.
  { intros a b. induction a as [|x a IHa]; [done|]. cbn [app key]. rewrite length_app. lia. }
  rewrite resolve1_mount.
  - unfold try_bind. destruct (resolve1 fuel st root t c) as [[t1|e]| |] eqn:H1; [|done..].
    rewrite !Ret_bind. apply IH; [done|]. rewrite (resolve1_names _ _ _ _ _ _ H1). unfold canon1. by rewrite Hs.
  - intros _ <-. specialize (Hmono (rev names) (c :: t.*1)). lia.
Qed.

(** after a successful [mount] under a canonical path, the path resolves
    to the root of the mounted file system. *)
Theorem mount_then_walk st st' path part :
  vfs_mount fuel path part st = Ret (st', Ok ()) -> canon_path path = path -> path <> [] ->
  vfs_walk fuel st' path = (r ← part_root part; Ret (Ok r)).
Proof.
  intros (Hnone & -> & Hns & root & t & Hres & _)%mount_inv Hp Hne.
  pose proof (canon_ok [] (split path) ltac:(constructor) (split_comps path)) as Hok.
  unfold canon_path in Hp. destruct (canon [] (split path)) as [|c names] eqn:Hcan; [by subst|].
  assert (Forall (fun c => slash ∉ c) (c :: names)) as Hsl
    by (eapply Forall_impl; [exact Hok|]; by intros x [? _]).
  assert (split path = ([] :: rev names) ++ [c]) as Hsp by (rewrite <- Hp, split_key by done; done).
  unfold vfs_walk. rewrite walk_false, Hsp. unfold resolve_path in *. rewrite root_mount by done.
  unfold try_bind in *. apply bind_Ret in Hres as ([root'|e] & Hroot & Hres); [|done].
  apply bind_Ret in Hres as ([t'|e] & Ht & Hres); [|done]. injection Hres as -> ->.
  rewrite Hroot, Ret_bind. rewrite Hsp, resolve_app in Ht. unfold try_bind in Ht.
  apply bind_Ret in Ht as ([t1|e] & Ht & Hlast); [|done]. rewrite resolve_app. unfold try_bind.
  pose proof (resolve_names _ _ _ _ _ _ Ht) as Hn1. change (canon _ _) with (canon [] (rev names)) in Hn1.
  apply Forall_cons in Hok as [[Hc Hs] Hok]. rewrite canon_comps, app_nil_r in Hn1 by done.
  assert (resolve fuel (set_parts st (<[path := part]> (parts st))) root [] ([] :: rev names) = Ret (Ok t1)) as ->.
  { cbn [resolve] in *. rewrite resolve1_mount by done. unfold try_bind in *.
    apply bind_Ret in Ht as ([t0|e] & H0 & Ht); [|done]. rewrite H0, Ret_bind.
    rewrite resolve_below; [done|by apply Forall_rev|]. rewrite (resolve1_names _ _ _ _ _ _ H0).
    change (canon1 _ _) with (@nil (list Z)). rewrite rev_involutive, app_nil_r, <- Hp. apply key_length_lt. }
  rewrite Ret_bind. cbn [resolve] in *. unfold try_bind, resolve1 in *.
  apply bind_Ret in Hlast as ([t2|e] & Hlast & Ht2); [|done]. apply bind_Ret in Hlast as (b & Hb & Hlast).
  change (is_dir (set_parts st (<[path := part]> (parts st)))) with (is_dir (W := W) st).
  destruct b; [|done]. rewrite Hb, Ret_bind. cbn [negb]. rewrite Hs. unfold enter. rewrite Hn1, Hp.
  cbn [parts set_parts]. rewrite lookup_insert_eq. by destruct (part_root part).
Qed.

(** unmounting what was mounted restores the file system. *)
Theorem mount_unmount st st' path part :
  vfs_mount fuel path part st = Ret (st', Ok ()) ->
  vfs_unmount path st' = Ret (st, Ok ()).
Proof.
  intros (Hnone & -> & Hns & _)%mount_inv. unfold vfs_unmount. rewrite bool_decide_false by done.
  cbn [parts set_parts]. rewrite lookup_insert_eq. rewrite delete_insert_id by done. by destruct st.
Qed.
End Mount.
