(* ===== verification/VfsWf.v ===== *)
(** * VfsWf: the invariant of the virtual file system

    The calls of the public interface as a step relation; every state that
    they reach is well formed, and in a well-formed state no walk fails for
    want of a node. *)

From S2P Require Import Prelude RvmFacts Bytes Block Gpt Fat Vfs VfsPath VfsThms VfsFiles.

Section Wf.
Context `{Build} {W : Type} (fuel : nat).
Implicit Types (st : Vfs (W := W)) (n m root : vnode (W := W)) (path : list Z) (part : partition (W := W)).

Definition ref_ok (len : nat) n : Prop := match n with VRef i => (i < len)%nat | _ => True end.
Definition node_ok (len : nat) (nd : node (W := W)) : Prop :=
  match nd with
  | NFile f => file_ok f /\ fm_ftype (vf_meta f) = Regular
  | NDir d => fm_ftype (vd_meta d) = Directory /\ map_Forall (fun _ n => ref_ok len n) (vd_files d)
  end.
Definition part_ok st part : Prop :=
  match part with PVirt i => exists d, store st !! i = Some (NDir d) | PFat _ => True end.

Record wf st : Prop := {
  wf_nodes : Forall (node_ok (length (store st))) (store st);
  wf_parts : map_Forall (fun _ p => part_ok st p) (parts st);
  wf_root : is_Some (parts st !! [slash])
}.

(** A call of the interface; the nodes and partitions passed to it exist. *)
Inductive vfs_step st : Vfs (W := W) -> Prop :=
  | step_new_file n st' : bindM VirtFile_new Arc_new st = Ret (st', Ok n) -> vfs_step st st'
  | step_new_dir n st' : bindM VirtDir_new Arc_new st = Ret (st', Ok n) -> vfs_step st st'
  | step_create path ty r st' : vfs_create fuel path ty st = Ret (st', r) -> vfs_step st st'
  | step_link path n r st' : ref_ok (length (store st)) n ->
      vfs_link fuel path n st = Ret (st', r) -> vfs_step st st'
  | step_unlink path r st' : vfs_unlink fuel path st = Ret (st', r) -> vfs_step st st'
  | step_write path buf offset r st' : 0 <= offset < 2 ^ 64 ->
      vfs_write fuel path buf offset st = Ret (st', r) -> vfs_step st st'
  | step_truncate path size r st' : 0 <= size < 2 ^ 64 ->
      vfs_truncate fuel path size st = Ret (st', r) -> vfs_step st st'
  | step_mount path part r st' : part_ok st part ->
      vfs_mount fuel path part st = Ret (st', r) -> vfs_step st st'
  | step_unmount path r st' : vfs_unmount path st = Ret (st', r) -> vfs_step st st'.

Lemma ref_ok_mono a b n : (a <= b)%nat -> ref_ok a n -> ref_ok b n.
Proof. destruct n; simpl; [lia|done..]. Qed.
Lemma node_ok_mono a b nd : (a <= b)%nat -> node_ok a nd -> node_ok b nd.
Proof.
  destruct nd as [|d]; simpl; [done|]. intros Hle [Ht Hf]. split; [done|].
  intros k x Hx. eapply ref_ok_mono; [exact Hle|]. by apply (Hf k).
Qed.

(** Appending a node. *)
Lemma wf_app st nd : wf st -> node_ok (length (store st)) nd ->
  wf (set_store st (store st ++ [nd])).
Proof.
  intros [Hn Hp Hr] Hnd. assert (length (store st) <= length (store st ++ [nd]))%nat as Hle
    by (rewrite length_app; lia).
  constructor; [| |done]; cbn [store set_store parts].
  - apply Forall_app. split; [|apply Forall_singleton; by eapply node_ok_mono].
    eapply Forall_impl; [exact Hn|]. intros x. by apply node_ok_mono.
  - intros k p Hk. specialize (Hp k p Hk). destruct p as [i|]; [|done]. destruct Hp as [d Hd]. exists d.
    by apply lookup_app_l_Some.
Qed.

(** Replacing a node by one of its kind. *)
Lemma wf_set st i nd nd' : wf st -> store st !! i = Some nd -> node_ok (length (store st)) nd' ->
  match nd, nd' with NFile _, NFile _ | NDir _, NDir _ => True | _, _ => False end ->
  wf (set_store st (<[i := nd']> (store st))).
Proof.
  intros [Hn Hp Hr] Hi Hnd Hk. constructor; [| |done]; cbn [store set_store parts].
  - rewrite length_insert. by apply Forall_insert.
  - intros k p Hkp. specialize (Hp k p Hkp). destruct p as [j|]; [|done]. destruct Hp as [d Hd]. cbn.
    destruct (decide (i = j)) as [<-|]; [|exists d; by rewrite list_lookup_insert_ne].
    rewrite list_lookup_insert_eq by (by eapply lookup_lt_Some).
    assert (nd = NDir d) as -> by congruence. destruct nd'; [done|]. by eexists.
Qed.

Lemma wf_fid st f : wf st -> wf (set_fid st f).
Proof. intros [? ? ?]. by constructor. Qed.
Lemma wf_world st w : wf st -> wf (set_world st w).
Proof. intros [? ? ?]. by constructor. Qed.

Lemma node_at st i nd : wf st -> store st !! i = Some nd -> node_ok (length (store st)) nd.
Proof. intros [Hn _ _] Hi. rewrite Forall_lookup in Hn. by apply (Hn i). Qed.

Lemma wf_new_file st : wf st -> exists n st',
  bindM VirtFile_new Arc_new st = Ret (st', Ok n) /\ wf st' /\ n = VRef (length (store st)) /\
  length (store st') = S (length (store st)) /\ (forall i a, store st !! i = Some a -> store st' !! i = Some a).
Proof.
  intros Hwf. eexists _, _. split; [done|]. split.
  - apply (wf_app (set_fid st _)); [by apply wf_fid|]. split; [|done]. unfold file_ok. simpl. lia.
  - cbn. rewrite length_app, Nat.add_1_r. split_and!; [done..|]. intros i a Ha. by apply lookup_app_l_Some.
Qed.
Lemma wf_new_dir st : wf st -> exists n st',
  bindM VirtDir_new Arc_new st = Ret (st', Ok n) /\ wf st' /\ n = VRef (length (store st)) /\
  length (store st') = S (length (store st)) /\ (forall i a, store st !! i = Some a -> store st' !! i = Some a).
Proof.
  intros Hwf. eexists _, _. split; [done|]. split.
  - apply (wf_app (set_fid st _)); [by apply wf_fid|]. simpl. split; [done|]. apply map_Forall_empty.
  - cbn. rewrite length_app, Nat.add_1_r. split_and!; [done..|]. intros i a Ha. by apply lookup_app_l_Some.
Qed.

Lemma wf_dir_link st i d name n st' r : wf st -> store st !! i = Some (NDir d) ->
  ref_ok (length (store st)) n -> VirtDir_link i d name n st = Ret (st', r) -> wf st'.
Proof.
  intros Hwf Hi Hn. unfold VirtDir_link. destruct (vd_files d !! name); intros [= <- <-]; [done|].
  apply (wf_set st i (NDir d)); try done. destruct (node_at st i _ Hwf Hi) as [Ht Hf].
  split; [done|]. by apply map_Forall_insert_2.
Qed.

Lemma wf_dir_create st i d name ty st' r : wf st -> store st !! i = Some (NDir d) ->
  VirtDir_create i d name ty st = Ret (st', r) -> wf st'.
Proof.
  intros Hwf Hi. unfold VirtDir_create.
  destruct ty; try (intros [= <- <-]; exact Hwf); unfold bindM at 1.
  - destruct (wf_new_dir st Hwf) as (n & st1 & -> & Hwf1 & -> & Hl & Hs). rewrite Ret_bind.
    apply wf_dir_link; [done|by apply Hs|simpl; lia].
  - destruct (wf_new_file st Hwf) as (n & st1 & -> & Hwf1 & -> & Hl & Hs). rewrite Ret_bind.
    apply wf_dir_link; [done|by apply Hs|simpl; lia].
Qed.

Lemma wf_dir_remove st i d name st' r : wf st -> store st !! i = Some (NDir d) ->
  VirtDir_remove i d name st = Ret (st', r) -> wf st'.
Proof.
  intros Hwf Hi. unfold VirtDir_remove. destruct (vd_files d !! name); intros [= <- <-]; [|done].
  apply (wf_set st i (NDir d)); try done. destruct (node_at st i _ Hwf Hi) as [Ht Hf].
  split; [done|]. by apply map_Forall_delete.
Qed.

(** A call on the parent directory that keeps the invariant when the
    directory's method does. *)
Lemma wf_on_parent st path (f : nat -> VirtDir -> list Z -> M (W := W) unit) st' r :
  wf st -> (forall i d name st' r, store st !! i = Some (NDir d) -> f i d name st = Ret (st', r) -> wf st') ->
  in_parent fuel path (fun dir name => on_dir dir (fun i d => f i d name)) st = Ret (st', r) -> wf st'.
Proof.
  intros Hwf Hf [(cs & name & root & t & _ & _ & _ & _ & Hr)|[e [= -> _]]]%in_parent_inv; [|done].
  unfold on_dir in Hr. destruct (top root t) as [i| | |]; [|by injection Hr as <- _..].
  apply bind_Ret in Hr as (nd & Hnd%deref_Some & Hr). destruct nd as [|d]; [by injection Hr as <- _|].
  by apply (Hf i d name st' r).
Qed.

Lemma file_write_ok f buf offset f' :
  file_ok f -> 0 <= offset < 2 ^ 64 -> VirtFile_write f buf offset = Ret f' ->
  file_ok f' /\ fm_ftype (vf_meta f') = fm_ftype (vf_meta f).
Proof.
  intros [_ Hl] Ho. unfold VirtFile_write. intros (e & He & Hr)%bind_Ret.
  apply arith_range in He; [|lia]. apply bind_Ret in Hr as (d & Hd & Hr).
  apply bind_Ret in Hr as (d' & Hd' & [= <-]). unfold vec_resize in Hd.
  set (n := Z.max e _) in *. destruct (Z.ltb_spec n (2 ^ 63)); [|done]. injection Hd as <-.
  unfold splice in Hd'. set (d := _ ++ _) in Hd'.
  assert (Z.of_nat (length d) = n) as Hd
    by (unfold d, zeros; rewrite length_app, length_take, length_replicate; lia).
  destruct (Z.leb_spec 0 offset), (Z.leb_spec (offset + Z.of_nat (length buf)) (Z.of_nat (length d)));
    try done. injection Hd' as <-. unfold file_ok. cbn. split; [|done].
  rewrite !length_app, length_take, length_drop. lia.
Qed.

Lemma file_truncate_ok f size f' :
  0 <= size < 2 ^ 64 -> VirtFile_truncate f size = Ret f' ->
  file_ok f' /\ fm_ftype (vf_meta f') = fm_ftype (vf_meta f).
Proof.
  intros Hs. unfold VirtFile_truncate. intros (d & Hd & [= <-])%bind_Ret. unfold vec_resize in Hd.
  destruct (Z.ltb_spec size (2 ^ 63)); [|done]. injection Hd as <-. unfold file_ok, zeros. cbn. split; [|done].
  rewrite length_app, length_take, length_replicate. lia.
Qed.

Lemma wf_on_file st path st' r (f : vnode (W := W) -> M (W := W) unit) :
  wf st -> (forall n st' r, f n st = Ret (st', r) -> wf st') ->
  bindM (reads (fun st => walk_inner fuel st path false)) f st = Ret (st', r) -> wf st'.
Proof.
  intros Hwf Hf. unfold bindM, reads. intros ([st1 w] & Hw & Hr)%bind_Ret.
  apply bind_Ret in Hw as (w' & _ & [= <- <-]). destruct w'; [by apply (Hf _ _ _ Hr)|by injection Hr as <- _].
Qed.

Lemma wf_node_write st n buf offset st' r : wf st -> 0 <= offset < 2 ^ 64 ->
  node_write n buf offset st = Ret (st', r) -> wf st'.
Proof.
  intros Hwf Ho. unfold node_write. destruct n as [i|d|d|f]; [| | |by intros [= <- _]].
  - intros (nd & Hnd%deref_Some & Hr)%bind_Ret. destruct nd as [f|]; [|by injection Hr as <- _].
    apply bind_Ret in Hr as (f' & Hf & [= <- _]). destruct (node_at st i _ Hwf Hnd) as [Hfo Ht].
    apply (wf_set st i (NFile f)); try done. destruct (file_write_ok f buf offset f' Hfo Ho Hf).
    split; [done|]. congruence.
  - intros ([w x] & _ & [= <- _])%bind_Ret. by apply wf_world.
  - intros ([w x] & _ & [= <- _])%bind_Ret. by apply wf_world.
Qed.

Lemma wf_node_truncate st n size st' r : wf st -> 0 <= size < 2 ^ 64 ->
  node_truncate n size st = Ret (st', r) -> wf st'.
Proof.
  intros Hwf Hs. unfold node_truncate. destruct n as [i|d|d|f]; [|by intros [= <- _]..].
  intros (nd & Hnd%deref_Some & Hr)%bind_Ret. destruct nd as [f|]; [|by injection Hr as <- _].
  apply bind_Ret in Hr as (f' & Hf & [= <- _]). destruct (node_at st i _ Hwf Hnd) as [Hfo Ht].
  apply (wf_set st i (NFile f)); try done. destruct (file_truncate_ok f size f' Hs Hf).
  split; [done|]. congruence.
Qed.

Lemma wf_mount st path part st' r : wf st -> part_ok st part ->
  vfs_mount fuel path part st = Ret (st', r) -> wf st'.
Proof.
  intros Hwf Hpo. unfold vfs_mount. destruct (parts st !! path) eqn:Hp; [by intros [= <- _]|].
  intros (w & _ & Hr)%bind_Ret. destruct w as [dir|]; [|by injection Hr as <- _].
  apply bind_Ret in Hr as (meta & _ & Hr). case_bool_decide; injection Hr as <- _; [done|].
  destruct Hwf as [Hn Hps Hroot]. constructor; cbn [store parts set_parts]; [done| |].
  - by apply map_Forall_insert_2.
  - rewrite lookup_insert_is_Some. destruct (decide (path = [slash])); auto.
Qed.

Lemma wf_unmount st path st' r : wf st -> vfs_unmount path st = Ret (st', r) -> wf st'.
Proof.
  intros Hwf. unfold vfs_unmount. case_bool_decide as Hp; [by intros [= <- _]|].
  destruct (parts st !! path); intros [= <- _]; [|done].
  destruct Hwf as [Hn Hps Hroot]. constructor; cbn [store parts set_parts]; [done| |].
  - by apply map_Forall_delete.
  - by rewrite lookup_delete_ne.
Qed.

Lemma step_wf st st' : wf st -> vfs_step st st' -> wf st'.
Proof.
  intros Hwf Hs. destruct Hs as [n st' Hr|n st' Hr|path ty r st' Hr|path n r st' Hn Hr|path r st' Hr
    |path buf o r st' Ho Hr|path sz r st' Hz Hr|path part r st' Hp Hr|path r st' Hr].
  - destruct (wf_new_file st Hwf) as (n' & st1 & Hr' & ? & _). congruence.
  - destruct (wf_new_dir st Hwf) as (n' & st1 & Hr' & ? & _). congruence.
  - eapply (wf_on_parent st path (fun i d name => VirtDir_create i d name ty)); [done| |exact Hr].
    intros i d name st1 r1 Hi. by apply wf_dir_create.
  - eapply (wf_on_parent st path (fun i d name => VirtDir_link i d name n)); [done| |exact Hr].
    intros i d name st1 r1 Hi. by apply wf_dir_link.
  - eapply (wf_on_parent st path (fun i d name => VirtDir_remove i d name)); [done| |exact Hr].
    intros i d name st1 r1 Hi. by apply wf_dir_remove.
  - eapply wf_on_file; [done| |exact Hr]. intros n st1 r1. by apply wf_node_write.
  - eapply wf_on_file; [done| |exact Hr]. intros n st1 r1. by apply wf_node_truncate.
  - by eapply wf_mount.
  - by eapply wf_unmount.
Qed.

Lemma init_wf w st0 : vfs_init (mkVfs [] ∅ FID_init w) = Ret (st0, Ok ()) -> wf st0.
Proof.
  intros [= <-]. constructor; cbn.
  - apply Forall_singleton. split; [done|]. apply map_Forall_empty.
  - intros k p Hk. rewrite insert_empty in Hk. apply lookup_singleton_Some in Hk as [_ <-]. by eexists.
  - by rewrite lookup_insert_eq.
Qed.

Lemma steps_wf st st' : rtc vfs_step st st' -> wf st -> wf st'.
Proof. induction 1 as [|st1 st2 st3 H12 _ IH]; [done|]. intros Hwf. by apply IH, (step_wf st1). Qed.

(** C6: the invariant holds in every state that the calls of the interface
    reach from an initialised file system: directories and mount points
    refer to nodes that exist, the types are right, the size of every
    virtual file is its length, and the root stays mounted. *)
Theorem reachable_wf w st0 st :
  vfs_init (mkVfs [] ∅ FID_init w) = Ret (st0, Ok ()) -> rtc vfs_step st0 st -> wf st.
Proof. intros Hi Hs. eapply steps_wf; [exact Hs|]. by eapply init_wf. Qed.

(** ** Walks in a well-formed state *)

(** No FAT volume is mounted or linked. *)
Definition no_fat st : Prop :=
  map_Forall (fun _ p => match p with PVirt _ => True | PFat _ => False end) (parts st) /\
  Forall (fun nd => match nd with
                    | NDir d => map_Forall (fun _ n => match n with VFat _ => False | _ => True end) (vd_files d)
                    | NFile _ => True
                    end) (store st).

Definition live st n : Prop :=
  ref_ok (length (store st)) n /\ match n with VFat _ => False | _ => True end.

Lemma is_dir_total st n : wf st -> live st n -> exists b, is_dir st n = Ret b.
Proof.
  intros Hwf [Hn _]. unfold is_dir, node_meta. destruct n as [i| | |]; [|by eexists..].
  destruct (lookup_lt_is_Some_2 (store st) i Hn) as [nd Hnd]. unfold deref. rewrite Hnd. by eexists.
Qed.

Lemma node_walk_total st n name : wf st -> no_fat st -> live st n ->
  exists r, node_walk fuel st n name = Ret r /\ (forall m, r = Ok m -> live st m).
Proof.
  intros Hwf [_ Hnf] [Hn Hf]. unfold node_walk. destruct n as [i| | |]; [|by eexists..|done].
  destruct (lookup_lt_is_Some_2 (store st) i Hn) as [nd Hnd]. unfold deref. rewrite Hnd. cbn [unwrap].
  rewrite Ret_bind. eexists. split; [done|]. intros m. destruct nd as [|d]; [done|].
  unfold VirtDir_walk. destruct (vd_files d !! name) as [m'|] eqn:Hm; [|done]. intros [= <-].
  destruct (node_at st i _ Hwf Hnd) as [_ Hd]. rewrite Forall_lookup in Hnf. specialize (Hnf i _ Hnd).
  split; [by apply (Hd name)|by apply (Hnf name)].
Qed.

Lemma part_root_total st p k : wf st -> no_fat st -> parts st !! k = Some p ->
  exists n, part_root p = Ret n /\ live st n.
Proof.
  intros [_ Hp _] [Hnf _] Hk. specialize (Hp k p Hk). specialize (Hnf k p Hk). destruct p as [i|]; [|done].
  destruct Hp as [d Hd]. eexists. split; [done|]. split; [|done]. by eapply lookup_lt_Some.
Qed.

Lemma resolve_total st root t cs : wf st -> no_fat st -> live st root -> Forall (live st) t.*2 ->
  exists r, resolve fuel st root t cs = Ret r /\ (forall t', r = Ok t' -> Forall (live st) t'.*2).
Proof.
  intros Hwf Hnf Hroot. revert t. induction cs as [|c cs IH]; intros t Ht; cbn [resolve].
  { eexists. split; [done|]. by intros t' [= <-]. }
  assert (live st (top root t)) as Htop by (destruct t; [done|by inversion Ht]).
  unfold resolve1. destruct (is_dir_total st _ Hwf Htop) as [b ->]. unfold try_bind. rewrite Ret_bind.
  destruct b; cbn [negb]; [|by eexists]. destruct (special c).
  { rewrite Ret_bind. apply IH. case_bool_decide; [|done]. destruct t; [done|by inversion Ht]. }
  unfold enter. destruct (parts st !! key (c :: t.*1)) as [p|] eqn:Hp.
  - destruct (part_root_total st p _ Hwf Hnf Hp) as (n & -> & Hn). rewrite !Ret_bind. apply IH. by constructor.
  - destruct (node_walk_total st (top root t) c Hwf Hnf Htop) as (r & -> & Hr). unfold try_bind.
    rewrite !Ret_bind. destruct r as [n|e]; rewrite Ret_bind; [|by eexists]. apply IH.
    constructor; [by apply Hr|done].
Qed.

(** walking any path in a well-formed state without FAT volumes returns
    a node that exists or an error; it never panics and always ends. *)
Theorem walk_total st path : wf st -> no_fat st ->
  exists r, vfs_walk fuel st path = Ret r /\ (forall n, r = Ok n -> ref_ok (length (store st)) n).
Proof.
  intros Hwf Hnf. unfold vfs_walk. rewrite walk_false. unfold resolve_path, root_of.
  destruct (wf_root st Hwf) as [p Hp]. rewrite Hp.
  destruct (part_root_total st p _ Hwf Hnf Hp) as (root & -> & Hroot). unfold try_bind. rewrite !Ret_bind.
  destruct (resolve_total st root [] (split path) Hwf Hnf Hroot) as (r & -> & Hr); [constructor|].
  rewrite Ret_bind. destruct r as [t|e]; rewrite Ret_bind; [|by eexists]. eexists. split; [done|].
  intros n [= <-]. specialize (Hr t eq_refl). destruct t; [apply Hroot|]. inversion Hr as [|? ? Hl]. apply Hl.
Qed.
End Wf.
