(* ===== verification/VfsDemo.v ===== *)
(** * VfsDemo: the theorems of the virtual file system on concrete states, and
    [init_filesys] on a machine with a partitioned disk *)

From S2P Require Import Prelude Printk RvmFacts Bytes Block Gpt Fat Vfs VfsPath VfsThms VfsFiles VfsWf.
From S2P Require Import FatDemo.

#[local] Instance build : Build := {| overflow_checks := true |}.

Definition fuel : nat := 10.

Definition next {W A} (r : outcome (Vfs (W := W) * result string A)) (st : Vfs) : Vfs :=
  match r with Ret (st, _) => st | _ => st end.

(** ** States *)

Definition s_none : Vfs (W := unit) := mkVfs [] ∅ FID_init ().
Definition s_root := Eval vm_compute in next (vfs_init s_none) s_none.
(** [/a] is a directory, [/a/f] a file, [/g] another name of it. *)
Definition s_a := Eval vm_compute in next (vfs_create fuel (str "/a") Directory s_root) s_root.
Definition s_f := Eval vm_compute in next (vfs_create fuel (str "/a/f") Regular s_a) s_a.
Definition s_g := Eval vm_compute in next (vfs_link fuel (str "/g") (VRef 2) s_f) s_f.
Definition s_u := Eval vm_compute in next (vfs_unlink fuel (str "/a/f") s_g) s_g.
Definition s_m := Eval vm_compute in next (vfs_mount fuel (str "/a") (PVirt 0) s_g) s_g.
Definition s_m' := Eval vm_compute in next (vfs_mount fuel (str "/a/") (PVirt 0) s_g) s_g.

Ltac run := vm_compute; reflexivity.

Lemma steps_g : rtc (vfs_step fuel) s_root s_g.
Proof.
  eapply rtc_l; [eapply (step_create fuel s_root (str "/a") Directory (Ok ()) s_a); run|].
  eapply rtc_l; [eapply (step_create fuel s_a (str "/a/f") Regular (Ok ()) s_f); run|].
  eapply rtc_l; [eapply (step_link fuel s_f (str "/g") (VRef 2) (Ok ()) s_g); [simpl; lia|run]|].
  apply rtc_refl.
Qed.

Lemma wf_g : wf s_g.
Proof. apply (steps_wf fuel _ _ steps_g). by apply (init_wf ()). Qed.
Lemma no_fat_g : no_fat s_g.
Proof.
  split; [apply map_Forall_to_list; vm_compute; repeat constructor|].
  repeat constructor; apply map_Forall_to_list; vm_compute; repeat constructor.
Qed.

(** ** The witnesses *)

Lemma link_then_walk_witness :
  vfs_walk fuel s_g (str "/g") = Ret (Ok (VRef 2)) /\
  (forall q m, vfs_walk fuel s_f q = Ret (Ok m) -> vfs_walk fuel s_g q = Ret (Ok m)).
Proof. apply (link_then_walk fuel s_f s_g (str "/g") (VRef 2)); run. Defined.

Lemma create_then_walk_witness :
  (Regular = Regular \/ Regular = Directory) /\
  vfs_walk fuel s_f (str "/a/f") = Ret (Ok (VRef 2)) /\
  (forall a, store s_f !! 2%nat = Some a -> a = fresh_node 4 Regular) /\
  is_Some (store s_f !! 2%nat) /\
  (forall q m, vfs_walk fuel s_a q = Ret (Ok m) -> vfs_walk fuel s_f q = Ret (Ok m)).
Proof. apply (create_then_walk fuel s_a s_f (str "/a/f") Regular); run. Defined.

Lemma link_existing_refused_witness :
  exists e, vfs_link fuel (str "/a/f") (VRef 0) s_g = Ret (s_g, Err e) /\
    (e = "File already exists" \/ e = not_a_directory)%string.
Proof. apply (link_existing_refused fuel s_g (str "/a/f") (VRef 0) (VRef 2) (str "f")); run. Defined.

Lemma unlink_then_walk_witness :
  vfs_walk fuel s_u (str "/a/f") = Ret (Err gone) /\
  (forall q m, vfs_walk fuel s_g q = Ret (Ok m) ->
     vfs_walk fuel s_u q = Ret (Ok m) \/ vfs_walk fuel s_u q = Ret (Err gone)).
Proof. apply (unlink_then_walk fuel s_g s_u (str "/a/f")); run. Defined.

(** [/a/f] and [/g] are the same file. *)
Lemma write_then_read_shared_witness :
  exists st', vfs_write fuel (str "/a/f") [1; 2; 3] 5 s_g = Ret (st', Ok ()) /\
    vfs_read fuel (str "/g") [0; 0; 0] 5 st' = Ret (st', Ok [1; 2; 3]) /\
    (forall q m, vfs_walk fuel s_g q = Ret (Ok m) -> vfs_walk fuel st' q = Ret (Ok m)).
Proof.
  apply (write_then_read_shared fuel s_g (str "/a/f") (str "/g") 2
    (mkVFileData (FMeta_default 4 0 Regular) []) [1; 2; 3] [0; 0; 0] 5);
    [run|run|run|split; reflexivity|lia|simpl; lia|done|done].
Defined.

Definition file5 : VFileData := mkVFileData (FMeta_set_size (FMeta_default 4 0 Regular) 2) [9; 8].
Lemma file5_ok : file_ok file5.
Proof. split; reflexivity. Qed.

Lemma file_write_spec_witness :
  exists f', VirtFile_write file5 [7] 3 = Ret f' /\ file_ok f' /\ Z.of_nat (length (vf_data f')) = 4 /\
    forall k, (k < length (vf_data f'))%nat ->
      vf_data f' !! k =
        if decide (3 <= Z.of_nat k < 3 + 1) then [7] !! (k - 3)%nat
        else if decide (k < 2)%nat then [9; 8] !! k else Some 0.
Proof. apply (file_write_spec file5 [7] 3); [apply file5_ok|lia|simpl; lia]. Defined.

Lemma file_truncate_spec_witness :
  exists f', VirtFile_truncate file5 1 = Ret f' /\ file_ok f' /\ Z.of_nat (length (vf_data f')) = 1 /\
    forall k, Z.of_nat k < 1 -> vf_data f' !! k = if decide (k < 2)%nat then [9; 8] !! k else Some 0.
Proof. apply (file_truncate_spec file5 1). lia. Defined.

Lemma file_write_huge_panics_witness : VirtFile_write file5 [7] (2 ^ 64 - 1) = Panic.
Proof. apply (file_write_huge_panics file5 [7] (2 ^ 64 - 1)); [apply file5_ok|lia|reflexivity|done|simpl; lia]. Defined.

Lemma mount_then_walk_witness :
  vfs_walk fuel s_m (str "/a") = (r ← part_root (PVirt 0); Ret (Ok r)).
Proof. apply (mount_then_walk fuel s_g s_m (str "/a") (PVirt 0)); [run|run|done]. Defined.

Lemma mount_unmount_witness : vfs_unmount (str "/a") s_m = Ret (s_g, Ok ()).
Proof. apply (mount_unmount fuel s_g s_m (str "/a") (PVirt 0)). run. Defined.

(** Mounting at ["/a/"] instead. *)
Lemma noncanonical_mount_inert_witness :
  vfs_walk fuel s_m' (str "/a/") = vfs_walk fuel s_g (str "/a/").
Proof. apply (noncanonical_mount_inert fuel s_g s_m' (str "/a/") (PVirt 0)); [run|vm_compute; discriminate]. Defined.

Lemma reachable_wf_witness : wf s_g.
Proof. apply (reachable_wf fuel () s_root s_g); [run|apply steps_g]. Defined.

Lemma walk_total_witness :
  exists r, vfs_walk fuel s_g (str "/a/../g") = Ret r /\
    (forall n, r = Ok n -> ref_ok (length (store s_g)) n).
Proof. apply (walk_total fuel s_g (str "/a/../g")); [apply wf_g|apply no_fat_g]. Defined.

(** ** [init_filesys] *)

(** On a machine without disks [setup_filesys] ends, the moved file is
    found under its new name only, and the bytes dumped are "Hello, world!". *)
Theorem init_no_disks :
  match setup_filesys fuel [] s_none with
  | Ret (st, Ok buf) =>
      buf = str "Hello, world!" /\
      vfs_walk fuel st (str "/main.rs") = Ret (Err gone) /\
      vfs_walk fuel st (str "/src/main.rs") = Ret (Ok (VRef 3)) /\
      vfs_list fuel (str "/") st = Ret (st, Ok [str "dev"; str "mnt"; str "src"])
  | _ => False
  end.
Proof. vm_compute. repeat split. Qed.

(** A disk of 128-byte blocks: a partition table with one entry, and from
    block 3 on a FAT volume whose root directory has the file [UNIX] in the
    clusters 2 and 3. *)
Definition gpt_head : UUIDPartitionTable :=
  mkUUIDPartitionTable GPT_SIGN 0x10000 92 0 0 1 12 3 11 (replicate 16 7) 2 1 128 0.
Definition gpt_ent : UUIDPartitionEntry :=
  mkUUIDPartitionEntry PART_EFI (replicate 16 1) 3 10 0 (replicate 36 0x41).
Definition pad (n : nat) (l : list Z) : list Z := take n (l ++ replicate n 0).
Definition disk_image : list Z := Eval vm_compute in
  replicate 128 0 ++ pad 128 (put_header gpt_head) ++ pad 128 (put_entry gpt_ent) ++
  pad 128 (replicate 11 0 ++ le_put 2 128 ++ [1] ++ le_put 2 1 ++ [1] ++ le_put 2 4 ++ le_put 2 8 ++
           [0xf8] ++ le_put 2 1) ++
  le_put 128 (0xff8 + 0xfff * 2 ^ 12 + 3 * 2 ^ 24 + 0xfff * 2 ^ 36) ++
  pad 128 (FatDemo.put_dirent (str "UNIX") [] 0x20 2 200) ++
  replicate 128 0x41 ++ replicate 128 0x42 ++ replicate 384 0.
Definition disk0 : BlockDevice unit :=
  mkBlockDevice 128 13
    (fun _ n lba => Ret (Ok (take (Z.to_nat n) (drop (Z.to_nat (lba * 128)) disk_image))))
    (fun w _ _ => Ret (w, Err "read only")) (Z.shiftl 1 56).

(** The result of a call, without the state. *)
Definition answer {A} (r : outcome (Vfs (W := unit) * result string A)) : outcome (result string A) := snd <$> r.

(** on a machine with one such disk [setup_filesys] finds the partition
    table and the volume: the devices appear in [/dev], the volume is mounted
    under [/mnt/block0p0], and its file is read through the whole stack (path,
    mount point, directory, chain of clusters, partition, disk), ignoring the
    case of its name. *)
Theorem init_fat_disk :
  match setup_filesys fuel [disk0] s_none with
  | Ret (st, Ok buf) =>
      buf = str "Hello, world!" /\
      answer (vfs_list fuel (str "/dev") st) = Ret (Ok [str "block0"; str "block0p0"]) /\
      answer (vfs_list fuel (str "/mnt/block0p0") st) = Ret (Ok [str "UNIX"]) /\
      answer (vfs_read fuel (str "/mnt/block0p0/unix") [0; 0; 0; 0] 126 st) =
        Ret (Ok [0x41; 0x41; 0x42; 0x42]) /\
      answer (vfs_read fuel (str "/dev/block0p0") [0; 0; 0; 0] 510 st) = Ret (Ok [0x41; 0x41; 0x42; 0x42]) /\
      answer (vfs_write fuel (str "/mnt/block0p0/unix") [1] 0 st) = Ret (Err not_ioable)
  | _ => False
  end.
Proof. vm_compute. repeat split. Qed.

(** What is printed on a machine without disks. *)
Example init_no_disks_prints :
  match init_filesys fuel [] s_none with
  | Ret (_, Ok out) => out = str (
      "00000000  48 65 6c 6c 6f 2c 20 77  6f 72 6c 64 21             |Hello, world!|" +:+ newline +:+
      "0000000d" +:+ newline +:+ "in /dev:" +:+ newline +:+
      "Error finding /mnt/block0p0/unix: No such file" +:+ newline)
  | _ => False
  end.
Proof. vm_compute. reflexivity. Qed.

(** The same disk, but [UNIX] is a directory. *)
Definition disk_dir : BlockDevice unit :=
  mkBlockDevice 128 13
    (fun _ n lba => Ret (Ok (take (Z.to_nat n) (drop (Z.to_nat (lba * 128)) (<[651%nat := 0x10]> disk_image)))))
    (fun w _ _ => Ret (w, Err "read only")) (Z.shiftl 1 56).

(** A directory of that name on the first partition stops the kernel: the
    result of reading it is unwrapped. *)
Theorem unix_directory_panics :
  answer (setup_filesys fuel [disk_dir] s_none) = Ret (Ok (str "Hello, world!")) /\
  init_filesys fuel [disk_dir] s_none = Panic.
Proof. split; vm_compute; reflexivity. Qed.
