(* ===== verification/Pci.v ===== *)
(** * Pci: the configuration space of PCI Express devices (device/mod.rs)

    A device is a pointer to its configuration space; the registers are a map
    from the address of a 32-bit word to its value. *)

From S2P Require Import Prelude Kargs Rvm RamUtil Physalloc RvmFacts Glacier GlacierSpec GlacierThms GlacierRange Bytes.
From Stdlib Require Import Sorted.

Record PciDevice : Type := mkPciDevice { pd_id : Z; pci_ptr : Z }.

(** [devid as u8], [(devid >> 8) as u8], ... *)
Definition pci_bus (d : PciDevice) : Z := ucast 8 (Z.shiftr (pd_id d) 8).
Definition pci_device (d : PciDevice) : Z := Z.land (ucast 8 (Z.shiftr (pd_id d) 3)) 0x1f.
Definition pci_function (d : PciDevice) : Z := Z.land (ucast 8 (pd_id d)) 0x07.

(** ** Registers *)

Definition regs : Type := Z -> Z.
(** [blob()[i]]: a slice of 16 words. *)
Definition blob (m : regs) (d : PciDevice) (i : Z) : Z := m (pci_ptr d + 4 * i).
Definition set_blob (m : regs) (d : PciDevice) (i v : Z) : regs :=
  fun a => if a =? pci_ptr d + 4 * i then v else m a.

(** [(blob()[i] >> sh) as uW] *)
Definition fieldw (w : Z) (m : regs) (d : PciDevice) (i sh : Z) : Z := ucast w (Z.shiftr (blob m d i) sh).

Section Registers.
Context (m : regs) (d : PciDevice).

Definition device_id : Z := fieldw 16 m d 0 16.
Definition vendor_id : Z := fieldw 16 m d 0 0.
Definition status : Z := fieldw 16 m d 1 16.
Definition command : Z := fieldw 16 m d 1 0.
Definition set_command (c : Z) : regs := set_blob m d 1 (Z.lor (Z.shiftl status 16) c).
Definition class : Z := fieldw 8 m d 2 24.
Definition subclass : Z := fieldw 8 m d 2 16.
Definition prog_if : Z := fieldw 8 m d 2 8.
Definition reversion_id : Z := fieldw 8 m d 2 0.
Definition bist : Z := fieldw 8 m d 3 24.
Definition header_type : Z := fieldw 8 m d 3 16.
Definition latency_timer : Z := fieldw 8 m d 3 8.
Definition cache_line_size : Z := fieldw 8 m d 3 0.
Definition capabilities_ptr : Z := fieldw 8 m d 13 0.
Definition interrupt_pin : Z := fieldw 8 m d 15 8.
Definition interrupt_line : Z := fieldw 8 m d 15 0.

Definition is_type0 : bool := Z.land header_type 0x7f =? 0.
Definition is_type1 : bool := Z.land header_type 0x7f =? 1.
Definition is_bridge : bool := is_type1.
Definition is_nvme : bool := (class =? 0x01) && (subclass =? 0x08).
Definition is_usb : bool := (class =? 0x0c) && (subclass =? 0x03).
Definition is_display : bool := class =? 0x03.
Definition is_vga : bool := (class =? 0x03) && (subclass =? 0x00).

Definition enable_pci_device : regs := set_command (Z.lor command 0x0006).

(** [bar]: the index into the slice comes first, then the match. *)
Definition bar (index : Z) : outcome (option Z) :=
  if 4 + index <? 16 then
    let val := blob m d (4 + index) in
    let t := Z.land header_type 0x7f in
    Ret (if t =? 0 then (if index <? 6 then Some val else None)
         else if t =? 1 then (if index <? 2 then Some val else None)
         else None)
  else Panic.

Definition mmio_addr : outcome Z :=
  b0 ← bar 0;
  base ← unwrap b0;
  if Z.land base 6 =? 4 then
    b1 ← bar 1;
    hi ← unwrap b1;
    Ret (Z.lor (Z.shiftl hi 32 mod 2 ^ 64) (Z.land base (unot 64 7)))
  else Ret (Z.land base (unot 64 3)).

Definition expansion_rom_base : Z :=
  let t := Z.land header_type 0x7f in
  if t =? 0 then blob m d 12 else if t =? 1 then blob m d 14 else 0.

(** Type 0 headers. *)
Definition cardbus_cis_ptr : Z := blob m d 10.
Definition subsys_id : Z := fieldw 16 m d 11 16.
Definition subsys_vendor_id : Z := fieldw 16 m d 11 0.
Definition max_latency : Z := fieldw 8 m d 15 24.
Definition min_grant : Z := fieldw 8 m d 15 16.

(** Type 1 headers. *)
Definition secondary_latency : Z := fieldw 8 m d 6 24.
Definition subordinate_bus : Z := fieldw 8 m d 6 16.
Definition secondary_bus : Z := fieldw 8 m d 6 8.
Definition primary_bus : Z := fieldw 8 m d 6 0.
Definition secondary_status : Z := fieldw 16 m d 7 16.
Definition io_limit : Z := fieldw 8 m d 7 8.
Definition io_base : Z := fieldw 8 m d 7 0.
Definition memory_limit : Z := fieldw 16 m d 8 16.
Definition memory_base : Z := fieldw 16 m d 8 0.
Definition prefetch_memory_limit : Z := fieldw 16 m d 9 16.
Definition prefetch_memory_base : Z := fieldw 16 m d 9 0.
Definition prefetch_base_upper : Z := blob m d 10.
Definition prefetch_limit_upper : Z := blob m d 11.
Definition io_limit_upper : Z := fieldw 16 m d 12 16.
Definition io_base_upper : Z := fieldw 16 m d 12 0.
Definition bridge_control : Z := fieldw 16 m d 15 16.
End Registers.

(** ** Enumeration *)

(** What the drivers call of the page tables: [GLACIER.write().map_range]. *)
Class Mapper (St : Type) : Type := {
  mp_map : St -> Z -> Z -> Z -> Z -> outcome (St * result GlacierErr unit)
}.
#[export] Instance Glacier_Mapper `{Platform} {A} `{FrameAlloc A} : Mapper (Glacier * Machine A) := {|
  mp_map := fun s va pa size fl =>
    '(st, r) ← map_range s.1 va pa size fl s.2; Ret ((s.1, st), r)
|}.

Section Scan.
Context `{Platform} {St : Type} `{Mapper St}.

(** [PciDevice::read]: map the configuration space, look for a vendor. *)
Definition PciDevice_read (s : St) (m : regs) (base devid : Z) : outcome (St * option PciDevice) :=
  o ← ushl 64 devid 12;
  ptr ← uadd 64 base o;
  '(s, r) ← mp_map s ptr ptr page_size (D_RW flags);
  match r with
  | Err _ => Ret (s, None)
  | Ok _ =>
      let dev := mkPciDevice devid ptr in
      Ret (s, if vendor_id m dev =? 0xffff then None else Some dev)
  end.

(** The loop over the identifiers [devid], [devid + 1], ... *)
Fixpoint scan_from (n : nat) (devid : Z) (s : St) (m : regs) (base : Z) (acc : list PciDevice)
    : outcome (St * regs * list PciDevice) :=
  match n with
  | O => Ret (s, m, acc)
  | S n =>
      '(s, r) ← PciDevice_read s m base devid;
      match r with
      | Some dev => scan_from n (devid + 1) s (enable_pci_device m dev) base (acc ++ [dev])
      | None => scan_from n (devid + 1) s m base acc
      end
  end.

(** The bounds are [u16]: [(end_bus as u16 + 1) << 8] drops its ninth bit
    for the last bus. *)
Definition scan_bounds (start_bus end_bus : Z) : outcome (Z * Z) :=
  lo ← ushl 16 start_bus 8;
  e ← uadd 16 end_bus 1;
  e ← ushl 16 e 8;
  Ret (lo, uwrap_sub 16 e 1).

Definition scan_pcie_devices (s : St) (m : regs) (base start_bus end_bus : Z)
    : outcome (St * regs * list PciDevice) :=
  '(lo, hi) ← scan_bounds start_bus end_bus;
  scan_from (Z.to_nat (hi + 1 - lo)) lo s m base [].
End Scan.

(** * Identifiers, registers and the enumeration of a bus range *)

(** ** Identifiers *)

Lemma low_bits x k : 0 <= k -> Z.land x (2 ^ k - 1) = x mod 2 ^ k.
Proof. intros Hk. rewrite <- Z.land_ones by done. by rewrite Z.ones_equiv, Z.sub_1_r. Qed.

(** the identifier of a device is its bus, device and function numbers,
    each in the range that PCI gives it. *)
Theorem pci_id_fields d :
  0 <= pd_id d < 2 ^ 16 ->
  pd_id d = 256 * pci_bus d + 8 * pci_device d + pci_function d /\
  0 <= pci_bus d < 256 /\ 0 <= pci_device d < 32 /\ 0 <= pci_function d < 8.
Proof.
  intros Hd. unfold pci_bus, pci_device, pci_function, ucast.
  rewrite !Z.shiftr_div_pow2 by lia. change 0x1f with (2 ^ 5 - 1). change 0x07 with (2 ^ 3 - 1).
  rewrite !low_bits by lia. change (2 ^ 8) with 256. change (2 ^ 3) with 8. change (2 ^ 5) with 32.
  change (2 ^ 16) with 65536 in Hd. Z.to_euclidean_division_equations. lia.
Qed.

Lemma pci_id_fields_witness :
  let d := mkPciDevice 0x1fa 0 in
  pd_id d = 256 * pci_bus d + 8 * pci_device d + pci_function d /\
  0 <= pci_bus d < 256 /\ 0 <= pci_device d < 32 /\ 0 <= pci_function d < 8.
Proof. apply (pci_id_fields (mkPciDevice 0x1fa 0)). simpl. lia. Defined.

Lemma scan_bounds_ok `{Platform} b e :
  0 <= b < 256 -> 0 <= e < 256 -> scan_bounds b e = Ret (256 * b, 256 * e + 255).
Proof.
  intros Hb He. unfold scan_bounds. rewrite ushl_ok, Ret_bind by lia. rewrite uadd_ok, Ret_bind by lia.
  unfold ushl. cbn [Z.ltb Z.compare]. change (8 <? 16) with true. cbn iota. rewrite Ret_bind.
  unfold uwrap_sub. rewrite Z.shiftl_mul_pow2 by lia. change (2 ^ 8) with 256. change (2 ^ 16) with 65536.
  do 2 f_equal; [lia|]. Z.to_euclidean_division_equations. lia.
Qed.

(** ** Registers *)

Section Registers.
Context (m : regs) (d : PciDevice).

Lemma blob_set i j v : blob (set_blob m d i v) d j = if j =? i then v else blob m d j.
Proof.
  unfold blob, set_blob. destruct (Z.eqb_spec (pci_ptr d + 4 * j) (pci_ptr d + 4 * i)), (Z.eqb_spec j i);
    done || lia.
Qed.

(** The two halves of a word. *)
Lemma word_halves x y : 0 <= x < 2 ^ 16 -> 0 <= y < 2 ^ 16 ->
  ucast 16 (Z.shiftr (Z.lor (Z.shiftl x 16) y) 16) = x /\
  ucast 16 (Z.shiftr (Z.lor (Z.shiftl x 16) y) 0) = y.
Proof.
  intros Hx Hy. rewrite Z.lor_comm, lor_field by lia. rewrite !Z.shiftr_div_pow2 by lia. unfold ucast.
  change (2 ^ 16) with 65536 in *. change (2 ^ 0) with 1. Z.to_euclidean_division_equations. lia.
Qed.

Lemma fieldw_range w i sh : 0 <= w -> 0 <= fieldw w m d i sh < 2 ^ w.
Proof. intros Hw. apply Z.mod_pos_bound. apply Z.pow_pos_nonneg; lia. Qed.

(** enabling a device sets the memory and bus-master bits of its command
    register and keeps the other command bits, the status register and every
    other register of the machine. *)
Theorem enable_spec :
  command (enable_pci_device m d) d = Z.lor (command m d) 6 /\
  status (enable_pci_device m d) d = status m d /\
  forall a, a <> pci_ptr d + 4 -> enable_pci_device m d a = m a.
Proof.
  unfold enable_pci_device, set_command.
  pose proof (fieldw_range 16 1 16 ltac:(lia)) as Hs. pose proof (fieldw_range 16 1 0 ltac:(lia)) as Hc.
  fold (status m d) in Hs. fold (command m d) in Hc.
  assert (0 <= Z.lor (command m d) 6 < 2 ^ 16) as Hc'.
  { split; [apply Z.lor_nonneg; lia|]. destruct (decide (Z.lor (command m d) 6 = 0)) as [->|Hn]; [lia|].
    apply Z.log2_lt_pow2; [pose proof (Z.lor_nonneg (command m d) 6); lia|].
    rewrite Z.log2_lor by lia. apply Z.max_lub_lt; [|done].
    destruct (decide (command m d = 0)) as [->|]; [done|]. apply Z.log2_lt_pow2; lia. }
  destruct (word_halves (status m d) (Z.lor (command m d) 6) Hs Hc') as [H1 H2].
  split_and!.
  - unfold command at 1, fieldw. rewrite blob_set. exact H2.
  - unfold status at 1, fieldw. rewrite blob_set. exact H1.
  - intros a Ha. unfold set_blob. destruct (Z.eqb_spec a (pci_ptr d + 4 * 1)); [lia|done].
Qed.

(** A base address register of a type 0 device. *)
Lemma bar_ok i : is_type0 m d = true -> 0 <= i < 6 -> bar m d i = Ret (Some (blob m d (4 + i))).
Proof.
  intros Ht Hi. unfold bar, is_type0 in *. destruct (Z.ltb_spec (4 + i) 16); [|lia]. rewrite Ht.
  destruct (Z.ltb_spec i 6); [done|lia].
Qed.
End Registers.

(** The prefetchable bit (bit 3) of a 64-bit memory BAR stays in the address. *)
Lemma mmio_addr_keeps_prefetch (m : regs) d :
  is_type0 m d = true -> blob m d 4 = 0xfe00000c -> blob m d 5 = 0 -> mmio_addr m d = Ret 0xfe000008.
Proof.
  intros Ht H0 H1. unfold mmio_addr. rewrite !bar_ok by (done || lia). rewrite Ret_bind. cbn [unwrap].
  rewrite Ret_bind. change (4 + 0) with 4. change (4 + 1) with 5. rewrite H0, H1. done.
Qed.

(** ** Enumeration *)

(** What the enumeration needs of the page tables: in the states of an
    invariant, mapping below a bound returns. *)
Class MapperLaws (St : Type) `{Mapper St} : Type := {
  mp_inv : St -> Prop;
  mp_bound : Z;
  mp_total : forall s va size fl, mp_inv s -> 0 <= va -> 0 <= size -> va + size <= mp_bound ->
    exists s' r, mp_map s va va size fl = Ret (s', r) /\ mp_inv s'
}.

Section Scan.
Context `{Platform} {St : Type} `{MapperLaws St}.
Implicit Types (m : regs) (d : PciDevice).

(** Why an identifier is not in the list. *)
Definition absent m base id : Prop :=
  vendor_id m (mkPciDevice id (base + id * 4096)) = 0xffff \/
  exists s s' e, mp_inv s /\
    mp_map s (base + id * 4096) (base + id * 4096) page_size (D_RW flags) = Ret (s', Err e).

Record scanned m base (lo hi : Z) (m' : regs) (devs : list PciDevice) : Prop := {
  sc_dev : forall d, d ∈ devs -> lo <= pd_id d < hi /\ pci_ptr d = base + pd_id d * 4096 /\
    vendor_id m d <> 0xffff /\ command m' d = Z.lor (command m d) 6 /\ status m' d = status m d;
  sc_sorted : StronglySorted Z.lt (pd_id <$> devs);
  sc_frame : forall a, (forall d, d ∈ devs -> a <> pci_ptr d + 4) -> m' a = m a;
  sc_complete : forall id, lo <= id < hi -> id ∈ pd_id <$> devs \/ absent m base id
}.

Lemma read_ok s m base id :
  mp_inv s -> 0 <= base -> 0 <= id < 2 ^ 16 -> base + id * 4096 + page_size <= mp_bound -> mp_bound < 2 ^ 64 ->
  0 <= page_size ->
  exists s' r, PciDevice_read s m base id = Ret (s', r) /\ mp_inv s' /\
    match r with
    | Some d => d = mkPciDevice id (base + id * 4096) /\ vendor_id m d <> 0xffff
    | None => absent m base id
    end.
Proof.
  intros Hs Hb Hid Hbd Hmb Hps. unfold PciDevice_read. rewrite ushl_ok, Ret_bind by lia.
  change (2 ^ 12) with 4096. rewrite uadd_ok, Ret_bind by lia.
  destruct (mp_total s (base + id * 4096) page_size (D_RW flags) Hs) as (s' & r & Hr & Hs'); [lia..|].
  rewrite Hr, Ret_bind. destruct r as [u|e].
  - eexists _, _. split; [done|]. split; [done|].
    destruct (Z.eqb_spec (vendor_id m (mkPciDevice id (base + id * 4096))) 0xffff); [by left|done].
  - exists s', None. split; [done|]. split; [done|]. right. by exists s, s', e.
Qed.

(** The registers of different devices do not overlap. *)
Lemma word1_apart base id id' : id <> id' -> base + id * 4096 + 4 <> base + id' * 4096 + 4.
Proof. lia. Qed.

Lemma fieldw_enable_ne w m d d' i sh :
  pci_ptr d' + 4 * i <> pci_ptr d + 4 -> fieldw w (enable_pci_device m d) d' i sh = fieldw w m d' i sh.
Proof.
  intros Hne. unfold fieldw, blob. do 2 f_equal. by apply (enable_spec m d).
Qed.

(** A device that the enumeration has not reached yet is as it was. *)
Lemma frame_ahead m base lo hi m' devs w i sh id :
  scanned m base lo hi m' devs -> hi <= id -> 0 <= i < 16 ->
  fieldw w m' (mkPciDevice id (base + id * 4096)) i sh = fieldw w m (mkPciDevice id (base + id * 4096)) i sh.
Proof.
  intros Hsc Hid Hi. unfold fieldw, blob. do 2 f_equal. apply Hsc. intros d Hd. cbn [pci_ptr].
  destruct (sc_dev _ _ _ _ _ _ Hsc d Hd) as (Hr & -> & _). lia.
Qed.

Lemma scanned_add m base lo id m' devs :
  scanned m base lo id m' devs -> lo <= id ->
  let d := mkPciDevice id (base + id * 4096) in
  vendor_id m' d <> 0xffff ->
  scanned m base lo (id + 1) (enable_pci_device m' d) (devs ++ [d]).
Proof.
  intros Hsc Hlo d Hv. destruct (enable_spec m' d) as (Hc & Hst & Hfr).
  assert (vendor_id m' d = vendor_id m d) as Hv' by (apply (frame_ahead m base lo id m' devs); done || lia).
  assert (command m' d = command m d) as Hc' by (apply (frame_ahead m base lo id m' devs); done || lia).
  assert (status m' d = status m d) as Hs' by (apply (frame_ahead m base lo id m' devs); done || lia).
  constructor.
  - intros d0 [Hd0|Hd0%list_elem_of_singleton]%elem_of_app.
    + destruct (sc_dev _ _ _ _ _ _ Hsc d0 Hd0) as (Hr & Hp & Hv0 & Hc0 & Hs0).
      split_and!; [lia|lia|done|done| |].
      * rewrite <- Hc0. apply fieldw_enable_ne. rewrite Hp. unfold d. cbn. lia.
      * rewrite <- Hs0. apply fieldw_enable_ne. rewrite Hp. unfold d. cbn. lia.
    + subst d0. rewrite Hc, Hst, Hc', Hs'. rewrite <- Hv'.
      split; [simpl; lia|]. by split.
  - rewrite fmap_app. cbn. assert (Forall (fun x => x < id) (pd_id <$> devs)) as Hlt.
    { apply Forall_fmap, Forall_forall. intros d0 Hd0.
      destruct (sc_dev _ _ _ _ _ _ Hsc d0 Hd0) as [? _]. simpl. lia. }
    pose proof (sc_sorted _ _ _ _ _ _ Hsc) as Hss. revert Hlt Hss. generalize (pd_id <$> devs) as l.
    induction l as [|x l IH]; intros Hlt Hss; cbn [app]; [repeat constructor|].
    apply Forall_cons in Hlt as [Hx Hlt]. inversion Hss as [|? ? Hss' Hall]; subst.
    constructor; [by apply IH|]. apply Forall_app. split; [done|by constructor].
  - intros a Ha. rewrite Hfr by (apply (Ha d), elem_of_app; right; by apply list_elem_of_singleton).
    apply Hsc. intros d0 Hd0. apply Ha, elem_of_app. by left.
  - intros id' Hid'. rewrite fmap_app. destruct (decide (id' = id)) as [->|].
    + left. apply elem_of_app. right. by apply list_elem_of_singleton.
    + destruct (sc_complete _ _ _ _ _ _ Hsc id' ltac:(lia)) as [Hin|Hab]; [left|by right].
      apply elem_of_app. by left.
Qed.

Lemma scanned_skip m base lo id m' devs :
  scanned m base lo id m' devs -> lo <= id -> absent m' base id -> scanned m base lo (id + 1) m' devs.
Proof.
  intros Hsc Hlo Hab. constructor; [|apply Hsc|apply Hsc|].
  - intros d Hd. destruct (sc_dev _ _ _ _ _ _ Hsc d Hd) as (? & ?). split; [lia|done].
  - intros id' Hid'. destruct (decide (id' = id)) as [->|]; [right|apply Hsc; lia].
    destruct Hab as [Hv|Hmap]; [left|by right]. rewrite <- Hv. symmetry.
    apply (frame_ahead m base lo id m' devs); done || lia.
Qed.

Lemma scan_from_ok n m base lo id s m' devs :
  scanned m base lo id m' devs -> mp_inv s -> lo <= id -> 0 <= lo -> id + Z.of_nat n <= 2 ^ 16 ->
  0 <= base -> base + (id + Z.of_nat n) * 4096 + page_size <= mp_bound -> mp_bound < 2 ^ 64 -> 0 <= page_size ->
  exists s' m'' devs', scan_from n id s m' base devs = Ret (s', m'', devs') /\ mp_inv s' /\
    scanned m base lo (id + Z.of_nat n) m'' devs'.
Proof.
  intros Hsc Hs Hlo Hl0 Hn Hb Hbd Hmb Hps. revert id s m' devs Hsc Hs Hlo Hn Hbd.
  induction n as [|n IH]; intros id s m' devs Hsc Hs Hlo Hn Hbd.
  { exists s, m', devs. rewrite Z.add_0_r. done. }
  cbn [scan_from]. destruct (read_ok s m' base id Hs Hb) as (s' & r & -> & Hs' & Hr); [lia..|].
  rewrite Ret_bind. replace (id + Z.of_nat (S n)) with (id + 1 + Z.of_nat n) by lia.
  destruct r as [d|].
  - destruct Hr as [-> Hv]. apply IH; [by apply scanned_add|done|lia..].
  - apply IH; [by apply scanned_skip|done|lia..].
Qed.

(** the enumeration of a range of buses ends and finds, in increasing
    order, the devices of those buses (the last bus included) whose
    configuration space could be mapped and has a vendor; it enables each of
    them and writes no other register. *)
Theorem scan_spec s m base b e :
  mp_inv s -> 0 <= b <= e -> e < 256 -> 0 <= base -> 0 <= page_size ->
  base + (256 * e + 256) * 4096 + page_size <= mp_bound -> mp_bound < 2 ^ 64 ->
  exists s' m' devs, scan_pcie_devices s m base b e = Ret (s', m', devs) /\ mp_inv s' /\
    scanned m base (256 * b) (256 * e + 256) m' devs.
Proof.
  intros Hs Hb He Hbase Hps Hbd Hmb. unfold scan_pcie_devices. rewrite scan_bounds_ok, Ret_bind by lia.
  replace (256 * e + 255 + 1 - 256 * b) with (256 * (e - b) + 256) by lia.
  assert (scanned m base (256 * b) (256 * b) m []) as Hsc.
  { constructor; [by intros d ?%elem_of_nil|constructor|done|lia]. }
  destruct (scan_from_ok (Z.to_nat (256 * (e - b) + 256)) m base (256 * b) (256 * b) s m [] Hsc Hs)
    as (s' & m' & devs & Hr & Hs' & Hsc'); [lia..|].
  exists s', m', devs. split; [done|]. split; [done|].
  by replace (256 * b + Z.of_nat (Z.to_nat (256 * (e - b) + 256))) with (256 * e + 256) in Hsc' by lia.
Qed.
End Scan.

(** ** The page tables satisfy the laws *)

Section Tables.
Context `{Platform} {A : Type} `{!FrameAlloc A} `{!FrameLaws A}.
Hypothesis Hcfg : cfg_ok G_CFG.
Abbreviation full := (2 ^ bits G_CFG 0).
Abbreviation bound := (2 ^ Z.min (va_bits G_CFG) 62).

Lemma full_range va : in_lim full va.
Proof. apply idx_range; [exact Hcfg|]. pose proof (lv_bounds G_CFG Hcfg). lia. Qed.

Lemma fits_bound va size :
  0 <= va -> 0 <= size -> va + size <= bound -> range_fits full (page_floor va) (pages_of va size).
Proof.
  intros Hva Hs Hb. pose proof (page_facts G_CFG) as [Hps _].
  set (k := BPage_shift (psz G_CFG)) in *. set (w := Z.min (va_bits G_CFG) 62) in *.
  assert (k <= w) as Hkw by (destruct Hcfg; lia).
  assert (bound = 2 ^ (w - k) * page_size) as Hbound.
  { fold w. unfold page_size, BPage_size. fold k. rewrite <- Z.pow_add_r by lia. f_equal. lia. }
  assert (0 < page_size) as Hpp by apply page_size_pos.
  assert ((va + size + page_size - 1) / page_size <= 2 ^ (w - k)) as Hhi.
  { transitivity ((2 ^ (w - k) * page_size + (page_size - 1)) / page_size).
    - apply Z.div_le_mono; [done|]. rewrite <- Hbound. fold w. lia.
    - rewrite Z.add_comm, Z.div_add, Z.div_small by lia. lia. }
  assert (va / page_size <= (va + size + page_size - 1) / page_size) as Hle by (apply Z.div_le_mono; lia).
  assert (0 <= va / page_size) as H0 by (apply Z.div_pos; lia).
  assert (2 ^ (w - k) <= 2 ^ (va_bits G_CFG - k)) as Hw by (apply Z.pow_le_mono_r; lia).
  assert (bound <= 2 ^ 64) by (apply Z.pow_le_mono_r; lia).
  constructor; unfold page_floor, pages_of.
  - split; [lia|apply Z.divide_factor_r].
  - rewrite <- Z.mul_add_distr_r, Zplus_minus.
    transitivity (2 ^ (w - k) * page_size); [apply Z.mul_le_mono_nonneg_r; lia|lia].
  - fold k. lia.
  - intros i _. apply full_range.
Qed.

#[export] Instance Glacier_MapperLaws : MapperLaws (Glacier * Machine A).
Proof.
  refine {| mp_inv := fun s => exists τ, GInv full s.1 s.2 τ; mp_bound := bound |}.
  intros [g st] va size fl [τ HG] Hva Hs Hb. cbn [fst snd] in *.
  assert (0 < full <= full) as Hfull.
  { split; [|done]. apply Z.pow_pos_nonneg; [lia|]. pose proof (lv_bounds G_CFG Hcfg) as [? _].
    pose proof (bits_bounds G_CFG Hcfg 0 ltac:(lia)). lia. }
  pose proof (fits_bound va size Hva Hs Hb) as Hfit.
  assert (bound <= 2 ^ 62) by (apply Z.pow_le_mono_r; lia).
  pose proof page_size_range. pose proof (rf_hi _ _ _ Hfit).
  destruct (map_range_run full Hcfg Hfull g st τ va va size fl HG)
    as (st' & r & τ' & j & Hr & HG' & _); [lia..|done|].
  exists (g, st'), r. unfold mp_map, Glacier_Mapper. cbn [fst snd]. rewrite Hr. split; [done|]. by exists τ'.
Qed.
End Tables.

(** ** A machine with one device *)

Module PciDemo.
#[local] Instance plat : Platform :=
  {| platform_build := {| overflow_checks := true |}; target_arch := X86_64;
     G_CFG := mkRvmCfg Size4kiB 48 52 |}.
(** A page table that maps everything. *)
#[local] Instance any_map : Mapper unit := {| mp_map := fun s _ _ _ _ => Ret (s, Ok ()) |}.
#[local] Instance any_laws : MapperLaws unit.
Proof. refine {| mp_inv := fun _ => True; mp_bound := 2 ^ 40 |}. intros s va size fl _ _ _ _. by eexists _, _. Defined.

(** At bus 1, device 2, function 3: an NVMe controller. *)
Definition ecam : Z := 0xe0000000.
Definition the_dev : PciDevice := mkPciDevice 0x113 (ecam + 0x113 * 4096).
Definition m0 : regs := fun a =>
  if a =? pci_ptr the_dev then 0x12348086
  else if a =? pci_ptr the_dev + 4 then 0x00100001
  else if a =? pci_ptr the_dev + 8 then 0x01080200
  else 0xffffffff.

Lemma scan_spec_witness :
  exists s' m' devs, scan_pcie_devices () m0 ecam 1 1 = Ret (s', m', devs) /\ mp_inv s' /\
    scanned m0 ecam (256 * 1) (256 * 1 + 256) m' devs.
Proof. apply (scan_spec () m0 ecam 1 1); [done|lia|lia|done|done|vm_compute; discriminate|reflexivity]. Defined.

Example scan_one :
  (fun r => (r.2, command r.1.2 the_dev)) <$> scan_pcie_devices () m0 ecam 1 1 = Ret ([the_dev], 7).
Proof. vm_compute. reflexivity. Qed.
End PciDemo.
