(* ===== verification/Vga.v ===== *)
(** * Vga: the framebuffer (device/vga.rs)

    The pixels are 32-bit words of memory, a map from the address of a word to
    its value.  [draw_line] computes in [i32]. *)

From Stdlib Require Import Ascii.
From stdpp Require Import pretty.
From S2P Require Import Prelude Printk Rvm RamUtil RvmFacts Glacier Bytes Pci.
#[local] Open Scope Z_scope.

(** ** [i32] *)

Definition scast32 (x : Z) : Z := (x + 2 ^ 31) mod 2 ^ 32 - 2 ^ 31.
Definition sarith32 `{Build} (x : Z) : outcome Z :=
  if (- 2 ^ 31 <=? x) && (x <? 2 ^ 31) then Ret x
  else if overflow_checks then Panic else Ret (scast32 x).

(** ** Loops: [for i in lo..hi] *)

Fixpoint for_n {S} (n : nat) (i : Z) (f : Z -> S -> outcome S) (s : S) : outcome S :=
  match n with
  | O => Ret s
  | Datatypes.S n => s ← f i s; for_n n (i + 1) f s
  end.
Definition for_range {S} (lo hi : Z) (f : Z -> S -> outcome S) (s : S) : outcome S :=
  for_n (Z.to_nat (hi - lo)) lo f s.

(** ** Colours *)

Record Colour : Type := mkColour { alpha : Z; red : Z; green : Z; blue : Z }.
Definition Colour_new (r g b : Z) : Colour := mkColour 0xff r g b.
Definition Colour_rgba (r g b a : Z) : Colour := mkColour a r g b.
Definition BLACK : Colour := Colour_new 0 0 0.
Definition WHITE : Colour := Colour_new 0xff 0xff 0xff.
Definition RED : Colour := Colour_new 0xff 0 0.
Definition GREEN : Colour := Colour_new 0 0xff 0.
Definition BLUE : Colour := Colour_new 0 0 0xff.
Definition YELLOW : Colour := Colour_new 0xff 0xff 0.
Definition CYAN : Colour := Colour_new 0 0xff 0xff.
Definition MAGENTA : Colour := Colour_new 0xff 0 0xff.

(** [From<u32> for Colour] and back: [from_be_bytes] of the four fields. *)
Definition Colour_from_u32 (value : Z) : Colour :=
  mkColour (ucast 8 (Z.land (Z.shiftr value 24) 0xff)) (ucast 8 (Z.land (Z.shiftr value 16) 0xff))
    (ucast 8 (Z.land (Z.shiftr value 8) 0xff)) (ucast 8 (Z.land value 0xff)).
Definition u32_from_Colour (c : Colour) : Z :=
  ((alpha c * 256 + red c) * 256 + green c) * 256 + blue c.

(** ** The device *)

Record Vga : Type := mkVga { framebuffer : Z; edid : Z; width : Z; height : Z; pitch : Z }.

Definition EDID_HEADER : list Z := [0x00; 0xff; 0xff; 0xff; 0xff; 0xff; 0xff; 0x00].

Definition pixels : Type := Z -> Z.

Section Drawing.
Context `{Build}.
Implicit Types (v : Vga) (px : pixels).

(** [y * self.width() + x] in [u32]. *)
Definition pixel_offset v (x y : Z) : outcome Z :=
  t ← umul 32 y (width v); uadd 32 t x.

Definition set_pixel v (x y : Z) (c : Colour) px : outcome pixels :=
  if (width v <=? x) || (height v <=? y) then Ret px else
  offset ← pixel_offset v x y;
  Ret (fun a => if a =? framebuffer v + 4 * offset then u32_from_Colour c else px a).

Definition get_pixel v (x y : Z) px : outcome Colour :=
  if (width v <=? x) || (height v <=? y) then Ret BLACK else
  offset ← pixel_offset v x y;
  Ret (Colour_from_u32 (px (framebuffer v + 4 * offset))).

Definition fill_screen v (c : Colour) : pixels -> outcome pixels :=
  for_range 0 (height v) (fun y => for_range 0 (width v) (fun x => set_pixel v x y c)).

Definition draw_rect v (x y w h : Z) (c : Colour) : pixels -> outcome pixels :=
  for_range 0 h (fun dy => for_range 0 w (fun dx px =>
    x' ← uadd 32 x dx; y' ← uadd 32 y dy; set_pixel v x' y' c px)).

(** The loop of [draw_line]. *)
Fixpoint line_loop (fuel : nat) v (c : Colour) (x1 y1 dx dy sx sy err x y : Z) px : outcome pixels :=
  match fuel with
  | O => NoFuel
  | S fuel =>
      px ← set_pixel v (ucast 32 x) (ucast 32 y) c px;
      if (x =? scast32 x1) && (y =? scast32 y1) then Ret px else
      e2 ← sarith32 (2 * err);
      '(err, x) ← (if dy <=? e2 then
                     err ← sarith32 (err + dy); x ← sarith32 (x + sx); Ret (err, x)
                   else Ret (err, x));
      '(err, y) ← (if e2 <=? dx then
                     err ← sarith32 (err + dx); y ← sarith32 (y + sy); Ret (err, y)
                   else Ret (err, y));
      line_loop fuel v c x1 y1 dx dy sx sy err x y px
  end.

(** [(a as i32 - b as i32).abs()] *)
Definition abs_diff (a b : Z) : outcome Z :=
  d ← sarith32 (scast32 a - scast32 b); sarith32 (Z.abs d).

Definition draw_line (fuel : nat) v (x0 y0 x1 y1 : Z) (c : Colour) px : outcome pixels :=
  dx ← abs_diff x1 x0;
  d ← abs_diff y1 y0;
  dy ← sarith32 (- d);
  let sx := if x0 <? x1 then 1 else -1 in
  let sy := if y0 <? y1 then 1 else -1 in
  err ← sarith32 (dx + dy);
  line_loop fuel v c x1 y1 dx dy sx sy err (scast32 x0) (scast32 y0) px.

Definition colors : list Colour := [WHITE; YELLOW; CYAN; GREEN; MAGENTA; RED; BLUE; BLACK].

Fixpoint pattern_from v (bar_width i : Z) (cs : list Colour) px : outcome pixels :=
  match cs with
  | [] => Ret px
  | color :: cs =>
      x_start ← umul 32 i bar_width;
      x_end ← (if i =? Z.of_nat (length colors) - 1 then Ret (width v) else umul 32 (i + 1) bar_width);
      px ← for_range x_start x_end (fun x => for_range 0 (height v) (fun y => set_pixel v x y color)) px;
      pattern_from v bar_width (i + 1) cs px
  end.
Definition test_pattern v (px : pixels) : outcome pixels :=
  bar_width ← udiv (width v) (Z.of_nat (length colors));
  pattern_from v bar_width 0 colors px.
End Drawing.

(** ** The functions on [VGA_DEVICE] *)

Section Static.
Context `{Build}.
Implicit Types (vga : option Vga) (px : pixels).
Definition on_device {S} vga (f : Vga -> S -> outcome S) (s : S) : outcome S :=
  match vga with Some v => f v s | None => Ret s end.
Definition static_set_pixel vga (x y : Z) (c : Colour) : pixels -> outcome pixels := on_device vga (fun v => set_pixel v x y c).
Definition static_get_pixel vga (x y : Z) px : outcome Colour :=
  match vga with Some v => get_pixel v x y px | None => Ret BLACK end.
Definition static_fill_screen vga (c : Colour) : pixels -> outcome pixels := on_device vga (fun v => fill_screen v c).
Definition static_draw_rect vga (x y w h : Z) (c : Colour) : pixels -> outcome pixels := on_device vga (fun v => draw_rect v x y w h c).
End Static.

(** ** [print_edid_info]

    [edid] are the registers; an index behind them panics. *)

Definition edid_letter (m sh : Z) : string := chr (ucast 8 (Z.land (Z.shiftr m sh) 0x1f + 0x41 - 1)).
Definition edid_row (i : Z) (line : list Z) : string :=
  ("0x" +:+ hex_min 4 (i * 16) +:+ ":" +:+ String.concat "" ((fun b => (" " +:+ hex 2 b)%string) <$> line) +:+ newline)%string.
Fixpoint edid_rows (n : nat) (i : Z) (l : list Z) : string :=
  match n with O => EmptyString | S n => (edid_row i (take 16 l) +:+ edid_rows n (i + 1) (drop 16 l))%string end.
Definition print_edid_info (v : Vga) (edid : list Z) : outcome string :=
  let at_ (i : nat) := unwrap (edid !! i) in
  b8 ← at_ 8%nat; b9 ← at_ 9%nat; b10 ← at_ 10%nat; b11 ← at_ 11%nat; b17 ← at_ 17%nat; b18 ← at_ 18%nat; b19 ← at_ 19%nat;
  let manufacturer_id := b8 * 256 + b9 in
  let product_code := b10 + b11 * 256 in
  raw ← slice edid 0 0x80;
  Ret ("=== EDID Info ===" +:+ newline +:+
    "Manufacturer: " +:+ edid_letter manufacturer_id 10 +:+ edid_letter manufacturer_id 5 +:+ edid_letter manufacturer_id 0 +:+ newline +:+
    "Product Code: 0x" +:+ hex_min 4 product_code +:+ newline +:+
    "Y: " +:+ pretty (1990 + b17) +:+ newline +:+
    "EDID Version: " +:+ pretty b18 +:+ "." +:+ pretty b19 +:+ newline +:+
    "Resolution: " +:+ pretty (width v) +:+ "x" +:+ pretty (height v) +:+ newline +:+
    "RAW EDID:" +:+ newline +:+ edid_rows 8 0 raw)%string.

Section Probe.
Context `{Platform} {St : Type} `{Mapper St}.

(** A memory BAR pair, 16-byte aligned. *)
Definition bar_addr (m : regs) (d : PciDevice) (i : Z) : outcome Z :=
  b ← bar m d i;
  lo ← unwrap b;
  addr ← (if Z.land lo 6 =? 4 then
            b ← bar m d (i + 1); hi ← unwrap b; Ret (Z.lor lo (Z.shiftl hi 32 mod 2 ^ 64))
          else Ret lo);
  Ret (Z.land addr (unot 64 15)).

(** [Vga::new]; [edid_at a] is the page of EDID registers at [a].  The
    results of [map_range] are ignored. *)
Definition Vga_new (s : St) (m : regs) (edid_at : Z -> list Z) (dev : PciDevice) : outcome (St * option Vga) :=
  if negb (is_vga m dev) then Ret (s, None) else
  fb_addr ← bar_addr m dev 0;
  edid_addr ← bar_addr m dev 2;
  '(s, _) ← mp_map s edid_addr edid_addr PAGE_4KIB (D_RW flags);
  let edid_regs := edid_at edid_addr in
  head ← slice edid_regs 0 8;
  if bool_decide (head ≠ EDID_HEADER) then Ret (s, None) else
  t ← slice edid_regs 54 18;
  let b (i : nat) := nth i t 0 in
  let w := Z.lor (b 2%nat) (Z.shiftl (Z.land (b 4%nat) 0xf0) 4) in
  let h := Z.lor (b 5%nat) (Z.shiftl (Z.land (b 7%nat) 0xf0) 4) in
  p ← umul 32 w 4;
  map_size ← umul 64 h p;
  '(s, _) ← mp_map s fb_addr fb_addr map_size (D_RW flags);
  Ret (s, Some (mkVga fb_addr edid_addr w h p)).

(** The loop of [init_vga]; the last display found is kept. *)
Fixpoint init_vga (s : St) (m : regs) (edid_at : Z -> list Z) (devs : list PciDevice) (px : pixels)
    (found : option Vga) : outcome (St * pixels * option Vga) :=
  match devs with
  | [] => Ret (s, px, found)
  | dev :: devs =>
      if is_vga m dev then
        '(s, r) ← Vga_new s m edid_at dev;
        match r with
        | Some v =>
            px ← fill_screen v WHITE px;
            px ← test_pattern v px;
            init_vga s m edid_at devs px (Some v)
        | None => init_vga s m edid_at devs px found
        end
      else init_vga s m edid_at devs px found
  end.
End Probe.

(** * What the drawing operations paint

    Every operation paints one colour at a list of points: no word outside the
    framebuffer is written, and a point of the screen changes exactly when it
    is in the list.  [draw_line] paints Bresenham's line. *)

(** ** Colours *)

Definition colour_ok (c : Colour) : Prop := is_byte (alpha c) /\ is_byte (red c) /\ is_byte (green c) /\ is_byte (blue c).

Lemma land_byte x : Z.land x 0xff = x mod 256.
Proof. change 0xff with (Z.ones 8). by rewrite Z.land_ones by lia. Qed.

Lemma colour_run c x :
  colour_ok c -> 0 <= x < 2 ^ 32 ->
  Colour_from_u32 (u32_from_Colour c) = c /\ 0 <= u32_from_Colour c < 2 ^ 32 /\
  u32_from_Colour (Colour_from_u32 x) = x.
Proof.
  intros (Ha & Hr & Hg & Hb) Hx. unfold is_byte in *.
  unfold Colour_from_u32, u32_from_Colour, ucast. rewrite !land_byte, !Z.shiftr_div_pow2 by lia.
  destruct c as [a r g b]. cbn in *. change (2 ^ 8) with 256. change (2 ^ 16) with 65536.
  change (2 ^ 24) with 16777216. change (2 ^ 32) with 4294967296 in *.
  split_and!; [f_equal| | |]; Z.to_euclidean_division_equations; lia.
Qed.

(** a colour and its 32-bit word determine each other. *)
Theorem colour_roundtrip c x :
  colour_ok c -> 0 <= x < 2 ^ 32 ->
  Colour_from_u32 (u32_from_Colour c) = c /\ 0 <= u32_from_Colour c < 2 ^ 32 /\
  u32_from_Colour (Colour_from_u32 x) = x.
Proof. apply colour_run. Qed.

Lemma colour_roundtrip_witness :
  Colour_from_u32 (u32_from_Colour CYAN) = CYAN /\ 0 <= u32_from_Colour CYAN < 2 ^ 32 /\
  u32_from_Colour (Colour_from_u32 0x12345678) = 0x12345678.
Proof. apply (colour_roundtrip CYAN 0x12345678); [repeat split; vm_compute; done || discriminate|lia]. Defined.

(** ** Loops *)

Lemma for_n_map {S} (n : nat) i (f : Z -> S -> outcome S) (g : Z -> S -> S) (s : S) :
  (forall k s, i <= k < i + Z.of_nat n -> f k s = Ret (g k s)) ->
  for_n n i f s = Ret (foldl (fun s k => g k s) s (seqZ i (Z.of_nat n))).
Proof.
  revert i s. induction n as [|n IH]; intros i s Hf; [done|]. cbn [for_n].
  rewrite Hf by lia. rewrite Ret_bind, (seqZ_cons i) by lia. cbn [foldl].
  replace (Z.pred (Z.of_nat (Datatypes.S n))) with (Z.of_nat n) by lia. apply IH.
  intros k s' Hk. apply Hf. lia.
Qed.

(** ** Points *)

Section Points.
Context `{Build}.
Implicit Types (v : Vga) (px : pixels) (c : Colour) (pts : list (Z * Z)).

(** The screen has at most 2^32 pixels. *)
Record vga_ok v : Prop := {
  vk_w : 0 <= width v < 2 ^ 32;
  vk_h : 0 <= height v < 2 ^ 32;
  vk_wh : width v * height v <= 2 ^ 32
}.

Definition on v (p : Z * Z) : Prop := 0 <= p.1 < width v /\ 0 <= p.2 < height v.
#[export] Instance on_dec v p : Decision (on v p).
Proof. unfold on. apply _. Defined.
Definition pix v (p : Z * Z) : Z := framebuffer v + 4 * (p.2 * width v + p.1).

Lemma pix_inj v p q : on v p -> on v q -> pix v p = pix v q -> p = q.
Proof.
  intros [Hp1 Hp2] [Hq1 Hq2] He. unfold pix in He.
  assert (p.2 * width v + p.1 = q.2 * width v + q.1) as He' by lia.
  assert (p.2 = q.2) as H2; [|destruct p, q; simpl in *; subst; f_equal; lia].
  rewrite (Z.div_unique_pos (p.2 * width v + p.1) (width v) p.2 p.1), He' by lia.
  symmetry. apply (Z.div_unique_pos _ _ _ q.1); lia.
Qed.

Lemma pix_inside v p : on v p -> framebuffer v <= pix v p < framebuffer v + 4 * (width v * height v).
Proof. intros [Hx Hy]. unfold pix. split; nia. Qed.

Definition put v c (p : Z * Z) px : pixels :=
  if decide (on v p) then fun a => if a =? pix v p then u32_from_Colour c else px a else px.
Definition paint v c pts px : pixels := foldl (fun px p => put v c p px) px pts.

Lemma set_pixel_put v x y c px :
  vga_ok v -> 0 <= x -> 0 <= y -> set_pixel v x y c px = Ret (put v c (x, y) px).
Proof.
  intros [Hw Hh Hwh] Hx Hy. unfold set_pixel, put, on. cbn [fst snd].
  destruct (Z.leb_spec (width v) x); [rewrite decide_False by lia; done|].
  destruct (Z.leb_spec (height v) y); [rewrite decide_False by lia; done|]. cbn [orb].
  rewrite decide_True by lia. unfold pixel_offset.
  assert (0 <= y * width v /\ y * width v + x < 2 ^ 32) as [? ?] by nia.
  rewrite umul_ok, Ret_bind by lia. rewrite uadd_ok, Ret_bind by lia. done.
Qed.

Lemma paint_on v c pts px p :
  on v p -> paint v c pts px (pix v p) = if decide (p ∈ pts) then u32_from_Colour c else px (pix v p).
Proof.
  intros Hp. unfold paint. revert px. induction pts as [|q pts IH]; intros px; cbn [foldl].
  { by rewrite decide_False by apply not_elem_of_nil. }
  rewrite IH. unfold put. destruct (decide (p ∈ pts)) as [Hin|Hin].
  - rewrite decide_True by (by right). done.
  - destruct (decide (p = q)) as [<-|Hne].
    + rewrite (decide_True (P := p ∈ p :: pts)) by left. rewrite decide_True by done. by rewrite Z.eqb_refl.
    + rewrite (decide_False (P := p ∈ q :: pts)) by (intros [?|?]%elem_of_cons; done).
      destruct (decide (on v q)) as [Hq|]; [|done].
      destruct (Z.eqb_spec (pix v p) (pix v q)) as [He|]; [|done]. by apply pix_inj in He.
Qed.

Lemma paint_off v c pts px a : (forall p, on v p -> a <> pix v p) -> paint v c pts px a = px a.
Proof.
  intros Ha. unfold paint. revert px. induction pts as [|q pts IH]; intros px; [done|]. cbn [foldl].
  rewrite IH. unfold put. destruct (decide (on v q)) as [Hq|]; [|done].
  destruct (Z.eqb_spec a (pix v q)) as [->|]; [|done]. exfalso. by apply (Ha q).
Qed.

Lemma paint_app v c a b px : paint v c (a ++ b) px = paint v c b (paint v c a px).
Proof. apply foldl_app. Qed.

(** A loop that paints paints the concatenation. *)
Lemma for_range_paint v c lo hi (f : Z -> pixels -> outcome pixels) (pts : Z -> list (Z * Z)) px :
  (forall k px, lo <= k < hi -> f k px = Ret (paint v c (pts k) px)) ->
  for_range lo hi f px = Ret (paint v c (concat (pts <$> seqZ lo (hi - lo))) px).
Proof.
  intros Hf. unfold for_range. rewrite (for_n_map _ _ _ (fun k => paint v c (pts k))).
  2:{ intros k s Hk. apply Hf. lia. }
  replace (seqZ lo (Z.of_nat (Z.to_nat (hi - lo)))) with (seqZ lo (hi - lo)).
  2:{ unfold seqZ. by rewrite Nat2Z.id. }
  f_equal. generalize (seqZ lo (hi - lo)) as l. intros l. revert px.
  induction l as [|k l IH]; intros px; [done|]. cbn [foldl fmap list_fmap concat]. by rewrite IH, paint_app.
Qed.

(** Columns or rows of a rectangle. *)
Definition block (a b w h : Z) : list (Z * Z) :=
  concat ((fun y => (fun x => (x, y)) <$> seqZ a w) <$> seqZ b h).

Lemma elem_grid (f : Z -> Z -> Z * Z) a w b h p :
  p ∈ concat ((fun y => (fun x => f x y) <$> seqZ a w) <$> seqZ b h) <->
  exists x y, a <= x < a + w /\ b <= y < b + h /\ p = f x y.
Proof.
  rewrite list_elem_of_In, in_concat. split.
  - intros (l & Hl & Hp). apply list_elem_of_In, list_elem_of_fmap in Hl as (y & -> & Hy).
    apply list_elem_of_In, list_elem_of_fmap in Hp as (x & -> & Hx). exists x, y.
    rewrite elem_of_seqZ in Hx, Hy. split_and!; lia || done.
  - intros (x & y & Hx & Hy & ->). exists ((fun x => f x y) <$> seqZ a w). split.
    + apply list_elem_of_In, list_elem_of_fmap. exists y. split; [done|]. apply elem_of_seqZ. lia.
    + apply list_elem_of_In, list_elem_of_fmap. exists x. split; [done|]. apply elem_of_seqZ. lia.
Qed.

Lemma concat_singles {A B} (f : A -> B) l : concat ((fun x => [f x]) <$> l) = f <$> l.
Proof. induction l as [|a l IH]; [done|]. cbn. f_equal. exact IH. Qed.

(** What an operation that paints [pts] does. *)
Record painted v c (inside : Z * Z -> Prop) px px' : Prop := {
  pt_in : forall p, on v p -> inside p -> px' (pix v p) = u32_from_Colour c;
  pt_out : forall p, on v p -> ~ inside p -> px' (pix v p) = px (pix v p);
  pt_frame : forall a, ~ (framebuffer v <= a < framebuffer v + 4 * (width v * height v)) -> px' a = px a
}.

Lemma painted_paint v c pts (inside : Z * Z -> Prop) px :
  (forall p, on v p -> p ∈ pts <-> inside p) -> painted v c inside px (paint v c pts px).
Proof.
  intros Hi. constructor.
  - intros p Hp Hin. rewrite paint_on by done. by rewrite decide_True by (by apply Hi).
  - intros p Hp Hin. rewrite paint_on by done. rewrite decide_False; [done|]. by rewrite Hi.
  - intros a Ha. apply paint_off. intros p Hp ->. by apply Ha, pix_inside.
Qed.

(** filling the screen paints every pixel and writes no other word of
    memory. *)
Theorem fill_screen_spec v c px :
  vga_ok v -> exists px', fill_screen v c px = Ret px' /\ painted v c (fun _ => True) px px'.
Proof.
  intros Hok. unfold fill_screen.
  rewrite (for_range_paint v c _ _ _ (fun y => (fun x => (x, y)) <$> seqZ 0 (width v - 0))).
  - eexists. split; [done|]. apply painted_paint. intros [x y] [Hx Hy]. cbn in *. rewrite elem_grid.
    split; [done|]. intros _. exists x, y. split_and!; lia || done.
  - intros y px' Hy. rewrite (for_range_paint v c _ _ _ (fun x => [(x, y)])).
    + by rewrite concat_singles.
    + intros x px'' Hx. rewrite set_pixel_put by (done || lia). done.
Qed.

(** a rectangle paints exactly its pixels on the screen: what sticks out
    is clipped, also when the rectangle starts outside. *)
Theorem draw_rect_spec v x y w h c px :
  vga_ok v -> 0 <= x -> 0 <= y -> 0 <= w -> 0 <= h -> x + w <= 2 ^ 32 -> y + h <= 2 ^ 32 ->
  exists px', draw_rect v x y w h c px = Ret px' /\
    painted v c (fun p => x <= p.1 < x + w /\ y <= p.2 < y + h) px px'.
Proof.
  intros Hok Hx Hy Hw Hh Hxw Hyh. unfold draw_rect.
  rewrite (for_range_paint v c _ _ _ (fun dy => (fun dx => (x + dx, y + dy)) <$> seqZ 0 (w - 0))).
  - eexists. split; [done|]. apply painted_paint. intros [a b] _. cbn. rewrite elem_grid. split.
    + intros (dx & dy & Hdx & Hdy & [= -> ->]). lia.
    + intros [Ha Hb]. exists (a - x), (b - y). split_and!; [lia..|]. f_equal; lia.
  - intros dy px' Hdy. rewrite (for_range_paint v c _ _ _ (fun dx => [(x + dx, y + dy)])).
    + by rewrite concat_singles.
    + intros dx px'' Hdx. rewrite (uadd_ok 32 x), Ret_bind by lia. rewrite uadd_ok, Ret_bind by lia.
      rewrite set_pixel_put by (done || lia). done.
Qed.

(** What is drawn is read back; outside the screen one reads black. *)
Lemma get_painted v c (inside : Z * Z -> Prop) px px' p :
  vga_ok v -> colour_ok c -> painted v c inside px px' -> on v p -> inside p ->
  get_pixel v p.1 p.2 px' = Ret c.
Proof.
  intros [Hw Hh Hwh] Hc Hp [Hx Hy] Hin. unfold get_pixel.
  destruct (Z.leb_spec (width v) p.1); [lia|]. destruct (Z.leb_spec (height v) p.2); [lia|]. cbn [orb].
  unfold pixel_offset. assert (0 <= p.2 * width v /\ p.2 * width v + p.1 < 2 ^ 32) as [? ?] by nia.
  rewrite umul_ok, Ret_bind by lia. rewrite uadd_ok, Ret_bind by lia.
  fold (pix v p). rewrite (pt_in _ _ _ _ _ Hp p) by (done || split; lia). f_equal.
  apply (colour_run c 0); [done|lia].
Qed.

(** ** The test pattern *)

(** The bar of a column: eight bars of equal width, the last one up to the
    edge; narrow screens have only the last. *)
Definition bar_of v (x : Z) : Z :=
  let bw := width v / 8 in if bw =? 0 then 7 else Z.min (x / bw) 7.

Lemma bar_column v x i : 0 <= x < width v -> 0 <= i < 8 ->
  bar_of v x = i <-> i * (width v / 8) <= x < (if i =? 7 then width v else (i + 1) * (width v / 8)).
Proof.
  intros Hx Hi. unfold bar_of. pose proof (Z.div_mod (width v) 8 ltac:(lia)) as Hd.
  pose proof (Z.mod_pos_bound (width v) 8 ltac:(lia)) as Hm.
  assert (0 <= width v / 8) as Hb by (apply Z.div_pos; lia). set (bw := width v / 8) in *.
  destruct (Z.eqb_spec bw 0) as [Hz|Hz].
  - rewrite Hz, !Z.mul_0_r. destruct (Z.eqb_spec i 7); lia.
  - pose proof (Z.div_mod x bw ltac:(lia)) as Hdx. pose proof (Z.mod_pos_bound x bw ltac:(lia)) as Hmx.
    assert (0 <= x / bw) by (apply Z.div_pos; lia). set (q := x / bw) in *.
    destruct (Z.eqb_spec i 7) as [->|Hi7].
    + split; [|nia]. intros Hq. assert (7 <= q) by lia. nia.
    + split; [intros Hq; assert (q = i) by lia; nia|]. intros Hq. assert (q = i) by nia. lia.
Qed.

(** The pattern after the bars below [i]. *)
Definition bars_upto v (i : Z) px px' : Prop :=
  (forall p, on v p -> bar_of v p.1 < i ->
     exists c, colors !! Z.to_nat (bar_of v p.1) = Some c /\ px' (pix v p) = u32_from_Colour c) /\
  (forall a, ~ (framebuffer v <= a < framebuffer v + 4 * (width v * height v)) -> px' a = px a).

Lemma bar_of_range v x : 0 <= x -> 0 <= width v -> 0 <= bar_of v x < 8.
Proof.
  intros Hx Hw. unfold bar_of. destruct (Z.eqb_spec (width v / 8) 0); [lia|].
  assert (0 <= width v / 8) by (apply Z.div_pos; lia).
  assert (0 <= x / (width v / 8)) by (apply Z.div_pos; lia). lia.
Qed.

Lemma one_bar v i c px px1 :
  vga_ok v -> 0 <= i < 8 -> colors !! Z.to_nat i = Some c -> bars_upto v i px px1 ->
  let bw := width v / 8 in
  let x_end := if i =? 7 then width v else (i + 1) * bw in
  exists px2, for_range (i * bw) x_end
      (fun x => for_range 0 (height v) (fun y => set_pixel v x y c)) px1 = Ret px2 /\
    bars_upto v (i + 1) px px2.
Proof.
  intros Hok Hi Hc [Hin Hfr] bw x_end. pose proof (vk_w _ Hok) as Hw.
  assert (0 <= bw) as Hb by (apply Z.div_pos; lia).
  rewrite (for_range_paint v c _ _ _ (fun x => (fun y => (x, y)) <$> seqZ 0 (height v - 0))).
  2:{ intros x px' Hx. rewrite (for_range_paint v c _ _ _ (fun y => [(x, y)])).
      - by rewrite concat_singles.
      - intros y px'' Hy. rewrite set_pixel_put by (done || nia). done. }
  eexists. split; [done|].
  assert (painted v c (fun p => bar_of v p.1 = i) px1
    (paint v c (concat ((fun x => (fun y => (x, y)) <$> seqZ 0 (height v - 0)) <$> seqZ (i * bw) (x_end - i * bw))) px1)) as Hp.
  { apply painted_paint. intros [x y] [Hx Hy]. cbn in *.
    rewrite (elem_grid (fun y x => (x, y))). rewrite (bar_column v x i) by done. fold bw x_end. split.
    - intros (y' & x' & Hy' & Hx' & [= <- <-]). lia.
    - intros Hx'. exists y, x. split_and!; lia || done. }
  split.
  - intros p Hp' Hlt. destruct (decide (bar_of v p.1 = i)) as [He|He].
    + exists c. rewrite He. split; [done|]. by apply Hp.
    + rewrite (pt_out _ _ _ _ _ Hp p Hp' He). apply Hin; [done|lia].
  - intros a Ha. rewrite (pt_frame _ _ _ _ _ Hp a Ha). by apply Hfr.
Qed.

Lemma pattern_from_spec v cs i px px1 :
  vga_ok v -> 0 <= i -> drop (Z.to_nat i) colors = cs -> i <= 8 -> bars_upto v i px px1 ->
  exists px2, pattern_from v (width v / 8) i cs px1 = Ret px2 /\ bars_upto v 8 px px2.
Proof.
  intros Hok. pose proof (vk_w _ Hok) as Hw. revert i px1.
  induction cs as [|c cs IH]; intros i px1 Hi0 Hcs Hi Hb; cbn [pattern_from].
  { assert (length (drop (Z.to_nat i) colors) = 0%nat) as Hl by (by rewrite Hcs).
    rewrite length_drop in Hl. change (length colors) with 8%nat in Hl. assert (i = 8) as -> by lia.
    by exists px1. }
  assert (colors !! Z.to_nat i = Some c) as Hc.
  { rewrite <- (Nat.add_0_r (Z.to_nat i)), <- lookup_drop, Hcs. done. }
  pose proof (lookup_lt_Some _ _ _ Hc) as Hlt. change (length colors) with 8%nat in Hlt.
  assert (0 <= width v / 8) by (apply Z.div_pos; lia).
  pose proof (Z.div_mod (width v) 8 ltac:(lia)) as Hd. pose proof (Z.mod_pos_bound (width v) 8 ltac:(lia)).
  rewrite (umul_ok 32 i), Ret_bind by nia. change (Z.of_nat (length colors) - 1) with 7.
  assert ((if i =? 7 then Ret (width v) else umul 32 (i + 1) (width v / 8)) =
    Ret (if i =? 7 then width v else (i + 1) * (width v / 8))) as ->.
  { destruct (i =? 7); [done|]. apply umul_ok. nia. }
  rewrite Ret_bind. destruct (one_bar v i c px px1 Hok ltac:(lia) Hc Hb) as (px2 & -> & Hb2).
  rewrite Ret_bind. apply IH; [lia| |lia|done].
  replace (Z.to_nat (i + 1)) with (Z.to_nat i + 1)%nat by lia. by rewrite <- drop_drop, Hcs.
Qed.

(** the test pattern paints every pixel with the colour of its bar and
    writes no other word of memory. *)
Theorem test_pattern_spec v px :
  vga_ok v ->
  exists px', test_pattern v px = Ret px' /\
    (forall p, on v p -> exists c, colors !! Z.to_nat (bar_of v p.1) = Some c /\
       px' (pix v p) = u32_from_Colour c) /\
    (forall a, ~ (framebuffer v <= a < framebuffer v + 4 * (width v * height v)) -> px' a = px a).
Proof.
  intros Hok. unfold test_pattern. change (Z.of_nat (length colors)) with 8.
  rewrite udiv_ok, Ret_bind by lia.
  destruct (pattern_from_spec v colors 0 px px Hok) as (px' & -> & Hin & Hfr); [lia|done|lia| |].
  - split; [|done]. intros p [Hx _] Hlt. pose proof (bar_of_range v p.1). pose proof (vk_w _ Hok). lia.
  - exists px'. split; [done|]. split; [|done]. intros p Hp. apply Hin; [done|].
    apply bar_of_range; [apply Hp|]. by apply vk_w.
Qed.
End Points.

(** ** Bresenham's line *)

Section Line.
Context `{Build}.

(** [D] and [E] are the distances in the two directions, [i] and [j] the
    steps taken, and the error term is [(j + 1) * D - (i + 1) * E]. *)
Record line_inv (D E i j : Z) : Prop := {
  li_i : 0 <= i <= D;
  li_j : 0 <= j <= E;
  li_err : 2 * Z.abs (j * D - i * E) <= Z.max D E
}.
Definition major (D E i j : Z) : Z := if E <=? D then i else j.

Lemma line_done D E i j :
  0 <= D -> 0 <= E -> line_inv D E i j -> major D E i j = Z.max D E <-> i = D /\ j = E.
Proof.
  intros HD HE [Hi Hj He]. unfold major. destruct (Z.leb_spec E D) as [Hle|Hlt].
  - split; [intros Hm; assert (i = D) as -> by lia|lia]. split; [done|].
    destruct (decide (D = 0)); [lia|]. assert (2 * Z.abs (j - E) * D <= D) by nia. nia.
  - split; [intros Hm; assert (j = E) as -> by lia|lia]. split; [|done].
    assert (2 * Z.abs (D - i) * E <= E) by nia. nia.
Qed.

Lemma line_step D E i j :
  0 <= D -> 0 <= E -> line_inv D E i j -> major D E i j < Z.max D E ->
  let err := (j + 1) * D - (i + 1) * E in
  let i' := if - E <=? 2 * err then i + 1 else i in
  let j' := if 2 * err <=? D then j + 1 else j in
  line_inv D E i' j' /\ major D E i' j' = major D E i j + 1.
Proof.
  intros HD HE [Hi Hj He] Hm err i' j'. unfold major in *.
  set (r := j * D - i * E) in *.
  assert (err = r + D - E) as Herr by (unfold err, r; ring).
  assert ((j + 1) * D - (i + 1) * E = r + D - E) as H11 by (unfold r; ring).
  assert (j * D - (i + 1) * E = r - E) as H10 by (unfold r; ring).
  assert ((j + 1) * D - i * E = r + D) as H01 by (unfold r; ring).
  unfold i', j'. rewrite Herr. clear err i' j' Herr.
  destruct (Z.leb_spec E D) as [Hle|Hlt].
  - assert (0 < D) as HDp by lia. destruct (Z.leb_spec (- E) (2 * (r + D - E))); [|lia].
    destruct (Z.leb_spec (2 * (r + D - E)) D).
    + split; [|lia]. constructor; [lia| |lia]. assert ((j + 1) * D <= (i + 1) * E + D / 2) as Hb.
      { assert (r + D - E <= D / 2) by (apply Z.div_le_lower_bound; lia). lia. }
      assert (2 * (D / 2) <= D) by (apply Z.mul_div_le; lia). nia.
    + split; [|lia]. constructor; [lia|lia|]. lia.
  - destruct (Z.leb_spec (2 * (r + D - E)) D); [|lia].
    destruct (Z.leb_spec (- E) (2 * (r + D - E))).
    + split; [|lia]. constructor; [|lia|lia]. assert ((i + 1) * E <= (j + 1) * D + E / 2) as Hb.
      { assert (- (r + D - E) <= E / 2) by (apply Z.div_le_lower_bound; lia). lia. }
      assert (2 * (E / 2) <= E) by (apply Z.mul_div_le; lia). nia.
    + split; [|lia]. constructor; [lia|lia|]. lia.
Qed.

Lemma scast32_id x : - 2 ^ 31 <= x < 2 ^ 31 -> scast32 x = x.
Proof. intros Hx. unfold scast32. rewrite Z.mod_small by lia. lia. Qed.
Lemma sarith32_ok x : - 2 ^ 31 <= x < 2 ^ 31 -> sarith32 x = Ret x.
Proof.
  intros Hx. unfold sarith32. destruct (Z.leb_spec (- 2 ^ 31) x), (Z.ltb_spec x (2 ^ 31)); done || lia.
Qed.

Definition dir (a b : Z) : Z := if a <? b then 1 else -1.
Lemma dir_end a b : a + dir a b * Z.abs (b - a) = b.
Proof. unfold dir. destruct (Z.ltb_spec a b); lia. Qed.
Lemma dir_unit a b : dir a b = 1 \/ dir a b = -1.
Proof. unfold dir. destruct (a <? b); auto. Qed.

Section Endpoints.
Context (v : Vga) (c : Colour) (x0 y0 x1 y1 : Z).
Hypothesis Hok : vga_ok v.
Hypothesis Hx0 : 0 <= x0 < 2 ^ 29.
Hypothesis Hy0 : 0 <= y0 < 2 ^ 29.
Hypothesis Hx1 : 0 <= x1 < 2 ^ 29.
Hypothesis Hy1 : 0 <= y1 < 2 ^ 29.
Let D := Z.abs (x1 - x0).
Let E := Z.abs (y1 - y0).

(** The [k]-th point: [k] steps along the longer direction, and at most
    half a pixel off the ideal line along the other one. *)
Definition on_line (k : Z) (p : Z * Z) : Prop :=
  exists i j, p = (x0 + dir x0 x1 * i, y0 + dir y0 y1 * j) /\ line_inv D E i j /\ major D E i j = k.

Lemma coord_range a b i : 0 <= a < 2 ^ 29 -> 0 <= b < 2 ^ 29 -> 0 <= i <= Z.abs (b - a) ->
  0 <= a + dir a b * i < 2 ^ 29.
Proof. intros Ha Hb Hi. unfold dir. destruct (Z.ltb_spec a b); lia. Qed.

Lemma err_bounds i j : line_inv D E i j ->
  Z.abs ((j + 1) * D - (i + 1) * E) <= 3 * 2 ^ 28 /\ 0 <= D < 2 ^ 29 /\ 0 <= E < 2 ^ 29.
Proof.
  intros [Hi Hj He]. assert (0 <= D < 2 ^ 29) by (unfold D; lia). assert (0 <= E < 2 ^ 29) by (unfold E; lia).
  split; [|done]. replace ((j + 1) * D - (i + 1) * E) with ((j * D - i * E) + D - E) by ring. lia.
Qed.

Lemma line_loop_ok n fuel i j px :
  line_inv D E i j -> major D E i j + Z.of_nat n = Z.max D E -> (n < fuel)%nat ->
  exists pts, line_loop fuel v c x1 y1 D (- E) (dir x0 x1) (dir y0 y1) ((j + 1) * D - (i + 1) * E)
      (x0 + dir x0 x1 * i) (y0 + dir y0 y1 * j) px = Ret (paint v c pts px) /\
    length pts = S n /\
    forall k p, pts !! k = Some p -> on_line (major D E i j + Z.of_nat k) p.
Proof.
  revert fuel i j px. induction n as [|n IH]; intros fuel i j px Hinv Hm Hfuel;
    (destruct fuel as [|fuel]; [lia|]); cbn [line_loop];
    destruct (err_bounds i j Hinv) as (Herr & HD & HE); pose proof (li_i _ _ _ _ Hinv) as Hi;
    pose proof (li_j _ _ _ _ Hinv) as Hj;
    pose proof (coord_range x0 x1 i Hx0 Hx1 Hi) as Hx; pose proof (coord_range y0 y1 j Hy0 Hy1 Hj) as Hy;
    unfold ucast; rewrite !Z.mod_small by lia; rewrite set_pixel_put, Ret_bind by (done || lia);
    rewrite !scast32_id by lia; pose proof (dir_end x0 x1) as Hex; pose proof (dir_end y0 y1) as Hey;
    fold D in Hex; fold E in Hey;
    pose proof (line_done D E i j (proj1 HD) (proj1 HE) Hinv) as Hdone.
  all: assert (on_line (major D E i j) (x0 + dir x0 x1 * i, y0 + dir y0 y1 * j)) as Hhere
    by (exists i, j; done).
  - destruct (proj1 Hdone ltac:(lia)) as [-> ->]. rewrite Hex, Hey, !Z.eqb_refl. cbn [andb].
    exists [(x1, y1)]. split; [done|]. split; [done|]. intros [|k] p Hp; [|done].
    injection Hp as <-. rewrite Z.add_0_r. rewrite Hex, Hey in Hhere. exact Hhere.
  - assert ((x0 + dir x0 x1 * i =? x1) && (y0 + dir y0 y1 * j =? y1) = false) as ->.
    { apply not_true_iff_false. intros [Hx' Hy']%andb_true_iff. apply Z.eqb_eq in Hx', Hy'.
      assert (i = D) by (destruct (dir_unit x0 x1) as [Hu|Hu]; rewrite Hu in *; lia).
      assert (j = E) by (destruct (dir_unit y0 y1) as [Hu|Hu]; rewrite Hu in *; lia).
      assert (major D E i j = Z.max D E) by (by apply Hdone). lia. }
    destruct (line_step D E i j ltac:(lia) ltac:(lia) Hinv ltac:(lia)) as [Hinv' Hm'].
    cbn zeta in Hinv', Hm'. set (err := (j + 1) * D - (i + 1) * E) in *.
    set (i' := if - E <=? 2 * err then i + 1 else i) in *.
    set (j' := if 2 * err <=? D then j + 1 else j) in *.
    pose proof (coord_range x0 x1 i' Hx0 Hx1 (li_i _ _ _ _ Hinv')) as Hxr.
    pose proof (coord_range y0 y1 j' Hy0 Hy1 (li_j _ _ _ _ Hinv')) as Hyr.
    rewrite (sarith32_ok (2 * err)), Ret_bind by lia.
    assert ((if - E <=? 2 * err
             then e ← sarith32 (err + - E); x ← sarith32 (x0 + dir x0 x1 * i + dir x0 x1); Ret (e, x)
             else Ret (err, x0 + dir x0 x1 * i)) =
      Ret ((j + 1) * D - (i' + 1) * E, x0 + dir x0 x1 * i')) as ->.
    { unfold i' in *. destruct (- E <=? 2 * err).
      - rewrite (sarith32_ok (err + - E)), Ret_bind by lia. rewrite sarith32_ok, Ret_bind by lia. do 2 f_equal; [|ring].
        unfold err. ring.
      - done. }
    rewrite Ret_bind.
    assert ((if 2 * err <=? D
             then e ← sarith32 ((j + 1) * D - (i' + 1) * E + D);
                  y ← sarith32 (y0 + dir y0 y1 * j + dir y0 y1); Ret (e, y)
             else Ret ((j + 1) * D - (i' + 1) * E, y0 + dir y0 y1 * j)) =
      Ret ((j' + 1) * D - (i' + 1) * E, y0 + dir y0 y1 * j')) as ->.
    { destruct (err_bounds i' j' Hinv') as (Herr' & _ & _). unfold j' in *. destruct (2 * err <=? D).
      - replace ((j + 1) * D - (i' + 1) * E + D) with ((j + 1 + 1) * D - (i' + 1) * E) by ring.
        rewrite (sarith32_ok ((j + 1 + 1) * D - (i' + 1) * E)), Ret_bind by lia.
        rewrite sarith32_ok, Ret_bind by lia. do 2 f_equal. ring.
      - done. }
    rewrite Ret_bind.
    destruct (IH fuel i' j' (put v c (x0 + dir x0 x1 * i, y0 + dir y0 y1 * j) px) Hinv')
      as (pts & -> & Hl & Hpts); [lia|lia|].
    exists ((x0 + dir x0 x1 * i, y0 + dir y0 y1 * j) :: pts). split; [done|]. split; [simpl; lia|].
    intros [|k] p Hp; [injection Hp as <-; by rewrite Z.add_0_r|].
    replace (major D E i j + Z.of_nat (S k)) with (major D E i' j' + Z.of_nat k) by lia. by apply Hpts.
Qed.

(** A line between two points paints Bresenham's line: it terminates
    after one turn per pixel of its longer direction, the [k]-th point is
    [k] steps along that direction and at most half a pixel off the ideal
    line, it starts at the first point and ends at the second, and no
    intermediate result overflows. *)
Theorem draw_line_spec fuel px :
  Z.max D E < Z.of_nat fuel ->
  exists pts, draw_line fuel v x0 y0 x1 y1 c px = Ret (paint v c pts px) /\
    Z.of_nat (length pts) = Z.max D E + 1 /\
    (forall k p, pts !! k = Some p -> on_line (Z.of_nat k) p) /\
    head pts = Some (x0, y0) /\ last pts = Some (x1, y1).
Proof.
  intros Hfuel. assert (0 <= D < 2 ^ 29) by (unfold D; lia). assert (0 <= E < 2 ^ 29) by (unfold E; lia).
  assert (line_inv D E 0 0) as Hinv by (constructor; lia).
  assert (major D E 0 0 = 0) as Hm by (unfold major; by destruct (E <=? D)).
  destruct (line_loop_ok (Z.to_nat (Z.max D E)) fuel 0 0 px Hinv) as (pts & Hr & Hl & Hpts); [lia|lia|].
  exists pts. unfold draw_line, abs_diff. rewrite !scast32_id by lia.
  rewrite (sarith32_ok (x1 - x0)), Ret_bind by lia. fold D. rewrite (sarith32_ok D), Ret_bind by lia.
  rewrite (sarith32_ok (y1 - y0)), Ret_bind by lia. fold E. rewrite (sarith32_ok E), Ret_bind by lia.
  rewrite (sarith32_ok (- E)), Ret_bind by lia. rewrite sarith32_ok, Ret_bind by lia.
  rewrite !Z.mul_0_r, !Z.add_0_r in Hr.
  replace ((0 + 1) * D - (0 + 1) * E) with (D + - E) in Hr by ring.
  cbn zeta. fold (dir x0 x1) (dir y0 y1). rewrite Hr.
  rewrite Hm in Hpts. split; [done|]. split; [lia|]. split; [by intros k p Hp; apply (Hpts k)|].
  split.
  - destruct pts as [|p pts]; [done|]. destruct (Hpts 0%nat p eq_refl) as (i & j & -> & Hij & Hmaj).
    simpl. destruct Hij as [Hi Hj He]. unfold major in Hmaj. f_equal.
    destruct (Z.leb_spec E D).
    + assert (i = 0) as -> by lia. destruct (decide (D = 0)); [assert (j = 0) by lia; subst; f_equal; lia|].
      assert (j = 0) as -> by nia. f_equal; lia.
    + assert (j = 0) as -> by lia. assert (i = 0) as -> by nia. f_equal; lia.
  - rewrite last_lookup. rewrite Hl. cbn [pred].
    destruct (lookup_lt_is_Some_2 pts (Z.to_nat (Z.max D E)) ltac:(lia)) as [p Hp]. rewrite Hp. f_equal.
    destruct (Hpts _ p Hp) as (i & j & -> & Hij & Hmaj).
    destruct (proj1 (line_done D E i j ltac:(lia) ltac:(lia) Hij) ltac:(lia)) as [-> ->].
    unfold D, E. by rewrite !dir_end.
Qed.
End Endpoints.
End Line.

(** ** A screen of 64 by 48 pixels *)

Module VgaDemo.
#[local] Instance build : Build := {| overflow_checks := true |}.
Definition v0 : Vga := mkVga 0x1000 0 64 48 256.
Definition blank : pixels := fun _ => 0.

Lemma v0_ok : vga_ok v0.
Proof. constructor; simpl; lia. Qed.

Lemma fill_screen_spec_witness :
  exists px', fill_screen v0 CYAN blank = Ret px' /\ painted v0 CYAN (fun _ => True) blank px'.
Proof. apply (fill_screen_spec v0 CYAN blank). apply v0_ok. Defined.

Lemma draw_rect_spec_witness :
  exists px', draw_rect v0 60 40 10 20 RED blank = Ret px' /\
    painted v0 RED (fun p => 60 <= p.1 < 60 + 10 /\ 40 <= p.2 < 40 + 20) blank px'.
Proof. apply (draw_rect_spec v0 60 40 10 20 RED blank); [apply v0_ok|lia..]. Defined.

Lemma test_pattern_spec_witness :
  exists px', test_pattern v0 blank = Ret px' /\
    (forall p, on v0 p -> exists c, colors !! Z.to_nat (bar_of v0 p.1) = Some c /\
       px' (pix v0 p) = u32_from_Colour c) /\
    (forall a, ~ (framebuffer v0 <= a < framebuffer v0 + 4 * (width v0 * height v0)) -> px' a = blank a).
Proof. apply (test_pattern_spec v0 blank). apply v0_ok. Defined.

Lemma draw_line_spec_witness :
  exists pts, draw_line 100 v0 3 40 60 2 RED blank = Ret (paint v0 RED pts blank) /\
    Z.of_nat (length pts) = Z.max (Z.abs (60 - 3)) (Z.abs (2 - 40)) + 1 /\
    (forall k p, pts !! k = Some p -> on_line 3 40 60 2 (Z.of_nat k) p) /\
    head pts = Some (3, 40) /\ last pts = Some (60, 2).
Proof. apply (draw_line_spec v0 RED 3 40 60 2); [apply v0_ok|lia|lia|lia|lia|vm_compute; reflexivity]. Defined.

Example line_pixels :
  (fun px => (get_pixel v0 3 40 px, get_pixel v0 60 2 px, get_pixel v0 4 39 px, get_pixel v0 4 40 px))
    <$> draw_line 100 v0 3 40 60 2 RED blank = Ret (Ret RED, Ret RED, Ret RED, Ret (Colour_from_u32 0)).
Proof. vm_compute. reflexivity. Qed.
End VgaDemo.
