(* ===== verification/Aps.v ===== *)
(** * Aps: the list of application processors (ApList in kargs.rs)

    Every processor that starts is given a small number, from which its stack
    is placed.  [phys_id()] is a register of the processor and a parameter
    here; the locks around the two fields are taken one call at a time. *)

From S2P Require Import Prelude RvmFacts Bytes Rvm RamUtil.

Record ApList : Type := mkApList { bitmap : list Z; phys2virt : gmap Z Z }.

Definition ApList_new : ApList := mkApList [] ∅.

Definition virtid_self (s : ApList) (physid : Z) : Z := default 0 (phys2virt s !! physid).

(** [x.trailing_zeros()] of a [usize]. *)
Definition trailing_zeros (x : Z) : Z :=
  match List.find (fun b => Z.testbit x b) (seqZ 0 64) with Some b => b | None => 64 end.

Definition usize_MAX : Z := 2 ^ 64 - 1.

(** The loop of [assign]: the first word with a clear bit. *)
Fixpoint take_bit (i : Z) (bm : list Z) : list Z * option Z :=
  match bm with
  | [] => ([], None)
  | word :: bm =>
      if negb (word =? usize_MAX) then
        let bit := trailing_zeros (unot 64 word) in
        (Z.lor word (Z.shiftl 1 bit) :: bm, Some (i * 64 + bit))
      else let '(bm, r) := take_bit (i + 1) bm in (word :: bm, r)
  end.

Definition assign (s : ApList) (physid : Z) : ApList * Z :=
  let '(bm, r) := take_bit 0 (bitmap s) in
  let virtid := default physid r in
  (mkApList (bm ++ [1]) (<[physid := virtid]> (phys2virt s)), virtid).

(** [bm.last() == Some(&0)], [bm.pop()] *)
Definition pop_zero (bm : list Z) : list Z :=
  if bool_decide (last bm = Some 0) then take (length bm - 1) bm else bm.

Definition release (s : ApList) (vid : Z) : ApList :=
  let m := filter (fun p => p.2 <> vid) (phys2virt s) in
  let k := Z.to_nat (vid / 64) in
  let bm := match bitmap s !! k with
            | Some w => <[k := Z.land w (unot 64 (Z.shiftl 1 (vid mod 64)))]> (bitmap s)
            | None => bitmap s
            end in
  mkApList (pop_zero bm) m.

(** ** Which numbers are taken *)

Definition taken (bm : list Z) (v : Z) : Prop :=
  exists w, bm !! Z.to_nat (v / 64) = Some w /\ Z.testbit w (v mod 64) = true.

(** The numbers in use are marked, no two processors share one. *)
Record aps_ok (s : ApList) : Prop := {
  ao_words : Forall (fun w => 0 <= w < 2 ^ 64) (bitmap s);
  ao_marked : forall p v, phys2virt s !! p = Some v -> 0 <= v /\ taken (bitmap s) v;
  ao_inj : forall p p' v, phys2virt s !! p = Some v -> phys2virt s !! p' = Some v -> p = p'
}.

Lemma testbit_unot x b : 0 <= x < 2 ^ 64 -> 0 <= b < 64 -> Z.testbit (unot 64 x) b = negb (Z.testbit x b).
Proof.
  intros Hx Hb. unfold unot. replace (2 ^ 64 - 1 - x) with (Z.lnot x + 1 * 2 ^ 64).
  2:{ unfold Z.lnot. lia. }
  rewrite <- (Z.mod_pow2_bits_low _ 64 b) by lia. rewrite Z.mod_add by lia.
  rewrite Z.mod_pow2_bits_low by lia. apply Z.lnot_spec. lia.
Qed.

Lemma not_max_clear w : 0 <= w < 2 ^ 64 -> w <> usize_MAX -> exists b, 0 <= b < 64 /\ Z.testbit w b = false.
Proof.
  intros Hw Hne. destruct (decide (Exists (fun b => Z.testbit w b = false) (seqZ 0 64))) as [He|He].
  - apply Exists_exists in He as (b & Hb & Hc). apply elem_of_seqZ in Hb. exists b. split; [lia|done].
  - exfalso. apply Hne. apply Z.bits_inj'. intros n Hn. unfold usize_MAX.
    replace (2 ^ 64 - 1) with (Z.ones 64) by done. rewrite Z.testbit_ones by lia.
    destruct (Z.leb_spec 0 n); [|lia]. destruct (Z.ltb_spec n 64); cbn [andb].
    + destruct (Z.testbit w n) eqn:Hc; [done|]. exfalso. apply He, Exists_exists. exists n.
      split; [apply elem_of_seqZ; lia|done].
    + rewrite <- (Z.mod_small w (2 ^ 64)) by done. by apply Z.mod_pow2_bits_high.
Qed.

(** The bit that [assign] takes is clear. *)
Lemma free_bit w :
  0 <= w < 2 ^ 64 -> w <> usize_MAX ->
  0 <= trailing_zeros (unot 64 w) < 64 /\ Z.testbit w (trailing_zeros (unot 64 w)) = false.
Proof.
  intros Hw Hne. unfold trailing_zeros. destruct (List.find _ _) as [b|] eqn:Hf.
  - apply List.find_some in Hf as [Hin Hb]. apply list_elem_of_In, elem_of_seqZ in Hin.
    rewrite testbit_unot in Hb by (done || lia). split; [lia|]. by apply negb_true_iff.
  - exfalso. destruct (not_max_clear w Hw Hne) as (b & Hb & Hc).
    pose proof (List.find_none _ _ Hf b) as Hn. rewrite testbit_unot in Hn by (done || lia).
    rewrite Hc in Hn. assert (negb false = false); [|done]. apply Hn, list_elem_of_In, elem_of_seqZ. lia.
Qed.

Lemma bit_range b : 0 <= b < 64 -> 0 <= Z.shiftl 1 b < 2 ^ 64.
Proof.
  intros Hb. rewrite Z.shiftl_1_l. split; [apply Z.pow_nonneg; lia|]. apply Z.pow_lt_mono_r; lia.
Qed.

Lemma testbit_lor_bit w b c :
  0 <= b -> Z.testbit (Z.lor w (Z.shiftl 1 b)) c = Z.testbit w c || (b =? c).
Proof. intros Hb. rewrite Z.lor_spec, Z.shiftl_1_l, Z.pow2_bits_eqb by done. done. Qed.

(** The loop takes a number that was free, marks it, and keeps the others. *)
Lemma take_bit_ok bm i :
  Forall (fun w => 0 <= w < 2 ^ 64) bm -> (exists w, w ∈ bm /\ w <> usize_MAX) ->
  exists bm' k b, take_bit i bm = (bm', Some ((i + Z.of_nat k) * 64 + b)) /\ 0 <= b < 64 /\
    Forall (fun w => 0 <= w < 2 ^ 64) bm' /\ length bm' = length bm /\ (k < length bm)%nat /\
    (forall j c, 0 <= c < 64 ->
       (exists w, bm' !! j = Some w /\ Z.testbit w c = true) <->
       (j = k /\ c = b) \/ (exists w, bm !! j = Some w /\ Z.testbit w c = true)) /\
    ~ (exists w, bm !! k = Some w /\ Z.testbit w b = true).
Proof.
  intros Hbm. revert i. induction Hbm as [|w bm Hw Hbm IH]; intros i Hex.
  { destruct Hex as (w & Hin & _). by apply elem_of_nil in Hin. }
  cbn [take_bit]. destruct (Z.eqb_spec w usize_MAX) as [Hmax|Hmax]; cbn [negb].
  - destruct (IH (i + 1)) as (bm' & k & b & -> & Hb & Hbm' & Hl & Hk & Hset & Hfree).
    { destruct Hex as (w' & [->|Hin]%elem_of_cons & Hne); [done|]. by exists w'. }
    exists (w :: bm'), (S k), b. split_and!; [do 3 f_equal; lia|lia|lia|by constructor|simpl; lia|simpl; lia| |done].
    intros [|j] c Hc; cbn [lookup list_lookup].
    + split; [by right|]. intros [[? _]|?]; done.
    + rewrite Hset by done. split; (intros [[Hj ->]|?]; [left; split; [lia|done]|by right]).
  - destruct (free_bit w Hw Hmax) as [Hb Hclear]. set (b := trailing_zeros (unot 64 w)) in *.
    exists (Z.lor w (Z.shiftl 1 b) :: bm), 0%nat, b. rewrite Z.add_0_r.
    split_and!; [done|lia|lia| |done|simpl; lia| |].
    + constructor; [|done]. apply lor_range; [done|]. by apply bit_range.
    + intros [|j] c Hc; cbn [lookup list_lookup].
      * split.
        -- intros (x & [= <-] & Hx). rewrite testbit_lor_bit in Hx by lia. apply orb_true_iff in Hx as [Hx|Hx].
           ++ right. by exists w.
           ++ left. split; [done|]. apply Z.eqb_eq in Hx. lia.
        -- intros [[_ ->]|(x & [= <-] & Hx)]; eexists; (split; [done|]); rewrite testbit_lor_bit by lia.
           ++ by rewrite Z.eqb_refl, orb_true_r.
           ++ by rewrite Hx.
      * split; [by right|]. intros [[? _]|?]; done.
    + intros (x & [= <-] & Hx). congruence.
Qed.

Lemma taken_app bm l v : taken bm v -> taken (bm ++ l) v.
Proof. intros (w & Hw & Hb). exists w. split; [by apply lookup_app_l_Some|done]. Qed.

(** when the bitmap has a free bit, a processor that is new to the list is
    given a number that no other processor has, every other processor keeps
    its number, and the marks stay right. *)
Theorem assign_unique s p :
  aps_ok s -> (exists w, w ∈ bitmap s /\ w <> usize_MAX) -> phys2virt s !! p = None ->
  exists s' v, assign s p = (s', v) /\ aps_ok s' /\ 0 <= v /\ ~ taken (bitmap s) v /\
    virtid_self s' p = v /\
    (forall p', phys2virt s !! p' <> Some v) /\
    (forall p', p' <> p -> phys2virt s' !! p' = phys2virt s !! p').
Proof.
  intros [Hw Hm Hi] Hex Hp. unfold assign.
  destruct (take_bit_ok (bitmap s) 0 Hw Hex) as (bm' & k & b & -> & Hb & Hbm' & Hl & Hk & Hset & Hfree).
  cbn [default from_option id]. set (v := (0 + Z.of_nat k) * 64 + b).
  assert (Z.to_nat (v / 64) = k /\ v mod 64 = b /\ 0 <= v) as (Hvk & Hvb & Hv0).
  { unfold v. rewrite Z.add_0_l. split_and!; [|rewrite Z.add_comm, Z.mod_add by lia; by apply Z.mod_small|lia].
    rewrite Z.add_comm, Z.div_add, Z.div_small by lia. lia. }
  assert (~ taken (bitmap s) v) as Hnt by (unfold taken; rewrite Hvk, Hvb; exact Hfree).
  assert (forall u, 0 <= u -> taken bm' u <-> u = v \/ taken (bitmap s) u) as Htk.
  { intros u Hu. unfold taken. rewrite Hset by (apply Z.mod_pos_bound; lia).
    split; (intros [Hu'|?]; [left|by right]).
    - destruct Hu' as [Hu1 Hu2]. rewrite (Z.div_mod u 64), (Z.div_mod v 64) by lia.
      rewrite Hu2, Hvb. f_equal. assert (0 <= u / 64) by (apply Z.div_pos; lia).
      assert (0 <= v / 64) by (apply Z.div_pos; lia). lia.
    - by subst u. }
  assert (forall p', phys2virt s !! p' <> Some v) as Hnew.
  { intros p' Hp'. apply Hm in Hp' as [_ Hp']. done. }
  eexists _, v. split; [done|]. split_and!; [|done|done| |done|].
  - constructor; cbn [bitmap phys2virt].
    + apply Forall_app. split; [done|]. by constructor.
    + intros p' u. destruct (decide (p = p')) as [<-|Hne].
      * rewrite lookup_insert_eq. intros [= <-]. split; [done|]. apply taken_app, Htk; auto.
      * rewrite lookup_insert_ne by done. intros Hu. apply Hm in Hu as [Hu0 Hu]. split; [done|].
        apply taken_app, Htk; auto.
    + intros p1 p2 u. destruct (decide (p = p1)) as [<-|H1], (decide (p = p2)) as [<-|H2]; [done| | |];
        rewrite ?lookup_insert_eq, ?lookup_insert_ne by done.
      * intros [= <-] Hu. by apply Hnew in Hu.
      * intros Hu [= <-]. by apply Hnew in Hu.
      * apply Hi.
  - unfold virtid_self. cbn. by rewrite lookup_insert_eq.
  - intros p' Hne. cbn. by rewrite lookup_insert_ne.
Qed.

Definition demo_aps : ApList := mkApList [1] {[ 0 := 0 ]}.

Lemma assign_unique_witness :
  exists s' v, assign demo_aps 7 = (s', v) /\ aps_ok s' /\ 0 <= v /\
    ~ taken (bitmap demo_aps) v /\ virtid_self s' 7 = v /\
    (forall p', phys2virt demo_aps !! p' <> Some v) /\
    (forall p', p' <> 7 -> phys2virt s' !! p' = phys2virt demo_aps !! p').
Proof.
  apply (assign_unique demo_aps 7).
  - constructor; cbn.
    + repeat constructor; lia.
    + intros p v [<- <-]%lookup_singleton_Some. split; [lia|]. by exists 1.
    + intros p p' v [<- _]%lookup_singleton_Some [<- _]%lookup_singleton_Some. done.
  - exists 1. split; [left|]. done.
  - reflexivity.
Defined.

(** The first processor is given its physical number instead of a free one:
    when the boot processor is number 3, the fourth processor to start gets
    its number, and with it its stack. *)
Lemma assign_duplicates :
  let s1 := (assign ApList_new 3).1 in
  let s2 := (assign s1 0).1 in
  let s3 := (assign s2 1).1 in
  let s4 := (assign s3 2).1 in
  virtid_self s4 3 = 3 /\ virtid_self s4 2 = 3.
Proof. vm_compute. done. Qed.

(** A full bitmap does the same. *)
Lemma assign_full s p :
  Forall (fun w => w = usize_MAX) (bitmap s) -> (assign s p).2 = p.
Proof.
  intros Hf. unfold assign. assert (forall i, (take_bit i (bitmap s)).2 = None) as Hn.
  { induction Hf as [|w bm -> _ IH]; intros i; [done|]. cbn [take_bit]. change (usize_MAX =? usize_MAX) with true.
    cbn [negb]. specialize (IH (i + 1)). by destruct (take_bit (i + 1) bm). }
  specialize (Hn 0). destruct (take_bit 0 (bitmap s)) as [bm r]. simpl in Hn. by subst r.
Qed.
