(* ===== verification/Nvme.v ===== *)
(** * Nvme: block devices over NVMe namespaces, USB (device/nvme.rs, usb.rs)

    The drivers of the controllers are crates (nvme_oxide, usb_oxide): here
    they are an interface.  What the kernel adds is modelled: the memory that
    it gives them, the block device over a namespace with its DMA buffer, and
    the registration of what is found. *)

From S2P Require Import Prelude Kargs Rvm RamUtil Physalloc BlockTable PhysallocSpec PhysallocInv PhysallocThms RvmFacts Glacier GlacierSpec.
From S2P Require Import GlacierThms GlacierRange Heap HeapThms Bytes Memory Elf Flint Block Pci.
From Stdlib Require Import Ascii.
From stdpp Require Import pretty.
#[local] Open Scope Z_scope.

(** ** [NVMeAlloc] and [UsbAlloc]: the memory of the drivers *)

Section Dma.
Context `{Platform} {A : Type} `{!FrameAlloc A}.

Definition Dma_alloc (size align : Z) (st : Machine A) : outcome (Machine A * option Z) :=
  '(a, r) ← fa_alloc (m_fa st) (AllocParams_align (AllocParams_new size) align);
  Ret (set_fa st a, option_map op_ptr r).
Definition Dma_free (addr size : Z) (st : Machine A) : outcome (Machine A) :=
  n ← size_align size;
  a ← fa_free_raw (m_fa st) addr n;
  Ret (set_fa st a).
Definition Dma_map_mmio (g : Glacier) (phys size : Z) (st : Machine A) : outcome (Machine A * option Z) :=
  '(st, r) ← map_range g phys phys size (D_RW flags) st;
  Ret (st, match r with Ok _ => Some phys | Err _ => None end).
Definition Dma_unmap_mmio (g : Glacier) (virt size : Z) (st : Machine A) : outcome (Machine A) :=
  unmap_range g virt size st.
Definition Dma_virt_to_phys (va : Z) : Z := va.
Definition Dma_page_size : Z := page_size.
End Dma.

(** ** [BlockDeviceNVMe] *)

(** A namespace of the driver; [N] is the state of the hardware.  Reading
    is given the buffer and returns it with the bytes in it. *)
Class NvmeNs (N Er : Type) : Type := {
  blk_sz : Z;
  blk_cnt : Z;
  ns_id : Z;
  ns_read : N -> Z -> list Z -> list Z * result Er unit;
  ns_write : N -> Z -> list Z -> N * result Er unit;
  show_err : Er -> string
}.

Record NvSt (N : Type) : Type := mkNv { nv_pa : PhysAlloc; nv_mem : Mem; nv_ns : N }.
Arguments mkNv {N}.
Arguments nv_pa {N}.
Arguments nv_mem {N}.
Arguments nv_ns {N}.

Section NVMe.
Context `{Platform} {N Er : Type} `{!NvmeNs N Er}.
Abbreviation St := (NvSt N).

Definition nv_buf (m : Mem) (p : OwnedPtr) : list Z := (fun i => m (op_ptr p + i)) <$> seqZ 0 (op_size p).

(** The loop of [read_block]: [i] chunks are done, [rest] bytes are left. *)
Fixpoint read_chunks (n : nat) (w : N) (lba i rest : Z) (pabuf acc : list Z) : outcome (list Z * result string (list Z)) :=
  match n with
  | O => NoFuel
  | S n =>
      if rest <=? 0 then Ret (pabuf, Ok acc)
      else
        l ← uadd 64 lba i;
        let '(pabuf, r) := ns_read w l pabuf in
        match r with
        | Err e => Ret (pabuf, Err ("NVMe read error: " ++ show_err e)%string)
        | Ok _ =>
            ck ← slice pabuf 0 (Z.min blk_sz rest);
            read_chunks n w lba (i + 1) (rest - Z.min blk_sz rest) pabuf (acc ++ ck)
        end
  end.

(** The loop of [write_block]. *)
Fixpoint write_chunks (n : nat) (w : N) (lba i : Z) (buf pabuf : list Z) : outcome (N * list Z * result string unit) :=
  match n with
  | O => NoFuel
  | S n =>
      match buf with
      | [] => Ret (w, pabuf, Ok ())
      | _ =>
          let ck := take (Z.to_nat blk_sz) buf in
          '(pabuf, r) ← (if Z.of_nat (length ck) <? blk_sz then
              l ← uadd 64 lba i;
              let '(pabuf, r) := ns_read w l pabuf in
              Ret (pabuf, match r with Ok _ => Ok () | Err e => Err ("NVMe read error: " ++ show_err e)%string end)
            else Ret (pabuf, Ok ()));
          match r with
          | Err e => Ret (w, pabuf, Err e)
          | Ok _ =>
              pabuf ← splice pabuf 0 ck;
              l ← uadd 64 lba i;
              let '(w, r) := ns_write w l pabuf in
              match r with
              | Err e => Ret (w, pabuf, Err ("NVMe write error: " ++ show_err e)%string)
              | Ok _ => write_chunks n w lba (i + 1) (drop (Z.to_nat blk_sz) buf) pabuf
              end
          end
      end
  end.

(** With the DMA buffer allocated before and freed behind it, also when it
    fails. *)
Definition with_dma {B : Type} (f : N -> list Z -> outcome (N * list Z * result string B)) (s : St)
    : outcome (St * result string B) :=
  '(a, r) ← PhysPageBuf_new (nv_pa s) blk_sz;
  match r with
  | None => Ret (mkNv a (nv_mem s) (nv_ns s), Err "Failed to allocate DMA buffer"%string)
  | Some p =>
      '(w, pabuf, r) ← f (nv_ns s) (nv_buf (nv_mem s) p);
      a ← PhysPageBuf_drop a p;
      Ret (mkNv a (put_bytes (nv_mem s) (op_ptr p) pabuf) w, r)
  end.

(** [chunks_mut] and [chunks] panic for chunks of no bytes. *)
Definition nvme_read_block (s : St) (n lba : Z) : outcome (St * result string (list Z)) :=
  with_dma (fun w pabuf =>
    if blk_sz =? 0 then Panic
    else
      '(pabuf, r) ← read_chunks (S (Z.to_nat n)) w lba 0 n pabuf [];
      Ret (w, pabuf, r)) s.
Definition nvme_write_block (s : St) (buf : list Z) (lba : Z) : outcome (St * result string unit) :=
  with_dma (fun w pabuf =>
    if blk_sz =? 0 then Panic else write_chunks (S (length buf)) w lba 0 buf pabuf) s.

Definition nvme_devid (devid : Z) : Z :=
  DevId_build (DevId_loc (DevId_ty (DevId_new 0) PCIe) (Z.lor (Z.shiftl (ucast 32 devid) 16 mod 2 ^ 32) ns_id)).
End NVMe.

(** ** Registration *)

(** [NVMeDev::new] and [ns_list]; [XhciCtrl::new], its ports and
    [UsbDevice::new]; they work on the state [D] of the kernel. *)
Class NvmeDriver (D Nv : Type) : Type := {
  NVMeDev_new : Z -> D -> D * option Nv;
  ns_list : Nv -> list Z
}.
Class UsbDriver (D Xc Ud : Type) : Type := {
  XhciCtrl_new : Z -> D -> D * result string Xc;
  max_ports : Xc -> Z;
  port_connected : Xc -> Z -> D -> bool;
  UsbDevice_new : Xc -> Z -> D -> D * result string Ud
}.

Section Add.
Context `{Build} {D Nv Xc Ud : Type} `{!NvmeDriver D Nv} `{!UsbDriver D Xc Ud}.

(** The namespaces in [BLOCK_DEVICES], with the controller they are of. *)
Record Devices : Type := mkDevices {
  dv_hw : D;
  dv_regs : regs;
  NVME_DEV : gmap Z Nv;
  BLOCK_DEVICES : list (Z * Z);
  XHCI_CTRLS : list Xc;
  USB_DEVICES : list Ud;
  dv_said : list string
}.

Definition nvme_add (dev : PciDevice) (s : Devices) : outcome Devices :=
  if negb (is_nvme (dv_regs s) dev) then Ret s
  else
    let m := enable_pci_device (dv_regs s) dev in
    mmio ← mmio_addr m dev;
    let '(d, r) := NVMeDev_new mmio (dv_hw s) in
    match r with
    | None => Ret (mkDevices d m (NVME_DEV s) (BLOCK_DEVICES s) (XHCI_CTRLS s) (USB_DEVICES s) (dv_said s))
    | Some nvme =>
        Ret (mkDevices d m (<[pd_id dev := nvme]> (NVME_DEV s)) (BLOCK_DEVICES s ++ ((fun ns => (pd_id dev, ns)) <$> ns_list nvme))
          (XHCI_CTRLS s) (USB_DEVICES s) (dv_said s))
    end.

(** What is printed of a port whose device does not answer. *)
Definition port_failed (port : Z) (e : string) : string :=
  (String "010"%char "USB: Failed to address device on port " +:+ pretty port +:+ ": " +:+ e)%string.

(** The loop over the ports. *)
Fixpoint usb_ports (ports : list Z) (ctrl : Xc) (d : D) (devs : list Ud) (said : list string) : D * list Ud * list string :=
  match ports with
  | [] => (d, devs, said)
  | port :: ports =>
      if negb (port_connected ctrl port d) then usb_ports ports ctrl d devs said
      else
        let '(d, r) := UsbDevice_new ctrl port d in
        match r with
        | Ok dev => usb_ports ports ctrl d (devs ++ [dev]) said
        | Err e => usb_ports ports ctrl d devs (said ++ [port_failed port e])
        end
  end.

Definition usb_add (dev : PciDevice) (s : Devices) : outcome (Devices * result string unit) :=
  if negb (is_usb (dv_regs s) dev) then Ret (s, Err "Not a USB device"%string)
  else if negb (prog_if (dv_regs s) dev =? 0x30) then Ret (s, Err "Not an xHCI controller"%string)
  else
    let m := enable_pci_device (dv_regs s) dev in
    mmio ← mmio_addr m dev;
    let '(d, r) := XhciCtrl_new mmio (dv_hw s) in
    match r with
    | Err e => Ret (mkDevices d m (NVME_DEV s) (BLOCK_DEVICES s) (XHCI_CTRLS s) (USB_DEVICES s) (dv_said s), Err ("xHCI init failed: " ++ e)%string)
    | Ok ctrl =>
        let '(d, devs, said) := usb_ports (seqZ 0 (max_ports ctrl)) ctrl d (USB_DEVICES s) (dv_said s) in
        Ret (mkDevices d m (NVME_DEV s) (BLOCK_DEVICES s) (XHCI_CTRLS s ++ [ctrl]) devs said, Ok ())
    end.
End Add.
Arguments Devices D Nv Xc Ud : clear implicits.

(** * A block device over NVMe is the disk's bytes

    Reads and writes through the DMA buffer keep the contract of a block
    device, whatever the buffer held before and however the request ends. *)

(** ** Overwriting in pieces *)

Lemma patch_patch {X} (l a b : list X) i :
  (i + length a + length b <= length l)%nat -> patch (patch l i a) (i + length a) b = patch l i (a ++ b).
Proof.
  intros Hl. apply list_eq. intros k. rewrite !lookup_patch by (rewrite ?patch_length, ?length_app by lia; lia).
  rewrite length_app. repeat case_decide; try lia; [| |done].
  - rewrite lookup_app_r by lia. f_equal. lia.
  - by rewrite lookup_app_l by lia.
Qed.

Lemma patch_block {X} (l a : list X) i n :
  (i + n <= length l)%nat -> (length a <= n)%nat -> patch l i (patch (take n (drop i l)) 0 a) = patch l i a.
Proof.
  intros Hl Ha. assert (length (take n (drop i l)) = n) as Hn by (rewrite length_take, length_drop; lia).
  apply list_eq. intros k. rewrite !lookup_patch by (rewrite ?patch_length by lia; lia).
  rewrite patch_length, Hn by lia. repeat case_decide; try done; try lia.
  - f_equal. lia.
  - rewrite lookup_sub. case_decide; [|lia]. f_equal. lia.
Qed.

Lemma take_drop_app {X} (l : list X) i n m : take n (drop i l) ++ take m (drop (i + n) l) = take (n + m) (drop i l).
Proof.
  rewrite <- (take_drop n (take (n + m) (drop i l))), take_take, Nat.min_l by lia. f_equal.
  by rewrite <- take_drop_commute, drop_drop.
Qed.

(** ** The namespace *)

(** Blocks whose size is a power of two; a request may fail, and then only the
    block that was written may have changed. *)
Class NsLaws (N Er : Type) `{NvmeNs N Er} : Type := {
  ns_disk : N -> list Z;
  nl_bs : exists k, 0 <= k <= 32 /\ blk_sz = 2 ^ k;
  nl_cap : 0 <= blk_cnt /\ blk_sz * blk_cnt < 2 ^ 63;
  nl_len : forall w, Z.of_nat (length (ns_disk w)) = blk_sz * blk_cnt;
  nl_read : forall w lba buf, Z.of_nat (length buf) = blk_sz -> 0 <= lba < blk_cnt ->
    length (ns_read w lba buf).1 = length buf /\
    match (ns_read w lba buf).2 with
    | Ok _ => (ns_read w lba buf).1 = take (length buf) (drop (Z.to_nat (lba * blk_sz)) (ns_disk w))
    | Err _ => True
    end;
  nl_write : forall w lba buf, Z.of_nat (length buf) = blk_sz -> 0 <= lba < blk_cnt ->
    let '(w', r) := ns_write w lba buf in
    match r with
    | Ok _ => ns_disk w' = patch (ns_disk w) (Z.to_nat (lba * blk_sz)) buf
    | Err _ => forall k, ~ (Z.to_nat (lba * blk_sz) <= k < Z.to_nat (lba * blk_sz) + length buf)%nat ->
        ns_disk w' !! k = ns_disk w !! k
    end
}.

Section NVMe.
Context `{Platform} {N Er : Type} `{!NvmeNs N Er} `{!NsLaws N Er}.
Abbreviation bs := (blk_sz (N := N)).
Abbreviation cap := (bs * blk_cnt (N := N)).

Lemma bs_pos : 0 < bs <= 2 ^ 32.
Proof.
  destruct nl_bs as (k & Hk & ->). split; [apply Z.pow_pos_nonneg; lia|apply Z.pow_le_mono_r; lia].
Qed.

(** The DMA buffer is one block. *)
Lemma szal_bs : szal bs = bs.
Proof.
  destruct nl_bs as (k & Hk & ->). unfold szal. pose proof page_size_pow2 as Hp. destruct (Z.ltb_spec (2 ^ k) page_size) as [Hl|Hl].
  - unfold next_pow2. by rewrite Z.log2_up_pow2 by lia.
  - apply aup_id; [apply page_size_pos|]. rewrite Hp in *. apply Z.pow_le_mono_r_iff in Hl; [|lia|lia].
    exists (2 ^ (k - BPage_shift (psz G_CFG))). rewrite <- Z.pow_add_r; [f_equal; lia|lia|destruct (psz G_CFG); cbn; lia].
Qed.

(** One more block before the end. *)
Lemma block_inside l rest : 0 <= l -> 0 < rest -> l * bs + rest <= cap -> 0 <= l < blk_cnt (N := N) /\ (l + 1) * bs <= cap.
Proof.
  intros Hl Hr Hb. pose proof bs_pos as [Hbs _].
  assert (l < blk_cnt (N := N)) by (apply (Z.mul_lt_mono_pos_r bs); lia).
  split; [lia|]. rewrite (Z.mul_comm bs). apply Z.mul_le_mono_nonneg_r; lia.
Qed.

Lemma read_chunks_run n w lba i rest pabuf acc :
  rest < Z.of_nat n -> Z.of_nat (length pabuf) = bs -> 0 <= lba -> 0 <= i -> 0 <= rest -> (lba + i) * bs + rest <= cap ->
  exists pabuf' r, read_chunks n w lba i rest pabuf acc = Ret (pabuf', r) /\ length pabuf' = length pabuf /\
    match r with
    | Ok b => b = acc ++ take (Z.to_nat rest) (drop (Z.to_nat ((lba + i) * bs)) (ns_disk w))
    | Err _ => True
    end.
Proof.
  pose proof bs_pos as [Hbs _]. pose proof nl_cap as [Hc1 Hc2].
  revert i rest pabuf acc. induction n as [|n IH]; intros i rest pabuf acc Hn Hp Hl Hi Hr Hb; [lia|]. cbn [read_chunks].
  destruct (Z.leb_spec rest 0).
  { exists pabuf, (Ok acc). split_and!; [done|done|]. assert (rest = 0) as -> by lia. by rewrite app_nil_r. }
  destruct (block_inside (lba + i) rest) as [Hin _]; [lia|lia|done|].
  assert (blk_cnt (N := N) < 2 ^ 63) by nia. rewrite uadd_ok, Ret_bind by lia.
  pose proof (nl_read w (lba + i) pabuf Hp Hin) as [Hlen Hread]. destruct (ns_read w (lba + i) pabuf) as [pabuf' r]. cbn [fst snd] in *.
  destruct r as [u|e]; [|eexists _, (Err _); by split_and!]. rewrite slice_ok, Ret_bind by lia.
  destruct (IH (i + 1) (rest - Z.min bs rest) pabuf' (acc ++ take (Z.to_nat (Z.min bs rest)) (drop (Z.to_nat 0) pabuf')))
    as (pb & r & Hrun & Hlb & Hres); [lia|lia|lia|lia|lia| |].
  { destruct (Z.le_gt_cases bs rest); [rewrite Z.min_l by lia; lia|]. rewrite Z.min_r by lia.
    destruct (block_inside (lba + i) rest) as [_ Hin2]; [lia|lia|done|]. lia. }
  exists pb, r. split_and!; [exact Hrun|congruence|]. destruct r as [b|e]; [|done]. rewrite Hres, <- app_assoc. f_equal.
  rewrite Hread. change (Z.to_nat 0) with 0%nat. rewrite drop_0, take_take.
  destruct (Z.le_gt_cases bs rest) as [Hle|Hgt].
  - rewrite Z.min_l by lia. replace (Z.to_nat ((lba + (i + 1)) * bs)) with (Z.to_nat ((lba + i) * bs) + Z.to_nat bs)%nat by nia.
    rewrite Nat.min_l by lia. rewrite take_drop_app. f_equal. lia.
  - rewrite Z.min_r by lia. rewrite Nat.min_l by lia. replace (Z.to_nat (rest - rest)) with 0%nat by lia. by rewrite take_0, app_nil_r.
Qed.

(** What is written of a block: the chunk, in the block that was there. *)
Definition fill (w : N) (l : Z) (pabuf ck : list Z) : outcome (list Z * result string unit) :=
  if Z.of_nat (length ck) <? bs then
    l ← Ret l;
    let '(pabuf, r) := ns_read w l pabuf in
    Ret (pabuf, match r with Ok _ => Ok () | Err e => Err ("NVMe read error: " ++ show_err e)%string end)
  else Ret (pabuf, Ok ()).

Lemma fill_run w l pabuf ck :
  Z.of_nat (length pabuf) = bs -> 0 <= l < blk_cnt (N := N) -> Z.of_nat (length ck) <= bs ->
  exists pabuf' r, fill w l pabuf ck = Ret (pabuf', r) /\ Z.of_nat (length pabuf') = bs /\
    (r = Ok () -> patch (ns_disk w) (Z.to_nat (l * bs)) (patch pabuf' 0 ck) = patch (ns_disk w) (Z.to_nat (l * bs)) ck).
Proof.
  intros Hp Hl Hck. pose proof bs_pos as [Hbs _]. pose proof (nl_len w) as Hlen. unfold fill.
  assert ((l + 1) * bs <= cap) by (rewrite (Z.mul_comm bs); apply Z.mul_le_mono_nonneg_r; lia).
  destruct (Z.ltb_spec (Z.of_nat (length ck)) bs).
  - rewrite Ret_bind. pose proof (nl_read w l pabuf Hp Hl) as [Hlr Hread]. destruct (ns_read w l pabuf) as [pb [u|e]]; cbn [fst snd] in *.
    + exists pb, (Ok ()). split_and!; [done|lia|]. intros _. rewrite Hread. apply patch_block; lia.
    + eexists pb, (Err _). split_and!; [done|lia|done].
  - exists pabuf, (Ok ()). split_and!; [done|done|]. intros _. do 2 f_equal. unfold patch.
    by rewrite take_0, drop_ge, app_nil_r by lia.
Qed.

(** A block and then the rest. *)
Definition written (w w' : N) (l : Z) (buf : list Z) (r : result string unit) : Prop :=
  let p := Z.to_nat (l * bs) in
  match r with
  | Ok _ => ns_disk w' = patch (ns_disk w) p buf
  | Err _ => forall k, ~ (p <= k < p + Z.to_nat (aup (Z.of_nat (length buf)) bs))%nat -> ns_disk w' !! k = ns_disk w !! k
  end.

Lemma chunk_then w w1 w' l buf r :
  0 <= l -> 0 < Z.of_nat (length buf) -> l * bs + Z.of_nat (length buf) <= cap -> let ck := take (Z.to_nat bs) buf in
  ns_disk w1 = patch (ns_disk w) (Z.to_nat (l * bs)) ck ->
  written w1 w' (l + 1) (drop (Z.to_nat bs) buf) r -> written w w' l buf r.
Proof.
  intros Hl Hpos Hb ck H1 Hr. pose proof bs_pos as [Hbs _]. pose proof (nl_len w) as Hlen. unfold written in *.
  assert (Z.to_nat ((l + 1) * bs) = Z.to_nat (l * bs) + Z.to_nat bs)%nat as Hp by nia. rewrite Hp in Hr.
  destruct (block_inside l (Z.of_nat (length buf)) Hl Hpos Hb) as [_ Hend].
  pose proof (aup_spec (Z.of_nat (length buf)) bs Hbs) as [[Hup Hup2] Hdiv].
  assert (bs <= aup (Z.of_nat (length buf)) bs) as Hup1 by (apply Z.divide_pos_le; [lia|done]).
  assert (length ck = Nat.min (Z.to_nat bs) (length buf)) as Hck by (unfold ck; by rewrite length_take).
  destruct (Z.le_gt_cases (Z.of_nat (length buf)) bs) as [Hle|Hgt].
  - assert (ck = buf) as Heq by (unfold ck; rewrite take_ge; [done|lia]). rewrite drop_ge in Hr by lia. rewrite Heq in H1. destruct r as [u|e].
    + rewrite Hr. unfold patch at 1. by rewrite Nat.add_0_r, app_nil_l, take_drop, H1.
    + assert (aup 0 bs = 0) as Ha0 by (unfold aup; rewrite Z.div_small by lia; done).
      intros k Hk. rewrite Hr by (cbn [length]; change (Z.of_nat 0) with 0; rewrite Ha0; lia). rewrite H1, lookup_patch by lia. by rewrite decide_False by lia.
  - assert (length (drop (Z.to_nat bs) buf) = length buf - Z.to_nat bs)%nat as Hld by apply length_drop. destruct r as [u|e].
    + rewrite Hr, H1. replace (Z.to_nat bs) with (length ck) at 1 by lia. rewrite patch_patch by (rewrite ?length_drop; lia).
      f_equal. apply take_drop.
    + assert (aup (Z.of_nat (length (drop (Z.to_nat bs) buf))) bs = aup (Z.of_nat (length buf)) bs - bs) as Hau.
      { rewrite Hld. unfold aup. replace (Z.of_nat (length buf - Z.to_nat bs) + bs - 1) with (Z.of_nat (length buf) + bs - 1 + (-1) * bs) by lia.
        rewrite Z.div_add by lia. ring. }
      intros k Hk. rewrite Hr by (rewrite Hau; lia). rewrite H1, lookup_patch by lia. by rewrite decide_False by lia.
Qed.

Lemma write_chunks_run n w lba i buf pabuf :
  Z.of_nat (length buf) < Z.of_nat n -> Z.of_nat (length pabuf) = bs -> 0 <= lba -> 0 <= i ->
  (lba + i) * bs + Z.of_nat (length buf) <= cap ->
  exists w' pabuf' r, write_chunks n w lba i buf pabuf = Ret (w', pabuf', r) /\ Z.of_nat (length pabuf') = bs /\ written w w' (lba + i) buf r.
Proof.
  pose proof bs_pos as [Hbs _]. pose proof nl_cap as [Hc1 Hc2].
  revert w i buf pabuf. induction n as [|n IH]; intros w i buf pabuf Hn Hp Hl Hi Hb; [lia|]. cbn [write_chunks].
  destruct buf as [|b0 buf0]; [exists w, pabuf, (Ok ()); split_and!; [done|done|]; unfold written, patch; by rewrite Nat.add_0_r, app_nil_l, take_drop|].
  set (buf := b0 :: buf0) in *. assert (0 < Z.of_nat (length buf)) as Hpos by (cbn; lia). clearbody buf.
  destruct (block_inside (lba + i) (Z.of_nat (length buf))) as [Hin Hend]; [lia|lia|done|].
  assert (blk_cnt (N := N) < 2 ^ 63) by nia. set (ck := take (Z.to_nat bs) buf).
  assert (length ck = Nat.min (Z.to_nat bs) (length buf)) as Hck by (unfold ck; by rewrite length_take).
  pose proof (aup_spec (Z.of_nat (length buf)) bs Hbs) as [[Hup Hup2] Hdiv].
  assert (bs <= aup (Z.of_nat (length buf)) bs) as Hup1 by (by apply Z.divide_pos_le; [lia|]).
  rewrite uadd_ok by lia. fold (fill w (lba + i) pabuf ck).
  destruct (fill_run w (lba + i) pabuf ck) as (pb & r & -> & Hlb & Hpatch); [done|lia|lia|].
  rewrite Ret_bind. destruct r as [[]|e]; [|eexists _, _, (Err _); by split_and!]. specialize (Hpatch eq_refl).
  rewrite splice_ok, !Ret_bind by lia. change (Z.to_nat 0) with 0%nat.
  assert (Z.of_nat (length (patch pb 0 ck)) = bs) as Hlp by (rewrite patch_length by lia; done).
  pose proof (nl_write w (lba + i) (patch pb 0 ck) Hlp Hin) as Hw. destruct (ns_write w (lba + i) (patch pb 0 ck)) as [w1 [u|e]].
  - rewrite Hpatch in Hw. destruct (IH w1 (i + 1) (drop (Z.to_nat bs) buf) (patch pb 0 ck)) as (w' & pb' & r & Hrun & Hlb' & Hr);
      [rewrite length_drop; lia|done|done|lia| |].
    { rewrite length_drop. destruct (Z.le_gt_cases bs (Z.of_nat (length buf))); lia. }
    exists w', pb', r. split_and!; [exact Hrun|exact Hlb'|]. rewrite Z.add_assoc in Hr. apply (chunk_then w w1 w' (lba + i) buf r); [lia|done|done|exact Hw|exact Hr].
  - eexists _, _, (Err _). split_and!; [done|done|]. intros k Hk. apply Hw. lia.
Qed.

(** ** Requests *)

Hypothesis Hpage : page_size = 4096.
Abbreviation St := (NvSt N).

(** The allocator gives the same answers as before, and memory that was not
    free is as it was. *)
Record undisturbed (s s' : St) : Prop := {
  un_inv : INV (nv_pa s');
  un_view : forall a, view (nv_pa s') a = view (nv_pa s) a;
  un_mem : forall a, view (nv_pa s) a <> Some (Conv, false) -> nv_mem s' a = nv_mem s a
}.

Lemma with_dma_run {B} (f : N -> list Z -> outcome (N * list Z * result string B)) (P : N -> result string B -> Prop) s :
  INV (nv_pa s) -> (forall e, P (nv_ns s) (Err e)) ->
  (forall pabuf, Z.of_nat (length pabuf) = bs -> exists w' pabuf' r, f (nv_ns s) pabuf = Ret (w', pabuf', r) /\
     Z.of_nat (length pabuf') = bs /\ P w' r) ->
  exists s' r, with_dma f s = Ret (s', r) /\ undisturbed s s' /\ P (nv_ns s') r.
Proof.
  intros Hi He Hf. pose proof bs_pos as [Hbs Hb32]. unfold with_dma.
  destruct (page_buf_roundtrip Hpage (nv_pa s) bs Hi) as (a & r & -> & Hr); [lia|]. rewrite Ret_bind.
  destruct r as [p|]; [|destruct Hr as [Hi' Hv]; eexists _, (Err _); split_and!; [reflexivity|by constructor|apply He]].
  destruct Hr as (_ & Hsz & _ & Hfree & a' & Hdrop & Hi' & Hv'). rewrite szal_bs in Hsz.
  destruct (Hf (nv_buf (nv_mem s) p)) as (w' & pabuf' & r & -> & Hl & HP).
  { unfold nv_buf. rewrite length_fmap, length_seqZ, Hsz. lia. }
  rewrite Ret_bind, Hdrop, Ret_bind. eexists _, r. split_and!; [reflexivity| |exact HP].
  constructor; cbn [nv_pa nv_mem]; [done|done|]. intros x Hx. unfold put_bytes.
  destruct (Z.leb_spec (op_ptr p) x), (Z.ltb_spec x (op_ptr p + Z.of_nat (length pabuf'))); try done.
  exfalso. apply Hx, Hfree. unfold in_ptr, in_range. lia.
Qed.

(** C21: over a namespace that keeps its documentation, the block device reads
    and writes exactly the bytes of the disk at [lba], in requests of any
    length (a last piece that is shorter than a block is put into the block
    that was there); a request always ends, failed ones change nothing
    outside the blocks they were to write; the allocator and all memory in
    use are as before. *)
Theorem nvme_refines s lba :
  INV (nv_pa s) -> 0 <= lba ->
  (forall n, 0 <= n -> lba * bs + n <= cap ->
    exists s' r, nvme_read_block s n lba = Ret (s', r) /\ undisturbed s s' /\ nv_ns s' = nv_ns s /\
      match r with Ok b => b = take (Z.to_nat n) (drop (Z.to_nat (lba * bs)) (ns_disk (nv_ns s))) | Err _ => True end) /\
  (forall buf, lba * bs + Z.of_nat (length buf) <= cap ->
    exists s' r, nvme_write_block s buf lba = Ret (s', r) /\ undisturbed s s' /\ written (nv_ns s) (nv_ns s') lba buf r).
Proof.
  intros Hi Hl. pose proof bs_pos as [Hbs _]. assert ((bs =? 0) = false) as Hz by (apply Z.eqb_neq; lia). split.
  - intros n Hn Hb. unfold nvme_read_block. apply (with_dma_run _ (fun w r => w = nv_ns s /\ match r with
      Ok b => b = take (Z.to_nat n) (drop (Z.to_nat (lba * bs)) (ns_disk (nv_ns s))) | Err _ => True end)); [done|done|].
    intros pabuf Hp. rewrite Hz.
    destruct (read_chunks_run (S (Z.to_nat n)) (nv_ns s) lba 0 n pabuf []) as (pb & r & -> & Hlb & Hr);
      [lia|done|done|done|done|by rewrite Z.add_0_r|]. rewrite Ret_bind, Z.add_0_r in *.
    exists (nv_ns s), pb, r. split_and!; [done|lia|done|exact Hr].
  - intros buf Hb. unfold nvme_write_block. apply (with_dma_run _ (fun w r => written (nv_ns s) w lba buf r)); [done|by intros e k|].
    intros pabuf Hp. rewrite Hz.
    destruct (write_chunks_run (S (length buf)) (nv_ns s) lba 0 buf pabuf) as (w' & pb & r & -> & Hlb & Hr);
      [lia|done|done|done|by rewrite Z.add_0_r|]. rewrite Z.add_0_r in Hr. by exists w', pb, r.
Qed.
End NVMe.

(** ** The memory of the drivers *)

Section DmaThms.
Context `{Platform}.
Hypothesis Hpage : page_size = 4096.

(** What a driver allocates was free and is aligned, and [free] with the size
    that it asked for gives back all of it, though more was allocated. *)
Theorem dma_roundtrip (st : Machine PhysAlloc) size align :
  INV (m_fa st) -> 0 <= size <= 2 ^ 61 -> 1 <= align <= 2 ^ 61 ->
  exists st' r, Dma_alloc size align st = Ret (st', r) /\ m_mem st' = m_mem st /\
    match r with
    | None => forall a, view (m_fa st') a = view (m_fa st) a
    | Some addr =>
        (align | addr) /\ (forall a, in_range addr size a -> view (m_fa st) a = Some (Conv, false)) /\
        exists st2, Dma_free addr size st' = Ret st2 /\ INV (m_fa st2) /\ forall a, view (m_fa st2) a = view (m_fa st) a
    end.
Proof.
  intros Hi Hs Hal. unfold Dma_alloc. set (args := AllocParams_align (AllocParams_new size) align).
  assert (params_ok args) as Hok by (constructor; cbn; [done|lia|done]).
  destruct (alloc_run Hpage (m_fa st) args Hi Hok) as (s' & r & Hrun & Hr). cbn [fa_alloc PhysAlloc_FrameAlloc]. rewrite Hrun, Ret_bind.
  exists (set_fa st s'), (option_map op_ptr r). split_and!; [done|done|]. destruct r as [p|]; cbn [option_map]; [|apply Hr].
  destruct Hr as [[Hi' (Hsz & Hdiv & _) Hf Hv _ Hsl] Hfo]. cbn [args ap_size ap_align AllocParams_align AllocParams_new] in *.
  rewrite Z.max_l in Hdiv by lia. pose proof (szal_spec size ltac:(lia)) as [Hge _]. split_and!; [done| |].
  - intros a Ha. apply Hf. unfold in_ptr, in_range in *. lia.
  - unfold Dma_free. rewrite size_align_ok, Ret_bind by lia. cbn [fa_free_raw PhysAlloc_FrameAlloc m_fa set_fa].
    destruct (free_spec_n Hpage 11 s' p Hi' Hfo Hsl) as (s2 & Hr2 & Hi2 & Hv2 & _). rewrite <- Hsz.
    assert (PhysAlloc_free_raw s' (op_ptr p) (op_size p) = Ret s2) as -> by (destruct p; exact Hr2).
    rewrite Ret_bind. eexists. split_and!; [done|done|]. intros a. cbn [m_fa set_fa]. rewrite Hv2. unfold upd at 1.
    case_decide as Hd; [symmetry; by apply Hf|]. rewrite Hv. unfold upd. by rewrite decide_False.
Qed.
End DmaThms.

(** ** Four blocks of four bytes, the last of which cannot be written *)

Module NvmeDemo.
#[local] Existing Instance Demo.demo.

Definition flat (w : list Z) : list Z := take 16 (w ++ replicate 16 0).
Lemma flat_length w : length (flat w) = 16%nat.
Proof. unfold flat. rewrite length_take, length_app, length_replicate. lia. Qed.
Lemma flat_id w : length w = 16%nat -> flat w = w.
Proof. intros Hw. unfold flat. by rewrite take_app_length'. Qed.

#[local] Instance ns : NvmeNs (list Z) unit := {|
  blk_sz := 4; blk_cnt := 4; ns_id := 1;
  ns_read := fun w lba buf => (take (length buf) (drop (Z.to_nat (lba * 4)) (flat w)), Ok ());
  ns_write := fun w lba buf => if lba =? 3 then (w, Err ()) else (patch (flat w) (Z.to_nat (lba * 4)) buf, Ok ());
  show_err := fun _ => "media error"%string
|}.
#[local] Instance ns_laws : NsLaws (list Z) unit.
Proof.
  refine {| ns_disk := flat |}; cbn.
  - exists 2. lia.
  - lia.
  - intros w. by rewrite flat_length.
  - intros w lba buf Hb Hl. split; [|done]. rewrite length_take, length_drop, flat_length. lia.
  - intros w lba buf Hb Hl. destruct (Z.eqb_spec lba 3); [done|]. apply flat_id.
    rewrite patch_length; [apply flat_length|]. rewrite flat_length. lia.
Defined.

Definition s0 : NvSt (list Z) := mkNv Demo.s0 (fun _ => 0) (seqZ 0 16).

Lemma nvme_refines_witness :
  (forall n, 0 <= n -> 1 * 4 + n <= 4 * 4 ->
    exists s' r, nvme_read_block s0 n 1 = Ret (s', r) /\ undisturbed s0 s' /\ nv_ns s' = nv_ns s0 /\
      match r with Ok b => b = take (Z.to_nat n) (drop (Z.to_nat (1 * 4)) (flat (nv_ns s0))) | Err _ => True end) /\
  (forall buf, 1 * 4 + Z.of_nat (length buf) <= 4 * 4 ->
    exists s' r, nvme_write_block s0 buf 1 = Ret (s', r) /\ undisturbed s0 s' /\ written (nv_ns s0) (nv_ns s') 1 buf r).
Proof.
  pose proof (nvme_refines Demo.page0 s0 1 Demo.inv0 ltac:(lia)) as [Hr Hw]. split; [exact Hr|]. exact Hw.
Defined.

(** Six bytes from block 1 on; a request that reaches the broken block. *)
Theorem nvme_writes :
  match nvme_write_block s0 [90; 91; 92; 93; 94; 95] 1, nvme_write_block s0 [90; 91; 92; 93; 94; 95] 2 with
  | Ret (s1, r1), Ret (s2, r2) =>
      (nv_ns s1, r1) = ([0; 1; 2; 3; 90; 91; 92; 93; 94; 95; 10; 11; 12; 13; 14; 15], Ok ()) /\
      (nv_ns s2, r2) = ([0; 1; 2; 3; 4; 5; 6; 7; 90; 91; 92; 93; 12; 13; 14; 15], Err "NVMe write error: media error"%string)
  | _, _ => False
  end.
Proof. vm_compute. split; reflexivity. Qed.

Lemma dma_roundtrip_witness :
  exists st' r, Dma_alloc 5000 0x2000 (mkMachine Demo.s0 (fun _ => 0) []) = Ret (st', r) /\ m_mem st' = (fun _ => 0) /\
    match r with
    | None => forall a, view (m_fa st') a = view Demo.s0 a
    | Some addr =>
        (0x2000 | addr) /\ (forall a, in_range addr 5000 a -> view Demo.s0 a = Some (Conv, false)) /\
        exists st2, Dma_free addr 5000 st' = Ret st2 /\ INV (m_fa st2) /\ forall a, view (m_fa st2) a = view Demo.s0 a
    end.
Proof. apply (dma_roundtrip Demo.page0 (mkMachine Demo.s0 (fun _ => 0) []) 5000 0x2000 Demo.inv0); lia. Defined.
End NvmeDemo.
