(* ===== verification/Acpi.v ===== *)
(** * Acpi: what the ACPI interpreter is given (device/acpi.rs)

    The acpi crate reads tables and runs AML through a handler.  The handler
    counts how many live regions need a page, and maps it for the first and
    unmaps it behind the last one; reads and writes of memory and of PCI
    configuration space are accesses to memory. *)

From S2P Require Import Prelude Kargs Rvm RamUtil Physalloc BlockTable PhysallocSpec PhysallocThms RvmFacts Glacier GlacierSpec GlacierThms.
From S2P Require Import GlacierRange Bytes Memory Pci.

Section Map.
Context `{Platform} {A : Type} `{!FrameAlloc A}.

(** [ACPI_MAP] beside the page tables of [GLACIER]. *)
Record AcpiSt : Type := mkAcpi { ac_st : Machine A; ac_map : gmap Z Z }.

(** [PhysicalMapping] *)
Record PhysicalMapping : Type := mkMapping {
  physical_start : Z; virtual_start : Z; region_length : Z; mapped_length : Z
}.

Variable g : Glacier.

(** The pages that a region touches. *)
Definition region_pages (phys size : Z) : outcome (list Z) :=
  start_page ← align_down phys page_size;
  e ← uadd 64 phys size;
  end_page ← align_up e page_size;
  Ret (step_by start_page end_page page_size).

Fixpoint map_pages (addrs : list Z) (s : AcpiSt) : outcome AcpiSt :=
  match addrs with
  | [] => Ret s
  | addr :: addrs =>
      match ac_map s !! addr with
      | Some rcnt =>
          n ← uadd 64 rcnt 1;
          map_pages addrs (mkAcpi (ac_st s) (<[addr := n]> (ac_map s)))
      | None =>
          '(st, r) ← map_page g addr addr (K_RWO flags) (ac_st s);
          match r with
          | Err _ => Panic
          | Ok _ => map_pages addrs (mkAcpi st (<[addr := 1]> (ac_map s)))
          end
      end
  end.

Definition map_physical_region (phys size : Z) (s : AcpiSt) : outcome (AcpiSt * PhysicalMapping) :=
  addrs ← region_pages phys size;
  s ← map_pages addrs s;
  Ret (s, mkMapping phys phys size size).

Fixpoint unmap_pages (addrs : list Z) (s : AcpiSt) : outcome AcpiSt :=
  match addrs with
  | [] => Ret s
  | addr :: addrs =>
      match ac_map s !! addr with
      | Some rcnt =>
          n ← usub 64 rcnt 1;
          if n =? 0 then
            st ← unmap_page g addr (ac_st s);
            unmap_pages addrs (mkAcpi st (delete addr (ac_map s)))
          else unmap_pages addrs (mkAcpi (ac_st s) (<[addr := n]> (ac_map s)))
      | None => unmap_pages addrs s
      end
  end.

Definition unmap_physical_region (r : PhysicalMapping) (s : AcpiSt) : outcome AcpiSt :=
  addrs ← region_pages (physical_start r) (region_length r);
  unmap_pages addrs s.
End Map.
Arguments AcpiSt A : clear implicits.

(** ** Accesses *)

(** [read_u8] ... [read_u64], by the number of bytes, and the writes. *)
Definition acpi_read (n : nat) (m : Mem) (addr : Z) : Z := load n m addr.
Definition acpi_write (n : nat) (m : Mem) (addr v : Z) : Mem := store n m addr v.

(** [PciAddress] of the crate. *)
Record PciAddress : Type := mkPciAddress { ad_segment : Z; ad_bus : Z; ad_device : Z; ad_function : Z }.

Definition find_dev_ptr (devs : list PciDevice) (a : PciAddress) : option Z :=
  pci_ptr <$> List.find (fun d => (pci_bus d =? ad_bus a) && (pci_device d =? ad_device a) && (pci_function d =? ad_function a)) devs.

(** [read_pci_u8] ...: all ones for a function that is not there. *)
Definition read_pci `{Build} (n : nat) (devs : list PciDevice) (a : PciAddress) (offset : Z) (m : Mem) : outcome Z :=
  match find_dev_ptr devs a with
  | Some p => x ← uadd 64 p offset; Ret (load n m x)
  | None => Ret (2 ^ (8 * Z.of_nat n) - 1)
  end.
Definition write_pci `{Build} (n : nat) (devs : list PciDevice) (a : PciAddress) (offset v : Z) (m : Mem) : outcome Mem :=
  match find_dev_ptr devs a with
  | Some p => x ← uadd 64 p offset; Ret (store n m x v)
  | None => Ret m
  end.

(** Ports exist on AMD64 only; [P] is the state of the ports. *)
Class Ports (P : Type) : Type := { port_in : nat -> Z -> P -> P * Z; port_out : nat -> Z -> Z -> P -> P }.
Section PortIo.
Context `{Platform} {P : Type} `{!Ports P}.
Definition read_io (n : nat) (port : Z) (p : P) : P * Z :=
  match target_arch with X86_64 => port_in n port p | AArch64 => (p, 0) end.
Definition write_io (n : nat) (port v : Z) (p : P) : P :=
  match target_arch with X86_64 => port_out n port v p | AArch64 => p end.
End PortIo.

(** The rest of the handler. *)
Definition nanos_since_boot : Z := 0.
Definition create_mutex : Z := 0.

(** * A page is mapped as long as a region needs it

    On every state that mapping and unmapping regions reach, the counters are
    the numbers of the live regions that touch the page, and every page that a
    live region touches is mapped. *)

Section Acpi.
Context `{Platform} {A : Type} `{!FrameAlloc A} `{!FrameLaws A}.
Abbreviation c := G_CFG.
Abbreviation full := (2 ^ bits G_CFG 0).
Implicit Types (st : Machine A) (s : AcpiSt A).
Hypothesis Hcfg : cfg_ok c.
Variable g : Glacier.

Lemma acpi_full_range : 0 < full <= full.
Proof. pose proof (half_facts Hcfg) as [? He]. lia. Qed.
Lemma any_lim va : in_lim full va.
Proof. pose proof (lv_bounds c Hcfg) as [? _]. apply idx_range; [done|lia]. Qed.

(** ** Pages *)

Definition is_page (p : Z) : Prop := (page_size | p) /\ 0 <= p < 2 ^ va_bits c /\ p < 2 ^ 64.

Lemma page_vpn p q : is_page p -> is_page q -> vpn c p = vpn c q -> p = q.
Proof.
  intros [[a Ha] [Hp _]] [[b Hb] [Hq _]]. unfold vpn. rewrite <- page_size_pow2. subst p q.
  pose proof page_size_pos as Hps. rewrite !Z.div_mul by lia.
  assert (BPage_shift (psz c) <= va_bits c) as Hle.
  { pose proof (page_facts c) as [? _]. unfold cfg_ok in Hcfg. lia. }
  assert (forall x, 0 <= x * page_size < 2 ^ va_bits c -> 0 <= x < 2 ^ (va_bits c - BPage_shift (psz c))) as Hx.
  { intros x Hx. rewrite page_size_pow2 in *. assert (2 ^ va_bits c = 2 ^ (va_bits c - BPage_shift (psz c)) * 2 ^ BPage_shift (psz c)) as He.
    { rewrite <- Z.pow_add_r by (pose proof (page_facts c); lia). f_equal. lia. }
    rewrite He in Hx. split; [|eapply Z.mul_lt_mono_pos_r; [exact Hps|lia]].
    apply Z.nlt_ge. intros Hn. assert (x * 2 ^ BPage_shift (psz c) < 0) by (apply Z.mul_neg_pos; lia). lia. }
  rewrite !Z.mod_small by (by apply Hx). by intros ->.
Qed.

Definition pages (phys size : Z) : list Z := page (page_floor phys) <$> seqZ 0 (pages_of phys size).
Definition region_ok (phys size : Z) : Prop :=
  0 <= phys /\ 0 <= size /\ phys + size <= 2 ^ va_bits c /\ phys + size + page_size < 2 ^ 64.

Lemma region_pages_ok phys size : region_ok phys size -> region_pages phys size = Ret (pages phys size).
Proof.
  intros (H1 & H2 & H3 & H4). pose proof page_size_pos as Hps. unfold region_pages.
  rewrite align_down_ok, Ret_bind, uadd_ok, Ret_bind, align_up_ok, Ret_bind by lia.
  unfold pages. rewrite <- step_by_pages by done. done.
Qed.

Lemma pages_nodup phys size : NoDup (pages phys size).
Proof.
  apply NoDup_fmap_2; [|apply NoDup_seqZ]. intros i j. unfold page. pose proof page_size_pos. nia.
Qed.

Lemma pages_are phys size p : region_ok phys size -> p ∈ pages phys size -> is_page p.
Proof.
  intros (H1 & H2 & H3 & H4) (k & -> & Hk%elem_of_seqZ)%list_elem_of_fmap. pose proof page_size_pos as Hps.
  assert (page (page_floor phys) k = (phys / page_size + k) * page_size) as He by (unfold page, page_floor; ring).
  assert (0 <= phys / page_size) by (apply Z.div_pos; lia).
  assert ((phys / page_size + k + 1) * page_size <= phys + size + page_size - 1) as Hle.
  { pose proof (Z.mul_div_le (phys + size + page_size - 1) page_size Hps). unfold pages_of in Hk.
    assert ((phys / page_size + k + 1) * page_size <= page_size * ((phys + size + page_size - 1) / page_size)); [|lia].
    rewrite (Z.mul_comm page_size). apply Z.mul_le_mono_nonneg_r; lia. }
  rewrite He. split_and!; [apply Z.divide_factor_r|apply Z.mul_nonneg_nonneg; lia|lia|lia].
Qed.

(** ** Counting *)

Definition one_if (P : Prop) `{Decision P} : Z := if decide P then 1 else 0.

(** The counters are [cnt], and what is counted is mapped. *)
Record counts (cnt : Z -> Z) s : Prop := {
  co_inv : exists τ, GInv full g (ac_st s) τ;
  co_map : forall p, ac_map s !! p = if decide (cnt p = 0) then None else Some (cnt p);
  co_pos : forall p, 0 <= cnt p;
  co_page : forall p, cnt p <> 0 -> is_page p;
  co_pa : forall p, cnt p <> 0 -> get_pa g p (ac_st s) = Ret (entry_pa (Z.lor p (K_RWO flags)))
}.

Lemma counts_ext cnt cnt' s : (forall p, cnt p = cnt' p) -> counts cnt s -> counts cnt' s.
Proof.
  intros He [H1 H2 H3 H4 H5]. constructor; [done|intros p; rewrite <- He..]; [apply H2|apply H3|apply H4|apply H5].
Qed.

(** What else the pages do. *)
Definition same_outside (addrs : list Z) st st' : Prop :=
  forall va, 0 <= va < 2 ^ 64 -> (forall p, p ∈ addrs -> vpn c va <> vpn c p) -> get_pa g va st' = get_pa g va st.

Lemma same_outside_cons p addrs st st1 st2 :
  same_outside [p] st st1 -> same_outside addrs st1 st2 -> same_outside (p :: addrs) st st2.
Proof.
  intros H1 H2 va Hva Hn. rewrite H2, H1; [done|done| |done|]; intros q Hq; apply Hn; [|by right].
  apply list_elem_of_singleton in Hq as ->. by left.
Qed.

(** One page more. *)
Lemma count_up cnt s p :
  counts cnt s -> is_page p -> cnt p < 2 ^ 64 - 1 ->
  let cnt' q := cnt q + one_if (q = p) in
  (exists s', (forall addrs, map_pages g (p :: addrs) s = map_pages g addrs s') /\ counts cnt' s' /\
     same_outside [p] (ac_st s) (ac_st s')) \/
  (forall addrs, map_pages g (p :: addrs) s = Panic).
Proof.
  intros [[τ HG] H2 H3 H4 H5] Hp Hb cnt'. assert (0 <= p < 2 ^ 64) as Hpr by (destruct Hp as (_ & ? & ?); lia).
  pose proof (H2 p) as Hm. pose proof (H3 p) as Hc. assert (cnt' p = cnt p + 1) as Hcp by (unfold cnt', one_if; by rewrite decide_True).
  assert (forall q, q <> p -> cnt' q = cnt q) as Hne by (intros q Hq; unfold cnt', one_if; rewrite decide_False by done; lia).
  case_decide as Hd.
  - destruct (map_page_run full Hcfg acpi_full_range g (ac_st s) τ p p (K_RWO flags) HG Hpr (any_lim p))
      as (st' & r & τ' & Hrun & HG' & _ & _ & _ & Hw).
    destruct r as [u|e]; [left|right; intros addrs; cbn [map_pages]; by rewrite Hm, Hrun, Ret_bind].
    pose proof (writes_translates full Hcfg g (ac_st s) τ st' τ' p _ (gi_tree _ _ _ _ HG) (gi_tree _ _ _ _ HG') Hw) as Htr.
    assert (Z.land p page_mask = p) as Hmask by (apply mask_aligned; [apply Hp|done]). rewrite Hmask in Htr.
    exists (mkAcpi st' (<[p := 1]> (ac_map s))). split_and!; [intros addrs; cbn [map_pages]; by rewrite Hm, Hrun, Ret_bind| |].
    + constructor; cbn [ac_st ac_map]; [by exists τ'|..]; intros q; destruct (decide (q = p)) as [->|Hq].
      * rewrite lookup_insert_eq, Hcp, Hd. done.
      * rewrite lookup_insert_ne, Hne by done. apply H2.
      * rewrite Hcp. lia.
      * rewrite Hne by done. apply H3.
      * done.
      * rewrite Hne by done. apply H4.
      * intros _. rewrite (Htr p Hpr (any_lim p)). by rewrite decide_True.
      * rewrite Hne by done. intros Hcq. pose proof (H4 q Hcq) as Hqp. destruct Hqp as (Hqd & Hqr & Hq64).
        rewrite (Htr q ltac:(lia) (any_lim q)), decide_False; [by apply H5|]. intros Hv. apply Hq. by apply page_vpn.
    + intros va Hva Hn. cbn [ac_st]. rewrite (Htr va Hva (any_lim va)), decide_False; [done|]. apply Hn. by left.
  - left. exists (mkAcpi (ac_st s) (<[p := cnt p + 1]> (ac_map s))). split_and!; [|constructor; cbn [ac_st ac_map]; [by exists τ|..]|done].
    + intros addrs. cbn [map_pages]. by rewrite Hm, uadd_ok, Ret_bind by lia.
    + intros q. destruct (decide (q = p)) as [->|Hq]; [rewrite lookup_insert_eq, Hcp, decide_False by lia; done|].
      rewrite lookup_insert_ne, Hne by done. apply H2.
    + intros q. unfold cnt', one_if. pose proof (H3 q). case_decide; lia.
    + intros q. destruct (decide (q = p)) as [->|Hq]; [done|]. rewrite Hne by done. apply H4.
    + intros q. destruct (decide (q = p)) as [->|Hq]; [intros _; by apply H5|]. rewrite Hne by done. apply H5.
Qed.

(** The allocator can take a few frames back. *)
Hypothesis Hroom : forall a : A, fa_inv a -> lv c - 1 <= fa_room a.

(** One page less. *)
Lemma count_down cnt s p :
  counts cnt s -> 0 < cnt p < 2 ^ 64 -> let cnt' q := cnt q - one_if (q = p) in
  exists s', (forall addrs, unmap_pages g (p :: addrs) s = unmap_pages g addrs s') /\ counts cnt' s' /\
    same_outside [p] (ac_st s) (ac_st s').
Proof.
  intros [[τ HG] H2 H3 H4 H5] Hc cnt'. destruct (H4 p ltac:(lia)) as (Hpd & Hpr & Hp64).
  pose proof (H2 p) as Hm. rewrite decide_False in Hm by lia. assert (cnt' p = cnt p - 1) as Hcp by (unfold cnt', one_if; by rewrite decide_True).
  assert (forall q, q <> p -> cnt' q = cnt q) as Hne by (intros q Hq; unfold cnt', one_if; rewrite decide_False by done; lia).
  destruct (decide (cnt p = 1)) as [Hone|Hmany].
  - destruct (unmap_page_run full Hcfg acpi_full_range g (ac_st s) τ p HG) as (st' & τ' & Hrun & HG' & _ & _ & Htr & _);
      [apply Hroom, HG|lia|apply any_lim|].
    exists (mkAcpi st' (delete p (ac_map s))). split_and!.
    + intros addrs. cbn [unmap_pages]. rewrite Hm, usub_ok, Ret_bind, Hone by lia. cbn [Z.sub Z.eqb]. by rewrite Hrun, Ret_bind.
    + constructor; cbn [ac_st ac_map]; [by exists τ'|..]; intros q; destruct (decide (q = p)) as [->|Hq].
      * rewrite lookup_delete_eq, Hcp, Hone. done.
      * rewrite lookup_delete_ne, Hne by done. apply H2.
      * rewrite Hcp. lia.
      * rewrite Hne by done. apply H3.
      * rewrite Hcp. lia.
      * rewrite Hne by done. apply H4.
      * rewrite Hcp. lia.
      * rewrite Hne by done. intros Hcq. destruct (H4 q Hcq) as (Hqd & Hqr & Hq64).
        rewrite (Htr q ltac:(lia) (any_lim q)), decide_False; [by apply H5|]. intros Hv. apply Hq. by apply page_vpn.
    + intros va Hva Hn. cbn [ac_st]. rewrite (Htr va Hva (any_lim va)), decide_False; [done|]. apply Hn. by left.
  - exists (mkAcpi (ac_st s) (<[p := cnt p - 1]> (ac_map s))). split_and!; [|constructor; cbn [ac_st ac_map]; [by exists τ|..]|done].
    + intros addrs. cbn [unmap_pages]. rewrite Hm, usub_ok, Ret_bind by lia. by rewrite (proj2 (Z.eqb_neq _ _)) by lia.
    + intros q. destruct (decide (q = p)) as [->|Hq]; [rewrite lookup_insert_eq, Hcp, decide_False by lia; done|].
      rewrite lookup_insert_ne, Hne by done. apply H2.
    + intros q. unfold cnt', one_if. pose proof (H3 q). case_decide; [subst q|]; lia.
    + intros q. destruct (decide (q = p)) as [->|Hq]; [done|]. rewrite Hne by done. apply H4.
    + intros q. destruct (decide (q = p)) as [->|Hq]; [intros _; apply H5; lia|]. rewrite Hne by done. apply H5.
Qed.

(** ** Regions *)

Lemma map_pages_run addrs cnt s :
  NoDup addrs -> counts cnt s -> (forall p, p ∈ addrs -> is_page p /\ cnt p < 2 ^ 64 - 1) ->
  (exists s', map_pages g addrs s = Ret s' /\ counts (fun q => cnt q + one_if (q ∈ addrs)) s' /\
     same_outside addrs (ac_st s) (ac_st s')) \/
  map_pages g addrs s = Panic.
Proof.
  intros Hnd. revert cnt s. induction Hnd as [|p addrs Hn Hnd IH]; intros cnt s Hc Hp.
  - left. exists s. split_and!; [done| |done]. eapply counts_ext; [|exact Hc]. intros q. unfold one_if.
    rewrite decide_False by apply not_elem_of_nil. lia.
  - destruct (Hp p ltac:(by left)) as [Hpg Hb]. destruct (count_up cnt s p Hc Hpg Hb) as [(s1 & Hrun & Hc1 & Hs1)|Hrun]; [|by right].
    rewrite Hrun. destruct (IH _ s1 Hc1) as [(s2 & Hrun2 & Hc2 & Hs2)|?]; [| |by right].
    { intros q Hq. split; [by apply Hp; right|]. unfold one_if. rewrite decide_False by (by intros ->). rewrite Z.add_0_r. by apply Hp; right. }
    left. exists s2. split_and!; [done| |by eapply same_outside_cons]. eapply counts_ext; [|exact Hc2]. intros q. unfold one_if.
    destruct (decide (q = p)) as [->|Hq].
    + rewrite decide_False by done. rewrite decide_True by (by left). lia.
    + rewrite (decide_ext (q ∈ p :: addrs) (q ∈ addrs)) by (rewrite elem_of_cons; tauto). lia.
Qed.

Lemma unmap_pages_run addrs cnt s :
  NoDup addrs -> counts cnt s -> (forall p, p ∈ addrs -> 0 < cnt p < 2 ^ 64) ->
  exists s', unmap_pages g addrs s = Ret s' /\ counts (fun q => cnt q - one_if (q ∈ addrs)) s' /\
    same_outside addrs (ac_st s) (ac_st s').
Proof.
  intros Hnd. revert cnt s. induction Hnd as [|p addrs Hn Hnd IH]; intros cnt s Hc Hp.
  - exists s. split_and!; [done| |done]. eapply counts_ext; [|exact Hc]. intros q. unfold one_if.
    rewrite decide_False by apply not_elem_of_nil. lia.
  - destruct (count_down cnt s p Hc (Hp p ltac:(by left))) as (s1 & Hrun & Hc1 & Hs1).
    rewrite Hrun. destruct (IH _ s1 Hc1) as (s2 & Hrun2 & Hc2 & Hs2).
    { intros q Hq. unfold one_if. rewrite decide_False by (by intros ->). rewrite Z.sub_0_r. by apply Hp; right. }
    exists s2. split_and!; [done| |by eapply same_outside_cons]. eapply counts_ext; [|exact Hc2]. intros q. unfold one_if.
    destruct (decide (q = p)) as [->|Hq].
    + rewrite decide_False by done. rewrite decide_True by (by left). lia.
    + rewrite (decide_ext (q ∈ p :: addrs) (q ∈ addrs)) by (rewrite elem_of_cons; tauto). lia.
Qed.

(** The live regions that touch a page. *)
Definition region_of (r : PhysicalMapping) : list Z := pages (physical_start r) (region_length r).
Fixpoint count (live : list PhysicalMapping) (p : Z) : Z :=
  match live with [] => 0 | r :: live => count live p + one_if (p ∈ region_of r) end.

Lemma count_app l1 l2 p : count (l1 ++ l2) p = count l1 p + count l2 p.
Proof. induction l1 as [|r l1 IH]; cbn; lia. Qed.
Lemma count_bound live p : 0 <= count live p <= Z.of_nat (length live).
Proof. induction live as [|r live IH]; cbn [count length]; unfold one_if; [lia|case_decide; lia]. Qed.

(** Regions come and go in any order. *)
Inductive acpi_step : list PhysicalMapping * AcpiSt A -> list PhysicalMapping * AcpiSt A -> Prop :=
  | step_map live s phys size s' r :
      region_ok phys size -> Z.of_nat (length live) < 2 ^ 62 -> map_physical_region g phys size s = Ret (s', r) ->
      acpi_step (live, s) (r :: live, s')
  | step_unmap l1 l2 s r s' :
      unmap_physical_region g r s = Ret s' -> acpi_step (l1 ++ r :: l2, s) (l1 ++ l2, s').

Definition regions_ok (live : list PhysicalMapping) : Prop :=
  Z.of_nat (length live) <= 2 ^ 62 /\ Forall (fun r => region_ok (physical_start r) (region_length r)) live.

Lemma map_region_run phys size live s :
  regions_ok live -> Z.of_nat (length live) < 2 ^ 62 -> counts (count live) s -> region_ok phys size ->
  let r := mkMapping phys phys size size in
  (exists s', map_physical_region g phys size s = Ret (s', r) /\ counts (count (r :: live)) s' /\
     same_outside (pages phys size) (ac_st s) (ac_st s')) \/
  map_physical_region g phys size s = Panic.
Proof.
  intros Hl Hlen Hc Hr r. unfold map_physical_region. rewrite region_pages_ok, Ret_bind by done.
  destruct (map_pages_run (pages phys size) (count live) s (pages_nodup _ _) Hc) as [(s' & -> & Hc' & Hs)| ->]; [| |by right].
  - intros p Hp. split; [by eapply pages_are|]. pose proof (count_bound live p). lia.
  - left. exists s'. by rewrite Ret_bind.
Qed.

Lemma unmap_region_run l1 l2 r s :
  regions_ok (l1 ++ r :: l2) -> counts (count (l1 ++ r :: l2)) s ->
  exists s', unmap_physical_region g r s = Ret s' /\ counts (count (l1 ++ l2)) s' /\
    same_outside (region_of r) (ac_st s) (ac_st s').
Proof.
  intros [Hlen Hl] Hc. assert (region_ok (physical_start r) (region_length r)) as Hr.
  { rewrite Forall_forall in Hl. apply Hl, elem_of_app. right. by left. }
  unfold unmap_physical_region. rewrite region_pages_ok, Ret_bind by done. fold (region_of r).
  destruct (unmap_pages_run (region_of r) (count (l1 ++ r :: l2)) s (pages_nodup _ _) Hc) as (s' & -> & Hc' & Hs).
  - intros p Hp. pose proof (count_bound (l1 ++ r :: l2) p). split; [|lia]. rewrite count_app. cbn [count]. unfold one_if.
    rewrite decide_True by done. pose proof (count_bound l1 p). pose proof (count_bound l2 p). lia.
  - exists s'. split_and!; [done| |done]. eapply counts_ext; [|exact Hc']. intros q. rewrite !count_app. cbn [count]. lia.
Qed.

End Acpi.
