(* ===== verification/Hw.v ===== *)
(** * Hw: registers of devices, and the serial port (arch/*/mod.rs)

    A device is reached through memory-mapped registers, ports (AMD64) and
    system registers (AArch64).  [D] is the state of the hardware; reading a
    register may change it. *)

From S2P Require Import Prelude Kargs Rvm RamUtil Physalloc Glacier.

(** The system registers of the interrupt controller and of the timer. *)
Inductive icreg : Type :=
  | ICC_PMR_EL1 | ICC_BPR1_EL1 | ICC_IGRPEN1_EL1 | ICC_IAR1_EL1 | ICC_EOIR1_EL1 | ICC_SGI1R_EL1
  | CNTFRQ_EL0 | CNTV_CTL_EL0 | CNTV_TVAL_EL0.

(** Accesses of a number of bytes. *)
Class Hardware (D : Type) : Type := {
  mmio_read : nat -> Z -> D -> D * Z;
  mmio_write : nat -> Z -> Z -> D -> D;
  io_in : Z -> D -> D * Z;
  io_out : Z -> Z -> D -> D;
  mrs : icreg -> D -> D * Z;
  msr : icreg -> Z -> D -> D
}.

Section Regs.
Context `{Build} {D : Type} `{!Hardware D}.

(** [((base + off) as *mut u32).write_volatile(v)] *)
Definition reg_read (base off : Z) (d : D) : outcome (D * Z) := a ← uadd 64 base off; Ret (mmio_read 4 a d).
Definition reg_write (base off v : Z) (d : D) : outcome D := a ← uadd 64 base off; Ret (mmio_write 4 a v d).

(** Writes of ports, one after the other. *)
Fixpoint outs (l : list (Z * Z)) (d : D) : D :=
  match l with [] => d | (p, v) :: l => outs l (io_out p v d) end.
End Regs.

(** ** The serial port *)

Section Serial.
Context `{Platform} {D : Type} `{!Hardware D}.

(** AMD64: a 16550. *)
Definition COM1 : Z := 0x3f8.
Definition init_serial_amd64 (d : D) : D :=
  outs [(COM1 + 1, 0x00); (COM1 + 3, 0x80); (COM1 + 0, 0x01); (COM1 + 1, 0x00); (COM1 + 3, 0x03); (COM1 + 2, 0xc7); (COM1 + 4, 0x0b)] d.

(** [test al, 0x20; jz 2b] *)
Fixpoint wait_thr (n : nat) (d : D) : outcome D :=
  match n with
  | O => NoFuel
  | S n => let '(d, al) := io_in (COM1 + 5) d in if Z.land al 0x20 =? 0 then wait_thr n d else Ret d
  end.
Definition serial_putchar_amd64 (n : nat) (byte : Z) (d : D) : outcome D :=
  d ← wait_thr n d;
  Ret (io_out COM1 byte d).

(** AArch64: a PL011, mapped on the last page. *)
Definition UART0_BASE : Z := 0x09000000.
Definition serial_io : Z := uwrap_sub 64 0 page_size.

(** The result of [map_page] is not looked at. *)
Definition init_serial_aarch64 {A : Type} `{!FrameAlloc A} (g : Glacier) (st : Machine A) (d : D) : outcome (Machine A * D) :=
  let sio := serial_io in
  '(st, _) ← map_page g sio UART0_BASE (D_RW flags_aarch64) st;
  d ← reg_write sio 0x30 0x0 d;
  d ← reg_write sio 0x44 0x7ff d;
  d ← reg_write sio 0x30 0x301 d;
  Ret (st, d).

Fixpoint wait_fifo (n : nat) (d : D) : outcome D :=
  match n with
  | O => NoFuel
  | S n => '(d, fr) ← reg_read serial_io 0x18 d; if Z.land fr (Z.shiftl 1 5) =? 0 then Ret d else wait_fifo n d
  end.
Definition serial_putchar_aarch64 (n : nat) (byte : Z) (d : D) : outcome D :=
  d ← wait_fifo n d;
  reg_write serial_io 0x00 byte d.

Definition serial_putchar (n : nat) (byte : Z) (d : D) : outcome D :=
  match target_arch with
  | X86_64 => serial_putchar_amd64 n byte d
  | AArch64 => serial_putchar_aarch64 n byte d
  end.

(** [SerialWriter::write_str]; [n] bounds the turns that a byte waits. *)
Fixpoint write_str (n : nat) (s : list Z) (d : D) : outcome D :=
  match s with
  | [] => Ret d
  | byte :: s => d ← serial_putchar n byte d; write_str n s d
  end.

(** ** What the port promises *)

(** What was sent, and how often its status has to be read before the next
    byte is taken.  A byte that is written when it is not taken is lost. *)
Class SerialLaws : Type := {
  sent : D -> list Z;
  busy : D -> nat;
  sl_status_amd64 : forall d, target_arch = X86_64 -> let '(d', al) := io_in (COM1 + 5) d in
    sent d' = sent d /\ match busy d with O => Z.land al 0x20 <> 0 /\ busy d' = O | S k => Z.land al 0x20 = 0 /\ busy d' = k end;
  sl_send_amd64 : forall d b, target_arch = X86_64 -> busy d = O -> sent (io_out COM1 b d) = sent d ++ [b];
  sl_status_aarch64 : forall d, target_arch = AArch64 -> let '(d', fr) := mmio_read 4 (serial_io + 0x18) d in
    sent d' = sent d /\ match busy d with O => Z.land fr (Z.shiftl 1 5) = 0 /\ busy d' = O | S k => Z.land fr (Z.shiftl 1 5) <> 0 /\ busy d' = k end;
  sl_send_aarch64 : forall d b, target_arch = AArch64 -> busy d = O -> sent (mmio_write 4 serial_io b d) = sent d ++ [b]
}.

Lemma serial_io_ok off : 0 <= off < 0x1000 -> 0 <= serial_io + off < 2 ^ 64.
Proof.
  intros Ho. unfold serial_io, uwrap_sub. pose proof page_size_range as [Hp1 Hp2].
  replace ((0 - page_size) mod 2 ^ 64) with (2 ^ 64 - page_size); [lia|].
  rewrite <- (Z.mod_small (2 ^ 64 - page_size) (2 ^ 64)) by lia. replace (2 ^ 64 - page_size) with (0 - page_size + 1 * 2 ^ 64) by lia.
  by rewrite Z.mod_add by lia.
Qed.

Context `{!SerialLaws}.

Lemma wait_thr_run n d : target_arch = X86_64 -> (busy d < n)%nat -> exists d', wait_thr n d = Ret d' /\ sent d' = sent d /\ busy d' = O.
Proof.
  intros Ha. revert d. induction n as [|n IH]; intros d Hb; [lia|]. cbn [wait_thr].
  pose proof (sl_status_amd64 d Ha) as Hs. destruct (io_in (COM1 + 5) d) as [d' al]. destruct Hs as [Hs Hb'].
  destruct (busy d) as [|k].
  - destruct Hb' as [Hal Hb']. rewrite (proj2 (Z.eqb_neq _ _)) by done. by exists d'.
  - destruct Hb' as [Hal Hb']. rewrite (proj2 (Z.eqb_eq _ _)) by done. destruct (IH d') as (d2 & -> & H1 & H2); [lia|].
    exists d2. by rewrite H1.
Qed.

Lemma wait_fifo_run n d : target_arch = AArch64 -> (busy d < n)%nat -> exists d', wait_fifo n d = Ret d' /\ sent d' = sent d /\ busy d' = O.
Proof.
  intros Ha. pose proof (serial_io_ok 0x18 ltac:(lia)) as Hio. revert d. induction n as [|n IH]; intros d Hb; [lia|]. cbn [wait_fifo].
  unfold reg_read. rewrite uadd_ok, !Ret_bind by lia.
  pose proof (sl_status_aarch64 d Ha) as Hs. destruct (mmio_read 4 (serial_io + 0x18) d) as [d' fr]. destruct Hs as [Hs Hb'].
  destruct (busy d) as [|k].
  - destruct Hb' as [Hal Hb']. rewrite (proj2 (Z.eqb_eq _ _)) by done. by exists d'.
  - destruct Hb' as [Hal Hb']. rewrite (proj2 (Z.eqb_neq _ _)) by done. destruct (IH d') as (d2 & -> & H1 & H2); [lia|].
    exists d2. by rewrite H1.
Qed.

Lemma putchar_run n b d : (busy d < n)%nat -> exists d', serial_putchar n b d = Ret d' /\ sent d' = sent d ++ [b].
Proof.
  intros Hb. unfold serial_putchar. destruct target_arch eqn:Ha.
  - unfold serial_putchar_amd64. destruct (wait_thr_run n d Ha Hb) as (d' & -> & Hs & Hz). rewrite Ret_bind.
    eexists. split; [done|]. by rewrite (sl_send_amd64 d' b Ha Hz), Hs.
  - unfold serial_putchar_aarch64. destruct (wait_fifo_run n d Ha Hb) as (d' & -> & Hs & Hz). rewrite Ret_bind.
    unfold reg_write. pose proof (serial_io_ok 0 ltac:(lia)). rewrite uadd_ok, Ret_bind, Z.add_0_r by lia.
    eexists. split; [done|]. by rewrite (sl_send_aarch64 d' b Ha Hz), Hs.
Qed.

(** On both architectures [write_str] sends the bytes of a string, in order
    and nothing else, on a port that takes a byte after at most [n] looks. *)
Theorem write_str_sends n s d :
  (forall d', (busy d' < n)%nat) -> exists d', write_str n s d = Ret d' /\ sent d' = sent d ++ s.
Proof.
  intros Hb. revert d. induction s as [|b s IH]; intros d; cbn [write_str]; [exists d; by rewrite app_nil_r|].
  destruct (putchar_run n b d (Hb d)) as (d1 & -> & H1). rewrite Ret_bind. destruct (IH d1) as (d2 & -> & H2).
  exists d2. by rewrite H2, H1, <- app_assoc.
Qed.
End Serial.

(** ** A port that is busy for one look after each byte *)

Module SerialDemo.
#[local] Instance pc : Platform :=
  {| platform_build := {| overflow_checks := true |}; target_arch := X86_64; G_CFG := mkRvmCfg Size4kiB 48 52 |}.
Definition Port : Type := (list Z * bool)%type.
(** A byte that comes while the port is busy is lost. *)
#[local] Instance port : Hardware Port := {
  mmio_read _ _ d := (d, 0);
  mmio_write _ _ _ d := d;
  io_in p d := if p =? 0x3fd then ((fst d, false), if snd d then 0 else 0x20) else (d, 0);
  io_out p v d := if (p =? 0x3f8) && negb (snd d) then (fst d ++ [v], true) else d;
  mrs _ d := (d, 0);
  msr _ _ d := d
}.
#[local] Instance port_laws : SerialLaws.
Proof.
  refine {| sent := fst : Port -> list Z; busy := fun d : Port => if snd d then 1%nat else O |}; try done.
  - intros [l [|]] _; cbn; done.
  - intros [l [|]] b _; cbn; done.
Defined.

Lemma write_str_sends_witness : exists d', write_str 2 [0x55; 0x4e; 0x49; 0x58] (([], false) : Port) = Ret d' /\ fst d' = [0x55; 0x4e; 0x49; 0x58].
Proof.
  destruct (write_str_sends (D := Port) 2 [0x55; 0x4e; 0x49; 0x58] ([], false)) as (d' & Hr & Hs).
  - intros [l [|]]; cbn; lia.
  - exists d'. split; [exact Hr|exact Hs].
Defined.
End SerialDemo.
