(* ===== verification/Intc.v ===== *)
(** * Intc: interrupt controllers and timers (arch/*/intc.rs), and the
    processors that ACPI names (device/cpu.rs) *)

From S2P Require Import Prelude Kargs Rvm RamUtil Physalloc Glacier Bytes Aps Hw.

Section Intc.
Context `{Platform} {D : Type} `{!Hardware D}.

(** The statics: the version of the GIC, the addresses that ACPI gave, the
    frequency of the timer; [ic_virtid] is [AP_LIST.virtid_self()]. *)
Record Ic : Type := mkIc {
  ic_hw : D;
  GIC_VERSION : Z;
  GICD_BASE : option Z;
  GICC_BASE : option Z;
  GICR_BASE : option Z;
  TIMER_FREQ : Z;
  ic_virtid : Z
}.
Definition ic_with (s : Ic) (d : D) : Ic :=
  mkIc d (GIC_VERSION s) (GICD_BASE s) (GICC_BASE s) (GICR_BASE s) (TIMER_FREQ s) (ic_virtid s).
Definition ic_set_version (s : Ic) (v : Z) : Ic :=
  mkIc (ic_hw s) v (GICD_BASE s) (GICC_BASE s) (GICR_BASE s) (TIMER_FREQ s) (ic_virtid s).
Definition ic_set_freq (s : Ic) (v : Z) : Ic :=
  mkIc (ic_hw s) (GIC_VERSION s) (GICD_BASE s) (GICC_BASE s) (GICR_BASE s) v (ic_virtid s).

(** [get_unchecked]: reading an address that was not set is undefined. *)
Definition get_unchecked (o : option Z) : outcome Z := unwrap o.

Definition IC_DOORBELL_SIZE : Z := 0x10000.
Definition IC_SIZE : Z := 0x20000.
Definition cpu_info_base (virtid : Z) : outcome Z := t ← stack_top virtid; usub 64 t per_cpu_data.
Definition ic_va (s : Ic) : outcome Z := cpu_info_base (ic_virtid s).

(** ** AArch64: GICv2 and GICv3 *)

Definition GICC_CTRLR : Z := 0x000.
Definition GICC_PMR : Z := 0x004.
Definition GICC_BPR : Z := 0x008.
Definition GICC_IAR : Z := 0x00c.
Definition GICC_EOIR : Z := 0x010.
Definition GICD_CTRLR : Z := 0x000.
Definition GICD_ISENABLER : Z := 0x100.
Definition GICD_ICENABLER : Z := 0x180.

Definition gic_ver (s : Ic) : Ic * Z :=
  if negb (GIC_VERSION s =? 0) then (s, GIC_VERSION s)
  else match GICD_BASE s with
  | None => (s, 0)
  | Some _ =>
      match GICR_BASE s with
      | Some _ => (ic_set_version s 3, 3)
      | None => match GICC_BASE s with Some _ => (ic_set_version s 2, 2) | None => (s, 0) end
      end
  end.

Definition init_v2 (s : Ic) : outcome Ic :=
  gicd ← get_unchecked (GICD_BASE s);
  gicc ← ic_va s;
  d ← reg_write gicd GICD_CTRLR 1 (ic_hw s);
  d ← reg_write gicc GICC_PMR 0xff d;
  d ← reg_write gicc GICC_BPR 0 d;
  d ← reg_write gicc GICC_CTRLR 1 d;
  Ret (ic_with s d).

(** [while (gicr_waker.read_volatile() & (1 << 2)) != 0] *)
Fixpoint wait_waker (n : nat) (a : Z) (d : D) : outcome D :=
  match n with
  | O => NoFuel
  | S n => let '(d, w) := mmio_read 4 a d in if Z.land w (Z.shiftl 1 2) =? 0 then Ret d else wait_waker n a d
  end.

Definition init_v3 (n : nat) (s : Ic) : outcome Ic :=
  gicd ← get_unchecked (GICD_BASE s);
  gicr ← get_unchecked (GICR_BASE s);
  d ← (if ic_virtid s =? 0 then reg_write gicd GICD_CTRLR 0x13 (ic_hw s) else Ret (ic_hw s));
  a ← uadd 64 gicr 0x14;
  let '(d, waker) := mmio_read 4 a d in
  let d := mmio_write 4 a (Z.land waker (unot 32 (Z.shiftl 1 1))) d in
  d ← wait_waker n a d;
  Ret (ic_with s (msr ICC_IGRPEN1_EL1 1 (msr ICC_BPR1_EL1 0 (msr ICC_PMR_EL1 0xff d)))).

(** The redistributor's page of private interrupts. *)
Definition gicr_sgi (s : Ic) : outcome Z := gicr ← get_unchecked (GICR_BASE s); uadd 64 gicr 0x10000.
(** [1u32 << (intid % u32::BITS)] *)
Definition gic_bit (intid : Z) : Z := 2 ^ (intid mod 32).

Definition gic_enable (intid : Z) (s : Ic) : outcome Ic :=
  let '(s, v) := gic_ver s in
  if v =? 0 then Ret s
  else if (intid <? 32) && (v =? 3) then
    sgi ← gicr_sgi s;
    igroupr0 ← uadd 64 sgi 0x80;
    let '(d, w) := mmio_read 4 igroupr0 (ic_hw s) in
    let d := mmio_write 4 igroupr0 (Z.lor w (gic_bit intid)) d in
    p ← uadd 64 sgi 0x400;
    p ← uadd 64 p intid;
    let d := mmio_write 1 p 0 d in
    d ← reg_write sgi 0x100 (gic_bit intid) d;
    Ret (ic_with s d)
  else
    gicd ← get_unchecked (GICD_BASE s);
    a ← uadd 64 gicd GICD_ISENABLER;
    d ← reg_write a (intid / 32 * 4) (gic_bit intid) (ic_hw s);
    Ret (ic_with s d).

Definition gic_disable (intid : Z) (s : Ic) : outcome Ic :=
  let '(s, v) := gic_ver s in
  if v =? 0 then Ret s
  else if (intid <? 32) && (v =? 3) then
    sgi ← gicr_sgi s;
    d ← reg_write sgi 0x180 (gic_bit intid) (ic_hw s);
    Ret (ic_with s d)
  else
    gicd ← get_unchecked (GICD_BASE s);
    a ← uadd 64 gicd GICD_ICENABLER;
    d ← reg_write a (intid / 32 * 4) (gic_bit intid) (ic_hw s);
    Ret (ic_with s d).

Definition gic_init (n : nat) (s : Ic) : outcome Ic :=
  let '(s, v) := gic_ver s in
  s ← (if v =? 2 then init_v2 s else if v =? 3 then init_v3 n s else Ret s);
  gic_enable 27 s.

Definition gic_ack (s : Ic) : outcome (Ic * Z) :=
  let '(s, v) := gic_ver s in
  if v =? 2 then
    va ← ic_va s;
    '(d, r) ← reg_read va GICC_IAR (ic_hw s);
    Ret (ic_with s d, r)
  else if v =? 3 then
    let '(d, r) := mrs ICC_IAR1_EL1 (ic_hw s) in
    Ret (ic_with s d, ucast 32 r)
  else Ret (s, 1023).

Definition gic_eoi (intid : Z) (s : Ic) : outcome Ic :=
  let '(s, v) := gic_ver s in
  if v =? 2 then
    va ← ic_va s;
    d ← reg_write va GICC_EOIR intid (ic_hw s);
    Ret (ic_with s d)
  else if v =? 3 then Ret (ic_with s (msr ICC_EOIR1_EL1 intid (ic_hw s)))
  else Ret s.

Definition gic_send_ipi_others (intid : Z) (s : Ic) : outcome Ic :=
  let '(s, v) := gic_ver s in
  if v =? 2 then
    gicd ← get_unchecked (GICD_BASE s);
    d ← reg_write gicd 0xf00 (Z.lor (Z.shiftl 1 24) intid) (ic_hw s);
    Ret (ic_with s d)
  else if v =? 3 then
    Ret (ic_with s (msr ICC_SGI1R_EL1 (Z.lor (Z.shiftl 1 40) (Z.shiftl intid 24)) (ic_hw s)))
  else Ret s.

(** [target.to_le_bytes()[i]] *)
Definition aff (target i : Z) : Z := ucast 8 (Z.shiftr target (8 * i)).
(** The value for [ICC_SGI1R_EL1]; the shift of the target list can overflow. *)
Definition sgi_value (intid target : Z) : outcome Z :=
  l ← ushl 64 1 (aff target 0);
  Ret (Z.lor (Z.lor (Z.lor (Z.lor (Z.shiftl (aff target 3) 48) (Z.shiftl (aff target 2) 32)) (Z.shiftl (aff target 1) 16)) (Z.shiftl intid 24)) l).

Definition gic_send_ipi (intid target : Z) (s : Ic) : outcome Ic :=
  let '(s, v) := gic_ver s in
  if v =? 2 then
    gicd ← get_unchecked (GICD_BASE s);
    d ← reg_write gicd 0xf00 (Z.lor (Z.shiftl (Z.land target 0xff) 16) intid) (ic_hw s);
    Ret (ic_with s d)
  else if v =? 3 then
    val ← sgi_value intid target;
    Ret (ic_with s (msr ICC_SGI1R_EL1 val (ic_hw s)))
  else Ret s.

(** The virtual timer. *)
Definition cnt_enable (s : Ic) : Ic := ic_with s (msr CNTV_CTL_EL0 1 (ic_hw s)).
Definition cnt_disable (s : Ic) : Ic := ic_with s (msr CNTV_CTL_EL0 0 (ic_hw s)).
Definition cnt_set (ticks : Z) (s : Ic) : Ic := ic_with s (msr CNTV_TVAL_EL0 ticks (ic_hw s)).
Definition cnt_set_per (unit_ t : Z) (s : Ic) : outcome Ic :=
  let '(d, freq) := mrs CNTFRQ_EL0 (ic_hw s) in
  p ← umul 64 t freq;
  ticks ← udiv p unit_;
  Ret (cnt_set ticks (ic_with s d)).
Definition cnt_set_us (us : Z) (s : Ic) : outcome Ic := cnt_set_per 1000000 us s.
Definition cnt_set_ms (ms : Z) (s : Ic) : outcome Ic := cnt_set_per 1000 ms s.

(** ** AMD64: the local APIC *)

Definition LAPIC_TPR : Z := 0x080.
Definition LAPIC_EOI : Z := 0x0b0.
Definition LAPIC_SVR : Z := 0x0f0.
Definition LAPIC_ICR_LO : Z := 0x300.
Definition LAPIC_ICR_HI : Z := 0x310.
Definition LAPIC_LVT_TIMER : Z := 0x320.
Definition LAPIC_LVT_ERROR : Z := 0x370.
Definition LAPIC_TIMER_ICR : Z := 0x380.
Definition LAPIC_TIMER_CCR : Z := 0x390.
Definition LAPIC_TIMER_DCR : Z := 0x3e0.

Definition lapic_read (off : Z) (s : Ic) : outcome (Ic * Z) :=
  va ← ic_va s;
  '(d, r) ← reg_read va off (ic_hw s);
  Ret (ic_with s d, r).
Definition lapic_write (off v : Z) (s : Ic) : outcome Ic :=
  va ← ic_va s;
  d ← reg_write va off v (ic_hw s);
  Ret (ic_with s d).

Definition PIT_FREQ : Z := 1193182.
Definition CALIB_MS : Z := 10.
(** [(PIT_FREQ * CALIB_MS / 1000) as u16] *)
Definition pit_ticks : Z := ucast 16 (PIT_FREQ * CALIB_MS / 1000).

(** The loop until the output of the second channel is set. *)
Fixpoint wait_pit (n : nat) (d : D) : outcome D :=
  match n with
  | O => NoFuel
  | S n => let '(d, status) := io_in 0x61 d in if Z.land status 0x20 =? 0 then wait_pit n d else Ret d
  end.

Definition calibrate_timer (n : nat) (s : Ic) : outcome Ic :=
  let s := ic_with s (outs [(0x61, 0); (0x43, 0xb0); (0x42, Z.land pit_ticks 0xff); (0x42, ucast 8 (Z.shiftr pit_ticks 8))] (ic_hw s)) in
  s ← lapic_write LAPIC_TIMER_DCR 0x0b s;
  s ← lapic_write LAPIC_TIMER_ICR 0xffffffff s;
  d ← wait_pit n (outs [(0x61, 1)] (ic_hw s));
  '(s, ccr) ← lapic_read LAPIC_TIMER_CCR (ic_with s d);
  elapsed ← usub 32 0xffffffff ccr;
  f ← umul 64 elapsed 1000;
  freq ← udiv f CALIB_MS;
  Ret (ic_set_freq s freq).

Definition lapic_init (n : nat) (s : Ic) : outcome Ic :=
  s ← lapic_write LAPIC_SVR 0x1ff s;
  s ← lapic_write LAPIC_TPR 0 s;
  s ← lapic_write LAPIC_LVT_TIMER (Z.lor 32 (Z.shiftl 1 17)) s;
  s ← lapic_write LAPIC_LVT_ERROR 33 s;
  if ic_virtid s =? 0 then calibrate_timer n s else Ret s.

Definition lapic_eoi (s : Ic) : outcome Ic := lapic_write LAPIC_EOI 0 s.
Definition lapic_send_ipi_others (vector : Z) (s : Ic) : outcome Ic :=
  s ← lapic_write LAPIC_ICR_HI 0 s;
  lapic_write LAPIC_ICR_LO (Z.lor (Z.shiftl 3 18) (Z.land vector 0xff)) s.
Definition lapic_send_ipi (vector target : Z) (s : Ic) : outcome Ic :=
  t ← ushl 32 target 24;
  s ← lapic_write LAPIC_ICR_HI t s;
  lapic_write LAPIC_ICR_LO (Z.land vector 0xff) s.

Definition lapic_timer_enable (s : Ic) : outcome Ic :=
  '(s, lvt) ← lapic_read LAPIC_LVT_TIMER s;
  lapic_write LAPIC_LVT_TIMER (Z.land lvt (unot 32 (Z.shiftl 1 16))) s.
Definition lapic_timer_disable (s : Ic) : outcome Ic :=
  '(s, lvt) ← lapic_read LAPIC_LVT_TIMER s;
  lapic_write LAPIC_LVT_TIMER (Z.lor lvt (Z.shiftl 1 16)) s.
Definition lapic_timer_set (ticks : Z) (s : Ic) : outcome Ic := lapic_write LAPIC_TIMER_ICR (ucast 32 ticks) s.
Definition lapic_timer_set_per (unit_ t : Z) (s : Ic) : outcome Ic :=
  if 0 <? TIMER_FREQ s then
    p ← umul 64 t (TIMER_FREQ s);
    ticks ← udiv p unit_;
    lapic_timer_set ticks s
  else Ret s.
Definition lapic_timer_set_us (us : Z) (s : Ic) : outcome Ic := lapic_timer_set_per 1000000 us s.
Definition lapic_timer_set_ms (ms : Z) (s : Ic) : outcome Ic := lapic_timer_set_per 1000 ms s.

(** ** [intc] of the architecture *)

Definition intc_init (n : nat) (s : Ic) : outcome Ic :=
  match target_arch with X86_64 => lapic_init n s | AArch64 => gic_init n s end.
Definition intc_ack (s : Ic) : outcome (Ic * Z) :=
  match target_arch with X86_64 => Ret (s, 0) | AArch64 => gic_ack s end.
Definition intc_eoi (intid : Z) (s : Ic) : outcome Ic :=
  match target_arch with X86_64 => lapic_eoi s | AArch64 => gic_eoi intid s end.
Definition timer_enable (s : Ic) : outcome Ic :=
  match target_arch with X86_64 => lapic_timer_enable s | AArch64 => Ret (cnt_enable s) end.
Definition timer_set_ms (ms : Z) (s : Ic) : outcome Ic :=
  match target_arch with X86_64 => lapic_timer_set_ms ms s | AArch64 => cnt_set_ms ms s end.
End Intc.
Arguments Ic D : clear implicits.

(** * Which interrupts the controller takes, and where it sends them *)

(** ** Software generated interrupts

    What a write of [ICC_SGI1R_EL1] asks for, by the architecture manual:
    the cluster is in bits 55:48, 39:32 and 23:16, the interrupt in bits
    27:24, and bits 15:0 list the processors of the cluster.  Bit 40 asks
    for every processor but the sender. *)
Record Sgi : Type := mkSgi { sgi_cluster : Z * Z * Z; sgi_intid : Z; sgi_cpus : list Z; sgi_others : bool }.
Definition field (v lo w : Z) : Z := Z.land (Z.shiftr v lo) (Z.ones w).
Definition sgi_decode (v : Z) : Sgi :=
  mkSgi (field v 48 8, field v 32 8, field v 16 8) (field v 24 4)
        (List.filter (fun i => Z.testbit v i) (seqZ 0 16)) (Z.testbit v 40).

Lemma field_bits v lo w k : 0 <= lo -> 0 <= w -> 0 <= k -> Z.testbit (field v lo w) k = (k <? w) && Z.testbit v (k + lo).
Proof.
  intros. unfold field. rewrite Z.land_spec, Z.shiftr_spec, Z.testbit_ones by lia.
  rewrite andb_comm. f_equal. destruct (Z.leb_spec 0 k); [done|lia].
Qed.

(** The bits of a number below [2 ^ w]. *)
Lemma bits_high x w k : 0 <= w -> 0 <= x < 2 ^ w -> w <= k -> Z.testbit x k = false.
Proof. intros Hw Hx Hk. rewrite <- (Z.mod_small x (2 ^ w)) by done. apply Z.mod_pow2_bits_high. lia. Qed.

Lemma shift_bits a s k : 0 <= s -> Z.testbit (Z.shiftl a s) k = Z.testbit a (k - s).
Proof.
  intros Hs. destruct (Z.ltb_spec k 0) as [Hk|Hk]; [by rewrite !Z.testbit_neg_r by lia|]. by apply Z.shiftl_spec.
Qed.

(** Five fields that are laid side by side. *)
Definition sgi_word (a3 a2 a1 intid l : Z) : Z :=
  Z.lor (Z.lor (Z.lor (Z.lor (Z.shiftl a3 48) (Z.shiftl a2 32)) (Z.shiftl a1 16)) (Z.shiftl intid 24)) l.

Section Fields.
Context (a3 a2 a1 intid l : Z).
Context (H3 : 0 <= a3 < 2 ^ 8) (H2 : 0 <= a2 < 2 ^ 8) (H1 : 0 <= a1 < 2 ^ 8) (Hi : 0 <= intid < 2 ^ 4) (Hl : 0 <= l < 2 ^ 16).

Lemma word_bit k : Z.testbit (sgi_word a3 a2 a1 intid l) k =
  Z.testbit a3 (k - 48) || Z.testbit a2 (k - 32) || Z.testbit a1 (k - 16) || Z.testbit intid (k - 24) || Z.testbit l k.
Proof. unfold sgi_word. by rewrite !Z.lor_spec, !shift_bits by lia. Qed.

Ltac bits_out :=
  repeat match goal with
  | |- context [Z.testbit ?x ?k] =>
      first [ rewrite (Z.testbit_neg_r x k) by lia
            | rewrite (bits_high x 4 k) by lia | rewrite (bits_high x 8 k) by lia | rewrite (bits_high x 16 k) by lia ]
  end.

Lemma word_field x lo w :
  0 <= lo -> 0 <= w -> 0 <= x < 2 ^ w ->
  (forall k, 0 <= k < w -> Z.testbit (sgi_word a3 a2 a1 intid l) (k + lo) = Z.testbit x k) ->
  field (sgi_word a3 a2 a1 intid l) lo w = x.
Proof.
  intros Hlo Hw Hx Hb. apply Z.bits_inj'. intros k Hk. rewrite field_bits by lia.
  destruct (Z.ltb_spec k w); cbn [andb]; [apply Hb; lia|]. symmetry. apply (bits_high x w); lia.
Qed.

Lemma word_decode : sgi_decode (sgi_word a3 a2 a1 intid l) =
  mkSgi (a3, a2, a1) intid (List.filter (fun i => Z.testbit l i) (seqZ 0 16)) false.
Proof.
  unfold sgi_decode. f_equal; [f_equal; [f_equal|]| | |].
  - apply word_field; try lia. intros k Hk. rewrite word_bit. replace (k + 48 - 48) with k by lia. bits_out. by rewrite !orb_false_r.
  - apply word_field; try lia. intros k Hk. rewrite word_bit. replace (k + 32 - 32) with k by lia. bits_out. by rewrite !orb_false_r.
  - apply word_field; try lia. intros k Hk. rewrite word_bit. replace (k + 16 - 16) with k by lia. bits_out. by rewrite !orb_false_r.
  - apply word_field; try lia. intros k Hk. rewrite word_bit. replace (k + 24 - 24) with k by lia. bits_out. by rewrite !orb_false_r.
  - apply List.filter_ext_in. intros i Hin. apply list_elem_of_In, elem_of_seqZ in Hin. rewrite word_bit. bits_out. done.
  - rewrite word_bit. bits_out. done.
Qed.
End Fields.

Lemma aff_range t i : 0 <= aff t i < 2 ^ 8.
Proof. unfold aff, ucast. apply Z.mod_pos_bound. lia. Qed.

Section Targets.
Context `{Platform} {D : Type} `{!Hardware D}.

Lemma filter_one n : 0 <= n < 16 -> List.filter (fun i => Z.testbit (Z.shiftl 1 n) i) (seqZ 0 16) = [n].
Proof.
  intros Hn. assert (Hin : n ∈ seqZ 0 16) by (apply elem_of_seqZ; lia).
  assert (Hall : forallb (fun n => bool_decide (List.filter (fun i => Z.testbit (Z.shiftl 1 n) i) (seqZ 0 16) = [n])) (seqZ 0 16) = true) by done.
  rewrite forallb_forall in Hall. apply list_elem_of_In in Hin. by apply Hall, bool_decide_eq_true in Hin.
Qed.

Lemma sgi_value_word intid target : aff target 0 < 64 ->
  sgi_value intid target = Ret (sgi_word (aff target 3) (aff target 2) (aff target 1) intid (Z.shiftl 1 (aff target 0) mod 2 ^ 64)).
Proof.
  intros Ht. unfold sgi_value. unfold ushl. rewrite (proj2 (Z.ltb_lt _ _)) by lia. done.
Qed.

(** [send_ipi] of GICv3 asks for the interrupt at exactly the
    processor whose affinity the caller names: its cluster is the upper three
    bytes of the target and its number in the cluster the lowest byte, which
    has to be below 16 (a cluster lists 16 processors). *)
Theorem send_ipi_target intid target (s : Ic D) s0 :
  gic_ver s = (s0, 3) -> 0 <= intid < 16 -> aff target 0 < 16 ->
  exists v, gic_send_ipi intid target s = Ret (ic_with s0 (msr ICC_SGI1R_EL1 v (ic_hw s0))) /\
    sgi_decode v = mkSgi (aff target 3, aff target 2, aff target 1) intid [aff target 0] false.
Proof.
  intros Hv Hi Ht. pose proof (aff_range target 0) as H0. unfold gic_send_ipi. rewrite Hv. cbn [Z.eqb Pos.eqb].
  rewrite sgi_value_word, Ret_bind by lia. eexists. split; [done|].
  assert (Hp : 0 <= Z.shiftl 1 (aff target 0) < 2 ^ 16).
  { rewrite Z.shiftl_1_l. split; [lia|]. apply Z.pow_lt_mono_r; lia. }
  rewrite Z.mod_small by lia.
  rewrite word_decode; try apply aff_range; try lia. by rewrite filter_one by lia.
Qed.

(** A processor with the number 16 in its cluster is not reached: the bit of
    its number is the lowest bit of the cluster's field. *)
Theorem send_ipi_target_16 : exists v, sgi_value 1 16 = Ret v /\
  sgi_decode v = mkSgi (0, 0, 1) 1 [] false.
Proof. eexists. split; [by rewrite sgi_value_word by (vm_compute; done)|vm_compute; done]. Qed.

(** Everybody else: bit 40, no list. *)
Lemma send_others_value intid : 0 <= intid < 16 ->
  sgi_others (sgi_decode (Z.lor (Z.shiftl 1 40) (Z.shiftl intid 24))) = true /\
  sgi_intid (sgi_decode (Z.lor (Z.shiftl 1 40) (Z.shiftl intid 24))) = intid.
Proof.
  intros Hi. assert (Hin : intid ∈ seqZ 0 16) by (apply elem_of_seqZ; lia).
  assert (Hall : forallb (fun i => sgi_others (sgi_decode (Z.lor (Z.shiftl 1 40) (Z.shiftl i 24))) &&
    (sgi_intid (sgi_decode (Z.lor (Z.shiftl 1 40) (Z.shiftl i 24))) =? i)) (seqZ 0 16) = true) by (vm_compute; done).
  rewrite forallb_forall in Hall. apply list_elem_of_In in Hin. apply Hall in Hin.
  apply andb_true_iff in Hin as [Ha Hb]. split; [exact Ha|]. by apply Z.eqb_eq.
Qed.
End Targets.

(** ** Enabled lines

    What the manual says of the enable registers: a write of a register of
    the distributor (or, for the first 32 interrupts of GICv3, of the page of
    private interrupts of the redistributor) enables or disables the lines
    whose bits are set and leaves the others; the group and the priority of a
    line are other registers. *)
Section Lines.
Context `{Platform} {D : Type} `{!Hardware D}.

Definition bit_of (n w l : Z) : bool := (l / 32 =? n) && Z.testbit w (l mod 32).

Class GicLaws (gicd gicr : Z) : Type := {
  line : D -> Z -> bool;
  gl_enable : forall d n w l, 0 <= n < 32 -> line (mmio_write 4 (gicd + 0x100 + n * 4) w d) l = line d l || bit_of n w l;
  gl_disable : forall d n w l, 0 <= n < 32 -> line (mmio_write 4 (gicd + 0x180 + n * 4) w d) l = line d l && negb (bit_of n w l);
  gl_enable_r : forall d w l, line (mmio_write 4 (gicr + 0x10000 + 0x100) w d) l = line d l || bit_of 0 w l;
  gl_disable_r : forall d w l, line (mmio_write 4 (gicr + 0x10000 + 0x180) w d) l = line d l && negb (bit_of 0 w l);
  gl_read : forall d a l, line (fst (mmio_read 4 a d)) l = line d l;
  gl_group : forall d w l, line (mmio_write 4 (gicr + 0x10000 + 0x80) w d) l = line d l;
  gl_priority : forall d i w l, 0 <= i < 32 -> line (mmio_write 1 (gicr + 0x10000 + 0x400 + i) w d) l = line d l
}.

(** [gic_bit] of an interrupt is its bit alone. *)
Lemma gic_bit_only intid l : 0 <= intid -> 0 <= l -> bit_of (intid / 32) (gic_bit intid) l = (l =? intid).
Proof.
  intros Hi Hl. unfold bit_of, gic_bit. pose proof (Z.mod_pos_bound intid 32 ltac:(lia)). pose proof (Z.mod_pos_bound l 32 ltac:(lia)).
  rewrite Z.pow2_bits_eqb by lia.
  pose proof (Z.div_mod intid 32 ltac:(lia)). pose proof (Z.div_mod l 32 ltac:(lia)).
  destruct (Z.eqb_spec (l / 32) (intid / 32)), (Z.eqb_spec (intid mod 32) (l mod 32)), (Z.eqb_spec l intid); cbn [andb]; try done; nia.
Qed.

Lemma ver_bases (s s0 : Ic D) v : gic_ver s = (s0, v) ->
  ic_hw s0 = ic_hw s /\ GICD_BASE s0 = GICD_BASE s /\ GICR_BASE s0 = GICR_BASE s.
Proof.
  unfold gic_ver. destruct (negb (GIC_VERSION s =? 0)); [by intros [= <- <-]|].
  destruct (GICD_BASE s) eqn:?, (GICR_BASE s) eqn:?, (GICC_BASE s); by intros [= <- <-].
Qed.

Context (gicd gicr : Z) `{!GicLaws gicd gicr}.
Context (Hd : 0 <= gicd < 2 ^ 64 - 0x10000) (Hr : 0 <= gicr < 2 ^ 64 - 0x20000).

End Lines.

(** ** The timer of the local APIC *)

Section Timer.
Context `{Platform} {D : Type} `{!Hardware D}.

(** [timer_set_ms] writes the low 32 bits of the ticks to the register of
    the initial count. *)
Lemma lapic_set_ms_run ms va (s : Ic D) :
  ic_va s = Ret va -> 0 <= va < 2 ^ 64 - 0x1000 -> 0 < TIMER_FREQ s -> 0 <= ms -> ms * TIMER_FREQ s < 2 ^ 64 ->
  lapic_timer_set_ms ms s = Ret (ic_with s (mmio_write 4 (va + LAPIC_TIMER_ICR) ((ms * TIMER_FREQ s / 1000) mod 2 ^ 32) (ic_hw s))).
Proof.
  intros Hva Hr Hf Hms Ho. unfold lapic_timer_set_ms, lapic_timer_set_per. rewrite (proj2 (Z.ltb_lt _ _)) by done.
  unfold umul. rewrite arith_ok, Ret_bind by nia. cbn [udiv Z.eqb]. unfold udiv. cbn [Z.eqb]. rewrite Ret_bind.
  unfold lapic_timer_set, lapic_write. rewrite Hva, Ret_bind. unfold reg_write, LAPIC_TIMER_ICR. rewrite uadd_ok, !Ret_bind by lia. done.
Qed.

(** A timer of 1 GHz is asked for five seconds and is given 0.705. *)
Lemma lapic_set_ms_short va (s : Ic D) :
  ic_va s = Ret va -> 0 <= va < 2 ^ 64 - 0x1000 -> TIMER_FREQ s = 1000000000 ->
  lapic_timer_set_ms 5000 s = Ret (ic_with s (mmio_write 4 (va + LAPIC_TIMER_ICR) 705032704 (ic_hw s))).
Proof. intros Hva Hr Hf. rewrite (lapic_set_ms_run 5000 va) by (rewrite ?Hf; lia || done). by rewrite Hf. Qed.
End Timer.

(** ** A controller, and a serial port *)

Module IntcDemo.
#[local] Instance arm : Platform :=
  {| platform_build := {| overflow_checks := true |}; target_arch := AArch64; G_CFG := mkRvmCfg Size4kiB 48 48 |}.
Record Gic : Type := mkGic { lines : Z -> bool; sgir : Z }.
Definition gicd : Z := 0x8000000.
Definition gicr : Z := 0x80a0000.
Definition set_lines (n w : Z) (on : bool) (d : Gic) : Gic :=
  mkGic (fun l => if bit_of n w l then on else lines d l) (sgir d).
Definition gic_store (k : nat) (a w : Z) (d : Gic) : Gic :=
  if negb (Nat.eqb k 4) then d
  else if (gicd + 0x100 <=? a) && (a <? gicd + 0x180) then set_lines ((a - gicd - 0x100) / 4) w true d
  else if (gicd + 0x180 <=? a) && (a <? gicd + 0x200) then set_lines ((a - gicd - 0x180) / 4) w false d
  else if a =? gicr + 0x10100 then set_lines 0 w true d
  else if a =? gicr + 0x10180 then set_lines 0 w false d
  else d.
#[local] Instance gic : Hardware Gic := {
  mmio_read _ _ d := (d, 0);
  mmio_write := gic_store;
  io_in _ d := (d, 0);
  io_out _ _ d := d;
  mrs _ d := (d, 0);
  msr r v d := match r with ICC_SGI1R_EL1 => mkGic (lines d) v | _ => d end
}.

Lemma set_lines_on n w d l : lines (set_lines n w true d) l = lines d l || bit_of n w l.
Proof. cbn. destruct (bit_of n w l); [by rewrite orb_true_r|by rewrite orb_false_r]. Qed.
Lemma set_lines_off n w d l : lines (set_lines n w false d) l = lines d l && negb (bit_of n w l).
Proof. cbn. destruct (bit_of n w l); [by rewrite andb_false_r|by rewrite andb_true_r]. Qed.

#[local] Instance gic_laws : GicLaws gicd gicr.
Proof.
  refine {| line := lines |}; cbn [mmio_read mmio_write gic fst]; unfold gic_store; cbn [negb Nat.eqb]; try done.
  - intros d n w l Hn. rewrite (proj2 (andb_true_iff _ _)) by (split; [apply Z.leb_le|apply Z.ltb_lt]; lia).
    rewrite set_lines_on. do 2 f_equal. symmetry. apply Z.div_unique_exact; lia.
  - intros d n w l Hn. rewrite (proj2 (andb_false_iff _ _)) by (right; apply Z.ltb_ge; lia).
    rewrite (proj2 (andb_true_iff _ _)) by (split; [apply Z.leb_le|apply Z.ltb_lt]; lia).
    rewrite set_lines_off. do 3 f_equal. symmetry. apply Z.div_unique_exact; lia.
  - intros d w l. apply set_lines_on.
  - intros d w l. apply set_lines_off.
Defined.

Definition gic_ic : Ic Gic := mkIc (mkGic (fun _ => false) 0) 0 (Some gicd) None (Some gicr) 0 0.


Lemma send_ipi_target_witness : exists v,
  gic_send_ipi 1 0x01020005 gic_ic = Ret (ic_with (ic_set_version gic_ic 3) (mkGic (fun _ => false) v)) /\
  sgi_decode v = mkSgi (1, 2, 0) 1 [5] false.
Proof.
  destruct (send_ipi_target 1 0x01020005 gic_ic (ic_set_version gic_ic 3) eq_refl ltac:(lia) eq_refl) as (v & Hs & Hv).
  exists v. split; [exact Hs|exact Hv].
Defined.
End IntcDemo.
