(* ===== verification/Cpu.v ===== *)
(** * Cpu: the processors and interrupt controllers that ACPI names
    (init_cpu in device/cpu.rs)

    The table of the processors (MADT) is read by a crate; here it is the list
    of its entries, with the fields that the kernel looks at. *)

From S2P Require Import Prelude Kargs Rvm RamUtil Physalloc BlockTable PhysallocSpec PhysallocThms RvmFacts Glacier GlacierSpec GlacierThms.
From S2P Require Import GlacierRange GlacierMaps Hw Intc.

Inductive MadtEntry : Type :=
  | LocalApic
  | LocalApicAddressOverride (local_apic_address : Z)
  | IoApic (io_apic_address : Z)
  | Gicc (mpidr gic_registers_address gicr_base_address : Z)
  | Gicd (physical_base_address : Z)
  | GicRedistributor (discovery_range_base_address discovery_range_length : Z)
  | OtherEntry.
Record Madt : Type := mkMadt { local_apic_address : Z; madt_entries : list MadtEntry }.

(** [Once::call_once] keeps the first value. *)
Definition call_once (o : option Z) (v : Z) : option Z := match o with Some _ => o | None => Some v end.

Section Cpu.
Context `{Platform} {A : Type} `{!FrameAlloc A} {D : Type} `{!Hardware D}.
Abbreviation St := (Machine A).

(** The variables of [init_cpu] and the statics that it sets. *)
Record CpuSt : Type := mkCpuSt {
  cp_mem : St;
  cp_gicd : option Z;
  cp_gicc : option Z;
  cp_gicr : option Z;
  ic_phys : option Z;
  cpu_count : Z
}.

(** [.expect(..)] *)
Definition expect {E} (r : outcome (St * result E unit)) : outcome St :=
  '(st, x) ← r; match x with Ok _ => Ret st | Err _ => Panic end.

Definition map_doorbell (g : Glacier) (phys : Z) (st : St) : outcome St :=
  expect (map_range g phys phys IC_DOORBELL_SIZE (D_RW flags) st).

(** The body of the loop. *)
Definition init_entry (g : Glacier) (phys_id : Z) (e : MadtEntry) (s : CpuSt) : outcome CpuSt :=
  match e with
  | LocalApic =>
      n ← uadd 64 (cpu_count s) 1;
      Ret (mkCpuSt (cp_mem s) (cp_gicd s) (cp_gicc s) (cp_gicr s) (ic_phys s) n)
  | LocalApicAddressOverride a =>
      Ret (mkCpuSt (cp_mem s) (cp_gicd s) (cp_gicc s) (cp_gicr s) (Some a) (cpu_count s))
  | IoApic a =>
      st ← map_doorbell g a (cp_mem s);
      Ret (mkCpuSt st (cp_gicd s) (cp_gicc s) (cp_gicr s) (ic_phys s) (cpu_count s))
  | Gicc mpidr regs gicr =>
      n ← uadd 64 (cpu_count s) 1;
      let phys :=
        if Z.land mpidr 0xffff =? phys_id then Some (if negb (gicr =? 0) then gicr else regs) else ic_phys s in
      Ret (mkCpuSt (cp_mem s) (cp_gicd s) (call_once (cp_gicc s) regs) (cp_gicr s) phys n)
  | Gicd base =>
      st ← map_doorbell g base (cp_mem s);
      Ret (mkCpuSt st (call_once (cp_gicd s) base) (cp_gicc s) (cp_gicr s) (ic_phys s) (cpu_count s))
  | GicRedistributor base len =>
      st ← expect (map_range g base base len (D_RW flags) (cp_mem s));
      Ret (mkCpuSt st (cp_gicd s) (cp_gicc s) (call_once (cp_gicr s) base) (ic_phys s) (cpu_count s))
  | OtherEntry => Ret s
  end.

Fixpoint init_entries (g : Glacier) (phys_id : Z) (es : list MadtEntry) (s : CpuSt) : outcome CpuSt :=
  match es with
  | [] => Ret s
  | e :: es => s ← init_entry g phys_id e s; init_entries g phys_id es s
  end.

(** [init_cpu] with the table that ACPI found; the machine, the statics of the
    interrupt controller and [CPU_COUNT].  [n] bounds the waits of
    [intc::init]. *)
Definition init_cpu (n : nat) (g : Glacier) (phys_id : Z) (madt : option Madt) (st : St) (ic : Ic D) (count : Z)
    : outcome (St * Ic D * Z) :=
  match madt with
  | None => Ret (st, ic, count)
  | Some madt =>
      let phys0 := match target_arch with X86_64 => Some (local_apic_address madt) | AArch64 => None end in
      s ← init_entries g phys_id (madt_entries madt)
            (mkCpuSt st (GICD_BASE ic) (GICC_BASE ic) (GICR_BASE ic) phys0 0);
      let ic := mkIc (ic_hw ic) (GIC_VERSION ic) (cp_gicd s) (cp_gicc s) (cp_gicr s) (TIMER_FREQ ic) (ic_virtid ic) in
      match ic_phys s with
      | None => Ret (cp_mem s, ic, cpu_count s)
      | Some phys =>
          va ← ic_va ic;
          st ← expect (map_range g va phys IC_SIZE (D_RW flags) (cp_mem s));
          ic ← intc_init n ic;
          Ret (st, ic, cpu_count s)
      end
  end.
End Cpu.

(** ** What a table says

    The processors, the first addresses, the controller of the processor that
    runs (the last entry wins), and the ranges to map, in order. *)
Section Summary.
Context `{Platform}.

Definition is_cpu (e : MadtEntry) : bool := match e with LocalApic | Gicc _ _ _ => true | _ => false end.
Definition gicd_of (e : MadtEntry) : option Z := match e with Gicd b => Some b | _ => None end.
Definition gicc_of (e : MadtEntry) : option Z := match e with Gicc _ r _ => Some r | _ => None end.
Definition gicr_of (e : MadtEntry) : option Z := match e with GicRedistributor b _ => Some b | _ => None end.
Definition own_of (phys_id : Z) (e : MadtEntry) : option Z :=
  match e with
  | LocalApicAddressOverride a => Some a
  | Gicc mpidr regs gicr => if Z.land mpidr 0xffff =? phys_id then Some (if gicr =? 0 then regs else gicr) else None
  | _ => None
  end.
Definition req_of (e : MadtEntry) : option MapReq :=
  match e with
  | IoApic a | Gicd a => Some (mkMapReq a a IC_DOORBELL_SIZE (D_RW flags))
  | GicRedistributor b len => Some (mkMapReq b b len (D_RW flags))
  | _ => None
  end.
Definition count_cpus (es : list MadtEntry) : Z := Z.of_nat (length (List.filter is_cpu es)).
Definition first_of (o : option Z) (l : list Z) : option Z := match o with Some _ => o | None => head l end.
Definition last_of (o : option Z) (l : list Z) : option Z := match last l with Some v => Some v | None => o end.
Definition reqs_of (es : list MadtEntry) : list MapReq := omap req_of es.

Context {A : Type} `{!FrameAlloc A}.

Lemma first_of_app o l1 l2 : first_of (first_of o l1) l2 = first_of o (l1 ++ l2).
Proof. by destruct o, l1. Qed.
Lemma last_of_app o l1 l2 : last_of (last_of o l1) l2 = last_of o (l1 ++ l2).
Proof. unfold last_of. rewrite last_app. by destruct (last l2), (last l1). Qed.
Lemma omap_cons {X Y} (f : X -> option Y) x l : omap f (x :: l) = option_list (f x) ++ omap f l.
Proof. cbn. by destruct (f x). Qed.

Lemma expect_one g r (st : Machine A) :
  expect (map_reqs g [r] st) = expect (map_range g (mq_va r) (mq_pa r) (mq_size r) (mq_fl r) st).
Proof. unfold expect. cbn [map_reqs]. by destruct (map_range _ _ _ _ _ _) as [[? []]| |]. Qed.

Lemma expect_app g l1 l2 (st : Machine A) :
  expect (map_reqs g (l1 ++ l2) st) = st ← expect (map_reqs g l1 st); expect (map_reqs g l2 st).
Proof.
  revert st. induction l1 as [|r l1 IH]; intros st; cbn [map_reqs app].
  - cbn. done.
  - unfold expect in *. destruct (map_range _ _ _ _ _ _) as [[st' [u|e]]| |]; rewrite ?Ret_bind; [apply IH|done..].
Qed.

(** One entry. *)
Lemma init_entry_is g phys_id e (s : CpuSt (A := A)) :
  0 <= cpu_count s -> cpu_count s + 1 < 2 ^ 64 ->
  init_entry g phys_id e s =
    st ← expect (map_reqs g (option_list (req_of e)) (cp_mem s));
    Ret (mkCpuSt st (first_of (cp_gicd s) (option_list (gicd_of e))) (first_of (cp_gicc s) (option_list (gicc_of e)))
      (first_of (cp_gicr s) (option_list (gicr_of e))) (last_of (ic_phys s) (option_list (own_of phys_id e))) (cpu_count s + count_cpus [e])).
Proof.
  intros Hc Hb. destruct s as [st gd gc gr ph n], e; cbn [cp_mem cp_gicd cp_gicc cp_gicr ic_phys cpu_count] in *;
    cbn [req_of gicd_of gicc_of gicr_of own_of option_list init_entry cp_mem cp_gicd cp_gicc cp_gicr ic_phys cpu_count];
    change (option_list (Some ?x)) with [x]; rewrite ?expect_one; unfold count_cpus; cbn [List.filter is_cpu length];
    rewrite ?uadd_ok, ?Ret_bind, ?Z.add_0_r by lia; unfold map_doorbell; cbn [mq_va mq_pa mq_size mq_fl]; try (by destruct gd, gc, gr).
  - f_equal. destruct (Z.land mpidr 0xffff =? phys_id), (gicr_base_address =? 0); by destruct gd, gc, gr.
Qed.

(** The loop is the summary and [map_reqs], which panics when it fails. *)
Lemma init_entries_is g phys_id es (s : CpuSt (A := A)) :
  0 <= cpu_count s -> cpu_count s + Z.of_nat (length es) < 2 ^ 64 ->
  init_entries g phys_id es s =
    st ← expect (map_reqs g (reqs_of es) (cp_mem s));
    Ret (mkCpuSt st (first_of (cp_gicd s) (omap gicd_of es)) (first_of (cp_gicc s) (omap gicc_of es))
      (first_of (cp_gicr s) (omap gicr_of es)) (last_of (ic_phys s) (omap (own_of phys_id) es)) (cpu_count s + count_cpus es)).
Proof.
  revert s. induction es as [|e es IH]; intros s Hc Hb.
  - destruct s as [st gd gc gr ph n]. cbn. unfold count_cpus. cbn. rewrite Z.add_0_r. by destruct gd, gc, gr.
  - cbn [init_entries]. cbn [length] in Hb. rewrite init_entry_is by lia.
    unfold reqs_of. rewrite !omap_cons, expect_app.
    destruct (expect (map_reqs g (option_list (req_of e)) (cp_mem s))) as [st| |]; rewrite ?Ret_bind; [|done..].
    assert (Hn : 0 <= count_cpus [e] <= 1) by (unfold count_cpus; cbn; destruct (is_cpu e); cbn; lia).
    rewrite IH; cbn [cp_mem cp_gicd cp_gicc cp_gicr ic_phys cpu_count]; [|lia..].
    fold (reqs_of es). destruct (expect (map_reqs g (reqs_of es) st)) as [st2| |]; rewrite ?Ret_bind; [|done..].
    rewrite !first_of_app, last_of_app. do 2 f_equal.
    unfold count_cpus. cbn [List.filter]. destruct (is_cpu e); cbn [length]; lia.
Qed.
End Summary.

(** * What the kernel makes of the table of the processors *)

Section CpuThms.
Context `{Platform} {A : Type} `{!FrameAlloc A} `{!FrameLaws A} {D : Type} `{!Hardware D}.
Context (lim : Z) (Hcfg : cfg_ok G_CFG) (Hlim : 0 < lim <= 2 ^ bits G_CFG 0).

(** The statics after the table, and the controller of this processor. *)
Definition ic_of (es : list MadtEntry) (ic : Ic D) : Ic D :=
  mkIc (ic_hw ic) (GIC_VERSION ic) (first_of (GICD_BASE ic) (omap gicd_of es)) (first_of (GICC_BASE ic) (omap gicc_of es))
    (first_of (GICR_BASE ic) (omap gicr_of es)) (TIMER_FREQ ic) (ic_virtid ic).
Definition ic_phys_of (phys_id : Z) (m : Madt) : option Z :=
  last_of (match target_arch with X86_64 => Some (local_apic_address m) | AArch64 => None end)
    (omap (own_of phys_id) (madt_entries m)).
(** The ranges that are mapped, the own controller at [va] last. *)
Definition cpu_reqs (phys_id va : Z) (m : Madt) : list MapReq :=
  reqs_of (madt_entries m) ++
  match ic_phys_of phys_id m with Some p => [mkMapReq va p IC_SIZE (D_RW flags)] | None => [] end.


(** A table whose processors name their redistributors themselves, without a
    range of redistributors, which ACPI allows: the controller is taken for a
    GICv2, while what is mapped at [ic_va] is the redistributor. *)
Lemma gicr_of_the_processor phys_id mpidr regs gicr gicd (ic : Ic D) :
  target_arch = AArch64 -> Z.land mpidr 0xffff = phys_id -> gicr <> 0 ->
  GIC_VERSION ic = 0 -> GICD_BASE ic = None -> GICC_BASE ic = None -> GICR_BASE ic = None ->
  let es := [Gicc mpidr regs gicr; Gicd gicd] in
  ic_phys_of phys_id (mkMadt 0 es) = Some gicr /\ (gic_ver (ic_of es ic)).2 = 2.
Proof.
  intros Ha Hm Hr Hv H1 H2 H3 es. unfold ic_phys_of, gic_ver, ic_of, es.
  cbn [madt_entries omap list_omap own_of gicd_of gicc_of gicr_of GIC_VERSION GICD_BASE GICC_BASE GICR_BASE].
  rewrite (proj2 (Z.eqb_eq _ _) Hm), (proj2 (Z.eqb_neq _ _) Hr), Ha, Hv, H1, H2, H3. done.
Qed.
End CpuThms.

(** ** A machine with two processors *)

Module CpuDemo.
Import Bump.
Definition pc : Madt :=
  mkMadt 0xfee00000 [LocalApic; LocalApic; IoApic 0xfec00000; LocalApicAddressOverride 0xfee00000; OtherEntry].
(** Registers that nobody looks at. *)
#[local] Instance no_hw : Hardware unit := {
  mmio_read := fun _ _ d => (d, 0); mmio_write := fun _ _ _ d => d; io_in := fun _ d => (d, 0x20); io_out := fun _ _ d => d;
  mrs := fun _ d => (d, 0); msr := fun _ _ d => d
}.
Definition ic0 : Ic unit := mkIc tt 0 None None None 0 0.
Definition va0 : Z := 0xfffffffffff80000.
Definition reqs : list MapReq := cpu_reqs 0 va0 pc.
Definition run_ok (r : outcome (Machine Z * result GlacierErr unit)) : bool := match r with Ret (_, Ok _) => true | _ => false end.
Lemma demo_ok : run_ok (map_reqs g reqs (machine 0x2000)) = true.
Proof. vm_compute. reflexivity. Qed.
Lemma demo_apart : no_shared reqs.
Proof. apply no_shared_vpns. apply (bool_decide_unpack _). vm_compute. exact I. Qed.
Lemma demo_reqs : Forall (req_ok all) reqs.
Proof. repeat apply Forall_cons_2; [apply req_okb_ok; vm_compute; reflexivity..|apply Forall_nil_2]. Qed.
Lemma is_ok_run (r : outcome (Machine Z * result GlacierErr unit)) st x : run_ok r = true -> r = Ret (st, x) -> exists u, x = Ok u.
Proof. destruct r as [[? [u|]]| |]; intros ? [= <- <-]; try done. by exists u. Qed.

End CpuDemo.
