(* ===== verification/Device.v ===== *)
(** * Device: finding the devices and starting them (device/mod.rs)

    The tables of ACPI and the device tree are read by crates, which are an
    interface here ([Firmware]); the enumeration, the drivers' registration
    and the order in which everything is started are the kernel's. *)

From S2P Require Import Prelude Printk Kargs Rvm RamUtil Physalloc Glacier GlacierMaps Bytes Flint Block Pci Vga.
From S2P Require Import Nvme Hw Intc Cpu.
From Stdlib Require Import Ascii.
From stdpp Require Import pretty.
#[local] Open Scope Z_scope.

(** An entry of the MCFG table; a node of the device tree, its properties. *)
Record McfgEntry : Type := mkMcfg { base_address : Z; bus_number_start : Z; bus_number_end : Z }.
Record FdtNode : Type := mkNode { properties : list (string * list Z) }.

(** [T] are the tables, [F] the tree.  Reading a table maps memory of the
    state [W]; the mapping of a table that was found is dropped by its user. *)
Class Firmware (W T F : Type) : Type := {
  from_rsdp : Z -> W -> W * option T;
  find_mcfg : T -> W -> W * option (list McfgEntry);
  drop_mcfg : T -> W -> W;
  find_madt : T -> W -> W * option Madt;
  drop_madt : T -> W -> W;
  fdt_from_ptr : Z -> W -> option F;
  all_nodes : F -> list FdtNode
}.

(** [node.properties().find(|p| p.name == name)] *)
Definition find_prop (name : string) (n : FdtNode) : option (list Z) :=
  snd <$> List.find (fun p => String.eqb (fst p) name) (properties n).

(** [compat_str.contains(s)]; replacing what is not UTF-8 keeps the ASCII
    characters and adds none. *)
Fixpoint is_prefix (s l : list Z) : bool :=
  match s, l with [], _ => true | x :: s, y :: l => (x =? y) && is_prefix s l | _, [] => false end.
Fixpoint contains (s l : list Z) : bool :=
  is_prefix s l || match l with [] => false | _ :: l => contains s l end.
Definition b_pci : list Z := [0x70; 0x63; 0x69].
Definition b_pcie : list Z := [0x70; 0x63; 0x69; 0x65].

(** [u64::from_be_bytes] *)
Definition from_be (l : list Z) : Z := foldl (fun acc b => acc * 256 + b) 0 l.

(** ** Enumeration *)

Section Scan.
Context `{Platform} {St : Type} `{Mapper St}.

(** [.flat_map(..).collect()] *)
Fixpoint flat_scan {X} (f : X -> St -> regs -> outcome (St * regs * list PciDevice)) (l : list X) (s : St) (m : regs)
    : outcome (St * regs * list PciDevice) :=
  match l with
  | [] => Ret (s, m, [])
  | x :: l =>
      '(s, m, ds) ← f x s m;
      '(s, m, ds') ← flat_scan f l s m;
      Ret (s, m, ds ++ ds')
  end.

Definition scan_mcfg (e : McfgEntry) (s : St) (m : regs) : outcome (St * regs * list PciDevice) :=
  scan_pcie_devices s m (base_address e) (bus_number_start e) (bus_number_end e).

Definition scan_node (n : FdtNode) (s : St) (m : regs) : outcome (St * regs * list PciDevice) :=
  match find_prop "compatible" n with
  | None => Ret (s, m, [])
  | Some compatible =>
      if contains b_pcie compatible || contains b_pci compatible then
        match find_prop "reg" n with
        | None => Ret (s, m, [])
        | Some reg_data =>
            if (length reg_data <? 8)%nat then Ret (s, m, [])
            else
              let ecam_base := from_be (take 8 reg_data) in
              '(start_bus, end_bus) ←
                match find_prop "bus-range" n with
                | Some v => a ← unwrap (v !! 3%nat); b ← unwrap (v !! 7%nat); Ret (a, b)
                | None => Ret (0, 255)
                end;
              scan_pcie_devices s m ecam_base start_bus end_bus
        end
      else Ret (s, m, [])
  end.

Context {T F : Type} `{!Firmware St T F}.

(** [scan_pci]: [pci] is [PCI_DEVICES]. *)
Definition scan_pci (acpi : option T) (dtb : option F) (pci : list PciDevice) (s : St) (m : regs)
    : outcome (St * regs * list PciDevice) :=
  '(s, m, pci) ←
    match acpi with
    | None => Ret (s, m, pci)
    | Some t =>
        let '(s, mcfg) := find_mcfg t s in
        match mcfg with
        | Some entries => '(s, m, pci) ← flat_scan scan_mcfg entries s m; Ret (drop_mcfg t s, m, pci)
        | None => Panic
        end
    end;
  match dtb with
  | None => Ret (s, m, pci)
  | Some f => flat_scan scan_node (all_nodes f) s m
  end.
End Scan.

(** ** The start of the devices *)

Section Start.
Context `{Platform} {A : Type} `{!FrameAlloc A} {N : Type} `{!Hardware N}.
(** Page tables, memory, and the hardware. *)
Definition World : Type := ((Glacier * Machine A) * N)%type.
#[local] Instance World_Mapper : Mapper World := {|
  mp_map := fun s va pa size fl => '(k, r) ← mp_map s.1 va pa size fl; Ret ((k, s.2), r)
|}.
Context {T F Nv Xc Ud : Type} `{!Firmware World T F} `{!NvmeDriver World Nv} `{!UsbDriver World Xc Ud}.
Abbreviation Dev := (Devices World Nv Xc Ud).

(** What [printk!] sends. *)
Definition say (l : string) (s : Dev) : Dev :=
  mkDevices (dv_hw s) (dv_regs s) (NVME_DEV s) (BLOCK_DEVICES s) (XHCI_CTRLS s) (USB_DEVICES s) (dv_said s ++ [l]).

Definition dev_line (m : regs) (d : PciDevice) : string :=
  ("/bus" +:+ pretty (pci_bus d) +:+ "/dev" +:+ pretty (pci_device d) +:+ "/fn" +:+ pretty (pci_function d) +:+ " | " +:+
   hex 4 (vendor_id m d) +:+ ":" +:+ hex 4 (device_id m d) +:+ " Class " +:+ hex 2 (class m d) +:+ "." +:+
   hex 2 (subclass m d) +:+ " IF " +:+ hex 2 (prog_if m d))%string.

(** The body of the loop of [init_device]. *)
Definition start_dev (dev : PciDevice) (s : Dev) : outcome Dev :=
  let s := say (dev_line (dv_regs s) dev) s in
  s ← (if is_nvme (dv_regs s) dev then nvme_add dev (say " --> NVMe Controller" s) else Ret s);
  s ← (if is_usb (dv_regs s) dev then '(s, _) ← usb_add dev (say " --> USB Controller" s); Ret s else Ret s);
  let s := if is_display (dv_regs s) dev then say " --> Display Controller" s else s in
  let s := if is_bridge (dv_regs s) dev then say " (PCI Bridge)" s else s in
  Ret (say newline s).

Fixpoint start_devs (devs : list PciDevice) (s : Dev) : outcome Dev :=
  match devs with
  | [] => Ret s
  | dev :: devs => s ← start_dev dev s; start_devs devs s
  end.

(** The statics. *)
Record DevSt : Type := mkDevSt {
  ds_dev : Dev;
  PCI_DEVICES : list PciDevice;
  ACPI : option T;
  DEVICETREE : option F;
  ds_ic : Ic N;
  CPU_COUNT : Z;
  ds_px : pixels;
  VGA_DEVICE : option Vga
}.
Definition with_hw (s : Dev) (w : World) (m : regs) : Dev :=
  mkDevices w m (NVME_DEV s) (BLOCK_DEVICES s) (XHCI_CTRLS s) (USB_DEVICES s) (dv_said s).

Definition init_acpi (acpi_ptr : Z) (s : DevSt) : DevSt :=
  let '(w, t) := from_rsdp acpi_ptr (dv_hw (ds_dev s)) in
  mkDevSt (with_hw (ds_dev s) w (dv_regs (ds_dev s))) (PCI_DEVICES s) t (DEVICETREE s) (ds_ic s) (CPU_COUNT s) (ds_px s) (VGA_DEVICE s).
Definition init_device_tree (dtb_ptr : Z) (s : DevSt) : DevSt :=
  mkDevSt (ds_dev s) (PCI_DEVICES s) (ACPI s) (fdt_from_ptr dtb_ptr (dv_hw (ds_dev s))) (ds_ic s) (CPU_COUNT s) (ds_px s) (VGA_DEVICE s).

(** [cpu::init_cpu] with the table that ACPI finds. *)
Definition start_cpu (n : nat) (phys_id : Z) (s : DevSt) : outcome DevSt :=
  let d := ds_dev s in
  let '(w, madt) := match ACPI s with Some t => find_madt t (dv_hw d) | None => (dv_hw d, None) end in
  let ic := ds_ic s in
  let ic := mkIc w.2 (GIC_VERSION ic) (GICD_BASE ic) (GICC_BASE ic) (GICR_BASE ic) (TIMER_FREQ ic) (ic_virtid ic) in
  '(st, ic, count) ← init_cpu n w.1.1 phys_id madt w.1.2 ic (CPU_COUNT s);
  let w := ((w.1.1, st), ic_hw ic) in
  let w := match ACPI s, madt with Some t, Some _ => drop_madt t w | _, _ => w end in
  Ret (mkDevSt (with_hw d w (dv_regs d)) (PCI_DEVICES s) (ACPI s) (DEVICETREE s) (ic_with ic w.2) count (ds_px s) (VGA_DEVICE s)).

(** [init_device]; [edid_at] is what the displays say of themselves. *)
Definition init_device (n : nat) (phys_id acpi_ptr dtb_ptr : Z) (edid_at : Z -> list Z) (s : DevSt) : outcome DevSt :=
  let s := init_device_tree dtb_ptr (init_acpi acpi_ptr s) in
  '(w, m, pci) ← scan_pci (ACPI s) (DEVICETREE s) (PCI_DEVICES s) (dv_hw (ds_dev s)) (dv_regs (ds_dev s));
  d ← start_devs pci (with_hw (ds_dev s) w m);
  s ← start_cpu n phys_id (mkDevSt d pci (ACPI s) (DEVICETREE s) (ds_ic s) (CPU_COUNT s) (ds_px s) (VGA_DEVICE s));
  let d := ds_dev s in
  '(w, px, vga) ← init_vga (dv_hw d) (dv_regs d) edid_at pci (ds_px s) (VGA_DEVICE s);
  Ret (mkDevSt (with_hw d w (dv_regs d)) pci (ACPI s) (DEVICETREE s) (ds_ic s) (CPU_COUNT s) px vga).
End Start.

(** * Which block devices there are after the start *)

Section DeviceThms.
Context `{Platform} {A : Type} `{!FrameAlloc A} {N : Type} `{!Hardware N}.
Context {Nv Xc Ud : Type} `{!NvmeDriver (World (A := A) (N := N)) Nv} `{!UsbDriver (World (A := A) (N := N)) Xc Ud}.
Abbreviation Dev := (Devices (World (A := A) (N := N)) Nv Xc Ud).

(** Registers that agree but for the command word of the devices. *)
Definition same_regs (devs : list PciDevice) (m m' : regs) : Prop :=
  forall d i, d ∈ devs -> 0 <= i < 16 -> i <> 1 -> blob m' d i = blob m d i.
(** Configuration spaces start at pages. *)
Definition paged (devs : list PciDevice) : Prop := forall d, d ∈ devs -> (4096 | pci_ptr d).
(** A controller has the registers of an endpoint, two BARs at least. *)
Definition endpoints (m : regs) (devs : list PciDevice) : Prop :=
  forall d, d ∈ devs -> is_nvme m d || is_usb m d = true -> is_type0 m d = true.

Lemma same_regs_trans devs m1 m2 m3 : same_regs devs m1 m2 -> same_regs devs m2 m3 -> same_regs devs m1 m3.
Proof. intros H1 H2 d i Hd Hi Hn. rewrite (H2 d i Hd Hi Hn). by apply H1. Qed.

Lemma enable_same devs m d : paged devs -> d ∈ devs -> same_regs devs m (enable_pci_device m d).
Proof.
  intros Hp Hd d' i Hd' Hi Hn. unfold enable_pci_device, set_command, set_blob, blob.
  destruct (Z.eqb_spec (pci_ptr d' + 4 * i) (pci_ptr d + 4 * 1)); [|done].
  exfalso. destruct (Hp d Hd) as [x Hx], (Hp d' Hd') as [y Hy]. lia.
Qed.

Section Same.
Context (devs : list PciDevice) (m m' : regs) (d : PciDevice) (Hs : same_regs devs m m') (Hd : d ∈ devs).
Lemma same_field w i sh : 0 <= i < 16 -> i <> 1 -> fieldw w m' d i sh = fieldw w m d i sh.
Proof. intros. unfold fieldw. by rewrite (Hs d i). Qed.
Lemma same_nvme : is_nvme m' d = is_nvme m d.
Proof. unfold is_nvme, class, subclass. by rewrite !same_field by lia. Qed.
Lemma same_usb : is_usb m' d = is_usb m d.
Proof. unfold is_usb, class, subclass. by rewrite !same_field by lia. Qed.
Lemma same_type0 : is_type0 m' d = is_type0 m d.
Proof. unfold is_type0, header_type. by rewrite !same_field by lia. Qed.
End Same.

Lemma same_endpoints devs devs' m m' : devs' ⊆ devs -> same_regs devs m m' -> endpoints m devs' -> endpoints m' devs'.
Proof.
  intros Hsub Hs He d Hd. rewrite (same_nvme devs m), (same_usb devs m), (same_type0 devs m) by auto. by apply He.
Qed.

(** The BAR of an endpoint can be read. *)
Lemma mmio_runs m d : is_type0 m d = true -> exists a, mmio_addr m d = Ret a.
Proof.
  unfold is_type0. intros Ht.
  assert (Hbar : forall k, 0 <= k < 6 -> bar m d k = Ret (Some (blob m d (4 + k)))).
  { intros k Hk. unfold bar. rewrite Ht. by rewrite !(proj2 (Z.ltb_lt _ _)) by lia. }
  unfold mmio_addr. rewrite !Hbar, !Ret_bind by lia. cbn [unwrap]. rewrite !Ret_bind. destruct (_ =? 4); eauto.
Qed.

(** The namespaces that a controller adds. *)
Definition blocks_of (id : Z) (nv : option Nv) : list (Z * Z) :=
  match nv with Some nv => (fun ns => (id, ns)) <$> ns_list nv | None => [] end.
Definition set_nvme (id : Z) (nv : option Nv) (m : gmap Z Nv) : gmap Z Nv :=
  match nv with Some nv => <[id := nv]> m | None => m end.

(** What starting one device does to the lists. *)
Record started (devs : list PciDevice) (d : PciDevice) (nv : option Nv) (s s' : Dev) : Prop := {
  sd_regs : same_regs devs (dv_regs s) (dv_regs s');
  sd_nvme : NVME_DEV s' = set_nvme (pd_id d) nv (NVME_DEV s);
  sd_block : BLOCK_DEVICES s' = BLOCK_DEVICES s ++ blocks_of (pd_id d) nv
}.

Lemma started_refl devs d s m w c u l : same_regs devs (dv_regs s) m -> started devs d None s (mkDevices w m (NVME_DEV s) (BLOCK_DEVICES s) c u l).
Proof. intros Hm. constructor; [done|done|]. cbn. by rewrite app_nil_r. Qed.

Lemma started_then devs d nv s1 s2 s3 : started devs d nv s1 s2 -> started devs d None s2 s3 -> started devs d nv s1 s3.
Proof.
  intros [H1 H2 H3] [H4 H5 H6]. cbn in H5, H6. rewrite app_nil_r in H6. constructor; [by eapply same_regs_trans|by rewrite H5|by rewrite H6].
Qed.
Lemma started_after devs d nv s1 s2 s3 : started devs d None s1 s2 -> started devs d nv s2 s3 -> started devs d nv s1 s3.
Proof.
  intros [H1 H2 H3] [H4 H5 H6]. cbn in H2, H3. rewrite app_nil_r in H3.
  constructor; [by eapply same_regs_trans|by rewrite H5, H2|by rewrite H6, H3].
Qed.

Lemma say_started devs d l s : started devs d None s (say l s).
Proof. apply started_refl. by intros ????. Qed.

Lemma nvme_started devs d s :
  paged devs -> d ∈ devs -> is_type0 (dv_regs s) d = true ->
  exists s' nv, nvme_add d s = Ret s' /\ started devs d nv s s'.
Proof.
  intros Hp Hd Ht. unfold nvme_add. destruct (is_nvme (dv_regs s) d); cbn [negb].
  2:{ exists s, None. split; [done|]. destruct s. by apply started_refl. }
  pose proof (enable_same devs (dv_regs s) d Hp Hd) as He.
  destruct (mmio_runs (enable_pci_device (dv_regs s) d) d) as [a ->]; [by rewrite (same_type0 devs (dv_regs s))|]. rewrite Ret_bind.
  destruct (NVMeDev_new a (dv_hw s)) as [w [nv|]]; eexists _, _; (split; [done|]); [|by apply started_refl].
  by apply (Build_started _ _ (Some nv)).
Qed.

Lemma usb_started devs d s :
  paged devs -> d ∈ devs -> is_type0 (dv_regs s) d = true ->
  exists s' r, usb_add d s = Ret (s', r) /\ started devs d None s s'.
Proof.
  intros Hp Hd Ht. unfold usb_add. assert (Hid : started devs d None s s) by (destruct s; by apply started_refl).
  destruct (is_usb (dv_regs s) d); cbn [negb]; [|by eexists _, _].
  destruct (prog_if (dv_regs s) d =? 0x30); cbn [negb]; [|by eexists _, _].
  pose proof (enable_same devs (dv_regs s) d Hp Hd) as He.
  destruct (mmio_runs (enable_pci_device (dv_regs s) d) d) as [a ->]; [by rewrite (same_type0 devs (dv_regs s))|]. rewrite Ret_bind.
  destruct (XhciCtrl_new a (dv_hw s)) as [w [ctrl|e]]; [|eexists _, _; split; [done|by apply started_refl]].
  destruct (usb_ports _ _ _ _ _) as [[w' us] said]. eexists _, _. split; [done|by apply started_refl].
Qed.

Lemma start_dev_run devs d s :
  paged devs -> d ∈ devs -> endpoints (dv_regs s) [d] ->
  exists s' nv, start_dev d s = Ret s' /\ started devs d nv s s'.
Proof.
  intros Hp Hd He. unfold start_dev. set (s0 := say _ s). change (dv_regs s0) with (dv_regs s).
  assert (Ht : is_nvme (dv_regs s) d || is_usb (dv_regs s) d = true -> is_type0 (dv_regs s) d = true) by (intros; apply He; [by left|done]).
  assert (H0 : started devs d None s s0) by apply say_started.
  assert (H1 : exists s1 nv, (if is_nvme (dv_regs s) d then nvme_add d (say " --> NVMe Controller" s0) else Ret s0) = Ret s1 /\ started devs d nv s s1).
  { destruct (is_nvme (dv_regs s) d) eqn:En; [|by eexists _, _].
    destruct (nvme_started devs d (say " --> NVMe Controller" s0) Hp Hd) as (s1 & nv & -> & Hn); [by apply Ht|].
    exists s1, nv. split; [done|]. eapply started_after; [exact H0|]. eapply started_after; [apply say_started|done]. }
  destruct H1 as (s1 & nv & -> & H1). rewrite Ret_bind.
  assert (Hu : is_usb (dv_regs s1) d = is_usb (dv_regs s) d) by (apply (same_usb devs); [apply H1|done]).
  assert (H2 : exists s2, (if is_usb (dv_regs s1) d then '(s, _) ← usb_add d (say " --> USB Controller" s1); Ret s else Ret s1) = Ret s2 /\ started devs d nv s s2).
  { rewrite Hu. destruct (is_usb (dv_regs s) d) eqn:Eu; [|by eexists].
    destruct (usb_started devs d (say " --> USB Controller" s1) Hp Hd) as (s2 & r & -> & Hs).
    - cbn [dv_regs say]. rewrite (same_type0 devs (dv_regs s)) by (done || apply H1). apply Ht. by rewrite orb_true_r.
    - exists s2. split; [done|]. eapply started_then; [exact H1|]. eapply started_after; [apply say_started|done]. }
  destruct H2 as (s2 & -> & H2). rewrite Ret_bind. eexists _, nv. split; [done|].
  eapply started_then; [|apply say_started].
  destruct (is_display (dv_regs s2) d), (is_bridge _ d); repeat (eapply started_then; [|apply say_started]); done.
Qed.

End DeviceThms.

(** ** The device tree replaces what ACPI found *)

Section Scan.
Context `{Platform} {St : Type} `{Mapper St} {T F : Type} `{!Firmware St T F}.

Lemma no_nodes l (s : St) m : (forall n, n ∈ l -> find_prop "compatible" n = None) -> flat_scan scan_node l s m = Ret (s, m, []).
Proof.
  induction l as [|n l IH]; intros Hf; [done|]. cbn [flat_scan].
  assert (Hn : scan_node n s m = Ret (s, m, [])) by (unfold scan_node; by rewrite Hf by (by left)).
  rewrite Hn, Ret_bind, IH; [by rewrite Ret_bind|].
  intros n' Hn'. apply Hf. by right.
Qed.

(** A device tree without a node for PCI empties the list. *)
Lemma dtb_replaces_acpi (t : T) (f : F) entries pci s s1 m r :
  find_mcfg t s = (s1, Some entries) -> flat_scan scan_mcfg entries s1 m = Ret r ->
  (forall n, n ∈ all_nodes f -> find_prop "compatible" n = None) ->
  scan_pci (Some t) (Some f) pci s m = Ret (drop_mcfg t r.1.1, r.1.2, []).
Proof.
  intros Hm Hs Hf. unfold scan_pci. rewrite Hm, Hs, Ret_bind. destruct r as [[s2 m2] ds]. by apply no_nodes.
Qed.
End Scan.

(** ** An NVMe controller with two namespaces, a bridge, and an xHCI *)

Module DeviceDemo.
Import GlacierMaps.Bump.
Abbreviation W := (World (A := Z) (N := unit)).
#[local] Instance no_hw : Hardware unit := {
  mmio_read := fun _ _ d => (d, 0); mmio_write := fun _ _ _ d => d; io_in := fun _ d => (d, 0x20); io_out := fun _ _ d => d;
  mrs := fun _ d => (d, 0); msr := fun _ _ d => d
}.
#[local] Instance nvme : NvmeDriver W (list Z) := {| NVMeDev_new := fun a w => (w, if a =? 0x1febf0000 then Some [1; 2] else None); ns_list := fun l => l |}.
#[local] Instance usb : UsbDriver W unit Z := {|
  XhciCtrl_new := fun _ w => (w, Ok tt); max_ports := fun _ => 3; port_connected := fun _ p _ => p =? 1;
  UsbDevice_new := fun _ p w => (w, Ok p)
|}.
Definition dev_nvme : PciDevice := mkPciDevice 0x10 0xb0010000.
Definition dev_bridge : PciDevice := mkPciDevice 0x20 0xb0020000.
Definition dev_xhci : PciDevice := mkPciDevice 0x28 0xb0028000.
Definition devs : list PciDevice := [dev_nvme; dev_bridge; dev_xhci].
Definition words : list (Z * Z) :=
  [(0xb0010008, 0x01080200); (0xb0010010, 0xfebf0004); (0xb0010014, 1);
   (0xb0020008, 0x06040000); (0xb002000c, 0x00010000);
   (0xb0028008, 0x0c033000); (0xb0028010, 0xfebe0000)].
Definition m0 : regs := fun a => match List.find (fun p => fst p =? a) words with Some p => snd p | None => 0 end.
Definition s0 : Devices W (list Z) unit Z := mkDevices ((g, machine 0x2000), tt) m0 ∅ [] [] [] [].

Lemma demo_endpoints : endpoints m0 devs.
Proof.
  intros d Hd. assert (Hall : forallb (fun d => negb (is_nvme m0 d || is_usb m0 d) || is_type0 m0 d) devs = true) by (vm_compute; reflexivity).
  rewrite forallb_forall in Hall. apply list_elem_of_In in Hd. specialize (Hall d Hd). intros Hc. by rewrite Hc in Hall.
Qed.
Lemma demo_paged : paged devs.
Proof.
  intros d Hd. unfold devs in Hd. rewrite !elem_of_cons in Hd.
  destruct Hd as [->|[->|[->|Hd]]]; [by exists 0xb0010|by exists 0xb0020|by exists 0xb0028|by apply elem_of_nil in Hd].
Qed.


(** Evaluated: the namespaces, the device on port 1, the line of the bridge. *)
Example started_devices :
  match start_devs devs s0 with
  | Ret s => BLOCK_DEVICES s = [(0x10, 1); (0x10, 2)] /\ USB_DEVICES s = [1] /\
      nth 3 (dv_said s) ""%string = "/bus0/dev4/fn0 | 0000:0000 Class 06.04 IF 00"%string
  | _ => False
  end.
Proof. vm_compute. split_and!; reflexivity. Qed.
End DeviceDemo.
