(* ===== verification/Reloc.v ===== *)
(** * Reloc: the kernel moves to the upper half (ram/reloc.rs)

    [reloc] takes memory for a copy of the kernel and for a stack, maps both
    in the upper half, copies the image, adds the distance to every word that
    the loader relocated, and jumps to [spark] in the copy.  The allocator and
    the page tables are behind [KernelVm]; the image is a memory of bytes. *)

From S2P Require Import Prelude Kargs Rvm RamUtil Physalloc Glacier Heap Aps Bytes Memory Elf.

Section Reloc.
Context `{Platform} {M : Type} `{!KernelVm M}.

(** The machine, the processors' numbers, the statics [KBASE] and
    [SPARK_PTR], and the memory of bytes. *)
Record RelocSt : Type := mkRelocSt {
  rl_st : M; rl_aps : ApList; rl_kbase : Z; rl_spark : Z; rl_mem : Mem
}.

(** [match seg.flags] *)
Definition seg_kflags (f : Z) : Z :=
  if f =? 4 then K_ROO flags else if f =? 5 then K_ROX flags
  else if f =? 6 then K_RWO flags else if f =? 7 then K_RWX flags else K_RWO flags.

(** [GLACIER.write().map_range(..).expect(..)] *)
Definition map_expect (st : M) (va pa size fl : Z) : outcome M :=
  '(st, r) ← vm_map st va pa size fl;
  match r with Ok _ => Ret st | Err _ => Panic end.

Fixpoint map_segments (jump_target new_kbase : Z) (segs : list Segment) (st : M) : outcome M :=
  match segs with
  | [] => Ret st
  | seg :: segs =>
      va ← uadd 64 jump_target (seg_ptr seg);
      pa ← uadd 64 new_kbase (seg_ptr seg);
      st ← map_expect st va pa (seg_len seg) (seg_kflags (seg_flags seg));
      map_segments jump_target new_kbase segs st
  end.

(** [rela_ptr] and [rela_sz] *)
Fixpoint parse_rela (dynamic : list DynEntry) (ptr sz : Z) : Z * Z :=
  match dynamic with
  | [] => (ptr, sz)
  | e :: dynamic =>
      if dy_tag e =? DT_NULL then (ptr, sz)
      else if dy_tag e =? DT_RELA then parse_rela dynamic (dy_val e) sz
      else if dy_tag e =? DT_RELASZ then parse_rela dynamic ptr (dy_val e)
      else parse_rela dynamic ptr sz
  end.

Definition rebase_one (new_kbase delta : Z) (entry : RelaEntry) (m : Mem) : outcome Mem :=
  let ty := rela_ty entry in
  if (R_REL =? ty) || is_sym_ty ty then
    addr ← uadd 64 new_kbase (re_offset entry);
    v ← uadd 64 (load 8 m addr) delta;
    Ret (store 8 m addr v)
  else Ret m.

(** [for entry in rela.iter()], from entry [i] on with [n] left. *)
Fixpoint rebase (n : nat) (new_kbase delta rela i : Z) (m : Mem) : outcome Mem :=
  match n with
  | O => Ret m
  | S n =>
      m ← rebase_one new_kbase delta (read_rela m (rela + size_of_RelaEntry * i)) m;
      rebase n new_kbase delta rela (i + 1) m
  end.

(** The copy of the image, from the copying to the end of the relocation. *)
Definition move_image (kinfo : KernelInfo) (old_kbase new_kbase delta : Z) (m : Mem) : outcome Mem :=
  let m := copy_bytes m new_kbase old_kbase (ki_size kinfo) in
  d ← uadd 64 (ki_dyn_ptr kinfo) old_kbase;
  let '(rela_ptr, rela_sz) := parse_rela (read_dyns m d (Z.to_nat (ki_dyn_len kinfo))) 0 0 in
  rela ← uadd 64 rela_ptr old_kbase;
  rebase (Z.to_nat (rela_sz / size_of_RelaEntry)) new_kbase delta rela 0 m.

(** [AllocParams::new(n).as_type(ty)], allocated with [expect] *)
Definition alloc_expect (st : M) (n : Z) (ty : RAMType) : outcome (M * OwnedPtr) :=
  '(st, r) ← vm_alloc st (AllocParams_as_type (AllocParams_new n) ty);
  p ← unwrap r;
  Ret (st, p).

(** The stack of the processor that starts. *)
Definition map_stack (physid : Z) (stack_ptr : OwnedPtr) (aps : ApList) (st : M) : outcome (M * ApList * Z) :=
  let '(aps, virtid) := assign aps physid in
  d ← umul 64 per_cpu_data virtid;
  stack_va ← usub 64 gleam_base d;
  lo ← usub 64 stack_va stack_size;
  st ← map_expect st lo (op_ptr stack_ptr) stack_size (K_RWO flags);
  Ret (st, aps, stack_va).

(** [reloc]; [spark] is the address of the function in the running image.
    The result: the state, the stack pointer and the address of the jump. *)
Definition reloc (kinfo : KernelInfo) (segs : list Segment) (physid spark : Z) (s : RelocSt)
    : outcome (RelocSt * Z * Z) :=
  jump_target ← hihalf;
  '(st, new_kbase) ← alloc_expect (rl_st s) (ki_size kinfo) Kernel;
  '(st, stack_ptr) ← alloc_expect st stack_size KernelData;
  '(st, aps, stack_va) ← map_stack physid stack_ptr (rl_aps s) st;
  st ← map_segments jump_target (op_ptr new_kbase) segs st;
  let old_kbase := rl_kbase s in
  delta ← usub 64 jump_target old_kbase;
  spark_ptr ← uadd 64 spark delta;
  m ← move_image kinfo old_kbase (op_ptr new_kbase) delta (rl_mem s);
  Ret (mkRelocSt st aps (op_ptr new_kbase) spark_ptr m, stack_va, spark_ptr).
End Reloc.
Arguments RelocSt M : clear implicits.
