(* ===== verification/ImageThms.v ===== *)
(** * ImageThms: relocating an image

    The loader's relocation and the kernel's own are loops over the same
    table that write one word per entry.  Moving a loaded image gives the
    image that the loader would have made at the new address. *)

From S2P Require Import Prelude Kargs Rvm RamUtil RvmFacts Physalloc Glacier Heap Aps Bytes Memory.
From S2P Require Import Elf Flint Reloc.

(** ** A loop over a table of relocations *)

Section Loop.
Context `{Platform}.

Fixpoint patch_loop (step : RelaEntry -> Mem -> outcome Mem) (n : nat) (rela i : Z) (m : Mem) : outcome Mem :=
  match n with
  | O => Ret m
  | S n => m ← step (read_rela m (rela + size_of_RelaEntry * i)) m; patch_loop step n rela (i + 1) m
  end.

Lemma apply_relas_loop kb symbols n rela i m :
  apply_relas n kb symbols rela i m = patch_loop (apply_rela kb symbols) n rela i m.
Proof.
  revert i m. induction n as [|n IH]; intros i m; [done|]. cbn [apply_relas patch_loop].
  destruct (apply_rela kb symbols _ m) as [m'| |]; [apply IH|done|done].
Qed.
Lemma rebase_loop nb delta n rela i m :
  rebase n nb delta rela i m = patch_loop (rebase_one nb delta) n rela i m.
Proof.
  revert i m. induction n as [|n IH]; intros i m; [done|]. cbn [rebase patch_loop].
  destruct (rebase_one nb delta _ m) as [m'| |]; [apply IH|done|done].
Qed.

(** The entries that the code acts on. *)
Definition applies (e : RelaEntry) : bool := (rela_ty e =? R_REL) || is_sym_ty (rela_ty e).
Definition relas (m : Mem) (rela n : Z) : list RelaEntry :=
  (fun i => read_rela m (rela + size_of_RelaEntry * i)) <$> seqZ 0 n.

(** The word of an entry, as offsets in the image. *)
Definition in_slot (e : RelaEntry) (x : Z) : Prop := applies e = true /\ re_offset e <= x < re_offset e + 8.
Definition some_slot (es : list RelaEntry) (x : Z) : Prop := exists e, e ∈ es /\ in_slot e x.
Definition apart (es : list RelaEntry) : Prop :=
  forall i j e e', es !! i = Some e -> es !! j = Some e' -> i <> j -> applies e = true -> applies e' = true ->
    re_offset e + 8 <= re_offset e' \/ re_offset e' + 8 <= re_offset e.

Lemma lookup_relas m rela n i e :
  relas m rela n !! i = Some e -> e = read_rela m (rela + size_of_RelaEntry * Z.of_nat i) /\ Z.of_nat i < n.
Proof.
  unfold relas. intros Hi. apply list_lookup_fmap_Some in Hi as (j & -> & Hj).
  apply lookup_seqZ in Hj as [-> Hj]. split; [|lia]. do 3 f_equal; lia.
Qed.

Lemma read_rela_ext m m' p :
  (forall a, p <= a < p + size_of_RelaEntry -> m a = m' a) -> read_rela m p = read_rela m' p.
Proof.
  unfold size_of_RelaEntry. intros Hx. unfold read_rela. f_equal; apply load_ext; intros; apply Hx; lia.
Qed.

Section Patch.
Variables (base rela : Z) (m0 : Mem) (es : list RelaEntry) (val : RelaEntry -> Z).
Variable step : RelaEntry -> Mem -> outcome Mem.
Hypothesis Hread : forall i e, es !! i = Some e -> e = read_rela m0 (rela + size_of_RelaEntry * Z.of_nat i).
Hypothesis Htable : forall x, rela <= x < rela + size_of_RelaEntry * Z.of_nat (length es) -> ~ some_slot es (x - base).
Hypothesis Hapart : apart es.

Definition agrees (m : Mem) : Prop := forall a, ~ some_slot es (a - base) -> m a = m0 a.

Hypothesis Hstep : forall e m, e ∈ es -> agrees m -> (forall a, in_slot e (a - base) -> m a = m0 a) ->
  step e m = Ret (if applies e then store 8 m (base + re_offset e) (val e) else m).

Record patched (i : nat) (m : Mem) : Prop := {
  pt_agrees : agrees m;
  pt_done : forall j e, (j < i)%nat -> es !! j = Some e -> applies e = true ->
    load 8 m (base + re_offset e) = val e mod 2 ^ 64;
  pt_todo : forall j e a, (i <= j)%nat -> es !! j = Some e -> in_slot e (a - base) -> m a = m0 a
}.

Lemma patched_step i e m :
  es !! i = Some e -> patched i m ->
  patched (S i) (if applies e then store 8 m (base + re_offset e) (val e) else m).
Proof.
  intros Hi [Ha Hd Ht]. destruct (applies e) eqn:Hap.
  - assert (forall j e', es !! j = Some e' -> j <> i -> applies e' = true ->
      re_offset e + 8 <= re_offset e' \/ re_offset e' + 8 <= re_offset e) as Hdis.
    { intros j e' Hj Hne Hap'. by apply (Hapart i j e e'). }
    constructor.
    + intros a Hs. rewrite store_other; [by apply Ha|].
      destruct (decide (base + re_offset e <= a < base + re_offset e + 8)); [|lia].
      exfalso. apply Hs. exists e. split; [by eapply list_elem_of_lookup_2|]. split; [done|lia].
    + intros j e' Hj He' Hap'. destruct (decide (j = i)) as [->|Hne].
      * rewrite Hi in He'. injection He' as <-. by rewrite load_store by lia.
      * pose proof (Hdis j e' He' Hne Hap'). rewrite load_store_other by lia. apply (Hd j); [lia|done..].
    + intros j e' a Hj He' Hs. rewrite store_other; [by apply (Ht j e'); [lia|..]|].
      destruct Hs as [Hap' Hs]. pose proof (Hdis j e' He' ltac:(lia) Hap'). lia.
  - constructor; [done| |].
    + intros j e' Hj He' Hap'. destruct (decide (j = i)) as [->|]; [congruence|]. apply (Hd j); [lia|done..].
    + intros j e' a Hj. apply Ht. lia.
Qed.

Lemma patch_run n i m :
  (i + n = length es)%nat -> patched i m ->
  exists m', patch_loop step n rela (Z.of_nat i) m = Ret m' /\ patched (length es) m'.
Proof.
  revert i m. induction n as [|n IH]; intros i m Hn Hp.
  { exists m. by replace (length es) with i by lia. }
  cbn [patch_loop]. destruct (lookup_lt_is_Some_2 es i ltac:(lia)) as [e He].
  rewrite (read_rela_ext m m0), <- (Hread i e He).
  - rewrite Hstep, Ret_bind; [|by eapply list_elem_of_lookup_2|apply Hp|intros a; by apply (pt_todo _ _ Hp i e a)].
    replace (Z.of_nat i + 1) with (Z.of_nat (S i)) by lia. apply IH; [lia|]. by apply patched_step.
  - intros a Ha. apply (pt_agrees _ _ Hp), Htable. unfold size_of_RelaEntry in *. lia.
Qed.

Lemma patch_all :
  exists m', patch_loop step (length es) rela 0 m0 = Ret m' /\ agrees m' /\
    forall e, e ∈ es -> applies e = true -> load 8 m' (base + re_offset e) = val e mod 2 ^ 64.
Proof.
  destruct (patch_run (length es) 0 m0) as (m' & Hr & [Ha Hd _]); [lia|constructor; [done|lia|done]|].
  exists m'. split_and!; [done|done|]. intros e [j Hj]%list_elem_of_lookup_1 Hap.
  by apply (Hd j); [apply lookup_lt_Some in Hj|..].
Qed.
End Patch.
End Loop.

(** ** Images

    [img] is the content of the image before relocation, by offset. *)

Section Image.
Context `{Platform}.

Definition placed (img : Mem) (size B : Z) (m : Mem) : Prop := forall x, 0 <= x < size -> m (B + x) = img x.

Definition signed64 (x : Z) : Z := if x <? 2 ^ 63 then x else x - 2 ^ 64.
Definition sym_of (img : Mem) (v : DynVars) (e : RelaEntry) : Z := symtab v + size_of_SymEntry * Z.shiftr (re_info e) 32.
(** What the word of an entry points to, as an offset in the image. *)
Definition rela_off (img : Mem) (v : DynVars) (e : RelaEntry) : Z :=
  (if rela_ty e =? R_REL then 0 else sy_value (read_sym img (sym_of img v e))) + signed64 (re_addend e).

(** An image whose dynamic section is [v] and whose relocations are [es]:
    tables and words lie in the image, and no relocation writes a table. *)
Record linked (img : Mem) (size dyn_ptr dyn_len : Z) (v : DynVars) (es : list RelaEntry) : Prop := {
  lk_dyn : parse_dynamic (read_dyns img dyn_ptr (Z.to_nat dyn_len)) (mkDynVars 0 0 0 0) = v;
  lk_es : es = relas img (rela_ptr v) (rela_sz v / size_of_RelaEntry);
  lk_apart : apart es;
  lk_bytes : forall x, is_byte (img x);
  lk_dyn_in : 0 <= dyn_ptr /\ 0 <= dyn_len /\ dyn_ptr + size_of_DynEntry * dyn_len <= size;
  lk_rela_in : 0 <= rela_ptr v /\ rela_ptr v + size_of_RelaEntry * Z.of_nat (length es) <= size;
  lk_sym_in : 0 <= symtab v <= size;
  lk_slot : forall e, e ∈ es -> 0 <= re_offset e /\ re_offset e + 8 <= size;
  lk_sym : forall e, e ∈ es -> applies e = true -> rela_ty e <> R_REL -> sym_of img v e + size_of_SymEntry <= size;
  lk_tables : forall x, some_slot es x ->
    ~ (dyn_ptr <= x < dyn_ptr + size_of_DynEntry * dyn_len) /\
    ~ (rela_ptr v <= x < rela_ptr v + size_of_RelaEntry * Z.of_nat (length es)) /\
    (forall e, e ∈ es -> applies e = true -> rela_ty e <> R_REL -> ~ (sym_of img v e <= x < sym_of img v e + size_of_SymEntry))
}.

(** The image fits at [B], and the words that point into it are addresses. *)
Record base_ok (img : Mem) (size : Z) (v : DynVars) (es : list RelaEntry) (B : Z) : Prop := {
  bo_range : 0 <= B /\ B + size < 2 ^ 64;
  bo_off : forall e, e ∈ es -> applies e = true -> 0 <= B + rela_off img v e < 2 ^ 64;
  bo_sym : forall e, e ∈ es -> applies e = true -> rela_ty e <> R_REL ->
    B + sy_value (read_sym img (sym_of img v e)) < 2 ^ 64
}.

Lemma load_shift n m img B x :
  (forall y, x <= y < x + Z.of_nat n -> m (B + y) = img y) -> load n m (B + x) = load n img x.
Proof.
  revert x. induction n as [|n IH]; intros x Hx; [done|].
  change (m (B + x) + 256 * load n m (B + x + 1) = img x + 256 * load n img (x + 1)).
  rewrite Hx by lia. do 2 f_equal. rewrite <- Z.add_assoc. apply IH. intros y Hy. apply Hx. lia.
Qed.

Lemma read_rela_shift m img B x :
  (forall y, x <= y < x + size_of_RelaEntry -> m (B + y) = img y) -> read_rela m (B + x) = read_rela img x.
Proof.
  unfold size_of_RelaEntry. intros Hx. unfold read_rela. rewrite <- !Z.add_assoc.
  f_equal; apply load_shift; intros; apply Hx; lia.
Qed.

Lemma read_sym_shift m img B x :
  (forall y, x <= y < x + size_of_SymEntry -> m (B + y) = img y) -> read_sym m (B + x) = read_sym img x.
Proof.
  unfold size_of_SymEntry. intros Hx. unfold read_sym. rewrite <- !Z.add_assoc.
  f_equal; apply load_shift; intros; apply Hx; lia.
Qed.

Lemma read_dyns_shift m img B p n :
  (forall y, p <= y < p + size_of_DynEntry * Z.of_nat n -> m (B + y) = img y) -> read_dyns m (B + p) n = read_dyns img p n.
Proof.
  unfold size_of_DynEntry. intros Hx. unfold read_dyns, size_of_DynEntry. apply list_fmap_ext. intros i x Hi.
  apply lookup_seqZ in Hi as [-> Hi].
  unfold read_dyn. rewrite <- !Z.add_assoc. f_equal; apply load_shift; intros; apply Hx; lia.
Qed.

(** The kernel reads from the dynamic section what the loader reads. *)
Lemma parse_rela_eq dyn v :
  parse_rela dyn (rela_ptr v) (rela_sz v) = (rela_ptr (parse_dynamic dyn v), rela_sz (parse_dynamic dyn v)).
Proof.
  revert v. induction dyn as [|e dyn IH]; intros v; [done|]. cbn [parse_rela parse_dynamic].
  unfold DT_NULL, DT_RELA, DT_RELASZ, DT_SYMTAB, DT_STRTAB. destruct (dy_tag e =? 0); [done|].
  destruct (dy_tag e =? 7); [exact (IH (mkDynVars _ _ _ _))|].
  destruct (dy_tag e =? 8); [exact (IH (mkDynVars _ _ _ _))|].
  destruct (dy_tag e =? 5) eqn:H5; destruct (dy_tag e =? 6) eqn:H6; first [exact (IH (mkDynVars _ _ _ _)) | apply IH].
Qed.

Lemma signed_wrap B x : (B + signed64 x) mod 2 ^ 64 = uwrap_add 64 B x.
Proof.
  unfold signed64, uwrap_add. destruct (x <? 2 ^ 63); [done|].
  replace (B + (x - 2 ^ 64)) with (B + x + (-1) * 2 ^ 64) by lia. apply Z.mod_add. lia.
Qed.

Section Linked.
Context (img : Mem) (size dyn_ptr dyn_len : Z) (v : DynVars) (es : list RelaEntry).
Hypothesis Hlk : linked img size dyn_ptr dyn_len v es.

Lemma linked_len : length es = Z.to_nat (rela_sz v / size_of_RelaEntry).
Proof. rewrite (lk_es _ _ _ _ _ _ Hlk). unfold relas. by rewrite length_fmap, length_seqZ. Qed.

Lemma linked_lookup i e : es !! i = Some e -> e = read_rela img (rela_ptr v + size_of_RelaEntry * Z.of_nat i).
Proof. rewrite (lk_es _ _ _ _ _ _ Hlk). intros Hi. by apply lookup_relas in Hi as [-> _]. Qed.

(** The entry is read as in the image wherever the table is as it was. *)
Lemma read_entry B m i e :
  (forall x, rela_ptr v <= x < rela_ptr v + size_of_RelaEntry * Z.of_nat (length es) -> m (B + x) = img x) ->
  es !! i = Some e -> e = read_rela m (B + rela_ptr v + size_of_RelaEntry * Z.of_nat i).
Proof.
  intros Hm Hi. rewrite (linked_lookup i e Hi), <- Z.add_assoc. symmetry. apply read_rela_shift.
  intros y Hy. apply Hm. apply lookup_lt_Some in Hi. unfold size_of_RelaEntry in *. lia.
Qed.

Lemma rel_or_sym e : applies e = true -> rela_ty e <> R_REL -> (rela_ty e =? R_REL) = false /\ is_sym_ty (rela_ty e) = true.
Proof. unfold applies. intros Hap Hne. apply Z.eqb_neq in Hne. rewrite Hne in *. done. Qed.

(** One step of the loader. *)
Lemma apply_rela_ok B m e :
  base_ok img size v es B -> e ∈ es ->
  (applies e = true -> rela_ty e <> R_REL -> forall x, sym_of img v e <= x < sym_of img v e + size_of_SymEntry -> m (B + x) = img x) ->
  apply_rela B (symtab v + B) e m = Ret (if applies e then store 8 m (B + re_offset e) (B + rela_off img v e) else m).
Proof.
  intros [Hr Ho Hs] He Hsym. unfold apply_rela. pose proof (lk_slot _ _ _ _ _ _ Hlk e He) as Hoff.
  rewrite (uadd_ok 64 B (re_offset e)), Ret_bind by lia. specialize (Ho e He). specialize (Hs e He).
  unfold rela_off in *. unfold applies in *. destruct (Z.eqb_spec (rela_ty e) R_REL) as [Hty|Hty]; cbn [orb] in *.
  - do 2 f_equal. rewrite <- signed_wrap. rewrite Z.mod_small; lia.
  - destruct (is_sym_ty (rela_ty e)); [|done].
    assert (read_sym m (symtab v + B + size_of_SymEntry * Z.shiftr (re_info e) 32) = read_sym img (sym_of img v e)) as ->.
    { replace (symtab v + B + size_of_SymEntry * Z.shiftr (re_info e) 32) with (B + sym_of img v e) by (unfold sym_of; lia).
      apply read_sym_shift. by apply Hsym. }
    set (sv := sy_value _) in *. specialize (Hs eq_refl Hty). specialize (Ho eq_refl).
    assert (0 <= sv) as Hsv by (unfold sv; cbn [sy_value read_sym]; apply load_bound, (lk_bytes _ _ _ _ _ _ Hlk)).
    rewrite uadd_ok, Ret_bind by lia. do 2 f_equal. rewrite <- signed_wrap, Z.mod_small; lia.
Qed.

Lemma slot_in_image x : some_slot es x -> 0 <= x < size.
Proof. intros (e & He & _ & Hx). pose proof (lk_slot _ _ _ _ _ _ Hlk e He). lia. Qed.

(** The loader relocates the image where it lies. *)
Lemma relocate_image_run B m :
  base_ok img size v es B -> placed img size B m ->
  exists m', relocate_image B dyn_ptr dyn_len m = Ret m' /\
    (forall a, ~ some_slot es (a - B) -> m' a = m a) /\
    forall e, e ∈ es -> applies e = true -> load 8 m' (B + re_offset e) = B + rela_off img v e.
Proof.
  intros HB Hpl. pose proof (bo_range _ _ _ _ _ HB) as HBr.
  pose proof (lk_dyn_in _ _ _ _ _ _ Hlk) as Hd. unfold size_of_DynEntry in Hd.
  pose proof (lk_rela_in _ _ _ _ _ _ Hlk) as Hrl. pose proof (lk_sym_in _ _ _ _ _ _ Hlk) as Hsl.
  unfold relocate_image. rewrite uadd_ok, Ret_bind by lia. rewrite (Z.add_comm dyn_ptr B), (read_dyns_shift m img).
  2:{ intros y Hy. apply Hpl. unfold size_of_DynEntry in *. lia. }
  rewrite (lk_dyn _ _ _ _ _ _ Hlk). rewrite !uadd_ok, !Ret_bind by (unfold size_of_RelaEntry in *; lia).
  rewrite <- linked_len, apply_relas_loop, (Z.add_comm (rela_ptr v) B).
  destruct (patch_all B (B + rela_ptr v) m es (fun e => B + rela_off img v e) (apply_rela B (symtab v + B)))
    as (m' & -> & Hag & Hw).
  - intros i e Hi. apply read_entry; [|done]. intros x Hx. apply Hpl. lia.
  - intros x Hx Hs. apply (lk_tables _ _ _ _ _ _ Hlk) in Hs as (_ & Hs & _). lia.
  - apply (lk_apart _ _ _ _ _ _ Hlk).
  - intros e m1 He Hag _. apply apply_rela_ok; [done|done|]. intros Hap Hty x Hx.
    pose proof (lk_sym _ _ _ _ _ _ Hlk e He Hap Hty). rewrite Hag.
    + apply Hpl. unfold sym_of, size_of_SymEntry in *. pose proof (Z.shiftr_nonneg (re_info e) 32) as Hnn.
      assert (0 <= re_info e); [|lia]. apply list_elem_of_lookup_1 in He as [i Hi]. rewrite (linked_lookup i e Hi).
      cbn [re_info read_rela]. apply load_bound, (lk_bytes _ _ _ _ _ _ Hlk).
    + replace (B + x - B) with x by lia. intros Hs. apply (lk_tables _ _ _ _ _ _ Hlk) in Hs as (_ & _ & Hs).
      by apply (Hs e He Hap Hty).
  - exists m'. split_and!; [done|done|]. intros e He Hap. rewrite Hw by done.
    apply Z.mod_small. by apply (bo_off _ _ _ _ _ HB).
Qed.

(** The image as the kernel finds it: statics may have changed, but not the
    tables and not the words that the loader relocated. *)
Record loaded (B : Z) (m : Mem) : Prop := {
  ld_dyn : forall x, dyn_ptr <= x < dyn_ptr + size_of_DynEntry * dyn_len -> m (B + x) = img x;
  ld_rela : forall x, rela_ptr v <= x < rela_ptr v + size_of_RelaEntry * Z.of_nat (length es) -> m (B + x) = img x;
  ld_word : forall e, e ∈ es -> applies e = true -> load 8 m (B + re_offset e) = B + rela_off img v e
}.

(** The kernel moves it from [B] to [B2], for execution at [B']. *)
Lemma move_image_run kinfo B B2 B' m :
  ki_size kinfo = size -> ki_dyn_ptr kinfo = dyn_ptr -> ki_dyn_len kinfo = dyn_len ->
  base_ok img size v es B' -> 0 <= B <= B' -> loaded B m ->
  0 <= B2 /\ B2 + size < 2 ^ 64 -> B + size <= B2 \/ B2 + size <= B ->
  exists m', move_image kinfo B B2 (B' - B) m = Ret m' /\
    (forall a, ~ (B2 <= a < B2 + size) -> m' a = m a) /\
    (forall x, 0 <= x < size -> ~ some_slot es x -> m' (B2 + x) = m (B + x)) /\
    forall e, e ∈ es -> applies e = true -> load 8 m' (B2 + re_offset e) = B' + rela_off img v e.
Proof.
  intros Hsz Hdp Hdl HB HBB [Hd Hr Hw] HB2 Hdis. pose proof (bo_range _ _ _ _ _ HB) as HBr.
  pose proof (lk_dyn_in _ _ _ _ _ _ Hlk) as Hdi. pose proof (lk_rela_in _ _ _ _ _ _ Hlk) as Hrl.
  unfold size_of_DynEntry in *. unfold move_image. rewrite Hsz, Hdp, Hdl. set (mc := copy_bytes m B2 B size).
  assert (forall a, ~ (B2 <= a < B2 + size) -> mc a = m a) as Hmo.
  { intros a Ha. unfold mc, copy_bytes. destruct (Z.leb_spec B2 a), (Z.ltb_spec a (B2 + size)); done || lia. }
  assert (forall x, 0 <= x < size -> mc (B2 + x) = m (B + x)) as Hmi.
  { intros x Hx. unfold mc, copy_bytes. destruct (Z.leb_spec B2 (B2 + x)), (Z.ltb_spec (B2 + x) (B2 + size)); try lia.
    cbn [andb]. f_equal. lia. }
  rewrite uadd_ok, Ret_bind by lia. rewrite (Z.add_comm dyn_ptr B), (read_dyns_shift mc img).
  2:{ intros y Hy. unfold size_of_DynEntry in *. rewrite Hmo by lia. apply Hd. lia. }
  change (parse_rela (read_dyns img dyn_ptr (Z.to_nat dyn_len)) 0 0) with
    (parse_rela (read_dyns img dyn_ptr (Z.to_nat dyn_len)) (rela_ptr (mkDynVars 0 0 0 0)) (rela_sz (mkDynVars 0 0 0 0))).
  rewrite parse_rela_eq, (lk_dyn _ _ _ _ _ _ Hlk). rewrite uadd_ok, Ret_bind by (unfold size_of_RelaEntry in *; lia).
  rewrite <- linked_len, rebase_loop, (Z.add_comm (rela_ptr v) B).
  destruct (patch_all B2 (B + rela_ptr v) mc es (fun e => B' + rela_off img v e) (rebase_one B2 (B' - B)))
    as (m' & -> & Hag & Hw').
  - intros i e Hi. apply read_entry; [|done]. intros x Hx. rewrite Hmo by (unfold size_of_RelaEntry in *; lia). by apply Hr.
  - intros x Hx Hs. apply slot_in_image in Hs. unfold size_of_RelaEntry in *. lia.
  - apply (lk_apart _ _ _ _ _ _ Hlk).
  - intros e m1 He Hag Hsl. unfold rebase_one. rewrite Z.eqb_sym. fold (applies e).
    destruct (applies e) eqn:Hap; [|done]. pose proof (lk_slot _ _ _ _ _ _ Hlk e He) as Hs.
    rewrite uadd_ok, Ret_bind by lia.
    assert (load 8 m1 (B2 + re_offset e) = B + rela_off img v e) as ->.
    { rewrite <- Hw by done. rewrite (load_ext 8 m1 mc).
      - rewrite (load_shift 8 mc (fun x => m (B + x))); [|intros y Hy; apply Hmi; lia].
        symmetry. by apply (load_shift 8 m (fun x => m (B + x))).
      - intros a Ha. apply Hsl. split; [done|lia]. }
    pose proof (bo_off _ _ _ _ _ HB e He Hap). rewrite uadd_ok, Ret_bind by lia. do 2 f_equal. lia.
  - exists m'. split_and!; [done| | |].
    + intros a Ha. rewrite Hag, Hmo; [done|done|]. intros Hs%slot_in_image. lia.
    + intros x Hx Hs. rewrite Hag, Hmi; [done|done|]. by replace (B2 + x - B2) with x by lia.
    + intros e He Hap. rewrite Hw' by done. apply Z.mod_small. by apply (bo_off _ _ _ _ _ HB).
Qed.
End Linked.
End Image.
