(* ===== verification/FlintThms.v ===== *)
(** * FlintThms: what the boot loader leaves in memory

    The segments are where the program headers say, zeroed behind the bytes
    of the file, and every word with a relocation points into the copy. *)

From S2P Require Import Prelude Kargs Rvm RamUtil RvmFacts Bytes Memory Elf Flint Reloc ImageThms.

Section Segments.
Context `{Platform}.

(** The byte of a segment: of the file, or zero behind it. *)
Definition seg_byte (file : list Z) (ph : ProgramHeader) (y : Z) : Z :=
  if y <? ph_file_size ph then nth (Z.to_nat (ph_offset ph + y)) file 0 else 0.

Record ph_ok (file : list Z) (size : Z) (ph : ProgramHeader) : Prop := {
  po_va : 0 <= ph_virtual_addr ph;
  po_end : ph_virtual_addr ph + ph_mem_size ph <= size;
  po_file : 0 <= ph_file_size ph <= ph_mem_size ph;
  po_offset : 0 <= ph_offset ph /\ ph_offset ph + ph_file_size ph <= Z.of_nat (length file)
}.

Definition in_ph (ph : ProgramHeader) (x : Z) : Prop :=
  ph_virtual_addr ph <= x < ph_virtual_addr ph + ph_mem_size ph.

(** The segments to load fit and do not overlap. *)
Definition phs_ok (file : list Z) (size : Z) (phs : list ProgramHeader) : Prop :=
  (forall ph, ph ∈ phs -> is_load ph = true -> ph_ok file size ph) /\
  (forall i j ph ph' x, phs !! i = Some ph -> phs !! j = Some ph' -> is_load ph = true -> is_load ph' = true ->
    in_ph ph x -> in_ph ph' x -> i = j).

Definition seg_of (ph : ProgramHeader) : Segment :=
  mkSegment (ph_virtual_addr ph) (ph_mem_size ph) (ph_flags ph) (ucast 32 (ph_align ph)).

Lemma file_slice_ok file off n :
  0 <= off -> 0 <= n -> off + n <= Z.of_nat (length file) ->
  file_slice file off n = Ret (take (Z.to_nat n) (drop (Z.to_nat off) file)).
Proof.
  intros Ho Hn Hl. unfold file_slice. rewrite slice_from_ok by lia. rewrite Ret_bind, slice_ok; [done|lia..|].
  rewrite length_drop. lia.
Qed.

(** The memory with one segment in place, and with all that are loaded. *)
Definition place_one (kbase : Z) (file : list Z) (ph : ProgramHeader) (m : Mem) : Mem :=
  put_bytes (zero_bytes m (kbase + ph_virtual_addr ph) (ph_mem_size ph)) (kbase + ph_virtual_addr ph)
    (take (Z.to_nat (ph_file_size ph)) (drop (Z.to_nat (ph_offset ph)) file)).
Fixpoint place_all (kbase : Z) (file : list Z) (phs : list ProgramHeader) (m : Mem) : Mem :=
  match phs with
  | [] => m
  | ph :: phs => place_all kbase file phs (if is_load ph then place_one kbase file ph m else m)
  end.

Lemma place_one_spec kbase file size ph m :
  ph_ok file size ph ->
  (forall y, 0 <= y < ph_mem_size ph -> place_one kbase file ph m (kbase + (ph_virtual_addr ph + y)) = seg_byte file ph y) /\
  (forall a, ~ in_ph ph (a - kbase) -> place_one kbase file ph m a = m a).
Proof.
  intros [Hva Hend Hfs Hoff]. unfold place_one, in_ph, put_bytes, zero_bytes.
  set (s := kbase + ph_virtual_addr ph). set (src := take _ _).
  assert (Z.of_nat (length src) = ph_file_size ph) as Hls by (unfold src; rewrite length_take, length_drop; lia).
  split.
  - intros y Hy. replace (kbase + (ph_virtual_addr ph + y)) with (s + y) by (unfold s; lia). unfold seg_byte.
    destruct (Z.leb_spec s (s + y)), (Z.ltb_spec (s + y) (s + Z.of_nat (length src))),
      (Z.ltb_spec (s + y) (s + ph_mem_size ph)), (Z.ltb_spec y (ph_file_size ph)); try lia; cbn [andb]; [|done].
    replace (s + y - s) with y by lia. unfold src. rewrite !nth_lookup, lookup_take, decide_True by lia.
    rewrite lookup_drop. do 2 f_equal. lia.
  - intros a Ha. destruct (Z.leb_spec s a), (Z.ltb_spec a (s + Z.of_nat (length src))),
      (Z.ltb_spec a (s + ph_mem_size ph)); try done; unfold s in *; lia.
Qed.

Lemma phs_ok_cons file size ph phs : phs_ok file size (ph :: phs) -> phs_ok file size phs.
Proof.
  intros [Ha Hd]. split.
  - intros p Hp. apply Ha. by right.
  - intros i j p p' x Hi Hj Hl Hl' Hx Hx'. by injection (Hd (S i) (S j) p p' x Hi Hj Hl Hl' Hx Hx').
Qed.

Lemma place_all_spec kbase file size phs m :
  phs_ok file size phs ->
  (forall ph y, ph ∈ phs -> is_load ph = true -> 0 <= y < ph_mem_size ph ->
    place_all kbase file phs m (kbase + (ph_virtual_addr ph + y)) = seg_byte file ph y) /\
  (forall a, (forall ph, ph ∈ phs -> is_load ph = true -> ~ in_ph ph (a - kbase)) -> place_all kbase file phs m a = m a).
Proof.
  revert m. induction phs as [|ph phs IH]; intros m Hok.
  { split; [|done]. intros ph y Hin. by apply elem_of_nil in Hin. }
  cbn [place_all]. destruct (IH (if is_load ph then place_one kbase file ph m else m) (phs_ok_cons _ _ _ _ Hok)) as [Hin2 Hout2].
  destruct Hok as [Hall Hdis]. destruct (is_load ph) eqn:Hl.
  - destruct (place_one_spec kbase file size ph m (Hall ph ltac:(by left) Hl)) as [Hin1 Hout1]. split.
    + intros p y [->|Hp]%elem_of_cons Hlp Hy; [|by apply Hin2]. rewrite Hout2; [by apply Hin1|].
      intros p' Hp' Hl' Hx. apply list_elem_of_lookup_1 in Hp' as [j Hj].
      specialize (Hdis 0%nat (S j) ph p' (ph_virtual_addr ph + y) eq_refl Hj Hl Hl').
      assert (0%nat = S j); [|done]. apply Hdis; unfold in_ph in *; lia.
    + intros a Ha. rewrite Hout2, Hout1; [done| |]; [by apply Ha; [left|]|]. intros p Hp. apply Ha. by right.
  - split.
    + intros p y [->|Hp]%elem_of_cons Hlp; [congruence|by apply Hin2].
    + intros a Ha. apply Hout2. intros p Hp. apply Ha. by right.
Qed.

Lemma load_segments_run kbase file size phs m :
  0 <= kbase -> kbase + size < 2 ^ 64 -> phs_ok file size phs ->
  exists m', load_segments kbase file phs m = Ret (m', seg_of <$> List.filter is_load phs) /\
    (forall ph y, ph ∈ phs -> is_load ph = true -> 0 <= y < ph_mem_size ph ->
      m' (kbase + (ph_virtual_addr ph + y)) = seg_byte file ph y) /\
    (forall a, (forall ph, ph ∈ phs -> is_load ph = true -> ~ in_ph ph (a - kbase)) -> m' a = m a).
Proof.
  intros Hk Hb Hok. exists (place_all kbase file phs m). split; [|by eapply place_all_spec]. revert m Hok.
  induction phs as [|ph phs IH]; intros m Hok; [done|]. cbn [load_segments List.filter place_all].
  destruct (is_load ph) eqn:Hl; [|by eapply IH, phs_ok_cons].
  destruct (proj1 Hok ph ltac:(by left) Hl) as [Hva Hend Hfs Hoff]. unfold load_segment.
  rewrite (uadd_ok 64 kbase), Ret_bind by lia. rewrite file_slice_ok, !Ret_bind by lia.
  fold (place_one kbase file ph m). by rewrite IH by by eapply phs_ok_cons.
Qed.
End Segments.

Section FlintSpec.
Context `{Platform} {W : Type} `{!Uefi W}.

(** The image before relocation: the segments, and what was in memory in the
    gaps between them. *)
Record file_image (file : list Z) (size : Z) (phs : list ProgramHeader) (m : Mem) (kbase : Z) (img : Mem) : Prop := {
  fi_seg : forall ph y, ph ∈ phs -> is_load ph = true -> 0 <= y < ph_mem_size ph ->
    img (ph_virtual_addr ph + y) = seg_byte file ph y;
  fi_gap : forall x, 0 <= x < size -> (forall ph, ph ∈ phs -> is_load ph = true -> ~ in_ph ph x) -> img x = m (kbase + x)
}.

Lemma load_placed file size phs m kbase img m' :
  file_image file size phs m kbase img ->
  (forall ph y, ph ∈ phs -> is_load ph = true -> 0 <= y < ph_mem_size ph ->
    m' (kbase + (ph_virtual_addr ph + y)) = seg_byte file ph y) ->
  (forall a, (forall ph, ph ∈ phs -> is_load ph = true -> ~ in_ph ph (a - kbase)) -> m' a = m a) ->
  placed img size kbase m'.
Proof.
  intros [Hs Hg] Hin Hout x Hx.
  destruct (decide (Exists (fun ph => is_load ph = true /\ ph_virtual_addr ph <= x < ph_virtual_addr ph + ph_mem_size ph) phs)) as [He|Hn].
  - apply Exists_exists in He as (ph & Hp & Hl & Hr).
    replace x with (ph_virtual_addr ph + (x - ph_virtual_addr ph)) by lia. rewrite Hs, Hin; [done|done|done|lia|done|done|lia].
  - assert (forall ph, ph ∈ phs -> is_load ph = true -> ~ in_ph ph x) as Hno.
    { intros ph Hp Hl Hi. apply Hn, Exists_exists. by exists ph. }
    rewrite Hg, Hout; [done| |done|done]. intros ph Hp Hl. replace (kbase + x - kbase) with x by lia. by apply Hno.
Qed.

(** Untouched tables and relocated words are what the kernel relies on. *)
Lemma relocated_loaded img size dp dl v es B m m' :
  linked img size dp dl v es -> placed img size B m ->
  (forall a, ~ some_slot es (a - B) -> m' a = m a) ->
  (forall e, e ∈ es -> applies e = true -> load 8 m' (B + re_offset e) = B + rela_off img v e) ->
  loaded img dp dl v es B m'.
Proof.
  intros Hlk Hpl Hout Hw. pose proof (lk_dyn_in _ _ _ _ _ _ Hlk). pose proof (lk_rela_in _ _ _ _ _ _ Hlk).
  constructor; [| |done]; intros x Hx.
  - rewrite Hout; [apply Hpl; lia|]. replace (B + x - B) with x by lia. intros Hs.
    apply (lk_tables _ _ _ _ _ _ Hlk) in Hs as (Hs & _). lia.
  - rewrite Hout; [apply Hpl; lia|]. replace (B + x - B) with x by lia. intros Hs.
    apply (lk_tables _ _ _ _ _ _ Hlk) in Hs as (_ & Hs & _). lia.
Qed.

(** C31: the loader enters the kernel with its segments in memory as the file
    says, zeroed behind the bytes of the file, every word with a relocation
    pointing into the copy, no other memory changed, and arguments that
    describe the image. *)
Theorem flint_spec w m file elf size n w1 kbase w2 sp w3 w4 uuid img v es :
  read_unix w = Ret (w1, file) -> elf_new file = Some elf -> image_size elf = Ret size ->
  pages_for size = Ret n -> allocate_pages n w1 = (w2, Some kbase) -> allocate_pages 1 w2 = (w3, Some sp) ->
  disk_uuid_of w3 = Ret (w4, uuid) ->
  let phs := program_iter elf in let d := find_dynamic phs in
  phs_ok file size phs -> file_image file size phs m kbase img ->
  linked img size d.1 d.2 v es -> base_ok img size v es kbase -> 0 <= entry_point elf < size ->
  exists en, flint w m = Ret (w4, en) /\
    en_ignite en = kbase + entry_point elf /\ en_segs en = seg_of <$> List.filter is_load phs /\
    ka_kbase (en_kargs en) = kbase /\
    ka_kernel (en_kargs en) = mkKernelInfo size (entry_point elf) sp (Z.of_nat (length (en_segs en))) d.1 d.2 /\
    si_disk_uuid (ka_sys (en_kargs en)) = uuid /\
    loaded img d.1 d.2 v es kbase (en_mem en) /\
    (forall ph y, ph ∈ phs -> is_load ph = true -> 0 <= y < ph_mem_size ph ->
       ~ some_slot es (ph_virtual_addr ph + y) -> en_mem en (kbase + (ph_virtual_addr ph + y)) = seg_byte file ph y) /\
    (forall a, (forall ph, ph ∈ phs -> is_load ph = true -> ~ in_ph ph (a - kbase)) ->
       ~ some_slot es (a - kbase) -> en_mem en a = m a).
Proof.
  intros Hf He Hsz Hn Hk Hsp Hu phs d Hph Hfi Hlk HB Hep. pose proof (bo_range _ _ _ _ _ HB) as HBr.
  unfold flint. rewrite Hf, Ret_bind, He. cbn [unwrap]. rewrite Ret_bind, Hsz, Ret_bind, Hn, Ret_bind.
  unfold alloc_pages. rewrite Hk. cbn [unwrap]. rewrite !Ret_bind, Hsp. cbn [unwrap]. rewrite !Ret_bind. fold phs.
  destruct (load_segments_run kbase file size phs m ltac:(lia) ltac:(lia) Hph) as (m1 & -> & Hin & Hout).
  rewrite Ret_bind. fold d. destruct d as [dp dl] eqn:Hd. cbn [fst snd] in *.
  pose proof (load_placed file size phs m kbase img m1 Hfi Hin Hout) as Hpl.
  destruct (relocate_image_run img size dp dl v es Hlk kbase m1 HB Hpl) as (m2 & -> & Hkeep & Hw).
  rewrite Ret_bind. destruct (scan_config _ 0 0) as [acpi dtb]. rewrite Hu, Ret_bind, uadd_ok, Ret_bind by lia.
  destruct (exit_boot_services w4) as [lp ll]. eexists. split; [done|]. cbn.
  split_and!; try done; [lia|by eapply relocated_loaded| |].
  - intros ph y Hp Hl Hy Hs. rewrite Hkeep; [by apply Hin|]. by replace (kbase + _ - kbase) with (ph_virtual_addr ph + y) by lia.
  - intros a Ha Hs. rewrite Hkeep by done. by apply Hout.
Qed.
End FlintSpec.
