(* ===== verification/RelocThms.v ===== *)
(** * RelocThms: the kernel in the upper half

    Moving a loaded image gives the image that the loader would have made at
    the new address; [reloc] as a whole leaves it mapped there, with a stack,
    and jumps into it. *)

From S2P Require Import Prelude Kargs Rvm RamUtil Physalloc RvmFacts Glacier GlacierSpec GlacierThms.
From S2P Require Import GlacierRange Heap GlacierMaps Aps Bytes Memory Elf Flint Reloc ImageThms FlintThms.

Section Moved.
Context `{Platform}.

(** C33: the kernel's relocation agrees with the loader's.  An image that the
    loader relocated at [B], and of which the kernel has not changed the
    tables and the relocated words, is moved to [B2] for execution at [B']:
    then every relocated word of the copy is the word that the loader would
    have written at [B'], and every other byte is copied. *)
Theorem move_as_loaded img size dp dl v es kinfo B B' B2 m1 mh :
  linked img size dp dl v es -> base_ok img size v es B -> base_ok img size v es B' -> B <= B' ->
  ki_size kinfo = size -> ki_dyn_ptr kinfo = dp -> ki_dyn_len kinfo = dl ->
  placed img size B m1 -> placed img size B' mh ->
  0 <= B2 /\ B2 + size < 2 ^ 64 -> B + size <= B2 \/ B2 + size <= B ->
  exists ml mh', relocate_image B dp dl m1 = Ret ml /\ relocate_image B' dp dl mh = Ret mh' /\
    forall m, (forall x, some_slot es x \/ dp <= x < dp + size_of_DynEntry * dl \/
        rela_ptr v <= x < rela_ptr v + size_of_RelaEntry * Z.of_nat (length es) -> m (B + x) = ml (B + x)) ->
    exists m', move_image kinfo B B2 (B' - B) m = Ret m' /\
      (forall a, ~ (B2 <= a < B2 + size) -> m' a = m a) /\
      (forall e, e ∈ es -> applies e = true -> load 8 m' (B2 + re_offset e) = load 8 mh' (B' + re_offset e)) /\
      (forall x, 0 <= x < size -> ~ some_slot es x -> m' (B2 + x) = m (B + x)).
Proof.
  intros Hlk HB HB' HBB Hs1 Hs2 Hs3 Hp1 Hph HB2 Hdis.
  destruct (relocate_image_run img size dp dl v es Hlk B m1 HB Hp1) as (ml & Hr1 & Hk1 & Hw1).
  destruct (relocate_image_run img size dp dl v es Hlk B' mh HB' Hph) as (mh' & Hrh & Hkh & Hwh).
  exists ml, mh'. split_and!; [done|done|]. intros m Hm.
  destruct (relocated_loaded img size dp dl v es B m1 ml Hlk Hp1 Hk1 Hw1) as [Hd Hr Hw].
  assert (loaded img dp dl v es B m) as Hld.
  { constructor.
    - intros x Hx. rewrite Hm by auto. by apply Hd.
    - intros x Hx. rewrite Hm by auto. by apply Hr.
    - intros e He Hap. rewrite <- Hw by done. apply load_ext. intros a Ha.
      replace a with (B + (a - B)) by lia. apply Hm. left. exists e. split; [done|]. split; [done|lia]. }
  pose proof (bo_range _ _ _ _ _ HB) as HBr.
  destruct (move_image_run img size dp dl v es Hlk kinfo B B2 B' m Hs1 Hs2 Hs3 HB' ltac:(lia) Hld HB2 Hdis)
    as (m' & Hrun & Hout & Hin & Hw').
  exists m'. split_and!; [done|done| |done]. intros e He Hap. by rewrite Hw', Hwh.
Qed.
End Moved.

Section RelocSpec.
Context `{Platform} {A : Type} `{!FrameAlloc A} `{!FrameLaws A}.
Abbreviation c := G_CFG.
Variable lim : Z.
Hypothesis Hcfg : cfg_ok c.
Hypothesis Hlim : 0 < lim <= 2 ^ bits c 0.
Variable g : Glacier.
#[local] Instance vm : KernelVm (Machine A) := Machine_KernelVm g.

Definition seg_req (hh nb : Z) (seg : Segment) : MapReq :=
  mkMapReq (hh + seg_ptr seg) (nb + seg_ptr seg) (seg_len seg) (seg_kflags (seg_flags seg)).

Definition or_panic {S : Type} (r : outcome (S * result GlacierErr unit)) : outcome S :=
  '(st, x) ← r; match x with Ok _ => Ret st | Err _ => Panic end.

Lemma map_expect_run st va pa size fl : map_expect st va pa size fl = or_panic (map_range g va pa size fl st).
Proof. done. Qed.

Lemma map_segments_reqs hh nb segs st :
  Forall (fun r => 0 <= mq_va r < 2 ^ 64 /\ 0 <= mq_pa r < 2 ^ 64) (seg_req hh nb <$> segs) ->
  map_segments hh nb segs st = or_panic (map_reqs g (seg_req hh nb <$> segs) st).
Proof.
  revert st. induction segs as [|seg segs IH]; intros st Hok; [done|].
  apply Forall_cons in Hok as [[Hva Hpa] Hok]. cbn [seg_req mq_va mq_pa] in *.
  cbn [map_segments map_reqs fmap list_fmap]. rewrite !uadd_ok, !Ret_bind, map_expect_run by done.
  cbn [seg_req mq_va mq_pa mq_size mq_fl]. unfold or_panic at 1.
  destruct (map_range g _ _ _ _ st) as [[st1 [u|e]]| |]; rewrite ?Ret_bind; [|done..]. by apply IH.
Qed.

(** The ranges that [reloc] maps: the stack, then the segments. *)
Definition reloc_reqs (hh nb stack_va : Z) (stk : OwnedPtr) (segs : list Segment) : list MapReq :=
  mkMapReq (stack_va - stack_size) (op_ptr stk) stack_size (K_RWO flags) :: (seg_req hh nb <$> segs).

Lemma map_both {B} hh nb stack_va stk segs physid aps aps' vid st st' x (k : Machine A -> ApList -> Z -> outcome B) :
  assign aps physid = (aps', vid) -> stack_va = gleam_base - per_cpu_data * vid ->
  0 <= per_cpu_data * vid -> stack_size <= stack_va ->
  Forall (req_ok lim) (reloc_reqs hh nb stack_va stk segs) ->
  map_reqs g (reloc_reqs hh nb stack_va stk segs) st = Ret (st', x) ->
  ('(st, aps, va) ← map_stack physid stk aps st; st ← map_segments hh nb segs st; k st aps va) =
  match x with Ok _ => k st' aps' stack_va | Err _ => Panic end.
Proof.
  intros Has -> Hv Hs Hok. apply Forall_cons in Hok as [_ Hok]. unfold map_stack. rewrite Has.
  assert (0 <= gleam_base < 2 ^ 64) as Hg by (apply Z.mod_pos_bound; lia).
  assert (0 < stack_size) as Hss by (unfold stack_size; lia).
  rewrite umul_ok, Ret_bind by lia. rewrite usub_ok, Ret_bind by lia. rewrite usub_ok, Ret_bind by lia.
  cbn [map_reqs reloc_reqs mq_va mq_pa mq_size mq_fl]. rewrite map_expect_run. unfold or_panic.
  destruct (map_range g _ _ _ _ st) as [[st1 [u|e]]| |]; rewrite ?Ret_bind; [|by intros [= <- <-]|done..].
  intros Hm. rewrite map_segments_reqs, Hm; [unfold or_panic; rewrite Ret_bind; by destruct x|].
  eapply Forall_impl; [exact Hok|]. intros r [Hr [Hp _] _]. pose proof page_size_pos. lia.
Qed.

(** [reloc], with what happens to every page-table entry. *)
Lemma reloc_run (s : RelocSt (Machine A)) kinfo segs physid spark hh nb stk st1 st2 τ aps vid img v es :
  hihalf = Ret hh ->
  vm_alloc (rl_st s) (AllocParams_as_type (AllocParams_new (ki_size kinfo)) Kernel) = Ret (st1, Some nb) ->
  vm_alloc st1 (AllocParams_as_type (AllocParams_new stack_size) KernelData) = Ret (st2, Some stk) ->
  GInv lim g st2 τ -> assign (rl_aps s) physid = (aps, vid) ->
  let stack_va := gleam_base - per_cpu_data * vid in
  let reqs := reloc_reqs hh (op_ptr nb) stack_va stk segs in
  let B := rl_kbase s in let size := ki_size kinfo in
  0 <= per_cpu_data * vid -> stack_size <= stack_va ->
  Forall (req_ok lim) reqs -> no_shared reqs ->
  linked img size (ki_dyn_ptr kinfo) (ki_dyn_len kinfo) v es -> base_ok img size v es hh ->
  loaded img (ki_dyn_ptr kinfo) (ki_dyn_len kinfo) v es B (rl_mem s) ->
  0 <= B <= hh -> 0 <= op_ptr nb /\ op_ptr nb + size < 2 ^ 64 ->
  B + size <= op_ptr nb \/ op_ptr nb + size <= B -> B <= spark < B + size ->
  (reloc kinfo segs physid spark s = Panic /\ failed_req g reqs st2 Failed2Alloc) \/
  exists s' τ', reloc kinfo segs physid spark s = Ret (s', stack_va, hh + (spark - B)) /\
    rl_kbase s' = op_ptr nb /\ rl_aps s' = aps /\ GInv lim g (rl_st s') τ' /\ evolves st2 τ (rl_st s') τ' /\
    all_entered reqs st2 τ (rl_st s') τ' /\
    (forall e, e ∈ es -> applies e = true -> load 8 (rl_mem s') (op_ptr nb + re_offset e) = hh + rela_off img v e) /\
    (forall x, 0 <= x < size -> ~ some_slot es x -> rl_mem s' (op_ptr nb + x) = rl_mem s (B + x)).
Proof.
  intros Hhh Hnb Hstk HG Has stack_va reqs B size Hv Hss Hok Hns Hlk HB Hld HBh Hnr Hdis Hsp.
  destruct (map_reqs_entries lim Hcfg Hlim g reqs st2 τ HG Hok Hns) as (st' & x & τ' & Hrun & HG' & Hx & Hev).
  unfold reloc, alloc_expect. rewrite Hhh, Ret_bind, Hnb. cbn [unwrap]. rewrite !Ret_bind. cbn [unwrap]. rewrite !Ret_bind, Hstk.
  rewrite !Ret_bind. cbn [unwrap]. rewrite !Ret_bind.
  rewrite (map_both hh (op_ptr nb) stack_va stk segs physid (rl_aps s) aps vid st2 st' x) by done.
  destruct x as [u|[]]; [right|left; by split].
  pose proof (bo_range _ _ _ _ _ HB) as HBr.
  rewrite usub_ok, Ret_bind by lia. rewrite uadd_ok, Ret_bind by lia.
  destruct (move_image_run img size _ _ v es Hlk kinfo B (op_ptr nb) hh (rl_mem s) eq_refl eq_refl eq_refl HB HBh Hld Hnr Hdis)
    as (m' & Hmv & _ & Hin & Hw). fold B. rewrite Hmv, Ret_bind.
  replace (spark + (hh - B)) with (hh + (spark - B)) by lia.
  eexists _, τ'. split; [done|]. by split_and!.
Qed.

End RelocSpec.
