(* ===== verification/RelocDemo.v ===== *)
(** * RelocDemo: a kernel of two segments, loaded and moved

    A file with a page of tables (dynamic section, two relocations, a symbol)
    and a page of data with the two words that they relocate. *)

From S2P Require Import Prelude Kargs Rvm RamUtil Physalloc RvmFacts Glacier GlacierSpec GlacierThms.
From S2P Require Import PhysallocThms GlacierRange Heap GlacierMaps Aps Bytes Memory Elf Flint Reloc.
From S2P Require Import ImageThms FlintThms RelocThms.

Module RelocDemo.
#[local] Existing Instance Demo.demo.
#[local] Existing Instance Bump.frames.
#[local] Existing Instance Bump.laws.

Definition words (ws : list Z) : list Z := ws ≫= le_put 8.
(** Offset 0: the dynamic section; 0x50: two relocations; 0x80: the symbol
    table with one undefined symbol and one at 0x1234. *)
Definition tables : list Z :=
  words [DT_RELA; 0x50; DT_RELASZ; 48; DT_SYMTAB; 0x80; DT_STRTAB; 0x50; DT_NULL; 0;
         0x1000; 8; 0x1100;  0x1008; 2 ^ 32 + 6; 2 ^ 64 - 4;
         0; 0; 0;  0; 0x1234; 8].
Definition data : list Z := words [0; 0; 7].
Definition file0 : list Z := tables ++ data.
Definition ph0 : ProgramHeader := mkPh PhLoad 0 0xb0 0x1000 0 5 0x1000.
Definition ph1 : ProgramHeader := mkPh PhLoad 0xb0 24 0x1000 0x1000 6 0x1000.
Definition phd : ProgramHeader := mkPh PhDynamic 0 0x50 0x50 0 6 8.
Definition elf0 : ElfFile := mkElf 0x900 [ph0; ph1; phd].

Definition img (x : Z) : Z :=
  if x <? 0x1000 then nth (Z.to_nat x) tables 0 else nth (Z.to_nat (x - 0x1000)) data 0.

Definition v0 : DynVars := mkDynVars 0x50 48 0x80 0x50.
Definition e0 : RelaEntry := mkRela 0x1000 8 0x1100.
Definition e1 : RelaEntry := mkRela 0x1008 (2 ^ 32 + 6) (2 ^ 64 - 4).
Definition es0 : list RelaEntry := [e0; e1].

Lemma es_cases e : e ∈ es0 -> e = e0 \/ e = e1.
Proof. intros [->|[->|Hn]%elem_of_cons]%elem_of_cons; [by left|by right|by apply elem_of_nil in Hn]. Qed.

Lemma nth_is_byte l i : Forall is_byte l -> is_byte (nth i l 0).
Proof.
  intros Hl. rewrite nth_lookup. destruct (l !! i) as [b|] eqn:Hi; [|done]. by apply (Forall_lookup_1 _ _ _ _ Hl Hi).
Qed.
Lemma words_bytes ws : Forall is_byte (words ws).
Proof. apply Forall_bind, Forall_true. intros w. apply le_put_bytes. Qed.

Lemma linked0 : linked img 0x2000 0 5 v0 es0.
Proof.
  constructor.
  - vm_compute. reflexivity.
  - vm_compute. reflexivity.
  - intros [|[|i]] [|[|j]] e e' Hi Hj Hne _ _; cbn in Hi, Hj; try done; injection Hi as <-; injection Hj as <-; cbn; lia.
  - intros x. unfold img. destruct (x <? 0x1000); apply nth_is_byte; apply words_bytes.
  - vm_compute. split_and!; discriminate.
  - vm_compute. split; discriminate.
  - vm_compute. split; discriminate.
  - intros e [-> | ->]%es_cases; vm_compute; split; discriminate.
  - intros e [-> | ->]%es_cases _ _; vm_compute; discriminate.
  - intros x (e & [-> | ->]%es_cases & _ & Hx); cbn in Hx; unfold size_of_DynEntry, size_of_RelaEntry, size_of_SymEntry; cbn [v0 rela_ptr length es0];
      (split_and!; [lia|lia|]); intros e [-> | ->]%es_cases _ _; unfold sym_of, size_of_SymEntry; cbn [symtab v0 re_info e0 e1];
      change (Z.shiftr 8 32) with 0; change (Z.shiftr (2 ^ 32 + 6) 32) with 1; lia.
Qed.

Lemma base0 B : 0 <= B < 2 ^ 64 - 2 ^ 20 -> base_ok img 0x2000 v0 es0 B.
Proof.
  intros HB. constructor; [lia| |].
  - intros e [-> | ->]%es_cases _; [change (rela_off img v0 e0) with 0x1100|change (rela_off img v0 e1) with 0x1230]; lia.
  - intros e [-> | ->]%es_cases _ _; [change (sy_value _) with 0|change (sy_value _) with 0x1234]; lia.
Qed.

(** ** The loader *)

Definition uuid0 : list Z := seqZ 1 16.
Definition disk_block : list Z := b_efi_part ++ replicate 48 0 ++ uuid0 ++ replicate 440 0.

(** Pages are handed out from the bottom up; one disk. *)
#[local] Instance uefi : Uefi Z := {|
  unix_file := fun _ => Some (Some file0);
  elf_new := fun file => if bool_decide (file = file0) then Some elf0 else None;
  allocate_pages := fun n next => (next + 0x1000 * n, Some next);
  free_pages := fun _ _ next => next;
  config_table := fun _ => [mkCfg ACPI_GUID 0xe0000; mkCfg ACPI2_GUID 0xe1000];
  block_handles := fun _ => Some [mkBlockHandle true true 512 None; mkBlockHandle true false 512 (Some disk_block)];
  exit_boot_services := fun _ => (0xf0000, 5)
|}.

Definition mem0 : Mem := fun _ => 0.

Lemma phs0 : phs_ok file0 0x2000 (program_iter elf0).
Proof.
  split.
  - intros ph [->|[->|[->|Hn]%elem_of_cons]%elem_of_cons]%elem_of_cons Hl;
      [..|by apply elem_of_nil in Hn]; constructor; try (vm_compute; split; discriminate); try (vm_compute; discriminate); done.
  - intros [|[|[|i]]] [|[|[|j]]] ph ph' x Hi Hj Hl Hl' Hx Hx'; cbn in Hi, Hj; simplify_eq; try done;
      unfold in_ph in *; cbn in *; lia.
Qed.

Lemma image0 : file_image file0 0x2000 (program_iter elf0) mem0 0x101000 img.
Proof.
  assert (length tables = 176%nat) as Ht by done. assert (length data = 24%nat) as Hd by done.
  constructor.
  - intros ph y [->|[->|[->|Hn]%elem_of_cons]%elem_of_cons]%elem_of_cons Hl Hy; [| |done|by apply elem_of_nil in Hn];
      cbn [ph0 ph1 ph_virtual_addr ph_mem_size] in *; unfold seg_byte, img; cbn [ph0 ph1 ph_file_size ph_offset].
    + rewrite (proj2 (Z.ltb_lt _ _)) by lia. destruct (Z.ltb_spec y 176).
      * unfold file0. by rewrite app_nth1 by lia.
      * by rewrite nth_overflow by lia.
    + rewrite (proj2 (Z.ltb_ge _ _)) by lia. replace (0x1000 + y - 0x1000) with y by lia. destruct (Z.ltb_spec y 24).
      * unfold file0. rewrite app_nth2 by lia. f_equal. lia.
      * by rewrite nth_overflow by lia.
  - intros x Hx Hn. exfalso. destruct (Z.ltb_spec x 0x1000).
    + apply (Hn ph0); [by left|done|]. unfold in_ph. cbn. lia.
    + apply (Hn ph1); [right; by left|done|]. unfold in_ph. cbn. lia.
Qed.

Lemma flint_spec_witness :
  exists en, flint 0x100000 mem0 = Ret (0x105000, en) /\
    en_ignite en = 0x101000 + 0x900 /\ en_segs en = seg_of <$> List.filter is_load (program_iter elf0) /\
    ka_kbase (en_kargs en) = 0x101000 /\
    ka_kernel (en_kargs en) = mkKernelInfo 0x2000 0x900 0x103000 (Z.of_nat (length (en_segs en))) 0 5 /\
    si_disk_uuid (ka_sys (en_kargs en)) = uuid0 /\
    loaded img 0 5 v0 es0 0x101000 (en_mem en) /\
    (forall ph y, ph ∈ program_iter elf0 -> is_load ph = true -> 0 <= y < ph_mem_size ph ->
       ~ some_slot es0 (ph_virtual_addr ph + y) -> en_mem en (0x101000 + (ph_virtual_addr ph + y)) = seg_byte file0 ph y) /\
    (forall a, (forall ph, ph ∈ program_iter elf0 -> is_load ph = true -> ~ in_ph ph (a - 0x101000)) ->
       ~ some_slot es0 (a - 0x101000) -> en_mem en a = mem0 a).
Proof.
  apply (flint_spec 0x100000 mem0 file0 elf0 0x2000 2 0x101000 0x101000 0x103000 0x103000 0x104000 0x105000 uuid0 img v0 es0);
    [vm_compute; reflexivity..|apply phs0|apply image0|apply linked0|by apply base0|done].
Defined.

(** ** Moving it *)

Definition kinfo0 : KernelInfo := mkKernelInfo 0x2000 0x900 0x103000 2 0 5.
Definition hh0 : Z := 0xffff800000000000.
(** The image as it is before relocation, at an address. *)
Definition at_base (B : Z) : Mem := fun a => if (B <=? a) && (a <? B + 0x2000) then img (a - B) else 0.

Lemma at_base_placed B : placed img 0x2000 B (at_base B).
Proof.
  intros x Hx. unfold at_base. rewrite (proj2 (Z.leb_le _ _)), (proj2 (Z.ltb_lt _ _)) by lia. cbn. f_equal. lia.
Qed.

Lemma move_as_loaded_witness :
  exists ml mh', relocate_image 0x101000 0 5 (at_base 0x101000) = Ret ml /\ relocate_image hh0 0 5 (at_base hh0) = Ret mh' /\
    forall m, (forall x, some_slot es0 x \/ 0 <= x < 0 + size_of_DynEntry * 5 \/
        rela_ptr v0 <= x < rela_ptr v0 + size_of_RelaEntry * Z.of_nat (length es0) -> m (0x101000 + x) = ml (0x101000 + x)) ->
    exists m', move_image kinfo0 0x101000 0x200000 (hh0 - 0x101000) m = Ret m' /\
      (forall a, ~ (0x200000 <= a < 0x200000 + 0x2000) -> m' a = m a) /\
      (forall e, e ∈ es0 -> applies e = true -> load 8 m' (0x200000 + re_offset e) = load 8 mh' (hh0 + re_offset e)) /\
      (forall x, 0 <= x < 0x2000 -> ~ some_slot es0 x -> m' (0x200000 + x) = m (0x101000 + x)).
Proof.
  apply (move_as_loaded img 0x2000 0 5 v0 es0 kinfo0 0x101000 hh0 0x200000); try reflexivity;
    [apply linked0|by apply base0|by apply base0|done|apply at_base_placed|apply at_base_placed|done|by left].
Defined.

(** The loader's words in the image at 0x101000. *)
Definition booted : Mem := store 8 (store 8 (at_base 0x101000) 0x102000 0x102100) 0x102008 0x102230.

Lemma loaded0 : loaded img 0 5 v0 es0 0x101000 booted.
Proof.
  assert (forall x, 0 <= x < 0x1000 -> booted (0x101000 + x) = img x) as Hb.
  { intros x Hx. unfold booted. rewrite !store_other by lia. apply at_base_placed. lia. }
  constructor.
  - intros x Hx. apply Hb. unfold size_of_DynEntry in Hx. lia.
  - intros x Hx. apply Hb. unfold size_of_RelaEntry in Hx. cbn in Hx. lia.
  - intros e [-> | ->]%es_cases _; vm_compute; reflexivity.
Qed.

Definition segs0 : list Segment := [mkSegment 0 0x1000 5 0x1000; mkSegment 0x1000 0x1000 6 0x1000].
Definition start : RelocSt (Machine Z) := mkRelocSt (Bump.machine 0x200000) ApList_new 0x101000 0 booted.
Definition stack0 : Z := gleam_base - per_cpu_data * 0.
Definition reqs0 : list MapReq := reloc_reqs hh0 0x200000 stack0 (mkOwnedPtr 0x202000 0x4000) segs0.

Lemma reqs_ok : Forall (req_ok Bump.all) reqs0.
Proof. repeat apply Forall_cons_2; [apply Bump.req_okb_ok; vm_compute; reflexivity..|apply Forall_nil_2]. Qed.

Lemma reqs_apart : no_shared reqs0.
Proof. apply no_shared_vpns. apply (bool_decide_unpack _). vm_compute. exact I. Qed.


(** It does not run out of frames, and jumps to the copy. *)
Lemma reloc_runs :
  match reloc (KernelVm0 := Machine_KernelVm Bump.g) kinfo0 segs0 0 0x101904 start with
  | Ret (s', sp, pc) => Some (sp, pc, get_pa Bump.g 0xffff800000001000 (rl_st s'), load 8 (rl_mem s') 0x201008)
  | _ => None
  end = Some (0xfffffffffffc0000, 0xffff800000000904, Ret (Some 0x8000000000201000), 0xffff800000001230).
Proof. vm_compute. reflexivity. Qed.
End RelocDemo.
