(* ===== verification/Locks.v ===== *)
(** * Locks: interrupt-safe locks (ram/mutex.rs)

    [IntLock] and [IntRwLock] wrap a lock of the lock_api crate: the
    interrupt flag of the processor is saved and cleared before the lock is
    waited for, and restored after it is given back.  The crate's locks are an
    interface; the flag is that of either architecture ([get] and [set] of
    arch/*/exc.rs).  The processors run concurrently: a step is one access to
    a flag or to a lock, or an interrupt. *)

From S2P Require Import Prelude.

(** ** The interrupt flag *)

(** [exc::get] and [exc::set] over the register that holds the flag. *)
Class ExcFlag (R : Type) : Type := {
  exc_get : R -> bool;
  exc_set : bool -> R -> R
}.

Class ExcFlagLaws (R : Type) `{ExcFlag R} : Prop := {
  exc_get_set : forall b r, exc_get (exc_set b r) = b;
  exc_set_set : forall b b' r, exc_set b (exc_set b' r) = exc_set b r
}.

(** arch/amd64/exc.rs: [pushfq], [cli] and [sti]. *)
Record Rflags : Type := mkRflags { rflags : Z }.
Definition get_amd64 (r : Rflags) : bool := negb (Z.land (rflags r) (Z.shiftl 1 9) =? 0).
Definition set_amd64 (enabled : bool) (r : Rflags) : Rflags :=
  mkRflags (if enabled then Z.lor (rflags r) (Z.shiftl 1 9) else Z.ldiff (rflags r) (Z.shiftl 1 9)).
#[export] Instance ExcFlag_amd64 : ExcFlag Rflags := {| exc_get := get_amd64; exc_set := set_amd64 |}.

(** arch/aarch64/exc.rs: [mrs daif], [msr daifset] and [msr daifclr]. *)
Record Daif : Type := mkDaif { daif : Z }.
Definition get_aarch64 (r : Daif) : bool := Z.land (daif r) (Z.shiftl 15 6) =? 0.
Definition set_aarch64 (enabled : bool) (r : Daif) : Daif :=
  mkDaif (if enabled then Z.ldiff (daif r) (Z.shiftl 15 6) else Z.lor (daif r) (Z.shiftl 15 6)).
#[export] Instance ExcFlag_aarch64 : ExcFlag Daif := {| exc_get := get_aarch64; exc_set := set_aarch64 |}.

(** ** The locks of the crate *)

Inductive kind : Type := Exclusive | Shared.
#[export] Instance kind_eq_dec : EqDecision kind.
Proof. solve_decision. Defined.

(** [RawMutex] (exclusive only) and [RawRwLock]; [raw_lock] is [None] as long
    as the caller has to wait. *)
Class RawLock (L : Type) : Type := {
  raw_INIT : L;
  raw_lock : kind -> L -> option L;
  raw_unlock : kind -> L -> L
}.

(** Who may join those who hold the lock. *)
Definition compat (k : kind) (ks : list kind) : Prop :=
  match k with Exclusive => ks = [] | Shared => Exclusive ∉ ks end.

(** The documented behaviour: the lock keeps the list of its holders. *)
Class RawLockLaws (L : Type) `{RawLock L} : Type := {
  holders : L -> list kind;
  holders_INIT : holders raw_INIT = [];
  holders_lock : forall k l l', raw_lock k l = Some l' ->
    compat k (holders l) /\ holders l' ≡ₚ k :: holders l;
  holders_unlock : forall k l ks, holders l ≡ₚ k :: ks -> holders (raw_unlock k l) ≡ₚ ks;
  holders_progress : forall k l, holders l = [] -> is_Some (raw_lock k l)
}.

(** ** Processors and steps *)

Section Locks.
Context {R L : Type} `{ExcFlag R} `{RawLock L}.

(** What a processor is in the middle of, the innermost first.  A guard is
    one of [IntLockGuard], [IntRwReadGuard] and [IntRwWriteGuard]: the lock,
    how it is held, and the saved flag.  [Locking] is a call of [lock],
    [read] or [write] that has cleared the flag and waits; [Dropping] is a
    [drop] that has given the lock back; [Irq] is an interrupt handler with
    the register that the processor saved. *)
Inductive frame : Type :=
  | Locking (l : nat) (k : kind) (exc_flag : bool)
  | Guard (l : nat) (k : kind) (exc_flag : bool)
  | Dropping (exc_flag : bool)
  | Irq (saved : R).

Record Cpu : Type := mkCpu { cpu_reg : R; cpu_stack : list frame }.
Record Sys : Type := mkSys { sys_locks : nat -> L; sys_cpus : list Cpu }.

(** The code of the kernel runs: it is not inside one of the functions. *)
Definition running (st : list frame) : bool :=
  match st with Locking _ _ _ :: _ | Dropping _ :: _ => false | _ => true end.

(** [let exc_flag = exc::get(); exc::set(false);] *)
Definition enter (l : nat) (k : kind) (c : Cpu) : Cpu :=
  mkCpu (exc_set false (cpu_reg c)) (Locking l k (exc_get (cpu_reg c)) :: cpu_stack c).
Definition IntLock_lock (l : nat) : Cpu -> Cpu := enter l Exclusive.
Definition IntRwLock_read (l : nat) : Cpu -> Cpu := enter l Shared.
Definition IntRwLock_write (l : nat) : Cpu -> Cpu := enter l Exclusive.

(** [IntLock::new], [IntRwLock::new] *)
Definition IntLock_new : L := raw_INIT.

Definition set_lock (f : nat -> L) (l : nat) (x : L) : nat -> L :=
  fun l' => if decide (l' = l) then x else f l'.

(** One step of one processor. *)
Inductive cpu_step (f : nat -> L) : Cpu -> (nat -> L) -> Cpu -> Prop :=
  | step_lock c l : running (cpu_stack c) = true -> cpu_step f c f (IntLock_lock l c)
  | step_read c l : running (cpu_stack c) = true -> cpu_step f c f (IntRwLock_read l c)
  | step_write c l : running (cpu_stack c) = true -> cpu_step f c f (IntRwLock_write l c)
  | step_acquired r st l k b x :
      raw_lock k (f l) = Some x ->
      cpu_step f (mkCpu r (Locking l k b :: st)) (set_lock f l x) (mkCpu r (Guard l k b :: st))
  (** [ManuallyDrop::drop(&mut self.guard)] *)
  | step_drop r st l k b :
      cpu_step f (mkCpu r (Guard l k b :: st)) (set_lock f l (raw_unlock k (f l)))
        (mkCpu r (Dropping b :: st))
  (** [exc::set(self.exc_flag)] *)
  | step_restore r st b :
      cpu_step f (mkCpu r (Dropping b :: st)) f (mkCpu (exc_set b r) st)
  (** The processor takes an interrupt, and returns from it. *)
  | step_irq r st :
      exc_get r = true -> cpu_step f (mkCpu r st) f (mkCpu (exc_set false r) (Irq r :: st))
  | step_iret r r' st : cpu_step f (mkCpu r (Irq r' :: st)) f (mkCpu r' st)
  (** Other code masks interrupts ([halt], [exit_proc]), or enables them
      ([wfi], which no caller of a lock calls). *)
  | step_mask r st : running st = true -> cpu_step f (mkCpu r st) f (mkCpu (exc_set false r) st)
  | step_unmask r st :
      Forall (fun x => match x with Irq _ => True | _ => False end) st ->
      cpu_step f (mkCpu r st) f (mkCpu (exc_set true r) st).

Inductive step (s : Sys) : Sys -> Prop :=
  | step_cpu i c f' c' :
      sys_cpus s !! i = Some c -> cpu_step (sys_locks s) c f' c' ->
      step s (mkSys f' (<[i := c']> (sys_cpus s))).

(** At the start no lock is held; the flags are as the firmware left them. *)
Definition initial (s : Sys) : Prop :=
  (forall l, sys_locks s l = IntLock_new) /\ Forall (fun c => cpu_stack c = []) (sys_cpus s).

Definition reachable (s0 s : Sys) : Prop := initial s0 /\ rtc step s0 s.
End Locks.
Arguments frame R : clear implicits.
Arguments Cpu R : clear implicits.
Arguments Sys R L : clear implicits.

(** * What the interrupt-safe locks guarantee

    An invariant of all interleavings of the processors and their
    interrupts: a processor whose interrupts are enabled holds no lock and
    waits for none, so that a handler never finds a lock held by the code it
    interrupted; and the holders of a lock are the guards that exist. *)

(** ** The flag of the two architectures *)

Lemma land_bit x n : 0 <= n -> Z.land x (Z.shiftl 1 n) = if Z.testbit x n then Z.shiftl 1 n else 0.
Proof.
  intros Hn. apply Z.bits_inj'. intros m Hm. rewrite Z.land_spec, Z.shiftl_1_l, Z.pow2_bits_eqb by done.
  destruct (Z.eqb_spec n m) as [->|Hne].
  - destruct (Z.testbit x m); [by rewrite Z.pow2_bits_true|by rewrite Z.bits_0].
  - rewrite andb_false_r. destruct (Z.testbit x n); [by rewrite Z.pow2_bits_false|by rewrite Z.bits_0].
Qed.

#[export] Instance ExcFlagLaws_amd64 : ExcFlagLaws Rflags.
Proof.
  assert (forall n : Z, 0 <= n -> Z.shiftl 1 n <> 0) as Hnz.
  { intros n Hn. rewrite Z.shiftl_1_l. pose proof (Z.pow_pos_nonneg 2 n). lia. }
  split; intros b; [intros [r]|intros b' [r]]; cbn.
  - unfold get_amd64, set_amd64. cbn [rflags]. rewrite land_bit by done. specialize (Hnz 9 ltac:(done)).
    assert (Z.testbit (Z.shiftl 1 9) 9 = true) as Ht by done.
    destruct b; rewrite ?Z.lor_spec, ?Z.ldiff_spec, Ht.
    + rewrite orb_true_r. by destruct (Z.eqb_spec (Z.shiftl 1 9) 0).
    + by rewrite andb_false_r.
  - unfold set_amd64. cbn [rflags]. f_equal. destruct b, b'; apply Z.bits_inj'; intros m _;
      rewrite ?Z.lor_spec, ?Z.ldiff_spec, ?Z.lor_spec, ?Z.ldiff_spec;
      by destruct (Z.testbit r m), (Z.testbit (Z.shiftl 1 9) m).
Qed.

#[export] Instance ExcFlagLaws_aarch64 : ExcFlagLaws Daif.
Proof.
  split; intros b; [intros [r]|intros b' [r]]; cbn.
  - unfold get_aarch64, set_aarch64. destruct b; cbn [daif].
    + rewrite (proj2 (Z.eqb_eq _ _)); [done|]. apply Z.bits_inj'. intros m _.
      rewrite Z.land_spec, Z.ldiff_spec, Z.bits_0. by destruct (Z.testbit r m), (Z.testbit (Z.shiftl 15 6) m).
    + apply Z.eqb_neq. intros He. assert (Z.testbit (Z.land (Z.lor r (Z.shiftl 15 6)) (Z.shiftl 15 6)) 6 = true) as Hb.
      { rewrite Z.land_spec, Z.lor_spec. change (Z.testbit (Z.shiftl 15 6) 6) with true. by rewrite orb_true_r. }
      rewrite He, Z.bits_0 in Hb. done.
  - unfold set_aarch64. cbn [daif]. f_equal. destruct b, b'; apply Z.bits_inj'; intros m _;
      rewrite ?Z.lor_spec, ?Z.ldiff_spec, ?Z.lor_spec, ?Z.ldiff_spec;
      by destruct (Z.testbit r m), (Z.testbit (Z.shiftl 15 6) m).
Qed.

Section LocksThms.
Context {R L : Type} `{!ExcFlag R} `{!ExcFlagLaws R} `{!RawLock L} `{!RawLockLaws L}.
Abbreviation frame := (frame R).
Abbreviation Cpu := (Cpu R).
Abbreviation Sys := (Sys R L).
Implicit Types (st : list frame) (s : Sys) (c : Cpu).

(** A frame of the functions of the locks. *)
Definition is_lock (x : frame) : Prop := match x with Irq _ => False | _ => True end.
Definition no_locks st : Prop := Forall (fun x => ~ is_lock x) st.

(** Wherever a saved flag would enable interrupts, nothing below is a lock;
    below an interrupt handler there is none in any case. *)
Fixpoint frames_ok st : Prop :=
  match st with
  | [] => True
  | Irq _ :: st => no_locks st /\ frames_ok st
  | (Locking _ _ b | Guard _ _ b | Dropping b) :: st => (b = true -> no_locks st) /\ frames_ok st
  end.

Definition cpu_ok c : Prop :=
  (exc_get (cpu_reg c) = true -> no_locks (cpu_stack c)) /\ frames_ok (cpu_stack c).

(** The guards of a lock. *)
Definition held (l : nat) (x : frame) : list kind :=
  match x with Guard l' k _ => if decide (l' = l) then [k] else [] | _ => [] end.
Definition all_held s (l : nat) : list kind := sys_cpus s ≫= fun c => cpu_stack c ≫= held l.

Record inv s : Prop := {
  i_cpu : forall i c, sys_cpus s !! i = Some c -> cpu_ok c;
  i_held : forall l, holders (sys_locks s l) ≡ₚ all_held s l;
  i_excl : forall l, Exclusive ∈ all_held s l -> all_held s l = [Exclusive]
}.

Lemma masked_ok st : frames_ok st -> forall r, cpu_ok (mkCpu (exc_set false r) st).
Proof. intros Hf r. split; [|done]. cbn. rewrite exc_get_set. done. Qed.

Lemma irqs_no_locks st :
  Forall (fun x : frame => match x with Irq _ => True | _ => False end) st -> no_locks st.
Proof. intros Hf. eapply Forall_impl; [exact Hf|]. intros []; cbn; tauto. Qed.

Lemma cpu_step_ok f c f' c' : cpu_step f c f' c' -> cpu_ok c -> cpu_ok c'.
Proof.
  intros Hs [Hr Hf]. destruct Hs; cbn [cpu_reg cpu_stack] in *.
  1-3: apply masked_ok; by split.
  - by split; [intros Hx; specialize (Hr Hx); inversion Hr|].
  - destruct Hf as [Hb Hf]. split; [intros Hx; specialize (Hr Hx); inversion Hr; cbn in *; tauto|by split].
  - destruct Hf as [Hb Hf]. split; [|done]. cbn. rewrite exc_get_set. exact Hb.
  - apply masked_ok. split; [by apply Hr|done].
  - destruct Hf as [Hn Hf]. by split.
  - by apply masked_ok.
  - split; [intros _; by apply irqs_no_locks|done].
Qed.

(** What a step of a processor does to its guards and to the locks. *)
Lemma cpu_step_held f c f' c' l :
  cpu_step f c f' c' ->
  let h c := cpu_stack c ≫= held l in
  (f' l = f l /\ h c' = h c) \/
  (exists k x, raw_lock k (f l) = Some x /\ f' l = x /\ h c' = k :: h c) \/
  (exists k, f' l = raw_unlock k (f l) /\ h c = k :: h c').
Proof.
  intros Hs h. unfold h. destruct Hs; cbn [cpu_stack IntLock_lock IntRwLock_read IntRwLock_write enter];
    rewrite ?bind_cons; cbn [held app]; try (by left).
  - destruct (decide (l0 = l)) as [->|Hne].
    + right. left. exists k, x. unfold set_lock. by rewrite decide_True.
    + left. unfold set_lock. by rewrite decide_False.
  - destruct (decide (l0 = l)) as [->|Hne].
    + right. right. exists k. unfold set_lock. by rewrite decide_True.
    + left. unfold set_lock. by rewrite decide_False.
Qed.

Lemma all_held_split cpus i c :
  cpus !! i = Some c -> exists rest : (Cpu -> list kind) -> list kind, forall g,
    (cpus ≫= g) ≡ₚ g c ++ rest g /\ forall c', (<[i := c']> cpus ≫= g) ≡ₚ g c' ++ rest g.
Proof.
  intros Hi. apply list_elem_of_split_length in Hi as (l1 & l2 & -> & ->).
  exists (fun g => (l1 ≫= g) ++ (l2 ≫= g)). intros g. split; [|intros c'];
    rewrite ?insert_app_r_alt, ?Nat.sub_diag by done; cbn [list_insert insert];
    rewrite bind_app, bind_cons; apply Permutation_app_swap_app.
Qed.

Lemma excl_alone (ks ks' : list kind) :
  ks ≡ₚ ks' -> (Exclusive ∈ ks -> ks = [Exclusive]) -> Exclusive ∈ ks' -> ks' = [Exclusive].
Proof.
  intros Hp Hk Hin. rewrite <- Hp in Hin. specialize (Hk Hin). subst ks.
  by apply Permutation_length_1_inv in Hp.
Qed.

(** The holders of one lock when the guards of one processor change. *)
Lemma step_lock_ok (x x' : L) (h h' rest all all' : list kind) :
  all ≡ₚ h ++ rest -> all' ≡ₚ h' ++ rest ->
  holders x ≡ₚ all -> (Exclusive ∈ all -> all = [Exclusive]) ->
  (x' = x /\ h' = h) \/ (exists k y, raw_lock k x = Some y /\ x' = y /\ h' = k :: h) \/
  (exists k, x' = raw_unlock k x /\ h = k :: h') ->
  holders x' ≡ₚ all' /\ (Exclusive ∈ all' -> all' = [Exclusive]).
Proof.
  intros Ha Ha' Hx Hex Hs. destruct Hs as [[-> ->]|[(k & y & Hl & -> & ->)|(k & -> & ->)]].
  - assert (all ≡ₚ all') as Haa by (rewrite Ha; done).
    split; [by rewrite <- Haa|]. by apply (excl_alone all).
  - destruct (holders_lock k x y Hl) as [Hc Hy].
    assert (all' ≡ₚ k :: all) as Haa by (rewrite Ha, Ha'; done).
    split; [by rewrite Hy, Haa, Hx|]. apply (excl_alone (k :: all)); [done|].
    intros Hin. destruct k.
    + cbn in Hc. rewrite Hc in Hx. apply Permutation_nil in Hx. by subst.
    + exfalso. cbn in Hc. apply elem_of_cons in Hin as [|Hin]; [done|]. apply Hc. by rewrite Hx.
  - assert (all ≡ₚ k :: all') as Haa by (rewrite Ha, Ha'; done).
    split; [apply holders_unlock; by rewrite Hx|]. intros Hin.
    assert (Exclusive ∈ all) as Hin2 by (rewrite Haa; by right). specialize (Hex Hin2). subst all.
    apply Permutation_length_1_inv in Haa. injection Haa as -> ->. by apply elem_of_nil in Hin.
Qed.

Lemma step_inv s s' : step s s' -> inv s -> inv s'.
Proof.
  intros [i c f' c' Hi Hs] [Hc Hh He]. pose proof (Hc i c Hi) as Hok.
  destruct (all_held_split (sys_cpus s) i c Hi) as (rest & Hrest).
  assert (forall l, holders (f' l) ≡ₚ all_held (mkSys f' (<[i := c']> (sys_cpus s))) l /\
    (Exclusive ∈ all_held (mkSys f' (<[i := c']> (sys_cpus s))) l ->
     all_held (mkSys f' (<[i := c']> (sys_cpus s))) l = [Exclusive])) as Hl.
  { intros l. destruct (Hrest (fun c => cpu_stack c ≫= held l)) as [Ha Ha'].
    apply (step_lock_ok (sys_locks s l) (f' l) _ _ _ (all_held s l) _ Ha (Ha' c') (Hh l) (He l)).
    exact (cpu_step_held _ _ _ _ l Hs). }
  constructor; [|intros l; apply Hl..].
  intros j d Hj. cbn in Hj. destruct (decide (i = j)) as [<-|Hne].
  - apply list_lookup_insert_Some in Hj as [(_ & <- & _)|[? _]]; [|done]. by eapply cpu_step_ok.
  - rewrite list_lookup_insert_ne in Hj by done. by eapply Hc.
Qed.

Lemma initial_inv s : initial s -> inv s.
Proof.
  intros [Hl Hc]. rewrite Forall_forall in Hc.
  assert (forall l, all_held s l = []) as Hn.
  { intros l. unfold all_held. destruct (sys_cpus s ≫= _) as [|k ks] eqn:Hk; [done|exfalso].
    assert (k ∈ k :: ks) as Hin by left. rewrite <- Hk in Hin.
    apply list_elem_of_bind in Hin as (c & Hin & Hcs). cbv beta in Hin. rewrite (Hc c Hcs) in Hin. by apply elem_of_nil in Hin. }
  constructor.
  - intros i c Hi. apply list_elem_of_lookup_2 in Hi. pose proof (Hc c Hi) as He.
    destruct c as [r st]. cbn in He. subst st. by repeat constructor.
  - intros l. rewrite Hn, Hl. unfold IntLock_new. by rewrite holders_INIT.
  - intros l. rewrite Hn. intros Hin. by apply elem_of_nil in Hin.
Qed.

Lemma reachable_inv s0 s : reachable s0 s -> inv s.
Proof.
  intros [Hi Hr]. apply initial_inv in Hi. induction Hr as [|s s1 s' Hs _ IH]; [done|].
  apply IH. by eapply step_inv.
Qed.

Lemma frames_ok_below st st1 r st2 : frames_ok st -> st = st1 ++ Irq r :: st2 -> no_locks st2.
Proof.
  intros Hf ->. induction st1 as [|x st1 IH]; [by destruct Hf|].
  apply IH. by destruct x, Hf.
Qed.

(** C20: in every interleaving of the processors, their interrupts and the
    calls of the locks: a processor that can be interrupted holds no guard
    and waits for none; below an interrupt handler there is no guard, so a
    handler never waits for the code that it interrupted; and a guard of an
    [IntLock], or a write guard, excludes every other guard of the lock. *)
Theorem locks_safe s0 s :
  reachable s0 s ->
  (forall i c, sys_cpus s !! i = Some c -> exc_get (cpu_reg c) = true -> no_locks (cpu_stack c)) /\
  (forall i c st1 r st2, sys_cpus s !! i = Some c -> cpu_stack c = st1 ++ Irq r :: st2 -> no_locks st2) /\
  (forall l, Exclusive ∈ all_held s l -> all_held s l = [Exclusive]).
Proof.
  intros Hr. destruct (reachable_inv s0 s Hr) as [Hc _ He]. split_and!; [| |exact He].
  - intros i c Hi. by apply Hc in Hi as [Hi _].
  - intros i c st1 r st2 Hi. apply Hc in Hi as [_ Hf]. by apply frames_ok_below.
Qed.

(** The guards in the innermost context of a processor: up to the first
    interrupted code. *)
Fixpoint context st : list frame :=
  match st with [] => [] | Irq _ :: _ => [] | x :: st => x :: context st end.

Lemma no_locks_guard st l k b : no_locks st -> Guard l k b ∉ st.
Proof. intros Hn Hin. unfold no_locks in Hn. rewrite Forall_forall in Hn. by apply (Hn _ Hin). Qed.

Lemma guard_in_context st l k b : frames_ok st -> Guard l k b ∈ st -> Guard l k b ∈ context st.
Proof.
  induction st as [|x st IH]; intros Hf Hin; [done|].
  apply elem_of_cons in Hin as [<-|Hin]; [by left|].
  destruct x; cbn [context]; try (right; apply IH; [by destruct Hf|done]).
  destruct Hf as [Hn _]. by destruct (no_locks_guard _ _ _ _ Hn Hin).
Qed.

(** a lock that is not free has an owner who can give it back: a guard
    exists, on another processor, or on the same processor in the very code
    that waits (a second call of [lock] without dropping the first guard), and
    never in code that an interrupt handler suspended.  A lock without guards
    is always granted. *)
Theorem lock_owner s0 s l k :
  reachable s0 s ->
  is_Some (raw_lock k (sys_locks s l)) \/
  exists j c k' b, sys_cpus s !! j = Some c /\ Guard l k' b ∈ context (cpu_stack c).
Proof.
  intros Hr. destruct (reachable_inv s0 s Hr) as [Hc Hh _]. specialize (Hh l).
  destruct (all_held s l) as [|k' ks] eqn:Ha.
  - left. apply holders_progress. by apply Permutation_nil_r in Hh.
  - right. assert (k' ∈ all_held s l) as Hin by (rewrite Ha; left).
    apply list_elem_of_bind in Hin as (c & Hin & Hcs). apply list_elem_of_bind in Hin as (x & Hx & Hin).
    apply list_elem_of_lookup_1 in Hcs as [j Hj]. destruct (Hc j c Hj) as [_ Hf].
    destruct x as [| l' k1 b| |]; cbn in Hx; try by apply elem_of_nil in Hx.
    destruct (decide (l' = l)) as [->|]; [|by apply elem_of_nil in Hx].
    exists j, c, k1, b. split; [done|]. by apply guard_in_context.
Qed.

(** Guards have to be dropped in the reverse order of their creation, as
    scopes do: dropping the outer one of two first enables interrupts while
    the inner one is held. *)
Lemma outer_first_enables (r : R) :
  exc_get r = true ->
  let outer := exc_get r in
  let r := exc_set false r in
  let inner := exc_get r in
  let r := exc_set false r in
  exc_get (exc_set outer r) = true /\ exc_get (exc_set inner (exc_set outer r)) = false.
Proof. intros Hr. cbn zeta. rewrite !exc_get_set, Hr. done. Qed.
End LocksThms.

(** ** Witnesses: a lock that counts its readers, on two processors of which
    one is interrupted between two critical sections *)

Module LocksDemo.
Definition spin : Type := list kind.
Fixpoint remove1 (k : kind) (ks : list kind) : list kind :=
  match ks with [] => [] | k' :: ks => if decide (k = k') then ks else k' :: remove1 k ks end.

#[local] Instance spin_lock : RawLock spin := {|
  raw_INIT := [];
  raw_lock := fun k ks =>
    match k with
    | Exclusive => match ks with [] => Some [Exclusive] | _ => None end
    | Shared => if bool_decide (Exclusive ∈ ks) then None else Some (Shared :: ks)
    end;
  raw_unlock := remove1
|}.

Lemma remove1_perm k ks ks' : ks ≡ₚ k :: ks' -> remove1 k ks ≡ₚ ks'.
Proof.
  revert ks'. induction ks as [|k1 ks IH]; intros ks' Hp; cbn.
  { by apply Permutation_nil_l in Hp. }
  case_decide as Hk; [subst; by apply Permutation_cons_inv in Hp|].
  assert (k1 ∈ k :: ks') as Hin by (rewrite <- Hp; left). apply elem_of_cons in Hin as [|Hin]; [done|].
  apply elem_of_Permutation in Hin as [ks2 Hks2]. rewrite Hks2 in Hp |- *.
  apply perm_skip, IH. apply (Permutation_cons_inv (a := k1)). rewrite Hp. by constructor.
Qed.

#[local] Instance spin_laws : RawLockLaws spin.
Proof.
  refine {| holders := fun ks => ks |}; [done| |apply remove1_perm|].
  - intros [] ks l'; cbn.
    + destruct ks; [|done]. by intros [= <-].
    + case_bool_decide; [done|]. by intros [= <-].
  - intros [] ks ->; cbn; by eexists.
Defined.

Definition on : Rflags := mkRflags 0x202.
Definition s0 : Sys Rflags spin := mkSys (fun _ => []) [mkCpu on []; mkCpu on []].
(** Processor 0 is interrupted, and its handler takes lock 7. *)
Definition handler : Cpu Rflags := mkCpu (exc_set false on) [Irq on].
Definition holder : Cpu Rflags := mkCpu (exc_set false (exc_set false on)) [Guard 7 Exclusive false; Irq on].
Definition sa : Sys Rflags spin := mkSys (sys_locks s0) (<[0%nat := handler]> (sys_cpus s0)).
Definition sb : Sys Rflags spin := mkSys (sys_locks sa) (<[0%nat := IntLock_lock 7 handler]> (sys_cpus sa)).
Definition s1 : Sys Rflags spin :=
  mkSys (set_lock (sys_locks sb) 7 [Exclusive]) (<[0%nat := holder]> (sys_cpus sb)).

Lemma run1 : reachable s0 s1.
Proof.
  split; [by repeat constructor|].
  apply (rtc_l _ _ sa); [apply (step_cpu s0 0 (mkCpu on [])); [done|apply step_irq; vm_compute; reflexivity]|].
  apply (rtc_l _ _ sb); [apply (step_cpu sa 0 handler); [done|by apply step_lock]|].
  apply rtc_once, (step_cpu sb 0 (IntLock_lock 7 handler)); [done|]. by apply step_acquired.
Qed.

Lemma locks_safe_witness :
  (forall i c, sys_cpus s1 !! i = Some c -> exc_get (cpu_reg c) = true -> no_locks (cpu_stack c)) /\
  (forall i c st1 r st2, sys_cpus s1 !! i = Some c -> cpu_stack c = st1 ++ Irq r :: st2 -> no_locks st2) /\
  (forall l, Exclusive ∈ all_held s1 l -> all_held s1 l = [Exclusive]).
Proof. apply (locks_safe s0 s1 run1). Defined.

Lemma lock_owner_witness :
  is_Some (raw_lock Shared (sys_locks s1 7)) \/
  exists j c k' b, sys_cpus s1 !! j = Some c /\ Guard 7 k' b ∈ context (cpu_stack c).
Proof. apply (lock_owner s0 s1 7 Shared run1). Defined.
End LocksDemo.
