(* ===== verification/Kreq.v ===== *)
(** * Kreq: requests of user programs to the kernel (kreq.rs)

    [kernel_requestee] reads the name of the request and the buffers it is
    given from the memory of the program.  Reading a byte is a parameter: a
    page fault or a non-canonical address is a panic of the kernel.  The
    theorems bound what a request can make the kernel read. *)

From S2P Require Import Prelude Rvm.

(** [b"exit"], [b"open"] and [b"_print"] *)
Definition b_exit : list Z := [0x65; 0x78; 0x69; 0x74].
Definition b_open : list Z := [0x6f; 0x70; 0x65; 0x6e].
Definition b_print : list Z := [0x5f; 0x70; 0x72; 0x69; 0x6e; 0x74].

(** A request returns a value, after it has written bytes to the serial
    port, or ends the process through [exit_proc]. *)
Inductive reply : Type :=
  | Returns (v : Z) (out : list Z)
  | Exits (code : Z).

(** [x as i32] *)
Definition as_i32 (x : Z) : Z :=
  let u := ucast 32 x in if u <? 2 ^ 31 then u else u - 2 ^ 32.

Section Kreq.
Context `{Platform}.
(** [*(a as *const u8)] *)
Variable rd : Z -> outcome Z.

Definition INVALID_VA : Z := Z.shiftl 1 63.

(** The macro [check_fault!]; [sz] is [size_of::<$sz>()]. *)
Definition check_fault (ptr ctr sz : Z) : outcome unit :=
  let ctr_end := usat_add 64 ptr (usat_mul 64 ctr sz) in
  hh ← hihalf;
  if hh <=? ctr_end then _ ← rd INVALID_VA; Ret () else Ret ().

(** [(0..16).find(|&i| *req.add(i) == 0).unwrap_or(16)]; [n] is what is left
    of the range. *)
Fixpoint find_nul (n : nat) (req i : Z) : outcome Z :=
  match n with
  | O => Ret i
  | S n => b ← rd (uwrap_add 64 req i); if b =? 0 then Ret i else find_nul n req (i + 1)
  end.

(** The bytes of the slice that starts [i] bytes behind [p]. *)
Fixpoint read_bytes (n : nat) (p i : Z) : outcome (list Z) :=
  match n with
  | O => Ret []
  | S n => b ← rd (uwrap_add 64 p i); bs ← read_bytes n p (i + 1); Ret (b :: bs)
  end.

Definition req_name (req : Z) : outcome (list Z) :=
  len ← find_nul 16 req 0;
  read_bytes (Z.to_nat len) req 0.

(** [while *(arg1 as *const u8).add(len) != 0 { len += 1; }] *)
Fixpoint cstr_len (fuel : nat) (p len : Z) : outcome Z :=
  match fuel with
  | O => NoFuel
  | S fuel =>
      b ← rd (uwrap_add 64 p len);
      if b =? 0 then Ret len else len ← uadd 64 len 1; cstr_len fuel p len
  end.

Definition kernel_requestee (fuel : nat) (req arg1 arg2 : Z) : outcome reply :=
  name ← req_name req;
  if bool_decide (name = b_exit) then Ret (Exits (as_i32 arg1))
  else if bool_decide (name = b_open) then
    len ← cstr_len fuel arg1 0;
    ctr ← uadd 64 len 1;
    _ ← check_fault arg1 ctr 1;
    Ret (Returns 0 [])
  else if bool_decide (name = b_print) then
    _ ← check_fault arg1 arg2 1;
    out ← read_bytes (Z.to_nat arg2) arg1 0;
    Ret (Returns 0 out)
  else Ret (Returns 0 []).
End Kreq.

(** ** What the kernel reads *)

(** Reading the address that [check_fault] reads stops the kernel. *)
Definition traps (rd : Z -> outcome Z) : Prop := rd INVALID_VA = Panic.

(** The program's half of the memory is the same. *)
Definition same_below (hh : Z) (rd rd' : Z -> outcome Z) : Prop :=
  forall a, 0 <= a < hh -> rd a = rd' a.

Section KreqThms.
Context `{Platform}.
Implicit Type rd : Z -> outcome Z.

Lemma wrap_small p i : 0 <= p + i < 2 ^ 64 -> uwrap_add 64 p i = p + i.
Proof. intros Hp. unfold uwrap_add. by rewrite Z.mod_small. Qed.

Lemma find_nul_agree hh rd rd' n req i :
  same_below hh rd rd' -> hh <= 2 ^ 64 -> 0 <= req -> 0 <= i -> req + i + Z.of_nat n <= hh ->
  find_nul rd n req i = find_nul rd' n req i.
Proof.
  intros Hs Hhh Hreq. revert i. induction n as [|n IH]; intros i Hi Hb; [done|].
  cbn [find_nul]. rewrite wrap_small, (Hs (req + i)) by lia.
  destruct (rd' (req + i)); [|done..]. rewrite !Ret_bind. case_match; [done|]. apply IH; lia.
Qed.

Lemma find_nul_bound rd n req i k : find_nul rd n req i = Ret k -> i <= k <= i + Z.of_nat n.
Proof.
  revert i. induction n as [|n IH]; intros i; cbn [find_nul]; [intros [= <-]; lia|].
  intros (b & _ & Hk)%bind_Ret. case_match; [injection Hk as <-; lia|]. apply IH in Hk. lia.
Qed.

Lemma read_bytes_agree hh rd rd' n p i :
  same_below hh rd rd' -> hh <= 2 ^ 64 -> 0 <= p -> 0 <= i -> p + i + Z.of_nat n <= hh ->
  read_bytes rd n p i = read_bytes rd' n p i.
Proof.
  intros Hs Hhh Hp. revert i. induction n as [|n IH]; intros i Hi Hb; [done|].
  cbn [read_bytes]. rewrite wrap_small, (Hs (p + i)) by lia.
  rewrite (IH (i + 1)) by lia. done.
Qed.

Lemma read_bytes_map rd (f : Z -> Z) n p i :
  0 <= p -> 0 <= i -> p + i + Z.of_nat n <= 2 ^ 64 ->
  (forall j, i <= j < i + Z.of_nat n -> rd (p + j) = Ret (f j)) ->
  read_bytes rd n p i = Ret (f <$> seqZ i (Z.of_nat n)).
Proof.
  intros Hp. revert i. induction n as [|n IH]; intros i Hi Hb Hf; [done|].
  cbn [read_bytes]. rewrite wrap_small, (Hf i), Ret_bind, IH by (try intros; try apply Hf; lia).
  rewrite Ret_bind. rewrite (seqZ_cons i) by lia. cbn. do 3 f_equal; f_equal; lia.
Qed.

Lemma req_name_agree hh rd rd' req :
  same_below hh rd rd' -> hh <= 2 ^ 64 -> 0 <= req -> req + 16 <= hh ->
  req_name rd req = req_name rd' req.
Proof.
  intros Hs Hhh H0 Hb. unfold req_name. rewrite (find_nul_agree hh rd rd') by (done || lia).
  destruct (find_nul rd' 16 req 0) as [k| |] eqn:Hk; [|done..]. rewrite !Ret_bind.
  apply find_nul_bound in Hk. eapply read_bytes_agree; try done; lia.
Qed.

(** The check lets a range pass only below the upper half. *)
Lemma check_fault_ok rd hh ptr ctr sz :
  hihalf = Ret hh -> hh <= 2 ^ 64 - 1 -> traps rd -> 0 <= ptr -> 0 <= ctr -> 0 <= sz ->
  check_fault rd ptr ctr sz = if ptr + ctr * sz <? hh then Ret () else Panic.
Proof.
  intros Hhh Hb Ht Hp Hc Hs. unfold check_fault. rewrite Hhh, Ret_bind.
  unfold traps in Ht. unfold usat_add, usat_mul.
  destruct (Z.ltb_spec (ptr + ctr * sz) hh).
  - rewrite (Z.min_r _ (ctr * sz)), Z.min_r by lia. destruct (Z.leb_spec hh (ptr + ctr * sz)); [lia|done].
  - destruct (Z.leb_spec hh (Z.min (2 ^ 64 - 1) (ptr + Z.min (2 ^ 64 - 1) (ctr * sz)))); [|lia].
    by rewrite Ht.
Qed.

(** C27: a request other than "open" whose name lies in the program's half
    of the memory depends on that half only: two memories that differ in the
    kernel's half give the same result, whatever the arguments are.  The
    kernel cannot be made to read its own half. *)
Theorem kreq_confined fuel rd rd' hh req arg1 arg2 :
  hihalf = Ret hh -> hh <= 2 ^ 64 - 1 -> traps rd -> traps rd' -> same_below hh rd rd' ->
  0 <= req -> req + 16 <= hh -> 0 <= arg1 < 2 ^ 64 -> 0 <= arg2 < 2 ^ 64 ->
  req_name rd req <> Ret b_open ->
  kernel_requestee rd fuel req arg1 arg2 = kernel_requestee rd' fuel req arg1 arg2.
Proof.
  intros Hhh Hb Ht Ht' Hs Hreq Hr16 H1 H2 Hno. unfold kernel_requestee.
  rewrite <- (req_name_agree hh rd rd') by (done || lia).
  destruct (req_name rd req) as [name| |]; [|done..]. rewrite !Ret_bind.
  case_bool_decide; [done|]. case_bool_decide as Ho; [by subst|]. case_bool_decide; [|done].
  rewrite !(check_fault_ok _ hh) by (done || lia). destruct (Z.ltb_spec (arg1 + arg2 * 1) hh); [|done].
  rewrite !Ret_bind, (read_bytes_agree hh rd rd') by (done || lia). done.
Qed.

Lemma print_run fuel rd hh req arg1 arg2 f :
  hihalf = Ret hh -> hh <= 2 ^ 64 - 1 -> traps rd ->
  req_name rd req = Ret b_print -> 0 <= arg1 < 2 ^ 64 -> 0 <= arg2 < 2 ^ 64 ->
  (forall i, 0 <= i < arg2 -> arg1 + i < hh -> rd (arg1 + i) = Ret (f i)) ->
  kernel_requestee rd fuel req arg1 arg2 =
    if arg1 + arg2 <? hh then Ret (Returns 0 (f <$> seqZ 0 arg2)) else Panic.
Proof.
  intros Hhh Hb Ht Hname H1 H2 Hf. unfold kernel_requestee. rewrite Hname, Ret_bind.
  rewrite bool_decide_eq_false_2, bool_decide_eq_false_2, bool_decide_eq_true_2 by done.
  rewrite (check_fault_ok _ hh), Z.mul_1_r by (done || lia).
  destruct (Z.ltb_spec (arg1 + arg2) hh); [|done]. rewrite Ret_bind.
  rewrite (read_bytes_map _ f) by (try intros; try apply Hf; lia). by rewrite Ret_bind, Z2Nat.id by lia.
Qed.

(** C28: [_print] of a readable buffer writes exactly its bytes, in order,
    when the buffer ends below the upper half; for every other buffer, also
    one whose end wraps around, the check stops it before a byte is read. *)
Theorem print_spec fuel rd hh req arg1 arg2 f :
  hihalf = Ret hh -> hh <= 2 ^ 64 - 1 -> traps rd ->
  req_name rd req = Ret b_print -> 0 <= arg1 < 2 ^ 64 -> 0 <= arg2 < 2 ^ 64 ->
  (forall i, 0 <= i < arg2 -> arg1 + i < hh -> rd (arg1 + i) = Ret (f i)) ->
  kernel_requestee rd fuel req arg1 arg2 =
    if arg1 + arg2 <? hh then Ret (Returns 0 (f <$> seqZ 0 arg2)) else Panic.
Proof. apply print_run. Qed.
End KreqThms.

(** ** Examples *)

Module KreqDemo.
#[local] Instance demo : Platform :=
  {| platform_build := {| overflow_checks := false |}; target_arch := X86_64; G_CFG := mkRvmCfg Size4kiB 48 52 |}.

Definition hh : Z := 0xffff800000000000.

(** "_print" at 0x1000 and a message at 0x2000; [k] is the kernel's half. *)
Definition mem_with (k : Z -> outcome Z) (a : Z) : outcome Z :=
  if (0x1000 <=? a) && (a <? 0x1010) then Ret (nth (Z.to_nat (a - 0x1000)) b_print 0)
  else if (0x2000 <=? a) && (a <? 0x2010) then Ret (0x41 + (a - 0x2000))
  else if hh <=? a then k a
  else Panic.
Definition mem0 : Z -> outcome Z := mem_with (fun _ => Ret 0).

Lemma kreq_confined_witness :
  kernel_requestee mem0 0 0x1000 0x2000 4 = kernel_requestee (mem_with (fun a => Ret (a mod 256))) 0 0x1000 0x2000 4.
Proof.
  apply (kreq_confined _ _ _ hh); try done.
  intros a [_ Ha]. unfold mem0, mem_with. destruct (Z.leb_spec hh a); [lia|done].
Defined.

Lemma print_spec_witness :
  kernel_requestee mem0 0 0x1000 0x2000 4 =
    if 0x2000 + 4 <? hh then Ret (Returns 0 ((fun i => 0x41 + i) <$> seqZ 0 4)) else Panic.
Proof.
  apply (print_spec 0 mem0 hh 0x1000 0x2000 4 (fun i => 0x41 + i)); try done.
  intros i Hi _. unfold mem0, mem_with.
  destruct (Z.leb_spec 0x1000 (0x2000 + i)), (Z.ltb_spec (0x2000 + i) 0x1010),
    (Z.leb_spec 0x2000 (0x2000 + i)), (Z.ltb_spec (0x2000 + i) 0x2010); try lia. cbn. f_equal. lia.
Defined.

(** The name of a request is read from wherever the pointer says: whether
    the kernel's memory at [hh] holds "exit" or zeros decides what the
    request does. *)
Lemma req_unchecked :
  let k := fun a => Ret (nth (Z.to_nat (a - hh)) b_exit 0) in
  kernel_requestee (mem_with k) 0 hh 0 0 = Ret (Exits 0) /\
  kernel_requestee mem0 0 hh 0 0 = Ret (Returns 0 []).
Proof. by vm_compute. Qed.
End KreqDemo.
