(* ===== verification/Amd64.v ===== *)
(** * Amd64: an AMD64 processor and the instructions the kernel's assembly uses

    Registers, memory and the instructions of the assembly under
    arch/amd64/.  The instruction pointer is tracked where control leaves the
    straight-line code: at an interrupt, a system call and their returns. *)

From S2P Require Import Prelude Bytes Memory.

(** ** Registers *)

Inductive reg : Type :=
  | RAX | RBX | RCX | RDX | RSI | RDI | RBP | RSP
  | R8 | R9 | R10 | R11 | R12 | R13 | R14 | R15.
#[export] Instance reg_eq_dec : EqDecision reg.
Proof. solve_decision. Defined.

Record Gprs : Type := mkGprs {
  g_rax : Z; g_rbx : Z; g_rcx : Z; g_rdx : Z; g_rsi : Z; g_rdi : Z; g_rbp : Z; g_rsp : Z;
  g_r8 : Z; g_r9 : Z; g_r10 : Z; g_r11 : Z; g_r12 : Z; g_r13 : Z; g_r14 : Z; g_r15 : Z
}.

Definition get (r : reg) (g : Gprs) : Z :=
  match r with
  | RAX => g_rax g | RBX => g_rbx g | RCX => g_rcx g | RDX => g_rdx g
  | RSI => g_rsi g | RDI => g_rdi g | RBP => g_rbp g | RSP => g_rsp g
  | R8 => g_r8 g | R9 => g_r9 g | R10 => g_r10 g | R11 => g_r11 g
  | R12 => g_r12 g | R13 => g_r13 g | R14 => g_r14 g | R15 => g_r15 g
  end.

Definition set (r : reg) (v : Z) (g : Gprs) : Gprs :=
  let 'mkGprs a b c d si di bp sp r8 r9 r10 r11 r12 r13 r14 r15 := g in
  match r with
  | RAX => mkGprs v b c d si di bp sp r8 r9 r10 r11 r12 r13 r14 r15
  | RBX => mkGprs a v c d si di bp sp r8 r9 r10 r11 r12 r13 r14 r15
  | RCX => mkGprs a b v d si di bp sp r8 r9 r10 r11 r12 r13 r14 r15
  | RDX => mkGprs a b c v si di bp sp r8 r9 r10 r11 r12 r13 r14 r15
  | RSI => mkGprs a b c d v di bp sp r8 r9 r10 r11 r12 r13 r14 r15
  | RDI => mkGprs a b c d si v bp sp r8 r9 r10 r11 r12 r13 r14 r15
  | RBP => mkGprs a b c d si di v sp r8 r9 r10 r11 r12 r13 r14 r15
  | RSP => mkGprs a b c d si di bp v r8 r9 r10 r11 r12 r13 r14 r15
  | R8 => mkGprs a b c d si di bp sp v r9 r10 r11 r12 r13 r14 r15
  | R9 => mkGprs a b c d si di bp sp r8 v r10 r11 r12 r13 r14 r15
  | R10 => mkGprs a b c d si di bp sp r8 r9 v r11 r12 r13 r14 r15
  | R11 => mkGprs a b c d si di bp sp r8 r9 r10 v r12 r13 r14 r15
  | R12 => mkGprs a b c d si di bp sp r8 r9 r10 r11 v r13 r14 r15
  | R13 => mkGprs a b c d si di bp sp r8 r9 r10 r11 r12 v r14 r15
  | R14 => mkGprs a b c d si di bp sp r8 r9 r10 r11 r12 r13 v r15
  | R15 => mkGprs a b c d si di bp sp r8 r9 r10 r11 r12 r13 r14 v
  end.

Lemma get_set r r' v g : get r' (set r v g) = if decide (r = r') then v else get r' g.
Proof. by destruct g, r, r'. Qed.
Lemma set_set r v v' g : set r v (set r v' g) = set r v g.
Proof. by destruct g, r. Qed.
Lemma set_get r g : set r (get r g) g = g.
Proof. by destruct g, r. Qed.
Lemma set_comm r r' v v' g : r <> r' -> set r v (set r' v' g) = set r' v' (set r v g).
Proof. by destruct g, r, r'. Qed.

#[global] Arguments get : simpl never.
#[global] Arguments set : simpl never.

(** What the kernel makes visible outside: bytes on the serial port and ends
    of interrupts. *)
Inductive event : Type :=
  | Putchar (byte : Z)
  | Eoi (intid : Z).

(** ** The processor

    [msr] are the model-specific registers by number; the bases of the GS
    segment are two of them. *)
Record Cpu64 : Type := mkCpu64 {
  gprs : Gprs;
  xmm : list Z;
  mxcsr : Z;
  rip : Z;
  rfl : Z;
  cs : Z;
  ss : Z;
  msr : Z -> Z;
  mem : Mem;
  log : list event
}.

Definition MSR_EFER : Z := 0xc0000080.
Definition MSR_STAR : Z := 0xc0000081.
Definition MSR_LSTAR : Z := 0xc0000082.
Definition MSR_FMASK : Z := 0xc0000084.
Definition MSR_GS_BASE : Z := 0xc0000101.
Definition MSR_KERNEL_GS_BASE : Z := 0xc0000102.

Definition with_gprs (c : Cpu64) (g : Gprs) : Cpu64 :=
  mkCpu64 g (xmm c) (mxcsr c) (rip c) (rfl c) (cs c) (ss c) (msr c) (mem c) (log c).
Definition with_mem (c : Cpu64) (m : Mem) : Cpu64 :=
  mkCpu64 (gprs c) (xmm c) (mxcsr c) (rip c) (rfl c) (cs c) (ss c) (msr c) m (log c).
Definition with_xmm (c : Cpu64) (x : list Z) : Cpu64 :=
  mkCpu64 (gprs c) x (mxcsr c) (rip c) (rfl c) (cs c) (ss c) (msr c) (mem c) (log c).
Definition with_mxcsr (c : Cpu64) (v : Z) : Cpu64 :=
  mkCpu64 (gprs c) (xmm c) v (rip c) (rfl c) (cs c) (ss c) (msr c) (mem c) (log c).
Definition with_log (c : Cpu64) (l : list event) : Cpu64 :=
  mkCpu64 (gprs c) (xmm c) (mxcsr c) (rip c) (rfl c) (cs c) (ss c) (msr c) (mem c) l.
Definition with_msr (c : Cpu64) (f : Z -> Z) : Cpu64 :=
  mkCpu64 (gprs c) (xmm c) (mxcsr c) (rip c) (rfl c) (cs c) (ss c) f (mem c) (log c).
Definition with_ctrl (c : Cpu64) (ip fl code stack : Z) : Cpu64 :=
  mkCpu64 (gprs c) (xmm c) (mxcsr c) ip fl code stack (msr c) (mem c) (log c).
Definition set_reg (r : reg) (v : Z) (c : Cpu64) : Cpu64 := with_gprs c (set r v (gprs c)).
Definition get_reg (r : reg) (c : Cpu64) : Z := get r (gprs c).

(** [wrmsr] with the two halves of the value in EDX and EAX, [swapgs]. *)
Definition wrmsr (ecx eax edx : Z) (c : Cpu64) : Cpu64 :=
  with_msr c (fun i => if i =? ecx then Z.lor (Z.shiftl (ucast 32 edx) 32) (ucast 32 eax) else msr c i).
Definition swapgs (c : Cpu64) : Cpu64 :=
  with_msr c (fun i =>
    if i =? MSR_GS_BASE then msr c MSR_KERNEL_GS_BASE
    else if i =? MSR_KERNEL_GS_BASE then msr c MSR_GS_BASE
    else msr c i).

(** ** Instructions *)

(** An operand; a memory operand is of 8 bytes. *)
Inductive opnd : Type :=
  | Imm (n : Z)
  | Reg (r : reg)
  | At (base : reg) (off : Z)
  | Gs (off : Z).

Inductive instr : Type :=
  | PUSH (o : opnd)
  | POP (r : reg)
  | MOV (r : reg) (o : opnd)
  | MOV_GS (off : Z) (r : reg)
  | LEA (r base : reg) (off : Z)
  | ADD (r : reg) (n : Z)
  | SUB (r : reg) (n : Z)
  | MOVAPS_ST (base : reg) (off : Z) (x : nat)
  | MOVAPS_LD (x : nat) (base : reg) (off : Z)
  | STMXCSR (base : reg) (off : Z)
  | LDMXCSR (base : reg) (off : Z)
  | CALL
  | SWAPGS
  | SYSRETQ
  | IRETQ.

Definition ea (base : reg) (off : Z) (c : Cpu64) : Z := uwrap_add 64 (get_reg base c) off.

Definition value (o : opnd) (c : Cpu64) : Z :=
  match o with
  | Imm n => n
  | Reg r => get_reg r c
  | At base off => load 8 (mem c) (ea base off c)
  | Gs off => load 8 (mem c) (uwrap_add 64 (msr c MSR_GS_BASE) off)
  end.

Definition push (v : Z) (c : Cpu64) : Cpu64 :=
  let sp := uwrap_sub 64 (get_reg RSP c) 8 in
  with_mem (set_reg RSP sp c) (store 8 (mem c) sp v).

Definition pop (r : reg) (c : Cpu64) : Cpu64 :=
  let sp := get_reg RSP c in
  set_reg r (load 8 (mem c) sp) (set_reg RSP (uwrap_add 64 sp 8) c).

(** [sysretq] takes the selectors from the STAR register. *)
Definition sysretq (c : Cpu64) : Cpu64 :=
  let sel := Z.shiftr (msr c MSR_STAR) 48 in
  with_ctrl c (get_reg RCX c) (Z.lor (Z.land (get_reg R11 c) 0x3c7fd7) 2)
    (Z.lor (sel + 16) 3) (Z.lor (sel + 8) 3).

(** [iretq] pops the five words of the interrupt frame. *)
Definition iretq (c : Cpu64) : Cpu64 :=
  let sp := get_reg RSP c in
  let w := fun i => load 8 (mem c) (uwrap_add 64 sp (8 * i)) in
  with_ctrl (set_reg RSP (w 3) c) (w 0) (w 2) (w 1) (w 4).

Section Exec.
(** The function that the code calls; [Err] when it ends the process and does
    not return. *)
Variable callee : Cpu64 -> outcome (result Z Cpu64).

(** [Panic] is a general-protection fault: an unaligned [movaps], a reserved
    bit in [ldmxcsr]. *)
Definition step64 (i : instr) (c : Cpu64) : outcome (result Z Cpu64) :=
  match i with
  | PUSH o => Ret (Ok (push (value o c) c))
  | POP r => Ret (Ok (pop r c))
  | MOV r o => Ret (Ok (set_reg r (value o c) c))
  | MOV_GS off r => Ret (Ok (with_mem c (store 8 (mem c) (uwrap_add 64 (msr c MSR_GS_BASE) off) (get_reg r c))))
  | LEA r base off => Ret (Ok (set_reg r (ea base off c) c))
  | ADD r n => Ret (Ok (set_reg r (uwrap_add 64 (get_reg r c) n) c))
  | SUB r n => Ret (Ok (set_reg r (uwrap_sub 64 (get_reg r c) n) c))
  | MOVAPS_ST base off x =>
      let a := ea base off c in
      if a mod 16 =? 0 then Ret (Ok (with_mem c (store 16 (mem c) a (nth x (xmm c) 0)))) else Panic
  | MOVAPS_LD x base off =>
      let a := ea base off c in
      if a mod 16 =? 0 then Ret (Ok (with_xmm c (<[x := load 16 (mem c) a]> (xmm c)))) else Panic
  | STMXCSR base off => Ret (Ok (with_mem c (store 4 (mem c) (ea base off c) (mxcsr c))))
  | LDMXCSR base off =>
      let v := load 4 (mem c) (ea base off c) in
      if v <? 2 ^ 16 then Ret (Ok (with_mxcsr c v)) else Panic
  | CALL => callee c
  | SWAPGS => Ret (Ok (swapgs c))
  | SYSRETQ => Ret (Ok (sysretq c))
  | IRETQ => Ret (Ok (iretq c))
  end.

Fixpoint exec (l : list instr) (c : Cpu64) : outcome (result Z Cpu64) :=
  match l with
  | [] => Ret (Ok c)
  | i :: l => c ←? step64 i c; exec l c
  end.

Lemma exec_cons i l c : exec (i :: l) c = try_bind (step64 i c) (exec l).
Proof. done. Qed.

Lemma exec_app l l' c : exec (l ++ l') c = try_bind (exec l c) (exec l').
Proof.
  revert c. induction l as [|i l IH]; intros c; [done|]. cbn [exec app].
  destruct (step64 i c) as [[c'|e]| |]; try done. cbn. apply IH.
Qed.
End Exec.
