(* ===== verification/Amd64Exc.v ===== *)
(** * Amd64Exc: interrupts, system calls and context switches (arch/amd64/exc.rs, proc.rs)

    The assembly of the interrupt stubs, of the system call entry and of
    [rstr_ctxt], the frame they build for [exc_handler], [exc_handler] itself,
    and the tables that [init] hands to the processor. *)

From S2P Require Import Prelude Bytes Memory Rvm Kreq Amd64.

(** ** The exception frame *)

Record ExcFrame : Type := mkExcFrame {
  f_xmm : list Z;
  f_mxcsr : Z; f_0 : Z;
  f_r15 : Z; f_r14 : Z; f_r13 : Z; f_r12 : Z; f_r11 : Z; f_r10 : Z; f_r9 : Z; f_r8 : Z;
  f_rbp : Z; f_rdi : Z; f_rsi : Z; f_rdx : Z; f_rcx : Z; f_rbx : Z; f_rax : Z;
  f_vec : Z; f_err : Z;
  f_rip : Z; f_cs : Z; f_rflags : Z; f_rsp : Z; f_ss : Z
}.

Definition size_of_ExcFrame : Z := 448.

(** [#[repr(C)]]: the words of the frame in memory. *)
Definition frame_words (f : ExcFrame) : list Z :=
  (f_xmm f ≫= halves) ++
  [f_mxcsr f; f_0 f; f_r15 f; f_r14 f; f_r13 f; f_r12 f; f_r11 f; f_r10 f; f_r9 f; f_r8 f;
   f_rbp f; f_rdi f; f_rsi f; f_rdx f; f_rcx f; f_rbx f; f_rax f; f_vec f; f_err f;
   f_rip f; f_cs f; f_rflags f; f_rsp f; f_ss f].

Definition read_frame (m : Mem) (a : Z) : ExcFrame :=
  let w := fun i => load 8 m (a + 256 + 8 * i) in
  mkExcFrame ((fun i => load 16 m (a + 16 * i)) <$> seqZ 0 16)
    (w 0) (w 1) (w 2) (w 3) (w 4) (w 5) (w 6) (w 7) (w 8) (w 9) (w 10) (w 11) (w 12) (w 13) (w 14)
    (w 15) (w 16) (w 17) (w 18) (w 19) (w 20) (w 21) (w 22) (w 23).
Definition write_frame (m : Mem) (a : Z) (f : ExcFrame) : Mem := store_words m a (frame_words f).

Definition ExcFrame_new : ExcFrame :=
  mkExcFrame (replicate 16 0) 0x1f80 0 0 0 0 0 0 0 0 0 0 0 0 0 0 0 0 0 0 0 0x23 0x202 0 0x1b.

Definition ExcFrame_pc (f : ExcFrame) : Z := f_rip f.
Definition ExcFrame_sp (f : ExcFrame) : Z := f_rsp f.
Definition ExcFrame_arg (f : ExcFrame) (arg_i : Z) : Z :=
  match arg_i with
  | 0 => f_rdi f | 1 => f_rsi f | 2 => f_rdx f | 3 => f_rcx f | 4 => f_r8 f | 5 => f_r9 f
  | _ => 0
  end.

Definition set_frame_gprs (f : ExcFrame) (r9 r8 rdi rsi rdx rcx rax : Z) : ExcFrame :=
  mkExcFrame (f_xmm f) (f_mxcsr f) (f_0 f) (f_r15 f) (f_r14 f) (f_r13 f) (f_r12 f) (f_r11 f) (f_r10 f)
    r9 r8 (f_rbp f) rdi rsi rdx rcx (f_rbx f) rax
    (f_vec f) (f_err f) (f_rip f) (f_cs f) (f_rflags f) (f_rsp f) (f_ss f).
Definition set_frame_ctrl (f : ExcFrame) (rip rsp : Z) : ExcFrame :=
  mkExcFrame (f_xmm f) (f_mxcsr f) (f_0 f) (f_r15 f) (f_r14 f) (f_r13 f) (f_r12 f) (f_r11 f) (f_r10 f)
    (f_r9 f) (f_r8 f) (f_rbp f) (f_rdi f) (f_rsi f) (f_rdx f) (f_rcx f) (f_rbx f) (f_rax f)
    (f_vec f) (f_err f) rip (f_cs f) (f_rflags f) rsp (f_ss f).
Definition set_frame_rax (f : ExcFrame) (v : Z) : ExcFrame :=
  set_frame_gprs f (f_r9 f) (f_r8 f) (f_rdi f) (f_rsi f) (f_rdx f) (f_rcx f) v.

Definition ExcFrame_set_pc (f : ExcFrame) (pc : Z) : ExcFrame := set_frame_ctrl f pc (f_rsp f).
Definition ExcFrame_set_sp (f : ExcFrame) (sp : Z) : ExcFrame := set_frame_ctrl f (f_rip f) sp.
Definition ExcFrame_set_arg (f : ExcFrame) (arg_i arg : Z) : ExcFrame :=
  match arg_i with
  | 0 => set_frame_gprs f (f_r9 f) (f_r8 f) arg (f_rsi f) (f_rdx f) (f_rcx f) (f_rax f)
  | 1 => set_frame_gprs f (f_r9 f) (f_r8 f) (f_rdi f) arg (f_rdx f) (f_rcx f) (f_rax f)
  | 2 => set_frame_gprs f (f_r9 f) (f_r8 f) (f_rdi f) (f_rsi f) arg (f_rcx f) (f_rax f)
  | 3 => set_frame_gprs f (f_r9 f) (f_r8 f) (f_rdi f) (f_rsi f) (f_rdx f) arg (f_rax f)
  | 4 => set_frame_gprs f (f_r9 f) arg (f_rdi f) (f_rsi f) (f_rdx f) (f_rcx f) (f_rax f)
  | 5 => set_frame_gprs f arg (f_r8 f) (f_rdi f) (f_rsi f) (f_rdx f) (f_rcx f) (f_rax f)
  | _ => f
  end.

(** ** The assembly *)

Definition saved_regs : list reg :=
  [RAX; RBX; RCX; RDX; RSI; RDI; RBP; R8; R9; R10; R11; R12; R13; R14; R15].

(** [call_handler!]; the pops are in the reverse order of the pushes. *)
Definition call_handler : list instr :=
  ((fun r => PUSH (Reg r)) <$> saved_regs) ++
  [SUB RSP 272] ++
  ((fun x => MOVAPS_ST RSP (16 * Z.of_nat x) x) <$> seq 0 16) ++
  [STMXCSR RSP 0x100;
   MOV RDI (At RSP 392);
   LEA RSI RSP 0;
   CALL;
   LDMXCSR RSP 0x100] ++
  ((fun x => MOVAPS_LD x RSP (16 * Z.of_nat x)) <$> seq 0 16) ++
  [ADD RSP 272] ++
  (POP <$> [R15; R14; R13; R12; R11; R10; R9; R8; RBP; RDI; RSI; RDX; RCX; RBX; RAX]).

(** [syscall:] *)
Definition syscall_entry : list instr :=
  [SWAPGS;
   MOV_GS 0 RSP;
   MOV RSP (Gs 8);
   PUSH (Imm 0x1b);
   PUSH (Gs 0);
   PUSH (Reg R11);
   PUSH (Imm 0x23);
   PUSH (Reg RCX);
   PUSH (Imm 0);
   PUSH (Imm 0x80)] ++
  call_handler ++
  [ADD RSP 16;
   POP RCX;
   ADD RSP 8;
   POP R11;
   POP RSP;
   SWAPGS;
   SYSRETQ].

(** [isr_cmm:] *)
Definition isr_cmm : list instr := call_handler ++ [ADD RSP 16; IRETQ].

(** The vectors whose stubs are [isr_err!]; the others are [isr_nonerr!]. *)
Definition err_vectors : list Z := [8; 10; 11; 12; 13; 14; 17; 21; 29; 30].
Definition isr_stub (n : Z) : list instr :=
  (if bool_decide (n ∈ err_vectors) then [PUSH (Imm n)] else [PUSH (Imm 0); PUSH (Imm n)]) ++ isr_cmm.

(** [rstr_ctxt]; the compiler chooses the registers of the operands. *)
Definition rstr_ctxt (ctxt ksp : reg) : list instr :=
  [MOV R14 (Reg ksp);
   MOV R15 (Reg ctxt);
   LDMXCSR R15 256] ++
  ((fun x => MOVAPS_LD x R15 (16 * Z.of_nat x)) <$> seq 0 16) ++
  ((fun p => MOV p.1 (At R15 p.2)) <$>
    [(RAX, 384); (RBX, 376); (RCX, 368); (RDX, 360); (RSI, 352); (RDI, 344); (RBP, 336);
     (R8, 328); (R9, 320); (R10, 312); (R11, 304); (R12, 296); (R13, 288)]) ++
  [MOV RSP (Reg R14);
   PUSH (At R15 440);
   PUSH (At R15 432);
   PUSH (At R15 424);
   PUSH (At R15 416);
   PUSH (At R15 408);
   MOV R14 (At R15 280);
   MOV R15 (At R15 272);
   IRETQ].

(** ** [exc_handler] *)

(** "Timer IRQ\n" *)
Definition timer_msg : list event :=
  Putchar <$> [0x54; 0x69; 0x6d; 0x65; 0x72; 0x20; 0x49; 0x52; 0x51; 0x0a].

Section Handler.
Context `{Platform}.
Variable fuel : nat.

Definition exc_handler (rd : Z -> outcome Z) (exc_type : Z) (frame : ExcFrame)
    : outcome (result Z (ExcFrame * list event)) :=
  if exc_type =? 32 then Ret (Ok (frame, Eoi 0 :: timer_msg))
  else if exc_type =? 128 then
    r ← kernel_requestee rd fuel (f_rax frame) (f_rdi frame) (f_rsi frame);
    match r with
    | Returns v out => Ret (Ok (set_frame_rax frame v, Putchar <$> out))
    | Exits code => Ret (Err code)
    end
  else Panic.

(** The compiled function: [mapped] are the addresses that can be read;
    [abi] is what it leaves in the registers and the memory besides the frame.
    The call's arguments are in RDI and RSI. *)
Variable mapped : Z -> bool.
Variable abi : Cpu64 -> Cpu64.

Definition reader (m : Mem) (a : Z) : outcome Z := if mapped a then Ret (m a) else Panic.

Definition call_exc_handler (c : Cpu64) : outcome (result Z Cpu64) :=
  let a := get_reg RSI c in
  '(f, ev) ←? exc_handler (reader (mem c)) (get_reg RDI c) (read_frame (mem c) a);
  let c' := abi c in
  Ret (Ok (with_log (with_mem c' (write_frame (mem c') a f)) (log c ++ ev))).
End Handler.

(** The System V calling convention: the registers that the callee keeps, and
    what the compiler never touches. *)
Definition callee_saved : list reg := [RBX; RBP; RSP; R12; R13; R14; R15].

Record abi_ok (abi : Cpu64 -> Cpu64) : Prop := {
  abi_regs : forall c r, r ∈ callee_saved -> get_reg r (abi c) = get_reg r c;
  abi_msr : forall c, msr (abi c) = msr c;
  abi_cs : forall c, cs (abi c) = cs c;
  abi_ss : forall c, ss (abi c) = ss c
}.

(** The memory that the handler does not write, the memory of programs for
    one. *)
Definition keeps (abi : Cpu64 -> Cpu64) (K : Z -> Prop) : Prop := forall c x, K x -> mem (abi c) x = mem c x.

(** ** Segments, the task state, interrupt gates *)

Definition GDT : list (list Z) :=
  [[0x00; 0x00; 0x00; 0x00; 0x00; 0x00; 0x00; 0x00];
   [0xff; 0xff; 0x00; 0x00; 0x00; 0x9a; 0xaf; 0x00];
   [0xff; 0xff; 0x00; 0x00; 0x00; 0x92; 0xaf; 0x00];
   [0xff; 0xff; 0x00; 0x00; 0x00; 0xf2; 0xaf; 0x00];
   [0xff; 0xff; 0x00; 0x00; 0x00; 0xfa; 0xaf; 0x00]].

Record GlobDescTbl : Type := mkGlobDescTbl {
  gd_null : list Z; gd_code : list Z; gd_data : list Z; gd_code64 : list Z; gd_data64 : list Z;
  gd_tss : list Z
}.
Definition GlobDescTbl_new : GlobDescTbl :=
  mkGlobDescTbl (nth 0 GDT []) (nth 1 GDT []) (nth 2 GDT []) (nth 3 GDT []) (nth 4 GDT []) (replicate 16 0).
(** The table as the processor sees it. *)
Definition GlobDescTbl_bytes (g : GlobDescTbl) : list Z :=
  gd_null g ++ gd_code g ++ gd_data g ++ gd_code64 g ++ gd_data64 g ++ gd_tss g.

Record TaskStatSeg : Type := mkTaskStatSeg {
  ts_rsp0 : Z; ts_rsp1 : Z; ts_rsp2 : Z;
  ts_ist1 : Z; ts_ist2 : Z; ts_ist3 : Z; ts_ist4 : Z; ts_ist5 : Z; ts_ist6 : Z; ts_ist7 : Z;
  ts_iomap_base : Z
}.
Definition size_of_TaskStatSeg : Z := 104.
Definition TaskStatSeg_new : TaskStatSeg := mkTaskStatSeg 0 0 0 0 0 0 0 0 0 0 (ucast 16 size_of_TaskStatSeg).

Record PerCpuData : Type := mkPerCpuData { pc_user_rsp : Z; pc_kernel_rsp : Z }.

Record CPUDesc : Type := mkCPUDesc { cd_gdt : GlobDescTbl; cd_tss : TaskStatSeg; cd_percpu : PerCpuData }.
Definition CPUDesc_new : CPUDesc := mkCPUDesc GlobDescTbl_new TaskStatSeg_new (mkPerCpuData 0 0).

Definition set_stacks (d : CPUDesc) (rsp0 ist1 user_rsp kernel_rsp : Z) : CPUDesc :=
  let t := cd_tss d in
  mkCPUDesc (cd_gdt d)
    (mkTaskStatSeg rsp0 (ts_rsp1 t) (ts_rsp2 t) ist1 (ts_ist2 t) (ts_ist3 t) (ts_ist4 t) (ts_ist5 t)
       (ts_ist6 t) (ts_ist7 t) (ts_iomap_base t))
    (mkPerCpuData user_rsp kernel_rsp).

(** [load_tss]: the descriptor of the task state at [tss_addr]. *)
Definition load_tss (tss_addr : Z) (d : CPUDesc) : outcome CPUDesc :=
  let limit := ucast 32 (size_of_TaskStatSeg - 1) in
  let tss_addr_bytes := le_put 8 tss_addr in
  let limit_bytes := le_put 4 limit in
  let t := gd_tss (cd_gdt d) in
  b ← slice limit_bytes 0 2; t ← splice t 0 b;
  b ← slice tss_addr_bytes 0 3; t ← splice t 2 b;
  t ← splice t 5 [0x89];
  l2 ← slice limit_bytes 2 1;
  t ← splice t 6 ((fun x => Z.land x 0x0f) <$> l2);
  b ← slice tss_addr_bytes 3 5; t ← splice t 7 b;
  let g := cd_gdt d in
  Ret (mkCPUDesc (mkGlobDescTbl (gd_null g) (gd_code g) (gd_data g) (gd_code64 g) (gd_data64 g) t)
         (cd_tss d) (cd_percpu d)).

(** [load], with the addresses of the fields of the boxed descriptor: the
    tables, and the selectors and the base that the processor is given. *)
Definition CPUDesc_load (tss_addr percpu_addr stack_top : Z) (d : CPUDesc) (c : Cpu64)
    : outcome (CPUDesc * Cpu64) :=
  let d := set_stacks d stack_top stack_top 0 stack_top in
  d ← load_tss tss_addr d;
  let c := with_ctrl c (rip c) (rfl c) 0x08 0x10 in
  Ret (d, wrmsr MSR_KERNEL_GS_BASE (ucast 32 percpu_addr) (ucast 32 (Z.shiftr percpu_addr 32)) c).

(** [set_kstk] on the descriptor of the processor that runs. *)
Definition set_kstk (descs : gmap Z CPUDesc) (phys_id kstk_top : Z) : gmap Z CPUDesc :=
  match descs !! phys_id with
  | Some d =>
      <[phys_id := set_stacks d kstk_top (ts_ist1 (cd_tss d)) (pc_user_rsp (cd_percpu d)) kstk_top]> descs
  | None => descs
  end.

Record IdtEnt : Type := mkIdtEnt {
  ie_off_lo : Z; ie_sel : Z; ie_ist : Z; ie_attr : Z; ie_off_mid : Z; ie_off_hi : Z; ie_0 : Z
}.
Definition IdtEnt_new : IdtEnt := mkIdtEnt 0 0 0 0 0 0 0.
Definition IdtEnt_set (e : IdtEnt) (handler sel ist attr : Z) : IdtEnt :=
  mkIdtEnt (ucast 16 handler) sel ist attr (ucast 16 (Z.shiftr handler 16)) (ucast 32 (Z.shiftr handler 32)) (ie_0 e).

(** The loop of [init] over the table; [stubs] are the addresses of the
    stubs. *)
Definition idt_gate (stubs : Z -> Z) (i : Z) (e : IdtEnt) : IdtEnt :=
  let attr := if bool_decide (i ∈ [0x20; 0x80]) then 0xee else 0x8e in
  let ist := if i =? 8 then 1 else 0 in
  IdtEnt_set e (stubs i) 0x08 ist attr.
Definition idt_init (stubs : Z -> Z) (idt : list IdtEnt) : list IdtEnt :=
  imap (fun i e => idt_gate stubs (Z.of_nat i) e) idt.

(** The registers of [init]: system calls enabled, their entry, their
    selectors, and the mask of the interrupt flag. *)
Definition syscall_msrs (entry : Z) (c : Cpu64) : Cpu64 :=
  let efer := ucast 32 (msr c MSR_EFER) in
  let c := wrmsr MSR_EFER (Z.lor efer 1) 0 c in
  let c := wrmsr MSR_LSTAR (ucast 32 entry) (ucast 32 (Z.shiftr entry 32)) c in
  let star := Z.lor (Z.shiftl 0x10 48) (Z.shiftl 0x08 32) in
  let c := wrmsr MSR_STAR (ucast 32 star) (ucast 32 (Z.shiftr star 32)) c in
  wrmsr MSR_FMASK 0x200 0 c.

(** [init]: the descriptor of this processor, the table of gates and the
    registers. *)
Definition exc_init (stubs : Z -> Z) (entry tss_addr percpu_addr stack_top phys_id : Z)
    (descs : gmap Z CPUDesc) (idt : list IdtEnt) (c : Cpu64)
    : outcome (gmap Z CPUDesc * list IdtEnt * Cpu64) :=
  '(d, c) ← CPUDesc_load tss_addr percpu_addr stack_top CPUDesc_new c;
  Ret (<[phys_id := d]> descs, idt_init stubs idt, syscall_msrs entry c).

(** ** What the processor does

    The architecture's manual: the vectors that push an error code, the
    delivery of an interrupt through a gate, and the [syscall] instruction. *)
Definition has_error_code (v : Z) : bool := bool_decide (v ∈ [8; 10; 11; 12; 13; 14; 17; 21; 29; 30]).

Definition gate_handler (e : IdtEnt) : Z :=
  ie_off_lo e + 2 ^ 16 * ie_off_mid e + 2 ^ 32 * ie_off_hi e.

(** The stack of the handler: the gate's own one, that of the task state on
    a change of privilege, or the current one; aligned to 16. *)
Definition handler_stack (e : IdtEnt) (t : TaskStatSeg) (c : Cpu64) : Z :=
  let sp := if ie_ist e =? 1 then ts_ist1 t
            else if Z.land (cs c) 3 =? 3 then ts_rsp0 t
            else get_reg RSP c in
  16 * (sp / 16).

Definition deliver (e : IdtEnt) (t : TaskStatSeg) (v err : Z) (c : Cpu64) : Cpu64 :=
  let c1 := set_reg RSP (handler_stack e t c) c in
  let c1 := push (rip c) (push (cs c) (push (rfl c) (push (get_reg RSP c) (push (ss c) c1)))) in
  let c1 := if has_error_code v then push err c1 else c1 in
  with_ctrl c1 (gate_handler e) (Z.ldiff (rfl c) 0x200) (ie_sel e)
    (if Z.land (cs c) 3 =? 3 then 0 else ss c).

(** [next] is the address behind the instruction. *)
Definition syscall_insn (next : Z) (c : Cpu64) : Cpu64 :=
  let sel := Z.land (Z.shiftr (msr c MSR_STAR) 32) 0xffff in
  with_ctrl (set_reg R11 (rfl c) (set_reg RCX next c))
    (msr c MSR_LSTAR) (Z.ldiff (rfl c) (msr c MSR_FMASK)) sel (sel + 8).
