(* ===== verification/Amd64Facts.v ===== *)
(** * Amd64Facts: runs of equal instructions

    Lemmas that execute a list of pushes, pops or vector moves at once. *)

From S2P Require Import Prelude Bytes Memory Amd64.

(** ** Runs of instructions *)

Section Runs.
Variable callee : Cpu64 -> outcome (result Z Cpu64).
#[local] Abbreviation exec := (exec callee).


(** The processor with another stack pointer and memory. *)
Definition at_stack (c : Cpu64) (sp : Z) (m : Mem) : Cpu64 := with_mem (set_reg RSP sp c) m.

Lemma at_stack_again c sp sp' m m' : at_stack (at_stack c sp m) sp' m' = at_stack c sp' m'.
Proof. unfold at_stack, set_reg, with_mem, with_gprs. cbn. by rewrite set_set. Qed.
Lemma at_stack_self c : at_stack c (get_reg RSP c) (mem c) = c.
Proof. unfold at_stack, set_reg, with_mem, with_gprs, get_reg. destruct c. cbn. by rewrite set_get. Qed.
Lemma at_stack_sp c sp m : get_reg RSP (at_stack c sp m) = sp.
Proof. unfold at_stack, get_reg, set_reg. cbn. by rewrite get_set. Qed.
Lemma at_stack_get c sp m r : r <> RSP -> get_reg r (at_stack c sp m) = get_reg r c.
Proof. intros Hr. unfold at_stack, get_reg, set_reg. cbn. rewrite get_set. by destruct (decide (RSP = r)). Qed.

(** An operand that a push can read at any time while the stack grows. *)
Definition steady (c : Cpu64) (lo hi : Z) (o : opnd) (v : Z) : Prop :=
  is_word v /\ forall sp m, same_outside lo hi (mem c) m -> value o (at_stack c sp m) = v.

Lemma steady_reg c lo hi r : (forall r, is_word (get_reg r c)) -> r <> RSP -> steady c lo hi (Reg r) (get_reg r c).
Proof. intros Hw Hr. split; [apply Hw|]. intros sp m _. by apply at_stack_get. Qed.
Lemma steady_imm c lo hi n : is_word n -> steady c lo hi (Imm n) n.
Proof. by split. Qed.

(** Operands pushed one after the other: the last one is on top. *)
Lemma push_run c lo hi os vs sp m ws :
  Forall2 (steady c lo hi) os vs -> 0 <= lo -> lo + 8 * Z.of_nat (length os) <= sp <= hi -> sp < 2 ^ 64 ->
  same_outside lo hi (mem c) m -> reads m sp ws ->
  let sp' := sp - 8 * Z.of_nat (length os) in
  exists m', exec (PUSH <$> os) (at_stack c sp m) = Ret (Ok (at_stack c sp' m')) /\
    reads m' sp' (rev vs ++ ws) /\ same_outside lo hi (mem c) m'.
Proof.
  cbn zeta. intros Hos. revert sp m ws. induction Hos as [|o v os vs [Hv Ho] _ IH]; intros sp m ws H0 Hsp Hb Hs Hr.
  { exists m. cbn. by rewrite Z.sub_0_r. }
  cbn [length] in Hsp. rewrite fmap_cons, exec_cons. cbn [step64]. rewrite (Ho sp m Hs), Ok_try.
  unfold push. rewrite at_stack_sp, wrap_sub_small by lia.
  change (with_mem (set_reg RSP (sp - 8) (at_stack c sp m)) _) with
    (at_stack (at_stack c sp m) (sp - 8) (store 8 m (sp - 8) v)). rewrite at_stack_again.
  destruct (IH (sp - 8) (store 8 m (sp - 8) v) (v :: ws)) as (m' & He & Hr' & Hs'); [lia|lia|lia| | |].
  { eapply same_trans; [exact Hs|]. apply same_store; lia. }
  { by apply reads_push. }
  exists m'. rewrite He. cbn [length rev]. rewrite <- app_assoc.
  replace (sp - 8 * Z.of_nat (S (length os))) with (sp - 8 - 8 * Z.of_nat (length os)) by lia. done.
Qed.

(** The same from the current stack pointer. *)
Lemma push_all_run c os vs ws :
  let hi := get_reg RSP c in let lo := hi - 8 * Z.of_nat (length os) in
  Forall2 (steady c lo hi) os vs -> 0 <= lo -> hi < 2 ^ 64 -> reads (mem c) hi ws ->
  exists m, exec (PUSH <$> os) c = Ret (Ok (at_stack c lo m)) /\
    reads m lo (rev vs ++ ws) /\ same_outside lo hi (mem c) m.
Proof.
  cbn zeta. intros Hos H0 Hb Hr.
  destruct (push_run c _ _ os vs (get_reg RSP c) (mem c) ws Hos) as (m & He & Hm & Hs); [lia|lia|lia|apply same_refl|done|].
  rewrite at_stack_self in He. eauto.
Qed.

(** [iretq] loads the five words on the stack. *)
Lemma iretq_run c ip code fl sp0 stk :
  0 <= get_reg RSP c -> get_reg RSP c + 40 < 2 ^ 64 ->
  reads (mem c) (get_reg RSP c) [ip; code; fl; sp0; stk] ->
  iretq c = with_ctrl (set_reg RSP sp0 c) ip fl code stk.
Proof.
  intros H0 Hb Hr. set (w := fun i => load 8 (mem c) (uwrap_add 64 (get_reg RSP c) (8 * i))).
  change (iretq c) with (with_ctrl (set_reg RSP (w 3) c) (w 0) (w 2) (w 1) (w 4)).
  assert (forall i x, [ip; code; fl; sp0; stk] !! i = Some x -> w (Z.of_nat i) = x) as Hw.
  { intros i x Hi. pose proof (lookup_lt_Some _ _ _ Hi) as Hlt. cbn in Hlt.
    unfold w. rewrite <- (Hr _ _ Hi), wrap_add_small by lia. done. }
  assert (w 0 = ip /\ w 1 = code /\ w 2 = fl /\ w 3 = sp0 /\ w 4 = stk) as (-> & -> & -> & -> & ->); [|done].
  split_and!; [apply (Hw 0%nat)|apply (Hw 1%nat)|apply (Hw 2%nat)|apply (Hw 3%nat)|apply (Hw 4%nat)]; done.
Qed.

(** Registers loaded from offsets behind another one. *)
Lemma mov_at_run base ps vs c :
  (forall p, p ∈ ps -> p.1 <> base) -> 0 <= get_reg base c ->
  Forall2 (fun p v => 0 <= p.2 /\ get_reg base c + p.2 < 2 ^ 64 /\ load 8 (mem c) (get_reg base c + p.2) = v) ps vs ->
  exec ((fun p => MOV p.1 (At base p.2)) <$> ps) c = Ret (Ok (with_gprs c (foldl (fun g pv => set pv.1 pv.2 g) (gprs c) (zip ps.*1 vs)))).
Proof.
  revert vs c. induction ps as [|[r off] ps IH]; intros vs c Hne H0 Hf.
  { apply Forall2_nil_inv_l in Hf as ->. by destruct c. }
  apply Forall2_cons_inv_l in Hf as (v & vs' & (Ho & Hb & Hv) & Hf & ->).
  assert (r <> base) as Hr by (apply (Hne (r, off)); left).
  rewrite fmap_cons, exec_cons. cbn [step64 value fst snd] in *. unfold ea. rewrite wrap_add_small, Hv, Ok_try by lia.
  assert (get_reg base (set_reg r v c) = get_reg base c) as Hb'.
  { unfold get_reg, set_reg. cbn. rewrite get_set. by case_decide. }
  rewrite (IH vs'); [done| |by rewrite Hb'|].
  - intros p Hp. apply Hne. by right.
  - rewrite Hb'. done.
Qed.

(** The registers of a list set to the words of another. *)
Fixpoint set_regs (rs : list reg) (ws : list Z) (g : Gprs) : Gprs :=
  match rs, ws with r :: rs, w :: ws => set_regs rs ws (set r w g) | _, _ => g end.

Lemma set_regs_sp rs ws v g : RSP ∉ rs -> set_regs rs ws (set RSP v g) = set RSP v (set_regs rs ws g).
Proof.
  revert ws g. induction rs as [|r rs IH]; intros ws g Hni; [done|].
  apply not_elem_of_cons in Hni as [Hne Hni]. destruct ws as [|w ws]; [done|]. cbn [set_regs].
  rewrite (set_comm r RSP), IH by done. done.
Qed.

Lemma pop_regs_run rs c vs ws :
  RSP ∉ rs -> length vs = length rs -> 0 <= get_reg RSP c ->
  get_reg RSP c + 8 * Z.of_nat (length rs) < 2 ^ 64 ->
  reads (mem c) (get_reg RSP c) (vs ++ ws) ->
  exec (POP <$> rs) c =
    Ret (Ok (with_gprs c (set RSP (get_reg RSP c + 8 * Z.of_nat (length rs)) (set_regs rs vs (gprs c))))).
Proof.
  revert c vs. induction rs as [|r rs IH]; intros c vs Hni Hl H0 Hsp Hr.
  { cbn. rewrite Z.add_0_r. change (get_reg RSP c) with (get RSP (gprs c)). rewrite set_get. by destruct c. }
  apply not_elem_of_cons in Hni as [Hne Hni]. destruct vs as [|v vs]; [done|]. injection Hl as Hl.
  cbn [app] in Hr. apply reads_cons in Hr as [Hv Hr]. cbn [length] in Hsp.
  rewrite fmap_cons, exec_cons. cbn [step64]. rewrite Ok_try. unfold pop. rewrite Hv, wrap_add_small by lia.
  set (c1 := set_reg r v _).
  assert (get_reg RSP c1 = get_reg RSP c + 8) as Hg1.
  { unfold c1, get_reg, set_reg. cbn. rewrite !get_set. destruct (decide (r = RSP)); [by subst|done]. }
  rewrite (IH c1 vs) by (rewrite ?Hg1; try done; lia). rewrite Hg1. unfold c1, set_reg, with_gprs. cbn.
  rewrite set_comm by done. rewrite set_regs_sp by done. rewrite set_set.
  by replace (get_reg RSP c + 8 * Z.of_nat (S (length rs))) with (get_reg RSP c + 8 + 8 * Z.of_nat (length rs)) by lia.
Qed.

Lemma length_halves (xs : list Z) : length (xs ≫= halves) = (2 * length xs)%nat.
Proof. induction xs as [|x xs IH]; [done|]. unfold mbind in *. cbn in *. lia. Qed.

(** Vector registers stored at ascending addresses. *)
Lemma movaps_st_run k c ws :
  (k <= length (xmm c))%nat -> Forall (fun x => 0 <= x < 2 ^ 128) (xmm c) ->
  let sp := get_reg RSP c in
  sp mod 16 = 0 -> 0 <= sp -> sp + 16 * Z.of_nat k < 2 ^ 64 ->
  reads (mem c) (sp + 16 * Z.of_nat k) ws ->
  exists m, exec ((fun x => MOVAPS_ST RSP (16 * Z.of_nat x) x) <$> seq 0 k) c = Ret (Ok (with_mem c m)) /\
    reads m sp ((take k (xmm c) ≫= halves) ++ ws) /\
    same_outside sp (sp + 16 * Z.of_nat k) (mem c) m.
Proof.
  cbn zeta. revert ws. induction k as [|k IH]; intros ws Hk Hx Hal H0 Hsp Hr.
  { exists (mem c). cbn. split_and!; [by destruct c| |apply same_refl]. by rewrite Z.add_0_r in Hr. }
  destruct (IH []) as (m & He & Hrm & Hs); [lia|done|done|done|lia|apply reads_nil|].
  rewrite seq_S, fmap_app, exec_app, He, Ok_try. cbn [Nat.add].
  change ((fun x => MOVAPS_ST RSP (16 * Z.of_nat x) x) <$> [k]) with [MOVAPS_ST RSP (16 * Z.of_nat k) k].
  cbn [Amd64.exec step64]. unfold ea. change (get_reg RSP (with_mem c m)) with (get_reg RSP c).
  set (sp := get_reg RSP c) in *. rewrite wrap_add_small by lia.
  replace ((sp + 16 * Z.of_nat k) mod 16) with 0 by (rewrite Z.mul_comm, Z.mod_add by lia; done).
  change (0 =? 0) with true. cbv iota. rewrite Ok_try. change (xmm (with_mem c m)) with (xmm c).
  change (mem (with_mem c m)) with m.
  assert (is_Some (xmm c !! k)) as [x Hxk] by (apply lookup_lt_is_Some; lia).
  rewrite (nth_lookup_Some _ _ 0 x Hxk).
  pose proof (proj1 (Forall_lookup _ _) Hx k x Hxk) as Hb. cbn in Hb.
  eexists. split; [done|]. rewrite app_nil_r in Hrm.
  assert (length (take k (xmm c) ≫= halves) = 2 * k)%nat as Hlen.
  { rewrite length_halves, length_take. lia. }
  split.
  - rewrite (take_S_r _ _ x Hxk), bind_app. unfold halves at 2. unfold mbind at 2. cbn [list_bind app]. rewrite <- app_assoc. cbn [app].
    apply reads_app. rewrite Hlen. split.
    + apply reads_store; [rewrite Hlen; lia|done].
    + replace (sp + 8 * Z.of_nat (2 * k)) with (sp + 16 * Z.of_nat k) by lia.
      rewrite !reads_cons. split_and!.
      * rewrite load_store by lia. done.
      * change 8 with (Z.of_nat 8). rewrite load_store_hi by lia.
        change (256 ^ Z.of_nat 8) with (2 ^ 64). apply Z.mod_small. split; [apply Z.div_pos; lia|].
        apply Z.div_lt_upper_bound; lia.
      * replace (sp + 16 * Z.of_nat k + 8 + 8) with (sp + 16 * Z.of_nat (S k)) by lia.
        apply reads_store; [lia|]. eapply same_reads; [exact Hs|lia|done].
  - eapply same_trans; [eapply same_weaken; [..|exact Hs]; lia|]. apply same_store; lia.
Qed.

(** Vector registers loaded from ascending addresses. *)
Lemma movaps_ld_run base k c (xs : list Z) :
  length (xmm c) = 16%nat -> (k <= 16)%nat -> length xs = 16%nat ->
  let a := get_reg base c in
  a mod 16 = 0 -> 0 <= a -> a + 256 < 2 ^ 64 ->
  (forall i x, xs !! i = Some x -> load 16 (mem c) (a + 16 * Z.of_nat i) = x) ->
  exec ((fun x => MOVAPS_LD x base (16 * Z.of_nat x)) <$> seq 0 k) c =
    Ret (Ok (with_xmm c (take k xs ++ drop k (xmm c)))).
Proof.
  cbn zeta. intros Hl Hk Hxs Hal H0 Hb Hx. induction k as [|k IH]; [by destruct c|].
  rewrite seq_S, fmap_app, exec_app, IH, Ok_try by lia. cbn [Nat.add].
  change ((fun x => MOVAPS_LD x base (16 * Z.of_nat x)) <$> [k]) with [MOVAPS_LD k base (16 * Z.of_nat k)].
  cbn [Amd64.exec step64]. unfold ea.
  change (get_reg base (with_xmm c _)) with (get_reg base c). set (a := get_reg base c) in *.
  rewrite wrap_add_small by lia.
  replace ((a + 16 * Z.of_nat k) mod 16) with 0 by (rewrite Z.mul_comm, Z.mod_add by lia; done).
  change (0 =? 0) with true. cbv iota. rewrite Ok_try. do 2 f_equal. unfold with_xmm. cbn. f_equal.
  assert (is_Some (xs !! k)) as [x Hxk] by (apply lookup_lt_is_Some; lia).
  assert (is_Some (xmm c !! k)) as [y Hyk] by (apply lookup_lt_is_Some; lia).
  rewrite (Hx k x Hxk), (take_S_r _ _ x Hxk), (drop_S _ y k Hyk), <- app_assoc. cbn [app].
  rewrite insert_app_r_alt by (rewrite length_take; lia). rewrite length_take, Nat.min_l, Nat.sub_diag by lia. done.
Qed.
End Runs.
