(* ===== verification/Amd64ExcThms.v ===== *)
(** * Amd64ExcThms: what interrupts, system calls and context switches preserve

    The stubs build the frame that [exc_handler] reads, and put the frame it
    leaves back into the registers.  With the System V convention for the
    compiled handler, an interrupted program continues with every register as
    it was, and a system call changes RAX (and RCX and R11) only. *)

From S2P Require Import Prelude Bytes Memory Rvm Kreq Amd64 Amd64Exc Amd64Facts.

(** ** Well-formed processors and frames *)

Definition is_u128 (x : Z) : Prop := 0 <= x < 2 ^ 128.

(** Every register and byte is in its width. *)
Record typed (c : Cpu64) : Prop := {
  ty_regs : forall r, is_word (get_reg r c);
  ty_xmm_len : length (xmm c) = 16%nat;
  ty_xmm : Forall is_u128 (xmm c);
  ty_mxcsr : 0 <= mxcsr c < 2 ^ 16;
  ty_rip : is_word (rip c);
  ty_rfl : is_word (rfl c);
  ty_cs : is_word (cs c);
  ty_ss : is_word (ss c);
  ty_msr : forall i, is_word (msr c i);
  ty_mem : forall a, is_byte (mem c a)
}.

(** The words of a frame behind the vector registers. *)
Definition frame_tail (f : ExcFrame) : list Z :=
  [f_mxcsr f; f_0 f; f_r15 f; f_r14 f; f_r13 f; f_r12 f; f_r11 f; f_r10 f; f_r9 f; f_r8 f;
   f_rbp f; f_rdi f; f_rsi f; f_rdx f; f_rcx f; f_rbx f; f_rax f; f_vec f; f_err f;
   f_rip f; f_cs f; f_rflags f; f_rsp f; f_ss f].

Record frame_ok (f : ExcFrame) : Prop := {
  fo_len : length (f_xmm f) = 16%nat;
  fo_xmm : Forall is_u128 (f_xmm f);
  fo_tail : Forall is_word (frame_tail f);
  fo_mxcsr : f_mxcsr f mod 2 ^ 32 < 2 ^ 16
}.

Lemma frame_words_tail f : frame_words f = (f_xmm f ≫= halves) ++ frame_tail f.
Proof. done. Qed.

Lemma halves_words x : is_u128 x -> Forall is_word (halves x).
Proof.
  unfold is_u128. intros Hx. repeat constructor; unfold is_word.
  1,2: apply Z.mod_pos_bound; lia.
  - apply Z.div_pos; lia.
  - apply Z.div_lt_upper_bound; lia.
Qed.

Lemma halves_cons x xs : (x :: xs) ≫= halves = halves x ++ (xs ≫= halves).
Proof. done. Qed.

Lemma frame_words_ok f : frame_ok f -> Forall is_word (frame_words f).
Proof.
  intros [_ Hx Ht _]. rewrite frame_words_tail. apply Forall_app. split; [|done].
  induction Hx as [|x xs Hx _ IH]; [done|]. rewrite halves_cons. apply Forall_app. split; [by apply halves_words|done].
Qed.

(** A vector register is its two words. *)
Lemma load_halves m a x : is_u128 x -> reads m a (halves x) -> load 16 m a = x.
Proof.
  intros Hx Hr. unfold halves in Hr. rewrite !reads_cons in Hr. destruct Hr as (Hlo & Hhi & _).
  change 16%nat with (8 + 8)%nat. rewrite load_split. change (a + Z.of_nat 8) with (a + 8). rewrite Hlo, Hhi.
  change (256 ^ Z.of_nat 8) with (2 ^ 64). pose proof (Z.div_mod x (2 ^ 64) ltac:(lia)). lia.
Qed.

Lemma xmm_reads m a xs i x :
  Forall is_u128 xs -> reads m a (xs ≫= halves) -> xs !! i = Some x -> load 16 m (a + 16 * Z.of_nat i) = x.
Proof.
  intros Hxs. revert a i. induction Hxs as [|y ys Hy Hys IH]; intros a i Hr Hi; [done|].
  rewrite halves_cons in Hr. apply reads_app in Hr as [Hy' Hr].
  destruct i as [|i]; cbn in Hi.
  - injection Hi as <-. rewrite Z.add_0_r. by apply load_halves.
  - specialize (IH _ i Hr Hi). rewrite <- IH. f_equal. change (length (halves y)) with 2%nat. lia.
Qed.

(** The frame at an address is the one whose words are there. *)
Lemma read_frame_words m a f :
  length (f_xmm f) = 16%nat -> Forall is_u128 (f_xmm f) -> reads m a (frame_words f) -> read_frame m a = f.
Proof.
  intros Hl Hx Hr. rewrite frame_words_tail in Hr. apply reads_app in Hr as [Hxr Hr].
  rewrite length_halves, Hl in Hr. change (8 * Z.of_nat (2 * 16)) with 256 in Hr.
  unfold read_frame. assert ((fun i => load 16 m (a + 16 * i)) <$> seqZ 0 16 = f_xmm f) as ->.
  { apply list_eq_same_length with 16%nat; [done|by rewrite length_fmap, length_seqZ|].
    intros i x y Hi Hxi Hyi. rewrite list_lookup_fmap, lookup_seqZ_lt in Hxi by lia. cbn in Hxi.
    injection Hxi as <-. rewrite Z.add_0_l. by eapply xmm_reads. }
  assert (forall k w, frame_tail f !! k = Some w -> load 8 m (a + 256 + 8 * Z.of_nat k) = w) as Hw by apply Hr.
  destruct f. cbn in Hw. f_equal;
    match goal with |- load 8 m (a + 256 + 8 * ?i) = _ => exact (Hw (Z.to_nat i) _ eq_refl) end.
Qed.

(** ** Instructions keep every register in its width *)

Lemma word_mod x : is_word (x mod 2 ^ 64).
Proof. apply Z.mod_pos_bound. lia. Qed.
Lemma word_load m a : (forall x, is_byte (m x)) -> is_word (load 8 m a).
Proof. intros Hm. apply (load_bound 8 m a Hm). Qed.
(** The constants of the code are words. *)
Definition imm_ok (i : instr) : bool :=
  match i with
  | PUSH (Imm n) | MOV _ (Imm n) => (0 <=? n) && (n <? 2 ^ 64)
  | _ => true
  end.

Section Typed.
Variable callee : Cpu64 -> outcome (result Z Cpu64).
Hypothesis callee_typed : forall c c', typed c -> callee c = Ret (Ok c') -> typed c'.

Lemma typed_set r v c : typed c -> is_word v -> typed (set_reg r v c).
Proof.
  intros [] Hv. constructor; try done. intros x. unfold get_reg, set_reg. cbn. rewrite get_set.
  case_decide; [done|apply ty_regs0].
Qed.
Lemma typed_mem m c : typed c -> (forall a, is_byte (m a)) -> typed (with_mem c m).
Proof. intros [] Hm. by constructor. Qed.
Lemma typed_store n a v c : typed c -> typed (with_mem c (store n (mem c) a v)).
Proof. intros Hc. apply typed_mem; [done|]. intros x. apply store_byte. apply (ty_mem _ Hc). Qed.
Lemma typed_load c a : typed c -> is_word (load 8 (mem c) a).
Proof. intros Hc. apply word_load. apply (ty_mem _ Hc). Qed.

Lemma value_typed o c : typed c -> (match o with Imm n => is_word n | _ => True end) -> is_word (value o c).
Proof.
  intros Hc Ho. destruct o; cbn [value]; [done|apply (ty_regs _ Hc)|by apply typed_load|by apply typed_load].
Qed.

Lemma star_selector c : is_word (msr c MSR_STAR) -> 0 <= Z.shiftr (msr c MSR_STAR) 48 < 2 ^ 16.
Proof.
  unfold is_word. intros Hs. rewrite Z.shiftr_div_pow2 by lia.
  split; [apply Z.div_pos; lia|apply Z.div_lt_upper_bound; lia].
Qed.

(** One instruction. *)
Lemma step_typed i c c' :
  imm_ok i = true -> typed c -> step64 callee i c = Ret (Ok c') -> typed c'.
Proof.
  intros Hi Hc. destruct i; cbn [step64]; intros Hs.
  all: try (injection Hs as <-).
  - unfold push. change (mem c) with (mem (set_reg RSP (uwrap_sub 64 (get_reg RSP c) 8) c)).
    apply typed_store, typed_set; [done|apply word_mod].
  - unfold pop. apply typed_set; [|by apply typed_load]. apply typed_set; [done|apply word_mod].
  - apply typed_set; [done|]. apply value_typed; [done|]. destruct o; try done. cbn in Hi. zbool. done.
  - by apply typed_store.
  - apply typed_set; [done|apply word_mod].
  - apply typed_set; [done|apply word_mod].
  - apply typed_set; [done|apply word_mod].
  - case_match; [|done]. injection Hs as <-. by apply typed_store.
  - case_match; [|done]. injection Hs as <-. destruct Hc. constructor; try done; cbn.
    + by rewrite length_insert.
    + apply Forall_insert; [done|]. apply (load_bound 16 (mem c) _ ty_mem0).
  - by apply typed_store.
  - case_match eqn:Hlt; [|done]. injection Hs as <-. destruct Hc. constructor; try done. cbn.
    zbool. pose proof (load_bound 4 (mem c) (ea base off c) ty_mem0). lia.
  - by apply (callee_typed c).
  - destruct Hc. constructor; try done. intros i. cbn. repeat case_match; apply ty_msr0.
  - destruct Hc. constructor; try done; cbn.
    + apply ty_regs0.
    + apply lor_range; [|by vm_compute]. apply land_range; [|by vm_compute]. apply ty_regs0.
    + apply lor_range; [|by vm_compute]. pose proof (star_selector c (ty_msr0 MSR_STAR)). lia.
    + apply lor_range; [|by vm_compute]. pose proof (star_selector c (ty_msr0 MSR_STAR)). lia.
  - unfold iretq. set (w := fun i => load 8 (mem c) (uwrap_add 64 (get_reg RSP c) (8 * i))).
    assert (forall i, is_word (w i)) as Hw by (intros; by apply typed_load).
    pose proof (typed_set RSP (w 3) c Hc (Hw 3)) as [].
    constructor; first [exact (Hw _) | done].
Qed.

(** execution keeps types: from a processor whose registers, vector
    registers and memory bytes are in their widths, and whose MXCSR has no
    reserved bit set, code whose constants are words reaches only such
    processors, when the function it calls does. *)
Lemma exec_typed l c c' :
  forallb imm_ok l = true -> typed c -> exec callee l c = Ret (Ok c') -> typed c'.
Proof.
  revert c. induction l as [|i l IH]; intros c Hl Hc; cbn [exec]; [by intros [= <-]|].
  cbn in Hl. apply andb_true_iff in Hl as [Hi Hl].
  destruct (step64 callee i c) as [[c1|e]| |] eqn:Hs; [|done..]. rewrite Ok_try.
  apply (IH c1 Hl). by apply (step_typed i c).
Qed.
End Typed.

(** ** The frame that the stubs build *)

Definition calls (i : instr) : bool := match i with CALL => true | _ => false end.
Definition no_callee : Cpu64 -> outcome (result Z Cpu64) := fun _ => Panic.

Lemma exec_no_call callee callee' l c : existsb calls l = false -> exec callee l c = exec callee' l c.
Proof.
  revert c. induction l as [|i l IH]; intros c Hl; [done|]. cbn in Hl. apply orb_false_iff in Hl as [Hi Hl].
  cbn [exec]. assert (step64 callee i c = step64 callee' i c) as -> by by destruct i.
  destruct (step64 callee' i c) as [[c'|e]| |]; [|done..]. rewrite !Ok_try. by apply IH.
Qed.

Definition entry_code : list instr :=
  (PUSH <$> (Reg <$> saved_regs)) ++ [SUB RSP 272] ++
  ((fun x => MOVAPS_ST RSP (16 * Z.of_nat x) x) <$> seq 0 16) ++
  [STMXCSR RSP 0x100; MOV RDI (At RSP 392); LEA RSI RSP 0].
Definition exit_regs : list reg := [R15; R14; R13; R12; R11; R10; R9; R8; RBP; RDI; RSI; RDX; RCX; RBX; RAX].
Definition exit_code : list instr :=
  [LDMXCSR RSP 0x100] ++ ((fun x => MOVAPS_LD x RSP (16 * Z.of_nat x)) <$> seq 0 16) ++
  [ADD RSP 272] ++ (POP <$> exit_regs).

Lemma call_handler_parts : call_handler = entry_code ++ CALL :: exit_code.
Proof. reflexivity. Qed.

(** What the processor and the first stub push: the vector, the error code,
    and the interrupted RIP, CS, RFLAGS, RSP and SS. *)
Record trap : Type := mkTrap { t_vec : Z; t_err : Z; t_rip : Z; t_cs : Z; t_rfl : Z; t_rsp : Z; t_ss : Z }.
Definition trap_words (t : trap) : list Z := [t_vec t; t_err t; t_rip t; t_cs t; t_rfl t; t_rsp t; t_ss t].

(** The frame of processor [c]; the upper half of the MXCSR word and the word
    behind it are what was on the stack. *)
Definition frame_of (c : Cpu64) (t : trap) (hi pad : Z) : ExcFrame :=
  let g := gprs c in
  mkExcFrame (xmm c) (mxcsr c + 2 ^ 32 * hi) pad
    (g_r15 g) (g_r14 g) (g_r13 g) (g_r12 g) (g_r11 g) (g_r10 g) (g_r9 g) (g_r8 g)
    (g_rbp g) (g_rdi g) (g_rsi g) (g_rdx g) (g_rcx g) (g_rbx g) (g_rax g)
    (t_vec t) (t_err t) (t_rip t) (t_cs t) (t_rfl t) (t_rsp t) (t_ss t).

(** The low half of a word, written over what was there. *)
Lemma load_store_low m a v : 0 <= v < 2 ^ 32 -> load 8 (store 4 m a v) a = v + 2 ^ 32 * load 4 m (a + 4).
Proof.
  intros Hv. change 8%nat with (4 + 4)%nat. rewrite load_split, load_store by lia.
  change (256 ^ Z.of_nat 4) with (2 ^ 32). rewrite Z.mod_small by done. do 2 f_equal.
  apply load_store_other. lia.
Qed.

Lemma entry_pushes c t :
  typed c -> let sp := get_reg RSP c in 392 <= sp -> reads (mem c) sp (trap_words t) ->
  exists m, exec no_callee (PUSH <$> (Reg <$> saved_regs)) c = Ret (Ok (at_stack c (sp - 120) m)) /\
    reads m (sp - 120) (rev ((fun r => get_reg r c) <$> saved_regs) ++ trap_words t) /\
    same_outside (sp - 120) sp (mem c) m.
Proof.
  cbn zeta. intros Hc Hsp Hr. pose proof (ty_regs _ Hc) as Hw. pose proof (Hw RSP) as Hb. unfold is_word in Hb.
  change 120 with (8 * Z.of_nat (length (Reg <$> saved_regs))).
  apply (push_all_run no_callee c (Reg <$> saved_regs) ((fun r => get_reg r c) <$> saved_regs)); [|change (8 * Z.of_nat (length (Reg <$> saved_regs))) with 120; lia|lia|done].
  apply Forall2_fmap, Forall_Forall2_diag. unfold saved_regs.
  repeat (apply Forall_cons_2; [by apply steady_reg|]). apply Forall_nil_2.
Qed.

(** The stack after the vector registers are stored: two words that are not
    written yet lie between them and the general registers. *)
Lemma entry_vectors c t :
  typed c -> let sp := get_reg RSP c in sp mod 16 = 8 -> 392 <= sp -> reads (mem c) sp (trap_words t) ->
  exists m pad,
    exec no_callee ((PUSH <$> (Reg <$> saved_regs)) ++ [SUB RSP 272] ++
      ((fun x => MOVAPS_ST RSP (16 * Z.of_nat x) x) <$> seq 0 16)) c = Ret (Ok (at_stack c (sp - 392) m)) /\
    reads m (sp - 392) (xmm c ≫= halves) /\
    reads m (sp - 128) (pad :: rev ((fun r => get_reg r c) <$> saved_regs) ++ trap_words t) /\
    same_outside (sp - 392) sp (mem c) m.
Proof.
  cbn zeta. intros Hc Hal Hsp Hr. pose proof (ty_regs _ Hc RSP) as Hb. unfold is_word in Hb.
  destruct (entry_pushes c t Hc Hsp Hr) as (m1 & He1 & Hr1 & Hs1). set (sp := get_reg RSP c) in *.
  rewrite exec_app, He1, Ok_try. set (rest := rev _ ++ trap_words t) in *.
  set (l := (fun x => MOVAPS_ST _ _ _) <$> _). change ([SUB RSP 272] ++ l) with (SUB RSP 272 :: l).
  rewrite exec_cons. cbn [step64]. rewrite Ok_try, at_stack_sp, wrap_sub_small by lia.
  change (set_reg RSP (sp - 120 - 272) (at_stack c (sp - 120) m1)) with
    (at_stack (at_stack c (sp - 120) m1) (sp - 120 - 272) m1).
  rewrite at_stack_again. replace (sp - 120 - 272) with (sp - 392) by lia. set (c2 := at_stack c (sp - 392) m1).
  assert (get_reg RSP c2 = sp - 392) as Hsp2 by apply at_stack_sp.
  destruct (movaps_st_run no_callee 16 c2 (load 8 m1 (sp - 136) :: load 8 m1 (sp - 128) :: rest))
    as (m2 & He2 & Hr2 & Hs2); rewrite ?Hsp2; change (xmm c2) with (xmm c) in *; change (mem c2) with m1 in *.
  { rewrite (ty_xmm_len _ Hc). lia. }
  { apply (ty_xmm _ Hc). }
  { replace (sp - 392) with (sp + 8 + -25 * 16) by lia. rewrite Z.mod_add by lia.
    rewrite <- Z.add_mod_idemp_l, Hal by lia. done. }
  1-2: lia.
  { replace (sp - 392 + 16 * Z.of_nat 16) with (sp - 136) by lia. rewrite !reads_cons.
    replace (sp - 136 + 8) with (sp - 128) by lia. by replace (sp - 128 + 8) with (sp - 120) by lia. }
  rewrite Hsp2 in *. rewrite take_ge in Hr2 by (rewrite (ty_xmm_len _ Hc); lia).
  apply reads_app in Hr2 as [Hx Hr2]. rewrite length_halves, (ty_xmm_len _ Hc) in Hr2.
  replace (sp - 392 + 8 * Z.of_nat (2 * 16)) with (sp - 136) in Hr2 by lia.
  apply reads_cons in Hr2 as [_ Hr2]. replace (sp - 136 + 8) with (sp - 128) in Hr2 by lia.
  exists m2, (load 8 m1 (sp - 128)). unfold l. rewrite He2. split_and!; [done..|].
  eapply same_trans; [eapply same_weaken; [..|exact Hs1]; lia|]. eapply same_weaken; [..|exact Hs2]; lia.
Qed.

(** The whole way into the handler: the frame is complete, RDI and RSI are
    the arguments. *)
Lemma entry_nocall c t :
  typed c -> let sp := get_reg RSP c in
  sp mod 16 = 8 -> 392 <= sp -> reads (mem c) sp (trap_words t) ->
  exists m hi pad, exec no_callee entry_code c =
      Ret (Ok (set_reg RSI (sp - 392) (set_reg RDI (t_vec t) (at_stack c (sp - 392) m)))) /\
    reads m (sp - 392) (frame_words (frame_of c t hi pad)) /\
    hi = load 4 m (sp - 132) /\ pad = load 8 m (sp - 128) /\
    same_outside (sp - 392) sp (mem c) m.
Proof.
  cbn zeta. intros Hc Hal Hsp Hr. pose proof (ty_regs _ Hc RSP) as Hb. unfold is_word in Hb.
  destruct (entry_vectors c t Hc Hal Hsp Hr) as (m2 & pad & He & Hx & Hr2 & Hs2). set (sp := get_reg RSP c) in *.
  set (rest := rev _ ++ trap_words t) in *. pose proof (ty_mxcsr _ Hc) as Hmx.
  set (c2 := at_stack c (sp - 392) m2) in *. assert (get_reg RSP c2 = sp - 392) as Hsp2 by apply at_stack_sp.
  set (m3 := store 4 m2 (sp - 136) (mxcsr c)). set (c3 := with_mem c2 m3).
  assert (get_reg RSP c3 = sp - 392) as Hsp3 by apply Hsp2.
  pose proof Hr2 as [Hpad Hrest]%reads_cons. replace (sp - 128 + 8) with (sp - 120) in Hrest by lia.
  exists m3, (load 4 m3 (sp - 132)), (load 8 m3 (sp - 128)). split_and!; [| |done..|].
  - unfold entry_code. rewrite !app_assoc, exec_app, <- !app_assoc, He, Ok_try.
    rewrite exec_cons. cbn [step64]. unfold ea at 1. rewrite Hsp2, wrap_add_small by lia.
    replace (sp - 392 + 256) with (sp - 136) by lia. rewrite Ok_try.
    change (with_mem c2 _) with c3.
    rewrite exec_cons. cbn [step64 value]. unfold ea at 1. rewrite Hsp3, wrap_add_small, Ok_try by lia.
    replace (sp - 392 + 392) with sp by lia.
    assert (load 8 (mem c3) sp = t_vec t) as ->.
    { assert (reads m3 (sp - 120) rest) as Hr3 by (apply reads_store; [lia|done]).
      apply (reads_lookup _ _ _ 15 (t_vec t)) in Hr3; [|done]. rewrite <- Hr3. f_equal. lia. }
    rewrite exec_cons. cbn [step64]. unfold ea at 1.
    assert (get_reg RSP (set_reg RDI (t_vec t) c3) = sp - 392) as ->.
    { unfold get_reg, set_reg. cbn. rewrite get_set. case_decide; [done|]. apply Hsp3. }
    rewrite wrap_add_small, Z.add_0_r by lia. done.
  - rewrite frame_words_tail. apply reads_app. cbn [f_xmm frame_of].
    rewrite length_halves, (ty_xmm_len _ Hc). replace (sp - 392 + 8 * Z.of_nat (2 * 16)) with (sp - 136) by lia.
    split; [apply reads_store; [rewrite length_halves, (ty_xmm_len _ Hc); lia|done]|].
    change (frame_tail _) with (mxcsr c + 2 ^ 32 * load 4 m3 (sp - 132) :: load 8 m3 (sp - 128) :: rest).
    rewrite !reads_cons. replace (sp - 136 + 8) with (sp - 128) by lia. replace (sp - 128 + 8) with (sp - 120) by lia.
    split_and!; [|done|apply reads_store; [lia|done]].
    unfold m3 at 1. rewrite load_store_low by lia. replace (sp - 136 + 4) with (sp - 132) by lia.
    do 2 f_equal. symmetry. apply load_store_other. lia.
  - eapply same_trans; [exact Hs2|]. apply same_store; lia.
Qed.

Lemma no_callee_typed c c' : typed c -> no_callee c = Ret (Ok c') -> typed c'.
Proof. done. Qed.

Definition trap_ok (t : trap) : Prop := Forall is_word (trap_words t).

(** The frame of a well-formed processor is well formed. *)
Lemma frame_of_ok c t hi pad :
  typed c -> trap_ok t -> 0 <= hi < 2 ^ 32 -> is_word pad -> frame_ok (frame_of c t hi pad).
Proof.
  intros Hc Ht Hhi Hp. pose proof (ty_mxcsr _ Hc). constructor; cbn [f_xmm frame_of].
  - apply (ty_xmm_len _ Hc).
  - apply (ty_xmm _ Hc).
  - change (frame_tail (frame_of c t hi pad)) with
      (mxcsr c + 2 ^ 32 * hi :: pad :: rev ((fun r => get_reg r c) <$> saved_regs) ++ trap_words t).
    constructor; [unfold is_word; lia|]. constructor; [done|]. apply Forall_app. split; [|done].
    apply Forall_rev, Forall_fmap, Forall_true. intros r. apply (ty_regs _ Hc).
  - cbn. rewrite (Z.mul_comm (2 ^ 32)), Z.mod_add, Z.mod_small by lia. lia.
Qed.

(** A state in which the handler can be called. *)
Lemma entry_run callee c t :
  typed c -> trap_ok t -> let sp := get_reg RSP c in
  sp mod 16 = 8 -> 392 <= sp -> reads (mem c) sp (trap_words t) ->
  exists c1 hi pad, exec callee entry_code c = Ret (Ok c1) /\
    c1 = set_reg RSI (sp - 392) (set_reg RDI (t_vec t) (at_stack c (sp - 392) (mem c1))) /\
    read_frame (mem c1) (sp - 392) = frame_of c t hi pad /\ frame_ok (frame_of c t hi pad) /\
    same_outside (sp - 392) sp (mem c) (mem c1) /\ typed c1.
Proof.
  cbn zeta. intros Hc Ht Hal Hsp Hr.
  destruct (entry_nocall c t Hc Hal Hsp Hr) as (m & hi & pad & He & Hf & Hhi & Hpad & Hs).
  pose proof (exec_typed no_callee no_callee_typed entry_code c _ eq_refl Hc He) as Hc1.
  pose proof (ty_mem _ Hc1) as Hm. cbn in Hm.
  assert (frame_ok (frame_of c t hi pad)) as Hok.
  { apply frame_of_ok; [done..| |].
    - rewrite Hhi. apply (load_bound 4 m _ Hm).
    - rewrite Hpad. by apply word_load. }
  eexists _, hi, pad. rewrite (exec_no_call callee no_callee) by reflexivity.
  split; [exact He|]. split_and!; [done| |done|done|done].
  apply read_frame_words; [apply (fo_len _ Hok)|apply (fo_xmm _ Hok)|done].
Qed.

(** ** Leaving the handler *)

(** The registers that a frame holds, under a stack pointer. *)
Definition frame_gprs (f : ExcFrame) (sp : Z) : Gprs :=
  mkGprs (f_rax f) (f_rbx f) (f_rcx f) (f_rdx f) (f_rsi f) (f_rdi f) (f_rbp f) sp
    (f_r8 f) (f_r9 f) (f_r10 f) (f_r11 f) (f_r12 f) (f_r13 f) (f_r14 f) (f_r15 f).

Lemma load_low m a : (forall x, is_byte (m x)) -> load 4 m a = load 8 m a mod 2 ^ 32.
Proof.
  intros Hm. change 8%nat with (4 + 4)%nat. rewrite load_split. change (256 ^ Z.of_nat 4) with (2 ^ 32).
  rewrite (Z.mul_comm (2 ^ 32)), Z.mod_add by lia. symmetry. apply Z.mod_small, (load_bound 4 m a Hm).
Qed.

Lemma exit_pops callee c f :
  0 <= get_reg RSP c -> get_reg RSP c + 120 < 2 ^ 64 -> reads (mem c) (get_reg RSP c) (drop 2 (frame_tail f)) ->
  exec callee (POP <$> exit_regs) c = Ret (Ok (with_gprs c (frame_gprs f (get_reg RSP c + 120)))).
Proof.
  intros H0 Hb Hr. change (drop 2 (frame_tail f)) with (take 15 (drop 2 (frame_tail f)) ++ drop 17 (frame_tail f)) in Hr.
  rewrite (pop_regs_run callee exit_regs c (take 15 (drop 2 (frame_tail f))) (drop 17 (frame_tail f)));
    [|by apply (bool_decide_unpack _)|done|done|done|done].
  do 3 f_equal. by destruct (gprs c).
Qed.

Lemma exit_run callee c a f :
  get_reg RSP c = a -> a mod 16 = 0 -> 0 <= a -> a + 448 < 2 ^ 64 -> typed c ->
  frame_ok f -> reads (mem c) a (frame_words f) ->
  exec callee exit_code c =
    Ret (Ok (mkCpu64 (frame_gprs f (a + 392)) (f_xmm f) (f_mxcsr f mod 2 ^ 32)
      (rip c) (rfl c) (cs c) (ss c) (msr c) (mem c) (log c))).
Proof.
  intros Ha Hal H0 Hb Hc Hf Hr. pose proof Hr as Hr'. rewrite frame_words_tail in Hr'.
  apply reads_app in Hr' as [Hx Ht]. rewrite length_halves, (fo_len _ Hf) in Ht.
  change (8 * Z.of_nat (2 * 16)) with 256 in Ht. pose proof Ht as (Hmx & Ht2)%reads_cons.
  apply reads_cons in Ht2 as [_ Ht2]. replace (a + 256 + 8 + 8) with (a + 272) in Ht2 by lia.
  unfold exit_code. cbn [app]. rewrite exec_cons. cbn [step64]. unfold ea.
  rewrite Ha, wrap_add_small, load_low, Hmx by (try apply (ty_mem _ Hc); lia).
  pose proof (fo_mxcsr _ Hf) as Hlt. destruct (Z.ltb_spec (f_mxcsr f mod 2 ^ 32) (2 ^ 16)); [|lia].
  rewrite Ok_try, exec_app. set (c2 := with_mxcsr c (f_mxcsr f mod 2 ^ 32)).
  assert (get_reg RSP c2 = a) as Ha2 by done.
  rewrite (movaps_ld_run callee RSP 16 c2 (f_xmm f)); rewrite ?Ha2; try done || lia.
  2: apply (ty_xmm_len _ Hc).
  2: apply (fo_len _ Hf).
  2: { intros i x Hi. change (mem c2) with (mem c). eapply xmm_reads; [apply (fo_xmm _ Hf)|done..]. }
  rewrite Ok_try, (take_ge (f_xmm f)), drop_ge, app_nil_r by (try change (xmm c2) with (xmm c);
    rewrite ?(fo_len _ Hf), ?(ty_xmm_len _ Hc); lia).
  cbn [app]. rewrite exec_cons. cbn [step64]. change (get_reg RSP (with_xmm c2 _)) with (get_reg RSP c).
  rewrite Ha, wrap_add_small, Ok_try by lia. set (c3 := set_reg RSP (a + 272) (with_xmm c2 (f_xmm f))).
  assert (get_reg RSP c3 = a + 272) as Ha3.
  { unfold c3, get_reg, set_reg. cbn. by rewrite get_set. }
  rewrite (exit_pops callee c3 f); rewrite ?Ha3; try lia; [|done].
  unfold c3, with_gprs, set_reg. cbn. do 4 f_equal. lia.
Qed.

(** ** The handler between entry and exit *)

Lemma store_words_bytes m a ws x : (forall y, is_byte (m y)) -> is_byte (store_words m a ws x).
Proof.
  intros Hm. revert a x. induction ws as [|w ws IH]; intros a x; [apply Hm|]. cbn [store_words].
  apply store_byte. apply IH.
Qed.

Lemma kreq_value `{Platform} rd fuel req a1 a2 v out :
  kernel_requestee rd fuel req a1 a2 = Ret (Returns v out) -> v = 0.
Proof.
  unfold kernel_requestee. intros Hk. inv_bind. repeat case_match; inv_bind; congruence.
Qed.

Lemma handler_frame `{Platform} fuel rd v f f' ev :
  frame_ok f -> exc_handler fuel rd v f = Ret (Ok (f', ev)) -> frame_ok f' /\ f_mxcsr f' = f_mxcsr f.
Proof.
  intros Hf. unfold exc_handler. case_match; [by intros [= <- <-]|]. case_match; [|done].
  intros ([r out|code] & Hr & [=])%bind_Ret. subst. apply kreq_value in Hr as ->. split; [|done].
  destruct Hf as [? ? Ht ?]. constructor; try done. unfold frame_tail in *. cbn.
  repeat (apply Forall_cons in Ht as [? Ht]; apply Forall_cons; split; [done|]).
  all: try done.
Qed.

Section Handlers.
Context `{Platform}.
Variables (fuel : nat) (mapped : Z -> bool) (abi : Cpu64 -> Cpu64).
Hypothesis abi_law : abi_ok abi.
Hypothesis abi_typed : forall c, typed c -> typed (abi c).

#[local] Abbreviation callee := (call_exc_handler fuel mapped abi).
#[local] Abbreviation handler m := (exc_handler fuel (reader mapped m)).

(** What is left on the stack and in the registers after the pops. *)
Record left_by (c : Cpu64) (f : ExcFrame) (ev : list event) (c' : Cpu64) : Prop := {
  lb_gprs : gprs c' = frame_gprs f (get_reg RSP c);
  lb_xmm : xmm c' = f_xmm f;
  lb_mxcsr : mxcsr c' = f_mxcsr f mod 2 ^ 32;
  lb_stack : reads (mem c') (get_reg RSP c) (drop 17 (frame_tail f));
  lb_msr : msr c' = msr c;
  lb_mem : forall K, keeps abi K -> forall x, K x -> x < get_reg RSP c - 392 \/ get_reg RSP c + 56 <= x -> mem c' x = mem c x;
  lb_log : log c' = log c ++ ev
}.

Lemma frame_words_length f : frame_ok f -> length (frame_words f) = 56%nat.
Proof. intros Hf. rewrite frame_words_tail, length_app, length_halves, (fo_len _ Hf). done. Qed.

Lemma call_handler_run c t :
  typed c -> trap_ok t -> let sp := get_reg RSP c in
  sp mod 16 = 8 -> 392 <= sp -> sp + 56 < 2 ^ 64 -> reads (mem c) sp (trap_words t) ->
  exists m hi pad, same_outside (sp - 392) sp (mem c) m /\ 0 <= hi < 2 ^ 32 /\
    follows (handler m (t_vec t) (frame_of c t hi pad)) (exec callee call_handler c)
      (fun r c' => left_by c r.1 r.2 c').
Proof.
  cbn zeta. intros Hc Ht Hal Hsp Hb Hr.
  destruct (entry_run callee c t Hc Ht Hal Hsp Hr) as (c1 & hi & pad & He & Hc1 & Hf & Hok & Hs & Ht1).
  set (sp := get_reg RSP c) in *. set (m := mem c1) in *.
  assert (get_reg RSI c1 = sp - 392) as Hsi by (rewrite Hc1; unfold get_reg, set_reg; cbn; by rewrite get_set).
  assert (get_reg RDI c1 = t_vec t) as Hdi by (rewrite Hc1; unfold get_reg, set_reg; cbn; by rewrite !get_set).
  assert (get_reg RSP c1 = sp - 392) as Hsp1.
  { rewrite Hc1. unfold get_reg, set_reg. cbn. by rewrite !get_set. }
  exists m, hi, pad. split_and!; [done| | |].
  1-2: pose proof (ty_mxcsr _ Hc); destruct Hok as [_ _ Htl _]; apply Forall_cons in Htl as [Hw _];
    unfold is_word in Hw; cbn in Hw; lia.
  rewrite call_handler_parts, exec_app, He, Ok_try, exec_cons. cbn [step64]. unfold call_exc_handler.
  fold m. rewrite Hsi, Hdi, Hf.
  destruct (handler m (t_vec t) (frame_of c t hi pad)) as [[[f ev]|code]| |] eqn:Hh; try done.
  rewrite !Ok_try. apply handler_frame in Hh as [Hok' _]; [|done]. cbn [follows].
  set (c2 := with_log _ _). assert (typed c2) as Ht2.
  { destruct (abi_typed c1 Ht1). constructor; try done. intros x. by apply store_words_bytes. }
  assert (get_reg RSP c2 = sp - 392) as Hsp2.
  { rewrite <- Hsp1. apply (abi_regs _ abi_law c1 RSP). by apply (bool_decide_unpack _). }
  rewrite (exit_run callee c2 (sp - 392) f); [|done| |lia|lia|done|done|].
  - eexists. split; [done|]. replace (sp - 392 + 392) with sp by lia. constructor; cbn; try done.
    + assert (reads (mem c2) (sp - 392) (frame_words f)) as Hw by (by apply reads_store_words, frame_words_ok).
      rewrite frame_words_tail in Hw. apply reads_app in Hw as [_ Hw]. rewrite length_halves, (fo_len _ Hok') in Hw.
      change (frame_tail f) with (take 17 (frame_tail f) ++ drop 17 (frame_tail f)) in Hw.
      apply reads_app in Hw as [_ Hw]. fold sp. change (length (take 17 (frame_tail f))) with 17%nat in Hw.
      replace (sp - 392 + 8 * Z.of_nat (2 * 16) + 8 * Z.of_nat 17) with sp in Hw by lia. exact Hw.
    + by rewrite (abi_msr _ abi_law), Hc1.
    + intros K HK x Hx Ho. unfold write_frame. rewrite store_words_other, (HK c1 x Hx).
      * apply Hs. fold sp in Ho. lia.
      * rewrite (frame_words_length _ Hok'). fold sp in Ho. lia.
    + by rewrite Hc1.
  - replace (sp - 392) with (sp + 8 + -25 * 16) by lia. rewrite Z.mod_add by lia.
    rewrite <- Z.add_mod_idemp_l, Hal by lia. done.
  - by apply reads_store_words, frame_words_ok.
Qed.
End Handlers.
