(* ===== verification/Amd64Trap.v ===== *)
(** * Amd64Trap: interrupts and system calls from end to end

    An interrupt through the gates that [init] sets up, and the [syscall]
    instruction with the registers that [init] writes, are described by
    [trap_effect]: what happens as the interrupted program sees it. *)

From S2P Require Import Prelude Bytes Memory Rvm Kreq Amd64 Amd64Exc Amd64Facts Amd64ExcThms.

(** ** The specification *)

Section Spec.
Context `{Platform}.
Variable fuel : nat.

(** A new value for RAX, if any, and what becomes visible outside; [Err] when
    the process ends, [Panic] when the kernel stops. *)
Definition trap_effect (rd : Z -> outcome Z) (v rax rdi rsi : Z) : outcome (result Z (option Z * list event)) :=
  if v =? 32 then Ret (Ok (None, Eoi 0 :: timer_msg))
  else if v =? 128 then
    r ← kernel_requestee rd fuel rax rdi rsi;
    match r with
    | Returns x out => Ret (Ok (Some x, Putchar <$> out))
    | Exits code => Ret (Err code)
    end
  else Panic.

Definition new_frame (f : ExcFrame) (x : option Z) : ExcFrame :=
  match x with Some r => set_frame_rax f r | None => f end.

Lemma handler_effect rd v f :
  exc_handler fuel rd v f =
    r ←? trap_effect rd v (f_rax f) (f_rdi f) (f_rsi f); Ret (Ok (new_frame f r.1, r.2)).
Proof.
  unfold exc_handler, trap_effect. case_match; [done|]. case_match; [|done].
  destruct (kernel_requestee rd fuel (f_rax f) (f_rdi f) (f_rsi f)) as [[r out|code]| |]; done.
Qed.
End Spec.

(** The program continues: every register as it was, but RAX when the effect
    sets it, and the memory that the handler keeps, but for its stack. *)
Record resumed (abi : Cpu64 -> Cpu64) (lo hi : Z) (c : Cpu64) (x : option Z) (ev : list event) (c' : Cpu64) : Prop := {
  re_gprs : gprs c' = match x with Some r => set RAX r (gprs c) | None => gprs c end;
  re_xmm : xmm c' = xmm c;
  re_mxcsr : mxcsr c' = mxcsr c;
  re_rip : rip c' = rip c;
  re_rfl : rfl c' = rfl c;
  re_cs : cs c' = cs c;
  re_ss : ss c' = ss c;
  re_msr : forall i, msr c' i = msr c i;
  re_mem : forall K, keeps abi K -> forall y, K y -> y < lo \/ hi <= y -> mem c' y = mem c y;
  re_log : log c' = log c ++ ev
}.

Section Traps.
Context `{Platform}.
Variables (fuel : nat) (mapped : Z -> bool) (abi : Cpu64 -> Cpu64).
Hypothesis abi_law : abi_ok abi.
Hypothesis abi_typed : forall c, typed c -> typed (abi c).

#[local] Abbreviation callee := (call_exc_handler fuel mapped abi).

(** ** From the pushes of the trap to the return *)

Lemma trap_trap_words c0 t hi pad x :
  drop 17 (frame_tail (new_frame (frame_of c0 t hi pad) x)) = trap_words t.
Proof. by destruct x. Qed.

Lemma new_frame_gprs c0 t hi pad x sp :
  frame_gprs (new_frame (frame_of c0 t hi pad) x) sp =
    set RSP sp (match x with Some r => set RAX r (gprs c0) | None => gprs c0 end).
Proof. unfold frame_gprs, frame_of. by destruct x, (gprs c0). Qed.

(** The part of a trap that interrupts and system calls share, as the program
    sees it. *)
Record handled (c : Cpu64) (t : trap) (x : option Z) (ev : list event) (c' : Cpu64) : Prop := {
  hd_gprs : gprs c' = match x with Some r => set RAX r (gprs c) | None => gprs c end;
  hd_xmm : xmm c' = xmm c;
  hd_mxcsr : mxcsr c' = mxcsr c;
  hd_stack : reads (mem c') (get_reg RSP c) (trap_words t);
  hd_msr : msr c' = msr c;
  hd_mem : forall K, keeps abi K -> forall y, K y -> y < get_reg RSP c - 392 \/ get_reg RSP c + 56 <= y -> mem c' y = mem c y;
  hd_log : log c' = log c ++ ev
}.

Lemma trap_run c t :
  typed c -> trap_ok t -> let sp := get_reg RSP c in
  sp mod 16 = 8 -> 392 <= sp -> sp + 56 < 2 ^ 64 -> reads (mem c) sp (trap_words t) ->
  exists m, same_outside (sp - 392) sp (mem c) m /\
    follows (trap_effect fuel (reader mapped m) (t_vec t) (get_reg RAX c) (get_reg RDI c) (get_reg RSI c))
      (exec callee call_handler c) (fun r c' => handled c t r.1 r.2 c').
Proof.
  cbn zeta. intros Hc Ht Hal Hsp Hb Hr.
  destruct (call_handler_run fuel mapped abi abi_law abi_typed c t Hc Ht Hal Hsp Hb Hr) as (m & hi & pad & Hs & Hhi & Hf).
  exists m. split; [done|]. rewrite handler_effect in Hf.
  change (f_rax (frame_of c t hi pad)) with (get_reg RAX c) in Hf.
  change (f_rdi (frame_of c t hi pad)) with (get_reg RDI c) in Hf.
  change (f_rsi (frame_of c t hi pad)) with (get_reg RSI c) in Hf.
  destruct (trap_effect _ _ _ _ _ _) as [[[x ev]|code]| |]; try done. rewrite Ok_try in Hf.
  destruct Hf as (c' & He & [Hg Hx Hmx Hst Hm Hk Hl]). exists c'. split; [done|]. cbn [fst snd] in *.
  rewrite new_frame_gprs in Hg. rewrite trap_trap_words in Hst. constructor; try done.
  - rewrite Hg. cbn [fst]. destruct x as [r|]; [|apply set_get].
    rewrite set_comm by done. f_equal. apply set_get.
  - rewrite Hx. by destruct x.
  - rewrite Hmx. pose proof (ty_mxcsr _ Hc). replace (f_mxcsr (new_frame _ x)) with (mxcsr c + 2 ^ 32 * hi) by by destruct x.
    rewrite (Z.mul_comm (2 ^ 32)), Z.mod_add, Z.mod_small by lia. done.
Qed.

(** ** Interrupts *)

Definition gate_ok (e : IdtEnt) : Prop := is_word (gate_handler e) /\ is_word (ie_sel e).

Definition interrupt_trap (v err : Z) (c : Cpu64) : trap :=
  mkTrap v (if has_error_code v then err else 0) (rip c) (cs c) (rfl c) (get_reg RSP c) (ss c).

Definition stub_pushes (v : Z) : list instr :=
  if bool_decide (v ∈ err_vectors) then [PUSH (Imm v)] else [PUSH (Imm 0); PUSH (Imm v)].

(** Inside the handler the control registers are those of the gate. *)
Definition in_kernel (e : IdtEnt) (c : Cpu64) (sp : Z) (m : Mem) : Cpu64 :=
  with_ctrl (at_stack c sp m) (gate_handler e) (Z.ldiff (rfl c) 0x200) (ie_sel e)
    (if Z.land (cs c) 3 =? 3 then 0 else ss c).

Lemma push_ctrl v c ip fl code stk : push v (with_ctrl c ip fl code stk) = with_ctrl (push v c) ip fl code stk.
Proof. done. Qed.
Lemma exec_imms vs c :
  exec callee (PUSH <$> (Imm <$> vs)) c = Ret (Ok (foldl (fun c v => push v c) c vs)).
Proof.
  revert c. induction vs as [|v vs IH]; intros c; [done|].
  rewrite !fmap_cons, exec_cons. cbn [step64 value foldl]. by rewrite Ok_try.
Qed.

(** The stubs make up for the error code that the processor does not push. *)
Lemma stub_exec e t v err c :
  exec callee (stub_pushes v) (deliver e t v err c) =
    (c' ←? exec callee (PUSH <$> (Imm <$> rev (trap_words (interrupt_trap v err c))))
            (set_reg RSP (handler_stack e t c) c);
     Ret (Ok (with_ctrl c' (gate_handler e) (Z.ldiff (rfl c) 0x200) (ie_sel e)
       (if Z.land (cs c) 3 =? 3 then 0 else ss c)))).
Proof.
  rewrite exec_imms, Ok_try.
  unfold stub_pushes, deliver, interrupt_trap, trap_words, has_error_code, err_vectors.
  cbn [t_vec t_err t_rip t_cs t_rfl t_rsp t_ss rev app foldl].
  destruct (bool_decide _); cbn [exec step64 value]; by rewrite ?Ok_try, ?push_ctrl.
Qed.

Lemma interrupt_trap_ok v err c : typed c -> is_word v -> is_word err -> trap_ok (interrupt_trap v err c).
Proof.
  intros Hc Hv He. unfold trap_ok, trap_words, interrupt_trap. cbn.
  repeat (apply Forall_cons_2; [|]); try done.
  - by destruct (has_error_code v).
  - apply (ty_rip _ Hc).
  - apply (ty_cs _ Hc).
  - apply (ty_rfl _ Hc).
  - apply (ty_regs _ Hc).
  - apply (ty_ss _ Hc).
Qed.

Lemma typed_ctrl c ip fl code stk :
  typed c -> is_word ip -> is_word fl -> is_word code -> is_word stk -> typed (with_ctrl c ip fl code stk).
Proof. intros [] ????. by constructor. Qed.

Lemma stub_run e t v err c :
  typed c -> gate_ok e -> is_word v -> is_word err -> let hs := handler_stack e t c in 56 <= hs < 2 ^ 64 ->
  exists m, exec callee (stub_pushes v) (deliver e t v err c) = Ret (Ok (in_kernel e c (hs - 56) m)) /\
    reads m (hs - 56) (trap_words (interrupt_trap v err c)) /\ same_outside (hs - 56) hs (mem c) m /\
    typed (in_kernel e c (hs - 56) m).
Proof.
  cbn zeta. intros Hc [Hg1 Hg2] Hv He Hhs. rewrite stub_exec. set (hs := handler_stack e t c) in *.
  set (c1 := set_reg RSP hs c). assert (get_reg RSP c1 = hs) as H1 by apply at_stack_sp.
  set (vs := rev (trap_words (interrupt_trap v err c))).
  assert (Forall is_word vs) as Hvs by (by apply Forall_rev, interrupt_trap_ok).
  destruct (push_all_run callee c1 (Imm <$> vs) vs []) as (m & Hx & Hr & Hs); rewrite ?H1;
    change (8 * Z.of_nat (length (Imm <$> vs))) with 56 in *; [|lia|lia|apply reads_nil|].
  - apply Forall2_fmap_l, Forall_Forall2_diag. eapply Forall_impl; [exact Hvs|].
    intros w Hw. by apply steady_imm.
  - rewrite H1 in *. exists m. rewrite Hx, Ok_try. rewrite app_nil_r in Hr. unfold vs in Hr.
    rewrite rev_involutive in Hr.
    assert (at_stack c1 (hs - 56) m = at_stack c (hs - 56) m) as Heq by apply (at_stack_again c hs (hs - 56) (mem c) m).
    rewrite Heq in *. split_and!; [done..|]. apply typed_ctrl; [|done| |done|].
    + rewrite (exec_no_call callee no_callee) in Hx by done.
      apply (exec_typed no_callee no_callee_typed _ c1 _) in Hx; [done| |].
      * apply forallb_forall. intros i Hi. apply list_elem_of_In, list_elem_of_fmap in Hi as (o & -> & Ho).
        apply list_elem_of_fmap in Ho as (w & -> & Hw). cbn.
        pose proof (proj1 (Forall_forall _ _) Hvs w Hw) as Hb.
        unfold is_word in Hb. apply andb_true_iff. split; [apply Z.leb_le|apply Z.ltb_lt]; lia.
      * apply typed_set; [done|]. unfold is_word. lia.
    + apply ldiff_range, (ty_rfl _ Hc).
    + case_match; [done|apply (ty_ss _ Hc)].
Qed.

(** [add rsp, 16; iretq]: back to the trap's registers. *)
Lemma iret_run c t :
  0 <= get_reg RSP c -> get_reg RSP c + 56 < 2 ^ 64 -> reads (mem c) (get_reg RSP c) (trap_words t) ->
  exec callee [ADD RSP 16; IRETQ] c =
    Ret (Ok (with_ctrl (set_reg RSP (t_rsp t) c) (t_rip t) (t_rfl t) (t_cs t) (t_ss t))).
Proof.
  intros H0 Hb Hr. set (sp := get_reg RSP c) in *.
  rewrite exec_cons. cbn [step64]. fold sp. rewrite wrap_add_small, Ok_try by lia.
  rewrite exec_cons. cbn [step64 exec]. rewrite Ok_try. set (c1 := set_reg RSP (sp + 16) c).
  assert (get_reg RSP c1 = sp + 16) as Hsp1 by apply (at_stack_sp c _ (mem c)).
  rewrite (iretq_run c1 (t_rip t) (t_cs t) (t_rfl t) (t_rsp t) (t_ss t)); rewrite ?Hsp1; try lia.
  - do 2 f_equal. unfold c1, set_reg, with_gprs, with_ctrl. cbn. by rewrite set_set.
  - change (mem c1) with (mem c). unfold trap_words in Hr. rewrite !reads_cons in *.
    replace (sp + 8 + 8) with (sp + 16) in Hr by lia. tauto.
Qed.

(** C11: an interrupt or exception through gate [e], with vector [v], in any
    mode: the stub hands [exc_handler] a complete frame on an aligned stack,
    and what follows is what [trap_effect] says.  When the handler returns,
    the interrupted code continues with all its registers, flags, segments
    and vector registers as they were (RAX is the result of a request made
    with vector 128), whatever the compiled handler did to them, and with the
    memory that the handler keeps; before the handler reads it, memory is
    written only below the handler's stack. *)
Theorem interrupt_refines e t v err c :
  typed c -> gate_ok e -> 0 <= v < 256 -> is_word err ->
  let hs := handler_stack e t c in 448 <= hs < 2 ^ 64 ->
  exists m, same_outside (hs - 448) hs (mem c) m /\
    follows (trap_effect fuel (reader mapped m) v (get_reg RAX c) (get_reg RDI c) (get_reg RSI c))
      (exec callee (isr_stub v) (deliver e t v err c)) (fun r c' => resumed abi (hs - 448) hs c r.1 r.2 c').
Proof.
  cbn zeta. intros Hc [Hg1 Hg2] Hv He Hhs. assert (is_word v) as Hvw by (unfold is_word; lia).
  destruct (stub_run e t v err c Hc (conj Hg1 Hg2) Hvw He) as (m1 & Hx1 & Hr1 & Hs1 & Hc1); [lia|].
  pose proof (interrupt_trap_ok v err c Hc Hvw He) as Hto. set (tr := interrupt_trap v err c) in *.
  assert (handler_stack e t c mod 16 = 0) as Hal by (unfold handler_stack; rewrite Z.mul_comm; apply Z.mod_mul; lia).
  set (hs := handler_stack e t c) in *. set (c1 := in_kernel e c (hs - 56) m1) in *.
  assert (get_reg RSP c1 = hs - 56) as Hsp1 by apply (at_stack_sp c _ m1).
  destruct (trap_run c1 tr Hc1 Hto) as (m & Hs & Hf); rewrite ?Hsp1; [|lia|lia|exact Hr1|].
  { replace (hs - 56) with (hs + 8 + -4 * 16) by lia. rewrite Z.mod_add by lia.
    rewrite <- Z.add_mod_idemp_l, Hal by lia. done. }
  rewrite Hsp1 in Hs. exists m. split.
  { change (mem c1) with m1 in Hs. replace (hs - 56 - 392) with (hs - 448) in Hs by lia.
    eapply same_trans; [eapply same_weaken; [..|exact Hs1]; lia|]. eapply same_weaken; [..|exact Hs]; lia. }
  change (get_reg RAX c1) with (get_reg RAX (at_stack c (hs - 56) m1)) in Hf.
  change (get_reg RDI c1) with (get_reg RDI (at_stack c (hs - 56) m1)) in Hf.
  change (get_reg RSI c1) with (get_reg RSI (at_stack c (hs - 56) m1)) in Hf.
  rewrite !at_stack_get in Hf by done.
  change (isr_stub v) with (stub_pushes v ++ call_handler ++ [ADD RSP 16; IRETQ]).
  rewrite exec_app, Hx1, Ok_try, exec_app. eapply follows_bind; [exact Hf|].
  intros [x ev] c2 _ [Hg Hx Hmx Hst Hm Hk Hl]. cbn [fst snd] in *.
  assert (get_reg RSP c2 = hs - 56) as Hsp2.
  { unfold get_reg. rewrite Hg. destruct x; [rewrite get_set|]; exact Hsp1. }
  rewrite Hsp1 in Hst. rewrite (iret_run c2 tr) by (rewrite Hsp2; done || lia).
  eexists. split; [done|]. constructor; try done.
  - cbn. rewrite Hg. change (gprs c1) with (set RSP (hs - 56) (gprs c)).
    destruct x as [r|]; [|rewrite set_set; apply set_get].
    rewrite (set_comm RAX RSP), set_set, (set_comm RSP RAX) by done. f_equal. apply set_get.
  - intros i. cbn. by rewrite Hm.
  - intros K HK y Hy Ho. rewrite Hsp1 in Hk. cbn. rewrite (Hk K HK y Hy) by lia. apply Hs1. lia.
Qed.

(** ** Types *)

Lemma callee_typed c c' : typed c -> callee c = Ret (Ok c') -> typed c'.
Proof.
  intros Hc. unfold call_exc_handler.
  destruct (exc_handler _ _ _ _) as [[[f ev]|code]| |]; [|done..]. rewrite Ok_try. intros [= <-].
  destruct (abi_typed c Hc). constructor; try done. intros x. by apply store_words_bytes.
Qed.


(** ** System calls *)

Definition sys_pushes : list opnd := [Imm 0x1b; Gs 0; Reg R11; Imm 0x23; Reg RCX; Imm 0; Imm 0x80].
Definition sys_prefix : list instr := [SWAPGS; MOV_GS 0 RSP; MOV RSP (Gs 8)] ++ (PUSH <$> sys_pushes).
Definition sys_suffix : list instr := [ADD RSP 16; POP RCX; ADD RSP 8; POP R11; POP RSP; SWAPGS; SYSRETQ].
Lemma syscall_entry_parts : syscall_entry = sys_prefix ++ call_handler ++ sys_suffix.
Proof. reflexivity. Qed.

(** The program as the system call leaves it. *)
Record called (abi : Cpu64 -> Cpu64) (p ksp : Z) (c : Cpu64) (next : Z) (x : option Z) (ev : list event) (c' : Cpu64) : Prop := {
  ca_gprs : gprs c' = (match x with Some r => set RAX r | None => id end) (set R11 (rfl c) (set RCX next (gprs c)));
  ca_xmm : xmm c' = xmm c;
  ca_mxcsr : mxcsr c' = mxcsr c;
  ca_rip : rip c' = next;
  ca_rfl : rfl c' = Z.lor (Z.land (rfl c) 0x3c7fd7) 2;
  ca_cs : cs c' = 0x23;
  ca_ss : ss c' = 0x1b;
  ca_msr : forall i, msr c' i = msr c i;
  ca_mem : forall K, keeps abi K -> forall y, K y -> y < ksp - 448 \/ ksp <= y -> y < p \/ p + 8 <= y -> mem c' y = mem c y;
  ca_log : log c' = log c ++ ev
}.

(** The registers and the memory that a system call relies on: [p] is the
    address of this processor's [PerCpuData], [ksp] its kernel stack. *)
Record sys_ready (c : Cpu64) (p ksp : Z) : Prop := {
  sr_percpu : msr c MSR_KERNEL_GS_BASE = p;
  sr_ksp : load 8 (mem c) (p + 8) = ksp;
  sr_star : msr c MSR_STAR = Z.lor (Z.shiftl 0x10 48) (Z.shiftl 0x08 32);
  sr_range : 0 <= p /\ p + 16 < 2 ^ 64;
  sr_stack : 448 <= ksp < 2 ^ 64;
  sr_align : ksp mod 16 = 0;
  sr_apart : p + 16 <= ksp - 448 \/ ksp <= p
}.

Definition sys_trap (c : Cpu64) (next : Z) : trap := mkTrap 0x80 0 next 0x23 (rfl c) (get_reg RSP c) 0x1b.

Lemma syscall_insn_typed next c : typed c -> is_word next -> typed (syscall_insn next c).
Proof.
  intros Hc Hn. pose proof (ty_msr _ Hc MSR_STAR) as Hs. unfold syscall_insn.
  assert (0 <= Z.land (Z.shiftr (msr c MSR_STAR) 32) 0xffff < 2 ^ 16) as Hsel.
  { change 0xffff with (Z.ones 16). rewrite Z.land_ones by lia. apply Z.mod_pos_bound. lia. }
  apply typed_ctrl; unfold is_word in *; try lia.
  - apply typed_set; [|apply (ty_rfl _ Hc)]. by apply typed_set.
  - apply (ty_msr _ Hc).
  - apply ldiff_range, (ty_rfl _ Hc).
Qed.

(** Into the handler: the user's stack pointer is in the per-CPU data, the
    trap on the kernel's stack. *)
Lemma sys_prefix_run c next p ksp :
  typed c -> is_word next -> sys_ready c p ksp ->
  exists c1, exec callee sys_prefix (syscall_insn next c) = Ret (Ok c1) /\ typed c1 /\
    get_reg RSP c1 = ksp - 56 /\ reads (mem c1) (ksp - 56) (trap_words (sys_trap c next)) /\
    (exists m, c1 = at_stack (swapgs (syscall_insn next c)) (ksp - 56) m) /\
    (forall x, x < ksp - 56 \/ ksp <= x -> x < p \/ p + 8 <= x -> mem c1 x = mem c x).
Proof.
  intros Hc Hn [Hp Hksp Hstar Hpr Hst Hal Hap].
  set (c0 := syscall_insn next c). set (c1 := swapgs c0).
  pose proof (ty_regs _ Hc RSP) as Hsp. unfold is_word in Hsp.
  set (m1 := store 8 (mem c) p (get_reg RSP c)). set (c3 := at_stack c1 ksp m1).
  assert (msr c1 MSR_GS_BASE = p) as Hgs by exact Hp.
  assert (get_reg RSP c0 = get_reg RSP c) as Hsp0.
  { unfold c0, syscall_insn, get_reg, set_reg. cbn. by rewrite !get_set. }
  assert (exec callee [SWAPGS; MOV_GS 0 RSP; MOV RSP (Gs 8)] c0 = Ret (Ok c3)) as H3.
  { rewrite exec_cons. cbn [step64]. rewrite Ok_try. fold c1. rewrite exec_cons. cbn [step64].
    rewrite Hgs, wrap_add_small, Z.add_0_r, Ok_try by lia.
    change (get_reg RSP c1) with (get_reg RSP c0). rewrite Hsp0. change (mem c1) with (mem c). fold m1.
    rewrite exec_cons. cbn [step64 value exec]. change (msr (with_mem c1 m1)) with (msr c1).
    rewrite Hgs, wrap_add_small, Ok_try by lia. change (mem (with_mem c1 m1)) with m1.
    unfold m1 at 1. rewrite load_store_other, Hksp by lia. done. }
  assert (get_reg RSP c3 = ksp) as Hsp3 by apply (at_stack_sp c1).
  destruct (push_all_run callee c3 sys_pushes (rev (trap_words (sys_trap c next))) []) as (m & Hx & Hr & Hs);
    rewrite ?Hsp3; change (8 * Z.of_nat (length sys_pushes)) with 56 in *; [|lia|lia|apply reads_nil|].
  { assert (forall r, r <> RSP -> get_reg r c3 = get_reg r c0) as Hg by (intros; by apply (at_stack_get c1)).
    repeat apply Forall2_cons_2; try apply Forall2_nil_2; try (by apply steady_imm).
    - split; [done|]. intros sp m Hm. cbn [value].
      change (msr (at_stack c3 sp m) MSR_GS_BASE) with (msr c1 MSR_GS_BASE).
      rewrite Hgs, wrap_add_small, Z.add_0_r by lia. change (mem (at_stack c3 sp m)) with m.
      rewrite (same_load _ _ (mem c3) m 8 p Hm) by lia. change (mem c3) with m1. unfold m1.
      rewrite load_store by lia. by apply Z.mod_small.
    - split; [apply (ty_rfl _ Hc)|]. intros sp m _. cbn [value]. rewrite at_stack_get, Hg by done.
      unfold c0, syscall_insn, get_reg, set_reg. cbn. by rewrite get_set.
    - split; [done|]. intros sp m _. cbn [value]. rewrite at_stack_get, Hg by done.
      unfold c0, syscall_insn, get_reg, set_reg. cbn. by rewrite !get_set. }
  rewrite Hsp3 in *. rewrite app_nil_r, rev_involutive in Hr.
  assert (at_stack c3 (ksp - 56) m = at_stack c1 (ksp - 56) m) as Heq by apply at_stack_again. rewrite Heq in Hx.
  assert (exec callee sys_prefix c0 = Ret (Ok (at_stack c1 (ksp - 56) m))) as Hrun.
  { unfold sys_prefix. by rewrite exec_app, H3, Ok_try. }
  exists (at_stack c1 (ksp - 56) m). split_and!; [done| |apply at_stack_sp|done|by exists m|].
  - rewrite (exec_no_call callee no_callee) in Hrun by done.
    apply (exec_typed no_callee no_callee_typed _ c0 _) in Hrun; [done|done|by apply syscall_insn_typed].
  - intros x Hx1 Hx2. change (mem (at_stack c1 (ksp - 56) m)) with m. rewrite (Hs x Hx1).
    change (mem c3) with m1. apply store_other. lia.
Qed.

(** Out of the kernel. *)
Lemma sys_suffix_run c t :
  0 <= get_reg RSP c -> get_reg RSP c + 56 < 2 ^ 64 -> reads (mem c) (get_reg RSP c) (trap_words t) ->
  exec callee sys_suffix c =
    Ret (Ok (sysretq (swapgs (set_reg RSP (t_rsp t) (set_reg R11 (t_rfl t) (set_reg RCX (t_rip t) c)))))).
Proof.
  intros H0 Hb Hr. set (sp := get_reg RSP c) in *. unfold trap_words in Hr. rewrite !reads_cons in Hr.
  destruct Hr as (_ & _ & Hip & _ & Hfl & Hsp & _). unfold sys_suffix.
  rewrite exec_cons. cbn [step64]. fold sp. rewrite wrap_add_small, Ok_try by lia.
  rewrite exec_cons. cbn [step64]. rewrite Ok_try. unfold pop at 1.
  assert (forall a, get_reg RSP (set_reg RSP a c) = a) as Hg by (intros; apply (at_stack_sp c _ (mem c))).
  rewrite Hg. change (mem (set_reg RSP (sp + 16) c)) with (mem c).
  replace (sp + 16) with (sp + 8 + 8) by lia. rewrite Hip, wrap_add_small by lia.
  assert (forall a b x, set_reg RCX x (set_reg RSP b (set_reg RSP a c)) = set_reg RSP b (set_reg RCX x c)) as H1.
  { intros. unfold set_reg, with_gprs. cbn. by rewrite set_set, set_comm. }
  rewrite H1. set (c1 := set_reg RCX (t_rip t) c).
  assert (forall a, get_reg RSP (set_reg RSP a c1) = a) as Hg1 by (intros; apply (at_stack_sp c1 _ (mem c1))).
  rewrite exec_cons. cbn [step64]. rewrite Hg1, wrap_add_small, Ok_try by lia.
  rewrite exec_cons. cbn [step64]. rewrite Ok_try. unfold pop at 1.
  assert (forall a b x, set_reg R11 x (set_reg RSP b (set_reg RSP a (set_reg RSP (sp + 8 + 8 + 8) c1))) =
    set_reg RSP b (set_reg R11 x c1)) as H2.
  { intros. unfold set_reg, with_gprs. cbn. by rewrite !set_set, set_comm. }
  change (mem (set_reg RSP _ (set_reg RSP _ c1))) with (mem c).
  assert (forall a b, get_reg RSP (set_reg RSP a (set_reg RSP b c1)) = a) as Hg2.
  { intros. unfold get_reg, set_reg. cbn. by rewrite get_set. }
  rewrite Hg2, Hfl, wrap_add_small, H2 by lia. set (c2 := set_reg R11 (t_rfl t) c1).
  rewrite exec_cons. cbn [step64]. rewrite Ok_try. unfold pop.
  assert (get_reg RSP (set_reg RSP (sp + 8 + 8 + 8 + 8 + 8) c2) = sp + 8 + 8 + 8 + 8 + 8) as ->.
  { apply (at_stack_sp c2 _ (mem c2)). }
  change (mem (set_reg RSP _ c2)) with (mem c). rewrite Hsp.
  cbn [exec step64]. rewrite !Ok_try. do 4 f_equal. unfold set_reg, with_gprs. cbn. by rewrite !set_set.
Qed.

(** What [syscall_refines] says, for use by what calls the kernel. *)
Lemma syscall_run c next p ksp :
  typed c -> is_word next -> sys_ready c p ksp ->
  exists m,
    (forall x, x < ksp - 448 \/ ksp <= x -> x < p \/ p + 8 <= x -> m x = mem c x) /\
    follows (trap_effect fuel (reader mapped m) 0x80 (get_reg RAX c) (get_reg RDI c) (get_reg RSI c))
      (exec callee syscall_entry (syscall_insn next c)) (fun r c' => called abi p ksp c next r.1 r.2 c').
Proof.
  intros Hc Hn Hrdy. pose proof Hrdy as [Hp Hksp Hstar Hpr Hst Hal Hap].
  destruct (sys_prefix_run c next p ksp Hc Hn Hrdy) as (c1 & Hx1 & Hc1 & Hsp1 & Hr1 & (m1 & Hc1eq) & Hm1).
  assert (trap_ok (sys_trap c next)) as Hto.
  { unfold trap_ok, trap_words, sys_trap. cbn. repeat (apply Forall_cons_2; [try done|]); [..|done].
    - apply (ty_rfl _ Hc).
    - apply (ty_regs _ Hc). }
  destruct (trap_run c1 (sys_trap c next) Hc1 Hto) as (m & Hs & Hf); rewrite ?Hsp1; [|lia|lia|exact Hr1|].
  { replace (ksp - 56) with (ksp + 8 + -4 * 16) by lia. rewrite Z.mod_add by lia.
    rewrite <- Z.add_mod_idemp_l, Hal by lia. done. }
  rewrite Hsp1 in Hs. exists m. split.
  { intros x Hx1' Hx2. rewrite (Hs x) by lia. apply Hm1; lia. }
  set (c0 := syscall_insn next c) in *.
  assert (gprs c1 = set RSP (ksp - 56) (set R11 (rfl c) (set RCX next (gprs c)))) as Hg1 by (by rewrite Hc1eq).
  assert (forall r, r <> RSP -> r <> R11 -> r <> RCX -> get_reg r c1 = get_reg r c) as Hget.
  { intros r ???. unfold get_reg. rewrite Hg1, !get_set. by repeat (case_decide; [by subst|]). }
  rewrite !Hget in Hf by done. rewrite syscall_entry_parts, exec_app, Hx1, Ok_try, exec_app.
  eapply follows_bind; [exact Hf|]. intros [x ev] c2 _ [Hg Hxm Hmx Hstk Hm Hk Hl]. cbn [fst snd] in *.
  assert (get_reg RSP c2 = ksp - 56) as Hsp2.
  { unfold get_reg. rewrite Hg. destruct x; [rewrite get_set|]; exact Hsp1. }
  rewrite Hsp1 in Hstk. rewrite (sys_suffix_run c2 (sys_trap c next)) by (rewrite Hsp2; done || lia).
  eexists. split; [done|]. constructor; cbn.
  - rewrite Hg, Hg1. unfold get_reg. by destruct x as [r|], (gprs c).
  - rewrite Hxm, Hc1eq. done.
  - rewrite Hmx, Hc1eq. done.
  - unfold get_reg, set_reg. cbn. by rewrite !get_set.
  - unfold get_reg, set_reg. cbn. by rewrite !get_set.
  - rewrite Hm, Hc1eq. cbn. by rewrite Hstar.
  - rewrite Hm, Hc1eq. cbn. by rewrite Hstar.
  - intros i. rewrite Hm, Hc1eq. cbn.
    destruct (Z.eqb_spec i MSR_GS_BASE); [by subst|]. by destruct (Z.eqb_spec i MSR_KERNEL_GS_BASE); [subst|].
  - intros K HK y Hy Ho1 Ho2. rewrite Hsp1 in Hk. rewrite (Hk K HK y Hy) by lia. apply Hm1; lia.
  - by rewrite Hl, Hc1eq.
Qed.

(** C10: the [syscall] instruction, with the registers and the per-CPU data
    that [init] sets up: the entry code switches to the kernel's stack, the
    request is the one that RAX, RDI and RSI describe, and the program
    continues behind the instruction with its own stack, selectors and
    registers and memory; RAX is the result, RCX and R11 are what the
    instruction overwrites. *)
Theorem syscall_refines c next p ksp :
  typed c -> is_word next -> sys_ready c p ksp ->
  exists m,
    (forall x, x < ksp - 448 \/ ksp <= x -> x < p \/ p + 8 <= x -> m x = mem c x) /\
    follows (trap_effect fuel (reader mapped m) 0x80 (get_reg RAX c) (get_reg RDI c) (get_reg RSI c))
      (exec callee syscall_entry (syscall_insn next c)) (fun r c' => called abi p ksp c next r.1 r.2 c').
Proof. apply syscall_run. Qed.
End Traps.
