(* ===== verification/Amd64Ctxt.v ===== *)
(** * Amd64Ctxt: starting a program, and the tables of the processor

    [rstr_ctxt] loads every register from a frame and enters the program; the
    descriptor of the task state, the gates and the registers that [init]
    sets up mean what the delivery of interrupts needs. *)

From S2P Require Import Prelude Bytes Memory Rvm Kreq Amd64 Amd64Exc Amd64Facts Amd64ExcThms Amd64Trap.

(** ** [rstr_ctxt] *)

Definition ctxt_loads : list (reg * Z) :=
  [(RAX, 384); (RBX, 376); (RCX, 368); (RDX, 360); (RSI, 352); (RDI, 344); (RBP, 336);
   (R8, 328); (R9, 320); (R10, 312); (R11, 304); (R12, 296); (R13, 288)].
Definition ctxt_pushes : list opnd := [At R15 440; At R15 432; At R15 424; At R15 416; At R15 408].

Lemma rstr_ctxt_parts ctxt ksp :
  rstr_ctxt ctxt ksp =
    ([MOV R14 (Reg ksp); MOV R15 (Reg ctxt); LDMXCSR R15 256] ++
     ((fun x => MOVAPS_LD x R15 (16 * Z.of_nat x)) <$> seq 0 16) ++
     ((fun p => MOV p.1 (At R15 p.2)) <$> ctxt_loads)) ++
    MOV RSP (Reg R14) :: (PUSH <$> ctxt_pushes) ++
    [MOV R14 (At R15 280); MOV R15 (At R15 272); IRETQ].
Proof. reflexivity. Qed.

(** The word of the frame at an offset behind the vector registers. *)
Lemma frame_word m a f i w :
  frame_ok f -> reads m a (frame_words f) -> frame_tail f !! i = Some w ->
  load 8 m (a + (256 + 8 * Z.of_nat i)) = w.
Proof.
  intros Hf Hr Hi. rewrite frame_words_tail in Hr. apply reads_app in Hr as [_ Hr].
  rewrite length_halves, (fo_len _ Hf) in Hr. change (8 * Z.of_nat (2 * 16)) with 256 in Hr.
  rewrite <- (Hr i w Hi). f_equal. lia.
Qed.

Section Ctxt.
Variable callee : Cpu64 -> outcome (result Z Cpu64).

(** What is given: the frame at [a], a kernel stack that ends at [top]. *)
Record ctxt_ready (c : Cpu64) (a top : Z) (f : ExcFrame) : Prop := {
  cr_frame : reads (mem c) a (frame_words f);
  cr_ok : frame_ok f;
  cr_align : a mod 16 = 0;
  cr_range : 0 <= a /\ a + 448 < 2 ^ 64;
  cr_top : 40 <= top < 2 ^ 64;
  cr_apart : top <= a \/ a + 448 <= top - 40
}.

(** All but R14 and R15 are loaded, the stack is the kernel's. *)
Definition mid_gprs (f : ExcFrame) (a top sp : Z) : Gprs :=
  mkGprs (f_rax f) (f_rbx f) (f_rcx f) (f_rdx f) (f_rsi f) (f_rdi f) (f_rbp f) sp
    (f_r8 f) (f_r9 f) (f_r10 f) (f_r11 f) (f_r12 f) (f_r13 f) top a.

Definition loaded (c : Cpu64) (f : ExcFrame) (a top sp : Z) : Cpu64 :=
  mkCpu64 (mid_gprs f a top sp) (f_xmm f) (f_mxcsr f mod 2 ^ 32) (rip c) (rfl c) (cs c) (ss c) (msr c) (mem c) (log c).

Lemma rstr_loads ctxt ksp c a top f :
  ctxt <> R14 -> typed c -> get_reg ctxt c = a -> get_reg ksp c = top -> ctxt_ready c a top f ->
  exec callee ([MOV R14 (Reg ksp); MOV R15 (Reg ctxt); LDMXCSR R15 256] ++
    ((fun x => MOVAPS_LD x R15 (16 * Z.of_nat x)) <$> seq 0 16) ++
    ((fun p => MOV p.1 (At R15 p.2)) <$> ctxt_loads)) c =
  Ret (Ok (loaded c f a top (get_reg RSP c))).
Proof.
  intros Hne Hc Ha Htop [Hr Hf Hal Hra Ht Hap].
  assert (forall i w, frame_tail f !! i = Some w -> load 8 (mem c) (a + (256 + 8 * Z.of_nat i)) = w) as Hw.
  { intros i w Hi. by eapply frame_word. }
  cbn [app]. rewrite exec_cons. cbn [step64 value]. rewrite Htop, Ok_try.
  rewrite exec_cons. cbn [step64 value]. rewrite Ok_try.
  assert (get_reg ctxt (set_reg R14 top c) = a) as ->.
  { unfold get_reg, set_reg. cbn. rewrite get_set. case_decide; [by subst|done]. }
  set (c1 := set_reg R15 a (set_reg R14 top c)).
  assert (get_reg R15 c1 = a) as H15 by (unfold c1, get_reg, set_reg; cbn; by rewrite get_set).
  rewrite exec_cons. cbn [step64]. unfold ea. rewrite H15, wrap_add_small by lia.
  change (mem c1) with (mem c). rewrite load_low by apply (ty_mem _ Hc).
  rewrite (Hw 0%nat _ eq_refl : load 8 (mem c) (a + 256) = _). pose proof (fo_mxcsr _ Hf) as Hlt.
  destruct (Z.ltb_spec (f_mxcsr f mod 2 ^ 32) (2 ^ 16)); [|lia]. rewrite Ok_try, exec_app.
  set (c2 := with_mxcsr c1 _). assert (get_reg R15 c2 = a) as H15' by exact H15.
  rewrite (movaps_ld_run callee R15 16 c2 (f_xmm f)); rewrite ?H15'; try done || lia.
  2: apply (ty_xmm_len _ Hc).
  2: apply (fo_len _ Hf).
  2: { intros i x Hi. change (mem c2) with (mem c). rewrite frame_words_tail in Hr. apply reads_app in Hr as [Hr _].
       eapply xmm_reads; [apply (fo_xmm _ Hf)|done..]. }
  rewrite Ok_try, (take_ge (f_xmm f)), drop_ge, app_nil_r by (try change (xmm c2) with (xmm c);
    rewrite ?(fo_len _ Hf), ?(ty_xmm_len _ Hc); lia).
  set (c3 := with_xmm c2 (f_xmm f)). assert (get_reg R15 c3 = a) as H15'' by exact H15.
  rewrite (mov_at_run callee R15 ctxt_loads
    [f_rax f; f_rbx f; f_rcx f; f_rdx f; f_rsi f; f_rdi f; f_rbp f; f_r8 f; f_r9 f; f_r10 f; f_r11 f; f_r12 f; f_r13 f]).
  - do 2 f_equal. unfold c3, c2, c1, loaded, with_gprs, set_reg, with_xmm, with_mxcsr, get_reg. cbn.
    by destruct (gprs c).
  - intros p Hp. unfold ctxt_loads in Hp. repeat (apply elem_of_cons in Hp as [->|Hp]; [done|]).
    by apply elem_of_nil in Hp.
  - rewrite H15''. lia.
  - rewrite H15''. change (mem c3) with (mem c). unfold ctxt_loads.
    repeat (apply Forall2_cons_2; [cbn [snd]; split_and!; [lia|lia|]|]); [..|by apply Forall2_nil_2].
    + apply (Hw 16%nat). done.
    + apply (Hw 15%nat). done.
    + apply (Hw 14%nat). done.
    + apply (Hw 13%nat). done.
    + apply (Hw 12%nat). done.
    + apply (Hw 11%nat). done.
    + apply (Hw 10%nat). done.
    + apply (Hw 9%nat). done.
    + apply (Hw 8%nat). done.
    + apply (Hw 7%nat). done.
    + apply (Hw 6%nat). done.
    + apply (Hw 5%nat). done.
    + apply (Hw 4%nat). done.
Qed.

(** The pushes of the interrupt frame. *)
Lemma rstr_pushes c a top f :
  get_reg R15 c = a -> get_reg RSP c = top -> ctxt_ready c a top f ->
  exists m, exec callee (PUSH <$> ctxt_pushes) c = Ret (Ok (at_stack c (top - 40) m)) /\
    reads m (top - 40) [f_rip f; f_cs f; f_rflags f; f_rsp f; f_ss f] /\
    same_outside (top - 40) top (mem c) m.
Proof.
  intros H15 Hsp [Hr Hf Hal Hra Ht Hap].
  destruct (push_all_run callee c ctxt_pushes [f_ss f; f_rsp f; f_rflags f; f_cs f; f_rip f] []) as (m & Hx & Hm & Hs);
    rewrite ?Hsp; change (8 * Z.of_nat (length ctxt_pushes)) with 40 in *; [|lia|lia|apply reads_nil|].
  - assert (forall i w, frame_tail f !! i = Some w ->
      steady c (top - 40) top (At R15 (256 + 8 * Z.of_nat i)) w) as Hst.
    { intros i w Hi. split.
      - apply (proj1 (Forall_lookup _ _) (fo_tail _ Hf) i w Hi).
      - intros sp m Hm. cbn [value]. unfold ea. rewrite at_stack_get, H15 by done.
        pose proof (lookup_lt_Some _ _ _ Hi) as Hlt. cbn in Hlt. rewrite wrap_add_small by lia.
        change (mem (at_stack c sp m)) with m. rewrite (same_load _ _ (mem c) m 8 _ Hm) by lia.
        by eapply frame_word. }
    repeat apply Forall2_cons_2; [..|by apply Forall2_nil_2].
    + by apply (Hst 23%nat).
    + by apply (Hst 22%nat).
    + by apply (Hst 21%nat).
    + by apply (Hst 20%nat).
    + by apply (Hst 19%nat).
  - rewrite Hsp in *. exists m. split_and!; [done| |done]. by rewrite app_nil_r in Hm.
Qed.


(** When the compiler chooses R14 for the pointer to the frame, the first
    instruction overwrites it: the frame it points to is never read. *)
Lemma rstr_ctxt_clobbers ksp c a a' :
  ksp <> R14 -> exec callee (rstr_ctxt R14 ksp) (set_reg R14 a c) = exec callee (rstr_ctxt R14 ksp) (set_reg R14 a' c).
Proof.
  intros Hk. unfold rstr_ctxt. cbn [app]. rewrite !(exec_cons callee (MOV R14 (Reg ksp))). cbn [step64 value].
  assert (forall x, get_reg ksp (set_reg R14 x c) = get_reg ksp c) as Hg.
  { intros x. unfold get_reg, set_reg. cbn. rewrite get_set. by case_decide. }
  rewrite !Hg, !Ok_try. f_equal. unfold set_reg, with_gprs. cbn. by rewrite !set_set.
Qed.
End Ctxt.

(** ** What [init] sets up *)

(** The fields of the descriptor of a task state, as the processor reads
    them, and of a gate. *)
Definition tss_base (l : list Z) : Z := le_get (field l 2 3 ++ field l 7 5).
Definition tss_limit (l : list Z) : Z := le_get (field l 0 2) + 2 ^ 16 * Z.land (nth 6 l 0) 0x0f.
Definition gate_dpl (e : IdtEnt) : Z := Z.land (Z.shiftr (ie_attr e) 5) 3.
Definition gate_present (e : IdtEnt) : bool := Z.testbit (ie_attr e) 7.
(** An interrupt gate: it clears the interrupt flag. *)
Definition gate_masks (e : IdtEnt) : bool := Z.land (ie_attr e) 0x0f =? 0x0e.

(** The privilege level of the segment that a selector names. *)
Definition selector_dpl (g : GlobDescTbl) (sel : Z) : Z :=
  Z.land (Z.shiftr (nth (Z.to_nat (8 * Z.shiftr sel 3 + 5)) (GlobDescTbl_bytes g) 0) 5) 3.

Lemma load_tss_spec tss d :
  is_word tss -> cd_gdt d = GlobDescTbl_new ->
  exists d', load_tss tss d = Ret d' /\ tss_base (gd_tss (cd_gdt d')) = tss /\
    tss_limit (gd_tss (cd_gdt d')) = size_of_TaskStatSeg - 1 /\ nth 5 (gd_tss (cd_gdt d')) 0 = 0x89 /\
    (forall sel, sel ∈ [0x08; 0x10; 0x18; 0x20] -> selector_dpl (cd_gdt d') sel = selector_dpl GlobDescTbl_new sel) /\
    cd_tss d' = cd_tss d /\ cd_percpu d' = cd_percpu d.
Proof.
  intros Ht Hg. unfold load_tss. rewrite Hg.
  assert (exists b0 b1 b2 b3 b4 b5 b6 b7, le_put 8 tss = [b0; b1; b2; b3; b4; b5; b6; b7]) as
    (b0 & b1 & b2 & b3 & b4 & b5 & b6 & b7 & Hb) by (repeat eexists).
  pose proof (le_get_put 8 tss Ht) as Hput. rewrite Hb in *.
  eexists. split; [reflexivity|]. split_and!; try done.
  intros sel Hsel. repeat (apply elem_of_cons in Hsel as [->|Hsel]; [done|]). by apply elem_of_nil in Hsel.
Qed.

Lemma two_halves x : is_word x ->
  Z.lor (Z.shiftl (ucast 32 (ucast 32 (Z.shiftr x 32))) 32) (ucast 32 (ucast 32 x)) = x.
Proof.
  intros Hx. unfold ucast. rewrite !Z.mod_mod by lia. rewrite Z.shiftr_div_pow2 by lia.
  unfold is_word in Hx. rewrite (Z.mod_small (x / 2 ^ 32)).
  2: { split; [apply Z.div_pos; lia|apply Z.div_lt_upper_bound; lia]. }
  pose proof (Z.mod_pos_bound x (2 ^ 32) ltac:(lia)).
  rewrite Z.lor_comm, lor_field by lia. pose proof (Z.div_mod x (2 ^ 32) ltac:(lia)). lia.
Qed.

(** The words that [wrmsr] assembles. *)
Lemma wrmsr_same i x c : is_word x -> msr (wrmsr i (ucast 32 x) (ucast 32 (Z.shiftr x 32)) c) i = x.
Proof. intros Hx. cbn. rewrite Z.eqb_refl. by apply two_halves. Qed.
Lemma wrmsr_other i j lo hi c : i <> j -> msr (wrmsr i lo hi c) j = msr c j.
Proof. intros Hne. cbn. destruct (Z.eqb_spec j i); [by subst|done]. Qed.

Lemma gate_handler_set e h sel ist attr : is_word h -> gate_handler (IdtEnt_set e h sel ist attr) = h.
Proof.
  unfold is_word, gate_handler, IdtEnt_set, ucast. cbn. intros Hh. rewrite !Z.shiftr_div_pow2 by lia.
  rewrite (Z.mod_small (h / 2 ^ 32)).
  2: { split; [apply Z.div_pos; lia|apply Z.div_lt_upper_bound; lia]. }
  pose proof (Z.div_mod h (2 ^ 16) ltac:(lia)). pose proof (Z.div_mod (h / 2 ^ 16) (2 ^ 16) ltac:(lia)) as H1.
  rewrite Z.div_div in H1 by lia. change (2 ^ 16 * 2 ^ 16) with (2 ^ 32) in H1. lia.
Qed.

(** The state that [init] leaves, for one processor. *)
Record initialised (stubs : Z -> Z) (entry tss percpu stk : Z) (d : CPUDesc) (idt : list IdtEnt) (c c' : Cpu64) : Prop := {
  ii_stacks : ts_rsp0 (cd_tss d) = stk /\ ts_ist1 (cd_tss d) = stk /\ pc_kernel_rsp (cd_percpu d) = stk;
  ii_tss : tss_base (gd_tss (cd_gdt d)) = tss /\ tss_limit (gd_tss (cd_gdt d)) = size_of_TaskStatSeg - 1;
  (** The selectors that [sysretq] and the system call entry use are user
      segments, those of the gates and of [syscall] are the kernel's. *)
  ii_segs : selector_dpl (cd_gdt d) 0x23 = 3 /\ selector_dpl (cd_gdt d) 0x1b = 3 /\
    selector_dpl (cd_gdt d) 0x08 = 0 /\ selector_dpl (cd_gdt d) 0x10 = 0;
  ii_gates : forall v, 0 <= v < 256 -> exists e, idt !! Z.to_nat v = Some e /\
    gate_handler e = stubs v /\ ie_sel e = 0x08 /\ gate_present e = true /\ gate_masks e = true /\
    (ie_ist e = 1 <-> v = 8) /\ (gate_dpl e = 3 <-> v = 0x20 \/ v = 0x80);
  ii_percpu : msr c' MSR_KERNEL_GS_BASE = percpu;
  ii_entry : msr c' MSR_LSTAR = entry;
  ii_star : msr c' MSR_STAR = Z.lor (Z.shiftl 0x10 48) (Z.shiftl 0x08 32);
  ii_fmask : msr c' MSR_FMASK = 0x200;
  ii_efer : Z.testbit (msr c' MSR_EFER) 0 = true;
  ii_rest : gprs c' = gprs c /\ mem c' = mem c /\ cs c' = 0x08
}.

Lemma idt_gate_facts stubs v e : 0 <= v < 256 -> is_word (stubs v) -> let g := idt_gate stubs v e in
  gate_handler g = stubs v /\ ie_sel g = 0x08 /\ gate_present g = true /\ gate_masks g = true /\
  (ie_ist g = 1 <-> v = 8) /\ (gate_dpl g = 3 <-> v = 0x20 \/ v = 0x80).
Proof.
  cbn zeta. intros Hv Hs. unfold idt_gate. split; [by apply gate_handler_set|]. split; [done|].
  unfold gate_present, gate_masks, gate_dpl. cbn [ie_attr ie_ist IdtEnt_set].
  case_bool_decide as Hin.
  - split_and!; [done|done| |].
    + destruct (Z.eqb_spec v 8); [done|]. split; [done|lia].
    + rewrite !elem_of_cons, elem_of_nil in Hin. split; [|done]. intros _. tauto.
  - split_and!; [done|done| |].
    + destruct (Z.eqb_spec v 8); [done|]. split; [done|lia].
    + split; [done|]. intros Hv'. destruct Hin. rewrite !elem_of_cons, elem_of_nil. tauto.
Qed.

(** [init] returns, and the processor it leaves is the one that interrupts
    and system calls need: the task state is found through its descriptor and
    holds the kernel's stack, gate [v] leads to stub [v] with interrupts
    masked (only the timer's and the request's vector are open to programs,
    only the double fault has its own stack), and the system call registers
    are those that [sys_ready] asks for. *)
Theorem exc_init_spec stubs entry tss percpu stk pid descs c :
  (forall v, 0 <= v < 256 -> is_word (stubs v)) -> is_word entry -> is_word tss -> is_word percpu ->
  0 <= msr c MSR_EFER ->
  exists d idt c',
    exc_init stubs entry tss percpu stk pid descs (replicate 256 IdtEnt_new) c = Ret (<[pid := d]> descs, idt, c') /\
    length idt = 256%nat /\ initialised stubs entry tss percpu stk d idt c c'.
Proof.
  intros Hs He Ht Hp Hefer. unfold exc_init, CPUDesc_load.
  destruct (load_tss_spec tss (set_stacks CPUDesc_new stk stk 0 stk) Ht eq_refl)
    as (d & Hd & Hb & Hl & _ & Hseg & Htss & Hpc). rewrite Hd, Ret_bind.
  eexists d, _, _. split; [done|]. split; [unfold idt_init; by rewrite length_imap, length_replicate|].
  set (c1 := with_ctrl c _ _ _ _). set (c2 := wrmsr MSR_KERNEL_GS_BASE _ _ c1).
  constructor.
  - by rewrite Htss, Hpc.
  - done.
  - assert (forall g sel, selector_dpl g sel = selector_dpl g (8 * Z.shiftr sel 3)) as Hsel.
    { intros g sel. unfold selector_dpl. do 5 f_equal. rewrite !Z.shiftr_div_pow2 by lia.
      change (2 ^ 3) with 8. f_equal. by rewrite (Z.mul_comm 8 (sel / 8)), Z.div_mul by lia. }
    rewrite (Hsel _ 0x23), (Hsel _ 0x1b). split_and!; (etrans; [apply Hseg; by apply (bool_decide_unpack _)|done]).
  - intros v Hv. unfold idt_init. rewrite list_lookup_imap, lookup_replicate_2 by lia. cbn.
    eexists. split; [done|]. rewrite Z2Nat.id by lia. apply idt_gate_facts; [done|by apply Hs].
  - unfold syscall_msrs. rewrite !wrmsr_other by done. by apply wrmsr_same.
  - unfold syscall_msrs. rewrite !wrmsr_other by done. by apply wrmsr_same.
  - unfold syscall_msrs. rewrite wrmsr_other by done. by apply wrmsr_same.
  - unfold syscall_msrs. done.
  - unfold syscall_msrs. rewrite !wrmsr_other by done. cbn. rewrite <- Z.bit0_odd, Z.lor_spec.
    unfold ucast. rewrite !Z.mod_pow2_bits_low by lia. rewrite Z.lor_spec. apply orb_true_iff. right. apply orb_true_r.
  - done.
Qed.
