(* ===== verification/Amd64Demo.v ===== *)
(** * Amd64Demo: a program on the modelled processor

    The theorems on interrupts, system calls and context switches at a
    concrete processor: a program that prints two bytes. *)

From S2P Require Import Prelude Bytes Memory Rvm Kreq Amd64 Amd64Exc Amd64Facts Amd64ExcThms.
From S2P Require Import Amd64Trap Amd64Ctxt.

Module Amd64Demo.
#[local] Instance demo : Platform :=
  {| platform_build := {| overflow_checks := false |}; target_arch := X86_64; G_CFG := mkRvmCfg Size4kiB 48 52 |}.

Definition percpu : Z := 0xffff900000002000.
Definition ktop : Z := 0xffff900000001000.
Definition star : Z := Z.lor (Z.shiftl 0x10 48) (Z.shiftl 0x08 32).

(** "_print" at 0x1000, "AB" at 0x2000, the per-CPU data, zeros. *)
Definition mem0 (a : Z) : Z :=
  if (0x1000 <=? a) && (a <? 0x1006) then nth (Z.to_nat (a - 0x1000)) b_print 0
  else if (0x2000 <=? a) && (a <? 0x2002) then 0x41 + (a - 0x2000)
  else if (percpu + 8 <=? a) && (a <? percpu + 16) then nth (Z.to_nat (a - (percpu + 8))) (le_put 8 ktop) 0
  else 0.

Definition gprs0 : Gprs := mkGprs 0x1000 2 3 4 2 0x2000 7 0x7ff000 9 10 11 12 13 14 15 16.
Definition msr0 (i : Z) : Z :=
  if i =? MSR_KERNEL_GS_BASE then percpu else if i =? MSR_STAR then star else 0.
Definition cpu0 : Cpu64 := mkCpu64 gprs0 (seqZ 100 16) 0x1f80 0x400000 0x202 0x23 0x1b msr0 mem0 [].

(** A handler that destroys the registers it may destroy. *)
Definition abi (c : Cpu64) : Cpu64 := with_xmm (set_reg RAX 0xdead (set_reg R11 0xbeef c)) (replicate 16 1).
Definition mapped (a : Z) : bool := a <? 0x800000000000.

Lemma abi_law : abi_ok abi.
Proof.
  constructor; try done.
  intros c r Hr. unfold abi, get_reg, set_reg. cbn. rewrite !get_set.
  repeat (apply elem_of_cons in Hr as [->|Hr]; [done|]). by apply elem_of_nil in Hr.
Qed.
Lemma abi_typed c : typed c -> typed (abi c).
Proof.
  intros Hc. assert (typed (set_reg RAX 0xdead (set_reg R11 0xbeef c))) as [] by (by repeat apply typed_set).
  constructor; try done. cbn. repeat (apply Forall_cons_2; [done|]). by apply Forall_nil_2.
Qed.

Lemma nth_byte l i : Forall is_byte l -> is_byte (nth i l 0).
Proof.
  intros Hl. rewrite nth_lookup. destruct (l !! i) as [b|] eqn:Hi; [|done]. by apply (Forall_lookup_1 _ _ _ _ Hl Hi).
Qed.

Lemma mem0_byte a : is_byte (mem0 a).
Proof.
  unfold mem0. repeat case_match; zbool; try done.
  - apply nth_byte. by repeat constructor.
  - unfold is_byte. lia.
  - apply nth_byte, le_put_bytes.
Qed.

Lemma typed0 : typed cpu0.
Proof.
  constructor; try done.
  - intros r. destruct r; vm_compute; split; done.
  - cbn. repeat (apply Forall_cons_2; [vm_compute; split; done|]). by apply Forall_nil_2.
  - intros i. cbn. unfold msr0. repeat case_match; vm_compute; split; done.
  - apply mem0_byte.
Qed.

Definition tss0 : TaskStatSeg := mkTaskStatSeg ktop 0 0 ktop 0 0 0 0 0 0 104.
Definition gate0 : IdtEnt := idt_gate (fun v => 0xffff800000001000 + 16 * v) 0x80 IdtEnt_new.

Lemma interrupt_refines_witness :
  exists m, same_outside (ktop - 448) ktop (mem cpu0) m /\
    follows (trap_effect 0 (reader mapped m) 0x80 0x1000 0x2000 2)
      (exec (call_exc_handler 0 mapped abi) (isr_stub 0x80) (deliver gate0 tss0 0x80 0 cpu0))
      (fun r c' => resumed abi (ktop - 448) ktop cpu0 r.1 r.2 c').
Proof.
  apply (interrupt_refines 0 mapped abi abi_law abi_typed gate0 tss0 0x80 0 cpu0); try done.
  apply typed0.
Defined.

Lemma sys_ready0 : sys_ready cpu0 percpu ktop.
Proof. constructor; try done. by right. Qed.

Lemma syscall_refines_witness :
  exists m,
    (forall x, x < ktop - 448 \/ ktop <= x -> x < percpu \/ percpu + 8 <= x -> m x = mem cpu0 x) /\
    follows (trap_effect 0 (reader mapped m) 0x80 0x1000 0x2000 2)
      (exec (call_exc_handler 0 mapped abi) syscall_entry (syscall_insn 0x400002 cpu0))
      (fun r c' => called abi percpu ktop cpu0 0x400002 r.1 r.2 c').
Proof.
  apply (syscall_refines 0 mapped abi abi_law abi_typed cpu0 0x400002 percpu ktop typed0); [done|apply sys_ready0].
Defined.

(** The system call prints "AB" and the program goes on with 0 in RAX. *)
Lemma syscall_prints :
  match exec (call_exc_handler 0 mapped abi) syscall_entry (syscall_insn 0x400002 cpu0) with
  | Ret (Ok c') => Some (gprs c', rip c', cs c', ss c', xmm c', log c')
  | _ => None
  end = Some (set RAX 0 (set R11 0x202 (set RCX 0x400002 gprs0)), 0x400002, 0x23, 0x1b, seqZ 100 16,
              [Putchar 0x41; Putchar 0x42]).
Proof. by vm_compute. Qed.

Definition unok (r : outcome (result Z Cpu64)) : Cpu64 := match r with Ret (Ok c) => c | _ => cpu0 end.
Definition is_ok (r : outcome (result Z Cpu64)) : bool := match r with Ret (Ok _) => true | _ => false end.

Lemma unok_ok r : is_ok r = true -> r = Ret (Ok (unok r)).
Proof. by destruct r as [[c'|e]| |]. Qed.


(** The frame of a new program at 0x3000. *)
Definition frame0 : ExcFrame := ExcFrame_set_sp (ExcFrame_set_pc ExcFrame_new 0x401000) 0x7ffffffff000.
Definition cpu1 : Cpu64 := with_mem cpu0 (store_words mem0 0x3000 (frame_words frame0)).

Lemma typed1 : typed cpu1.
Proof. destruct typed0. constructor; try done. intros a. apply store_words_bytes, mem0_byte. Qed.

Lemma frame0_ok : frame_ok frame0.
Proof.
  constructor; try done.
  - cbn. repeat (apply Forall_cons_2; [vm_compute; split; done|]). by apply Forall_nil_2.
  - unfold frame_tail. repeat (apply Forall_cons_2; [vm_compute; split; done|]). by apply Forall_nil_2.
Qed.

Lemma ready1 : ctxt_ready (set_reg RSI 0x3000 cpu1) 0x3000 ktop frame0.
Proof.
  constructor; try done.
  - apply reads_store_words, frame_words_ok, frame0_ok.
  - apply frame0_ok.
  - right. done.
Qed.


Lemma exc_init_spec_witness :
  exists d idt c',
    exc_init (fun v => 0xffff800000001000 + 16 * v) 0xffff800000003000 0xffff800000004000 percpu ktop 0 ∅
      (replicate 256 IdtEnt_new) cpu0 = Ret (<[0 := d]> ∅, idt, c') /\
    length idt = 256%nat /\
    initialised (fun v => 0xffff800000001000 + 16 * v) 0xffff800000003000 0xffff800000004000 percpu ktop d idt cpu0 c'.
Proof.
  apply exc_init_spec; try done. intros v Hv. unfold is_word. lia.
Defined.
End Amd64Demo.
