(* ===== verification/Aleph.v ===== *)
(** * Aleph: the first program (corecli/aleph), on AMD64

    A program asks the kernel through [kernel_request]; [_start] prints a
    message and exits.  The assembly is on the modelled processor; what the
    compiler does before it is to put the arguments into the registers.  The
    addresses of the constants and of the instructions are parameters. *)

From Stdlib Require Import Ascii.
From S2P Require Import Prelude Bytes Memory Rvm Kreq Amd64 Amd64Exc Amd64Facts Amd64ExcThms Amd64Trap Amd64Demo.

Definition ascii_bytes (s : string) : list Z := (fun a => Z.of_N (N_of_ascii a)) <$> String.list_ascii_of_string s.
(** The message of [_start], with its newline. *)
Definition MESSAGE : list Z := ascii_bytes "Message from userland: It works!" ++ [0x0a].

(** Where the constants are; the addresses behind the [syscall] of [print] and
    of [exit]. *)
Record Lits : Type := mkLits { l_print : Z; l_exit : Z; l_msg : Z; next_print : Z; next_exit : Z }.

Section Aleph.
Context `{Platform}.
Variables (fuel : nat) (mapped : Z -> bool) (abi : Cpu64 -> Cpu64).
#[local] Abbreviation callee := (call_exc_handler fuel mapped abi).

(** The operands of the assembly. *)
Definition request_regs (req arg1 arg2 arg3 arg4 arg5 arg6 : Z) (c : Cpu64) : Cpu64 :=
  set_reg R9 arg6 (set_reg R8 arg5 (set_reg R10 arg4 (set_reg RDX arg3 (set_reg RSI arg2 (set_reg RDI arg1 (set_reg RAX req c)))))).

(** [push rcx; push r11; syscall; pop r11; pop rcx]; [ret] is RAX. *)
Definition kernel_request (next req arg1 arg2 arg3 arg4 arg5 arg6 : Z) (c : Cpu64) : outcome (result Z Cpu64) :=
  c ←? exec callee [PUSH (Reg RCX); PUSH (Reg R11)] (request_regs req arg1 arg2 arg3 arg4 arg5 arg6 c);
  c ←? exec callee syscall_entry (syscall_insn next c);
  exec callee [POP R11; POP RCX] c.

Definition aleph_print (l : Lits) (s len : Z) (c : Cpu64) : outcome (result Z Cpu64) :=
  kernel_request (next_print l) (l_print l) s len 0 0 0 0 c.
(** [unreachable!()] panics. *)
Definition aleph_exit (l : Lits) (code : Z) (c : Cpu64) : outcome (result Z Cpu64) :=
  c ←? kernel_request (next_exit l) (l_exit l) code 0 0 0 0 0 c; Panic.
Definition aleph_start (l : Lits) (c : Cpu64) : outcome (result Z Cpu64) :=
  c ←? aleph_print l (l_msg l) (Z.of_nat (length MESSAGE)) c;
  aleph_exit l 0 c.

(** ** A request from the program's side *)

Hypothesis abi_law : abi_ok abi.
Hypothesis abi_typed : forall c, typed c -> typed (abi c).
Variables (hh p ksp : Z).
Hypothesis Hhh : hihalf = Ret hh.
Hypothesis Hhb : hh <= 2 ^ 64 - 1.
(** The kernel's stack and per-CPU data are in its half; the handler keeps the
    program's half and where the stack of the kernel is. *)
Hypothesis Hp : hh <= p.
Hypothesis Hksp : hh <= ksp - 448.
Hypothesis Hkeeps : keeps abi (fun a => a < hh \/ p + 8 <= a < p + 16).
Hypothesis Hunmapped : mapped INVALID_VA = false.

(** The stack of the program is in its half. *)
Definition user_stack (c : Cpu64) : Prop := 16 <= get_reg RSP c < hh.

(** The request returns with every register as it was given, the flags as
    [sysret] leaves them, and the program's memory but for 16 bytes below the
    stack pointer. *)
Record returned (c : Cpu64) (v : Z) (ev : list event) (c' : Cpu64) : Prop := {
  rt_gprs : gprs c' = set RAX v (gprs c);
  rt_xmm : xmm c' = xmm c;
  rt_mxcsr : mxcsr c' = mxcsr c;
  rt_sel : cs c' = 0x23 /\ ss c' = 0x1b;
  rt_msr : forall i, msr c' i = msr c i;
  rt_mem : forall x, x < hh -> x < get_reg RSP c - 16 \/ get_reg RSP c <= x -> mem c' x = mem c x;
  rt_ready : sys_ready c' p ksp;
  rt_typed : typed c';
  rt_log : log c' = log c ++ ev
}.

Definition wrapped (next : Z) (c : Cpu64) : outcome (result Z Cpu64) :=
  c ←? exec callee [PUSH (Reg RCX); PUSH (Reg R11)] c;
  c ←? exec callee syscall_entry (syscall_insn next c);
  exec callee [POP R11; POP RCX] c.

(** The stack of the program with the two registers on it. *)
Definition saved (c : Cpu64) : Cpu64 :=
  at_stack c (get_reg RSP c - 16)
    (store 8 (store 8 (mem c) (get_reg RSP c - 8) (get_reg RCX c)) (get_reg RSP c - 16) (get_reg R11 c)).

Lemma saved_run c : typed c -> user_stack c ->
  exec callee [PUSH (Reg RCX); PUSH (Reg R11)] c = Ret (Ok (saved c)) /\ typed (saved c).
Proof.
  intros Hc [Hs1 Hs2].
  assert (Hrun : exec callee [PUSH (Reg RCX); PUSH (Reg R11)] c = Ret (Ok (saved c))).
  { assert (Hpush : forall v c, 8 <= get_reg RSP c < 2 ^ 64 ->
      push v c = at_stack c (get_reg RSP c - 8) (store 8 (mem c) (get_reg RSP c - 8) v)).
    { intros v c1 Hc1. unfold push. by rewrite wrap_sub_small by lia. }
    cbn [exec step64 value]. rewrite !Ok_try. do 2 f_equal.
    rewrite (Hpush _ c), Hpush by (rewrite ?at_stack_sp; lia). rewrite at_stack_sp, at_stack_again, at_stack_get by done.
    unfold saved. by replace (get_reg RSP c - 8 - 8) with (get_reg RSP c - 16) by lia. }
  split; [exact Hrun|]. rewrite (exec_no_call callee no_callee) in Hrun by done.
  exact (exec_typed no_callee no_callee_typed [PUSH (Reg RCX); PUSH (Reg R11)] c _ eq_refl Hc Hrun).
Qed.

Lemma saved_mem c x : x < get_reg RSP c - 16 \/ get_reg RSP c <= x -> mem (saved c) x = mem c x.
Proof. intros Hx. cbn. rewrite !store_other by lia. done. Qed.

Lemma saved_ready c : user_stack c -> sys_ready c p ksp -> sys_ready (saved c) p ksp.
Proof.
  intros [Hs1 Hs2] []. constructor; try done. rewrite <- sr_ksp. apply load_ext. intros y Hy. apply saved_mem. lia.
Qed.

(** The program's memory and the address of the kernel's stack are kept. *)
Lemma called_mem next x ev c c' y :
  sys_ready c p ksp -> called abi p ksp c next x ev c' -> y < hh \/ p + 8 <= y < p + 16 -> mem c' y = mem c y.
Proof. intros [] Hc Hy. apply (ca_mem _ _ _ _ _ _ _ _ Hc _ Hkeeps); lia. Qed.

Lemma called_ready next x ev c c' : sys_ready c p ksp -> called abi p ksp c next x ev c' -> sys_ready c' p ksp.
Proof.
  intros Hr Hc. pose proof Hr as []. constructor; try done.
  - by rewrite (ca_msr _ _ _ _ _ _ _ _ Hc).
  - rewrite <- sr_ksp. apply load_ext. intros y Hy. eapply called_mem; [done|done|lia].
  - by rewrite (ca_msr _ _ _ _ _ _ _ _ Hc).
Qed.

(** The pops. *)
Lemma restored_run next v ev c c2 :
  typed c -> user_stack c -> sys_ready c p ksp -> typed c2 -> called abi p ksp (saved c) next (Some v) ev c2 ->
  exists c', exec callee [POP R11; POP RCX] c2 = Ret (Ok c') /\ returned c v ev c'.
Proof.
  intros Hc Hus Hr Hc2 Hcl. pose proof (saved_ready c Hus Hr) as Hr1. pose proof Hus as [Hs1 Hs2].
  set (sp := get_reg RSP c) in *.
  assert (Hsp2 : get_reg RSP c2 = sp - 16).
  { unfold get_reg. rewrite (ca_gprs _ _ _ _ _ _ _ _ Hcl). cbn. rewrite !get_set. done. }
  assert (Hm : forall y, y < hh -> mem c2 y = mem (saved c) y) by (intros; eapply called_mem; [exact Hr1|done|by left]).
  pose proof (ty_regs _ Hc R11) as H11. pose proof (ty_regs _ Hc RCX) as Hcx. unfold is_word in H11, Hcx.
  assert (Hl11 : load 8 (mem c2) (sp - 16) = get_reg R11 c).
  { rewrite (load_ext 8 (mem c2) (mem (saved c))) by (intros; apply Hm; lia). cbn. fold sp. rewrite load_store by lia. by apply Z.mod_small. }
  assert (Hlcx : load 8 (mem c2) (sp - 8) = get_reg RCX c).
  { rewrite (load_ext 8 (mem c2) (mem (saved c))) by (intros; apply Hm; lia). cbn. fold sp.
    rewrite load_store_other, load_store by lia. by apply Z.mod_small. }
  assert (Hrun : exec callee [POP R11; POP RCX] c2 = Ret (Ok (with_gprs c2 (set RAX v (gprs c))))).
  { cbn [exec step64]. rewrite !Ok_try. do 2 f_equal. unfold pop at 2. rewrite Hsp2, Hl11, wrap_add_small by lia.
    replace (sp - 16 + 8) with (sp - 8) by lia. unfold pop, set_reg, get_reg, with_gprs. cbn.
    rewrite !get_set, !(decide_False (P := R11 = RSP)), !(decide_True (P := RSP = RSP)) by done.
    rewrite Hlcx, wrap_add_small by lia. replace (sp - 8 + 8) with sp by lia. f_equal.
    rewrite (ca_gprs _ _ _ _ _ _ _ _ Hcl). cbn. unfold sp, get_reg. by destruct (gprs c). }
  eexists. split; [exact Hrun|].
  assert (Ht : typed (with_gprs c2 (set RAX v (gprs c)))).
  { rewrite (exec_no_call callee no_callee) in Hrun by done. exact (exec_typed no_callee no_callee_typed [POP R11; POP RCX] c2 _ eq_refl Hc2 Hrun). }
  constructor; cbn.
  - done.
  - apply (ca_xmm _ _ _ _ _ _ _ _ Hcl).
  - apply (ca_mxcsr _ _ _ _ _ _ _ _ Hcl).
  - split; [apply (ca_cs _ _ _ _ _ _ _ _ Hcl)|apply (ca_ss _ _ _ _ _ _ _ _ Hcl)].
  - apply (ca_msr _ _ _ _ _ _ _ _ Hcl).
  - intros x Hx Hx2. rewrite Hm by done. by apply saved_mem.
  - destruct (called_ready _ _ _ _ _ Hr1 Hcl). by constructor.
  - done.
  - apply (ca_log _ _ _ _ _ _ _ _ Hcl).
Qed.

Lemma effect_value rd rax rdi rsi x ev :
  trap_effect fuel rd 0x80 rax rdi rsi = Ret (Ok (x, ev)) -> exists v, x = Some v.
Proof. intros ([v out|code] & _ & [= <- _])%bind_Ret. by exists v. Qed.

Lemma wrapped_run next c :
  typed c -> is_word next -> sys_ready c p ksp -> user_stack c ->
  exists m, (forall x, x < hh -> x < get_reg RSP c - 16 \/ get_reg RSP c <= x -> m x = mem c x) /\
    follows (trap_effect fuel (reader mapped m) 0x80 (get_reg RAX c) (get_reg RDI c) (get_reg RSI c))
      (wrapped next c) (fun r c' => exists v, r.1 = Some v /\ returned c v r.2 c').
Proof.
  intros Hc Hn Hr Hus. destruct (saved_run c Hc Hus) as [Hrun Ht1]. pose proof (saved_ready c Hus Hr) as Hr1.
  destruct (syscall_run fuel mapped abi abi_law abi_typed (saved c) next p ksp Ht1 Hn Hr1) as (m & Hm & Hf).
  exists m. split.
  { intros x Hx Hx2. rewrite Hm by lia. by apply saved_mem. }
  unfold wrapped. rewrite Hrun, Ok_try.
  assert (Hg : forall r, r <> RSP -> get_reg r (saved c) = get_reg r c) by (intros; by apply at_stack_get).
  rewrite !Hg in Hf by done. clear Hg.
  destruct (trap_effect fuel (reader mapped m) 0x80 (get_reg RAX c) (get_reg RDI c) (get_reg RSI c)) as [[[x ev]|code]| |] eqn:He;
    cbn [follows] in *; [|by rewrite Hf..].
  destruct Hf as (c2 & Hx2 & Hcl). cbn [fst snd] in Hcl. rewrite Hx2, Ok_try.
  assert (exists v, x = Some v) as [v ->].
  { exact (effect_value _ _ _ _ _ _ He). }
  assert (Ht2 : typed c2).
  { apply (exec_typed callee (callee_typed fuel mapped abi abi_typed) syscall_entry (syscall_insn next (saved c)) c2 eq_refl); [|exact Hx2].
    by apply syscall_insn_typed. }
  destruct (restored_run next v ev c c2 Hc Hus Hr Ht2 Hcl) as (c' & Hp' & Hret). exists c'. split; [exact Hp'|]. exists v. split; [reflexivity|exact Hret].
Qed.

(** ** The constants *)

(** The bytes [bs] are at [a], can be read, and the stack does not grow into
    them. *)
Record const_at (c : Cpu64) (a : Z) (bs : list Z) : Prop := {
  ct_range : 0 <= a /\ a + Z.of_nat (length bs) < hh;
  ct_bytes : forall i b, bs !! i = Some b -> mem c (a + Z.of_nat i) = b;
  ct_mapped : forall i, (i < length bs)%nat -> mapped (a + Z.of_nat i) = true;
  ct_apart : a + Z.of_nat (length bs) <= get_reg RSP c - 16 \/ get_reg RSP c <= a
}.

Lemma const_read c m a bs i b :
  const_at c a bs -> (forall x, x < hh -> x < get_reg RSP c - 16 \/ get_reg RSP c <= x -> m x = mem c x) ->
  bs !! i = Some b -> reader mapped m (a + Z.of_nat i) = Ret b.
Proof.
  intros [Hr Hb Hm Ha] Hmem Hi. pose proof (lookup_lt_Some _ _ _ Hi) as Hlt. unfold reader.
  rewrite Hm, Hmem by lia. by rewrite (Hb i b Hi).
Qed.

Lemma find_nul_at rd a name n i :
  (length name < n)%nat -> 0 <= a -> 0 <= i -> a + i + Z.of_nat n < 2 ^ 64 -> Forall (fun b => b <> 0) name ->
  (forall j b, (name ++ [0]) !! j = Some b -> rd (a + i + Z.of_nat j) = Ret b) ->
  find_nul rd n a i = Ret (i + Z.of_nat (length name)).
Proof.
  intros Hn Ha Hi Hb Hnz. revert n i Hn Hi Hb. induction Hnz as [|x name Hx _ IH]; intros n i Hn Hi Hb Hrd.
  - destruct n as [|n]; [cbn in Hn; lia|]. cbn [find_nul]. rewrite wrap_small by lia.
    pose proof (Hrd O 0 eq_refl) as H0. rewrite Z.add_0_r in H0. rewrite H0, Ret_bind. cbn. f_equal. lia.
  - destruct n as [|n]; [cbn in Hn; lia|]. cbn [find_nul length] in *. rewrite wrap_small by lia.
    pose proof (Hrd O x eq_refl) as H0. rewrite Z.add_0_r in H0. rewrite H0, Ret_bind.
    rewrite (proj2 (Z.eqb_neq _ _) Hx). rewrite IH; [f_equal; lia|lia|lia|lia|].
    intros j b Hj. specialize (Hrd (S j) b Hj). by replace (a + (i + 1) + Z.of_nat j) with (a + i + Z.of_nat (S j)) by lia.
Qed.

Definition byte_at (l : list Z) (j : Z) : Z := default 0 (l !! Z.to_nat j).
Lemma byte_at_all l : byte_at l <$> seqZ 0 (Z.of_nat (length l)) = l.
Proof.
  apply list_eq. intros i. rewrite list_lookup_fmap. destruct (decide (i < length l)%nat) as [Hi|Hi].
  - rewrite lookup_seqZ_lt by lia. cbn. unfold byte_at. rewrite Z.add_0_l, Nat2Z.id.
    destruct (lookup_lt_is_Some_2 l i Hi) as [x Hx]. by rewrite Hx.
  - rewrite lookup_seqZ_ge, lookup_ge_None_2 by lia. done.
Qed.

Lemma read_bytes_at rd a l :
  0 <= a -> a + Z.of_nat (length l) <= 2 ^ 64 -> (forall j b, l !! j = Some b -> rd (a + Z.of_nat j) = Ret b) ->
  read_bytes rd (length l) a 0 = Ret l.
Proof.
  intros Ha Hb Hrd. rewrite (read_bytes_map _ (byte_at l)); [by rewrite byte_at_all|lia|lia|lia|]. intros j Hj.
  destruct (lookup_lt_is_Some_2 l (Z.to_nat j)) as [x Hx]; [lia|]. unfold byte_at. rewrite Hx.
  specialize (Hrd _ _ Hx). by rewrite Z2Nat.id in Hrd by lia.
Qed.

Lemma req_name_at rd a name :
  (length name < 16)%nat -> 0 <= a -> a + 16 < 2 ^ 64 -> Forall (fun b => b <> 0) name ->
  (forall j b, (name ++ [0]) !! j = Some b -> rd (a + Z.of_nat j) = Ret b) -> req_name rd a = Ret name.
Proof.
  intros Hl Ha Hb Hnz Hrd. unfold req_name.
  rewrite (find_nul_at rd a name) by (try done; try lia; intros; rewrite Z.add_0_r; by apply Hrd).
  rewrite Ret_bind, Z.add_0_l, Nat2Z.id. apply read_bytes_at; [done|lia|]. intros j b Hj. apply Hrd. by apply lookup_app_l_Some.
Qed.

(** ** The program *)

Lemma regs_of req a1 a2 a3 a4 a5 a6 c :
  let c0 := request_regs req a1 a2 a3 a4 a5 a6 c in
  get_reg RAX c0 = req /\ get_reg RDI c0 = a1 /\ get_reg RSI c0 = a2 /\ get_reg RSP c0 = get_reg RSP c /\
  mem c0 = mem c /\ log c0 = log c.
Proof. cbn zeta. unfold request_regs, get_reg, set_reg. destruct c as [[]]. split_and!; reflexivity. Qed.

Lemma regs_ready req a1 a2 a3 a4 a5 a6 c :
  Forall is_word [req; a1; a2; a3; a4; a5; a6] -> typed c -> sys_ready c p ksp -> user_stack c ->
  let c0 := request_regs req a1 a2 a3 a4 a5 a6 c in typed c0 /\ sys_ready c0 p ksp /\ user_stack c0.
Proof.
  intros Hw Hc [] Hs. repeat (apply Forall_cons_1 in Hw as [? Hw]). cbn zeta. unfold request_regs. split_and!.
  - by repeat apply typed_set.
  - by constructor.
  - unfold user_stack. destruct (regs_of req a1 a2 a3 a4 a5 a6 c) as (_ & _ & _ & Hsp & _). unfold request_regs in Hsp. by rewrite Hsp.
Qed.

Lemma request_wrapped next req a1 a2 a3 a4 a5 a6 c :
  kernel_request next req a1 a2 a3 a4 a5 a6 c = wrapped next (request_regs req a1 a2 a3 a4 a5 a6 c).
Proof. unfold kernel_request, wrapped. reflexivity. Qed.

(** A request of the program: what the kernel reads of its constants is what
    they are. *)
Lemma request_run next req a1 a2 c :
  Forall is_word [next; req; a1; a2] -> typed c -> sys_ready c p ksp -> user_stack c ->
  exists m, (forall x, x < hh -> x < get_reg RSP c - 16 \/ get_reg RSP c <= x -> m x = mem c x) /\
    follows (trap_effect fuel (reader mapped m) 0x80 req a1 a2) (kernel_request next req a1 a2 0 0 0 0 c)
      (fun r c' => exists v, r.1 = Some v /\ returned (request_regs req a1 a2 0 0 0 0 c) v r.2 c').
Proof.
  intros Hw Hc Hr Hs. apply Forall_cons_1 in Hw as [Hn Hw]. assert (is_word 0) as Hz by (unfold is_word; lia).
  destruct (regs_ready req a1 a2 0 0 0 0 c) as (Hc0 & Hr0 & Hs0); [|done..|].
  { repeat (apply Forall_cons_1 in Hw as [? Hw]). by repeat apply Forall_cons_2. }
  destruct (regs_of req a1 a2 0 0 0 0 c) as (H1 & H2 & H3 & H4 & H5 & _).
  destruct (wrapped_run next _ Hc0 Hn Hr0 Hs0) as (m & Hm & Hf). rewrite H1, H2, H3 in Hf. rewrite H4, H5 in Hm.
  exists m. split; [exact Hm|]. rewrite request_wrapped. exact Hf.
Qed.

Lemma traps_reader m : traps (reader mapped m).
Proof. unfold traps, reader. by rewrite Hunmapped. Qed.

Lemma hh_word x : 0 <= x < hh -> is_word x.
Proof. unfold is_word. lia. Qed.

(** [print] of bytes that are a constant of the program. *)
Lemma print_ok l c a bs :
  typed c -> sys_ready c p ksp -> user_stack c -> is_word (next_print l) -> l_print l + 16 < hh ->
  const_at c (l_print l) (b_print ++ [0]) -> const_at c a bs ->
  exists c', aleph_print l a (Z.of_nat (length bs)) c = Ret (Ok c') /\
    returned (request_regs (l_print l) a (Z.of_nat (length bs)) 0 0 0 0 c) 0 (Putchar <$> bs) c'.
Proof.
  intros Hc Hr Hs Hn Hl16 Hl Ha. pose proof (ct_range _ _ _ Hl) as [Hl0 _]. pose proof (ct_range _ _ _ Ha) as [Ha0 Ha1].
  destruct (request_run (next_print l) (l_print l) a (Z.of_nat (length bs)) c) as (m & Hm & Hf); [|done|done|done|].
  { repeat apply Forall_cons_2; [done|..|apply Forall_nil_2]; apply hh_word; lia. }
  assert (He : trap_effect fuel (reader mapped m) 0x80 (l_print l) a (Z.of_nat (length bs)) = Ret (Ok (Some 0, Putchar <$> bs))).
  { unfold trap_effect. cbn [Z.eqb Pos.eqb]. rewrite (print_run _ _ hh _ _ _ (byte_at bs)); [|done|done|apply traps_reader| |lia|lia|].
    - rewrite (proj2 (Z.ltb_lt _ _)) by lia. by rewrite Ret_bind, byte_at_all.
    - apply req_name_at; [cbn; lia|done|lia|by repeat constructor|]. intros j b Hj. by apply (const_read c m _ (b_print ++ [0])).
    - intros j Hj _. destruct (lookup_lt_is_Some_2 bs (Z.to_nat j)) as [x Hx]; [lia|].
      pose proof (const_read c m a bs _ x Ha Hm Hx) as Hrd. rewrite Z2Nat.id in Hrd by lia. unfold byte_at. rewrite Hx. exact Hrd. }
  rewrite He in Hf. destruct Hf as (c' & Hrun & v & [= <-] & Hret). exists c'. split; [exact Hrun|exact Hret].
Qed.

Lemma exit_ok l c code :
  typed c -> sys_ready c p ksp -> user_stack c -> is_word (next_exit l) -> l_exit l + 16 < hh -> 0 <= code < 256 ->
  const_at c (l_exit l) (b_exit ++ [0]) -> aleph_exit l code c = Ret (Err code).
Proof.
  intros Hc Hr Hs Hn Hl16 Hcode Hl. pose proof (ct_range _ _ _ Hl) as [Hl0 _].
  destruct (request_run (next_exit l) (l_exit l) code 0 c) as (m & Hm & Hf); [|done|done|done|].
  { repeat apply Forall_cons_2; [done|apply hh_word; lia|unfold is_word; lia|unfold is_word; lia|apply Forall_nil_2]. }
  assert (He : trap_effect fuel (reader mapped m) 0x80 (l_exit l) code 0 = Ret (Err code)).
  { unfold trap_effect. cbn [Z.eqb Pos.eqb]. unfold kernel_requestee. rewrite (req_name_at _ _ b_exit).
    - rewrite Ret_bind, bool_decide_eq_true_2 by done. rewrite Ret_bind. do 2 f_equal. unfold as_i32, ucast.
      rewrite Z.mod_small by lia. destruct (Z.ltb_spec code (2 ^ 31)); [done|lia].
    - cbn. lia.
    - done.
    - lia.
    - by repeat constructor.
    - intros j b Hj. by apply (const_read c m _ (b_exit ++ [0])). }
  rewrite He in Hf. cbn [follows] in Hf. unfold aleph_exit. rewrite Hf. reflexivity.
Qed.

(** What a request keeps of the constants. *)
Lemma const_kept req a1 a2 c v ev c' a bs :
  returned (request_regs req a1 a2 0 0 0 0 c) v ev c' -> const_at c a bs -> const_at c' a bs.
Proof.
  intros Hret [Hr Hb Hm Ha]. destruct (regs_of req a1 a2 0 0 0 0 c) as (_ & _ & _ & H4 & H5 & _).
  assert (Hsp : get_reg RSP c' = get_reg RSP c).
  { unfold get_reg at 1. rewrite (rt_gprs _ _ _ _ Hret), get_set. exact H4. }
  constructor; [done| |done|by rewrite Hsp]. intros i b Hi. pose proof (lookup_lt_Some _ _ _ Hi).
  rewrite (rt_mem _ _ _ _ Hret), H5 by (rewrite ?H4; lia). by apply Hb.
Qed.

(** C14: The first program, from its first instruction: its message is what the
    kernel sends to the serial port, byte for byte, and the process ends with
    the code 0; between the requests its stack pointer and memory are as it
    left them.  This holds whatever the handler and the compiler do with the
    registers and the memory of the kernel. *)
Theorem aleph_runs l c :
  typed c -> sys_ready c p ksp -> user_stack c -> is_word (next_print l) -> is_word (next_exit l) ->
  l_print l + 16 < hh -> l_exit l + 16 < hh ->
  const_at c (l_print l) (b_print ++ [0]) -> const_at c (l_exit l) (b_exit ++ [0]) -> const_at c (l_msg l) MESSAGE ->
  exists c', aleph_print l (l_msg l) (Z.of_nat (length MESSAGE)) c = Ret (Ok c') /\
    log c' = log c ++ (Putchar <$> MESSAGE) /\ get_reg RSP c' = get_reg RSP c /\
    (forall x, x < hh -> x < get_reg RSP c - 16 \/ get_reg RSP c <= x -> mem c' x = mem c x) /\
    aleph_start l c = Ret (Err 0).
Proof.
  intros Hc Hr Hs Hn1 Hn2 Hl1 Hl2 Hcp Hce Hcm.
  destruct (print_ok l c (l_msg l) MESSAGE Hc Hr Hs Hn1 Hl1 Hcp Hcm) as (c' & Hrun & Hret). exists c'.
  destruct (regs_of (l_print l) (l_msg l) (Z.of_nat (length MESSAGE)) 0 0 0 0 c) as (_ & _ & _ & H4 & H5 & H6).
  assert (Hsp : get_reg RSP c' = get_reg RSP c).
  { unfold get_reg at 1. rewrite (rt_gprs _ _ _ _ Hret), get_set. exact H4. }
  split; [exact Hrun|]. split; [rewrite (rt_log _ _ _ _ Hret), H6; reflexivity|]. split; [exact Hsp|]. split.
  - intros x Hx Hx2. rewrite (rt_mem _ _ _ _ Hret), H5 by (rewrite ?H4; lia). reflexivity.
  - unfold aleph_start. rewrite Hrun, Ok_try. apply exit_ok; [apply Hret|apply Hret| |exact Hn2|exact Hl2|lia|].
    + unfold user_stack. rewrite Hsp. exact Hs.
    + eapply const_kept; [exact Hret|exact Hce].
Qed.
End Aleph.

(** ** The program on a processor *)

Module AlephDemo.
Import Amd64Demo.Amd64Demo.
#[local] Existing Instance demo.
Definition lits : Lits := mkLits 0x1000 0x1010 0x2000 0x400010 0x400020.
Definition placed (a : Z) (bs : list Z) (m : Mem) : Mem :=
  fun x => if (a <=? x) && (x <? a + Z.of_nat (length bs)) then nth (Z.to_nat (x - a)) bs 0 else m x.
Definition mem1 : Mem := placed 0x1000 (b_print ++ [0]) (placed 0x1010 (b_exit ++ [0]) (placed 0x2000 MESSAGE
  (placed (percpu + 8) (le_put 8 ktop) (fun _ => 0)))).
Definition cpu2 : Cpu64 := mkCpu64 gprs0 (seqZ 100 16) 0x1f80 0x400000 0x202 0x23 0x1b msr0 mem1 [].

Lemma placed_byte a bs m x : Forall is_byte bs -> is_byte (m x) -> is_byte (placed a bs m x).
Proof. intros Hb Hm. unfold placed. case_match; [by apply nth_byte|done]. Qed.

Lemma bytes_ok l : forallb (fun b => (0 <=? b) && (b <? 256)) l = true -> Forall is_byte l.
Proof.
  rewrite forallb_forall. intros Hl. apply Forall_forall. intros b Hb. apply list_elem_of_In, Hl, andb_true_iff in Hb as [H1 H2].
  unfold is_byte. lia.
Qed.

Lemma typed2 : typed cpu2.
Proof.
  destruct typed0. constructor; try assumption. intros a. cbn. unfold mem1.
  apply placed_byte; [apply bytes_ok; reflexivity|]. apply placed_byte; [apply bytes_ok; reflexivity|].
  apply placed_byte; [apply bytes_ok; reflexivity|]. apply placed_byte; [apply bytes_ok; reflexivity|]. unfold is_byte. lia.
Qed.

(** The tests of [const_at]. *)
Definition const_ok (a : Z) (bs : list Z) : bool :=
  (0 <=? a) && (a + Z.of_nat (length bs) <? 0x7ff000 - 16) &&
  forallb (fun i => (mem1 (a + Z.of_nat i) =? nth i bs 0) && mapped (a + Z.of_nat i)) (seq 0 (length bs)).
Lemma const_holds a bs : const_ok a bs = true -> const_at mapped 0xffff800000000000 cpu2 a bs.
Proof.
  unfold const_ok. rewrite !andb_true_iff, forallb_forall. intros [[H1 H2] H3]. zbool.
  assert (Hi : forall i, (i < length bs)%nat -> mem1 (a + Z.of_nat i) = nth i bs 0 /\ mapped (a + Z.of_nat i) = true).
  { intros i Hi. specialize (H3 i). rewrite andb_true_iff, Z.eqb_eq in H3. apply H3. apply in_seq. lia. }
  constructor.
  - lia.
  - intros i b Hb. change (mem cpu2) with mem1. destruct (Hi i) as [-> _]; [by eapply lookup_lt_Some|]. by apply nth_lookup_Some.
  - intros i Hl. by apply Hi.
  - left. change (get_reg RSP cpu2) with 0x7ff000. lia.
Qed.

Lemma hh_demo : hihalf = Ret 0xffff800000000000.
Proof. vm_compute. reflexivity. Qed.

Lemma ready2 : sys_ready cpu2 percpu ktop.
Proof. constructor; try reflexivity; try (vm_compute; split; (discriminate || reflexivity)). right. vm_compute. discriminate. Qed.

Lemma aleph_runs_witness : exists c',
  aleph_print 0 mapped abi lits 0x2000 33 cpu2 = Ret (Ok c') /\ log c' = Putchar <$> MESSAGE /\
  aleph_start 0 mapped abi lits cpu2 = Ret (Err 0).
Proof.
  destruct (aleph_runs 0 mapped abi abi_law abi_typed 0xffff800000000000 percpu ktop hh_demo) with (l := lits) (c := cpu2)
    as (c' & Hr & Hl & _ & _ & Hs).
  - lia.
  - vm_compute. discriminate.
  - vm_compute. discriminate.
  - intros c x _. reflexivity.
  - reflexivity.
  - apply typed2.
  - apply ready2.
  - vm_compute. split; [discriminate|reflexivity].
  - vm_compute. split; [discriminate|reflexivity].
  - vm_compute. split; [discriminate|reflexivity].
  - reflexivity.
  - reflexivity.
  - apply const_holds. vm_compute. reflexivity.
  - apply const_holds. vm_compute. reflexivity.
  - apply const_holds. vm_compute. reflexivity.
  - exists c'. split; [exact Hr|]. split; [exact Hl|exact Hs].
Defined.
End AlephDemo.
