(* ===== verification/A64.v ===== *)
(** * A64: an AArch64 processor and the instructions the kernel's assembly uses

    The general, vector and system registers, the two stack pointers and the
    bit that selects one, memory, and the instructions of the assembly under
    arch/aarch64/. *)

From S2P Require Import Prelude Bytes Memory.

(** ** State *)

Inductive sysreg : Type :=
  | SP_EL0 | ELR_EL1 | SPSR_EL1 | ESR_EL1 | FAR_EL1 | TPIDR_EL1 | FPCR | FPSR | VBAR_EL1.
#[export] Instance sysreg_eq_dec : EqDecision sysreg.
Proof. solve_decision. Defined.

Record SysRegs : Type := mkSys {
  r_sp_el0 : Z; r_elr : Z; r_spsr : Z; r_esr : Z; r_far : Z; r_tpidr : Z; r_fpcr : Z; r_fpsr : Z; r_vbar : Z
}.
Definition sget (s : sysreg) (r : SysRegs) : Z :=
  match s with
  | SP_EL0 => r_sp_el0 r | ELR_EL1 => r_elr r | SPSR_EL1 => r_spsr r | ESR_EL1 => r_esr r | FAR_EL1 => r_far r
  | TPIDR_EL1 => r_tpidr r | FPCR => r_fpcr r | FPSR => r_fpsr r | VBAR_EL1 => r_vbar r
  end.
Definition sput (s : sysreg) (v : Z) (r : SysRegs) : SysRegs :=
  let 'mkSys a b c d e f g h i := r in
  match s with
  | SP_EL0 => mkSys v b c d e f g h i | ELR_EL1 => mkSys a v c d e f g h i
  | SPSR_EL1 => mkSys a b v d e f g h i | ESR_EL1 => mkSys a b c v e f g h i
  | FAR_EL1 => mkSys a b c d v f g h i | TPIDR_EL1 => mkSys a b c d e v g h i
  | FPCR => mkSys a b c d e f v h i | FPSR => mkSys a b c d e f g v i
  | VBAR_EL1 => mkSys a b c d e f g h v
  end.

(** What becomes visible outside: bytes on the serial port, ends of
    interrupts, the timer. *)
Inductive visible : Type :=
  | Out (byte : Z)
  | EndIntr (intid : Z)
  | TimerSet (ms : Z).

(** x0 to x30, q0 to q31, the system registers, SP_EL1, PSTATE as in SPSR. *)
Record CpuA64 : Type := mkA64 {
  a_x : list Z; a_q : list Z; a_sys : SysRegs; a_sp1 : Z; a_pst : Z; a_pc : Z; a_mem : Mem; a_log : list visible
}.

Definition a_with_x (c : CpuA64) x : CpuA64 := mkA64 x (a_q c) (a_sys c) (a_sp1 c) (a_pst c) (a_pc c) (a_mem c) (a_log c).
Definition a_with_q (c : CpuA64) q : CpuA64 := mkA64 (a_x c) q (a_sys c) (a_sp1 c) (a_pst c) (a_pc c) (a_mem c) (a_log c).
Definition a_with_sys (c : CpuA64) s : CpuA64 := mkA64 (a_x c) (a_q c) s (a_sp1 c) (a_pst c) (a_pc c) (a_mem c) (a_log c).
Definition a_with_sp1 (c : CpuA64) v : CpuA64 := mkA64 (a_x c) (a_q c) (a_sys c) v (a_pst c) (a_pc c) (a_mem c) (a_log c).
Definition a_with_ctrl (c : CpuA64) pst pc : CpuA64 := mkA64 (a_x c) (a_q c) (a_sys c) (a_sp1 c) pst pc (a_mem c) (a_log c).
Definition a_with_mem (c : CpuA64) m : CpuA64 := mkA64 (a_x c) (a_q c) (a_sys c) (a_sp1 c) (a_pst c) (a_pc c) m (a_log c).
Definition a_with_log (c : CpuA64) l : CpuA64 := mkA64 (a_x c) (a_q c) (a_sys c) (a_sp1 c) (a_pst c) (a_pc c) (a_mem c) l.

Definition xget (r : nat) (c : CpuA64) : Z := nth r (a_x c) 0.
Definition xset (r : nat) (v : Z) (c : CpuA64) : CpuA64 := a_with_x c (<[r := v]> (a_x c)).
Definition qget (r : nat) (c : CpuA64) : Z := nth r (a_q c) 0.
Definition qset (r : nat) (v : Z) (c : CpuA64) : CpuA64 := a_with_q c (<[r := v]> (a_q c)).

(** SPSel is the lowest bit of PSTATE; the exception level is in bits 2, 3. *)
Definition spsel (c : CpuA64) : bool := Z.testbit (a_pst c) 0.
Definition sp (c : CpuA64) : Z := if spsel c then a_sp1 c else sget SP_EL0 (a_sys c).
Definition set_sp (v : Z) (c : CpuA64) : CpuA64 :=
  if spsel c then a_with_sp1 c v else a_with_sys c (sput SP_EL0 v (a_sys c)).

(** ** Instructions *)

Inductive base : Type := SP | X (r : nat).

Inductive ainstr : Type :=
  | STP (r1 r2 : nat) (b : base) (off : Z)
  | STP_PRE (r1 r2 : nat) (off : Z)              (* stp r1, r2, [sp, #off]! *)
  | STR (r : nat) (b : base) (off : Z)
  | LDP (r1 r2 : nat) (b : base) (off : Z)
  | LDR (r : nat) (b : base) (off : Z)
  | STPQ (q1 q2 : nat) (b : base) (off : Z)
  | LDPQ (q1 q2 : nat) (b : base) (off : Z)
  | MRS (r : nat) (s : sysreg)
  | MSR (s : sysreg) (r : nat)
  | MSR_SPSEL (b : bool)
  | MOVI (r : nat) (n : Z)
  | MOVR (r r' : nat)
  | MOV_FROM_SP (r : nat)
  | MOV_TO_SP (r : nat)
  | SUBI (r r' : nat) (n : Z)
  | ADD_SP (n : Z)
  | SUB_SP (n : Z)
  | TST (r : nat) (n : Z)
  | BL
  | ERET.

(** An access through the stack pointer faults when it is not aligned. *)
Definition with_addr (b : base) (off : Z) (c : CpuA64) (k : Z -> CpuA64) : outcome (result Z CpuA64) :=
  match b with
  | SP => if sp c mod 16 =? 0 then Ret (Ok (k (uwrap_add 64 (sp c) off))) else Panic
  | X r => Ret (Ok (k (uwrap_add 64 (xget r c) off)))
  end.

(** N, Z, C and V of a logical instruction. *)
Definition tst_flags (v pst : Z) : Z :=
  Z.lor (Z.land pst 0xfffffff)
    (Z.lor (if Z.testbit v 63 then 2 ^ 31 else 0) (if v =? 0 then 2 ^ 30 else 0)).
Definition flag_ne (c : CpuA64) : bool := negb (Z.testbit (a_pst c) 30).

Section Exec.
(** The function that the code calls. *)
Variable callee : CpuA64 -> outcome (result Z CpuA64).

Definition stepA (i : ainstr) (c : CpuA64) : outcome (result Z CpuA64) :=
  match i with
  | STP r1 r2 b off => with_addr b off c (fun a =>
      a_with_mem c (store 8 (store 8 (a_mem c) a (xget r1 c)) (a + 8) (xget r2 c)))
  | STP_PRE r1 r2 off => with_addr SP off c (fun a =>
      set_sp a (a_with_mem c (store 8 (store 8 (a_mem c) a (xget r1 c)) (a + 8) (xget r2 c))))
  | STR r b off => with_addr b off c (fun a => a_with_mem c (store 8 (a_mem c) a (xget r c)))
  | LDP r1 r2 b off => with_addr b off c (fun a => xset r2 (load 8 (a_mem c) (a + 8)) (xset r1 (load 8 (a_mem c) a) c))
  | LDR r b off => with_addr b off c (fun a => xset r (load 8 (a_mem c) a) c)
  | STPQ q1 q2 b off => with_addr b off c (fun a =>
      a_with_mem c (store 16 (store 16 (a_mem c) a (qget q1 c)) (a + 16) (qget q2 c)))
  | LDPQ q1 q2 b off => with_addr b off c (fun a => qset q2 (load 16 (a_mem c) (a + 16)) (qset q1 (load 16 (a_mem c) a) c))
  | MRS r s => Ret (Ok (xset r (sget s (a_sys c)) c))
  | MSR s r => Ret (Ok (a_with_sys c (sput s (xget r c) (a_sys c))))
  | MSR_SPSEL b => Ret (Ok (a_with_ctrl c (if b then Z.lor (a_pst c) 1 else Z.ldiff (a_pst c) 1) (a_pc c)))
  | MOVI r n => Ret (Ok (xset r n c))
  | MOVR r r' => Ret (Ok (xset r (xget r' c) c))
  | MOV_FROM_SP r => Ret (Ok (xset r (sp c) c))
  | MOV_TO_SP r => Ret (Ok (set_sp (xget r c) c))
  | SUBI r r' n => Ret (Ok (xset r (uwrap_sub 64 (xget r' c) n) c))
  | ADD_SP n => Ret (Ok (set_sp (uwrap_add 64 (sp c) n) c))
  | SUB_SP n => Ret (Ok (set_sp (uwrap_sub 64 (sp c) n) c))
  | TST r n => Ret (Ok (a_with_ctrl c (tst_flags (Z.land (xget r c) n) (a_pst c)) (a_pc c)))
  | BL => callee c
  | ERET => Ret (Ok (a_with_ctrl c (sget SPSR_EL1 (a_sys c)) (sget ELR_EL1 (a_sys c))))
  end.

Fixpoint execA (l : list ainstr) (c : CpuA64) : outcome (result Z CpuA64) :=
  match l with
  | [] => Ret (Ok c)
  | i :: l => c ←? stepA i c; execA l c
  end.

Lemma execA_cons i l c : execA (i :: l) c = try_bind (stepA i c) (execA l).
Proof. done. Qed.
Lemma execA_app l l' c : execA (l ++ l') c = try_bind (execA l c) (execA l').
Proof.
  revert c. induction l as [|i l IH]; intros c; [done|]. cbn [app execA].
  destruct (stepA i c) as [[c'|e]| |]; [|done..]. apply IH.
Qed.
End Exec.

(** ** Taking an exception

    From EL0 (vectors 8 to 11) or from EL1 with the kernel's stack in SP_EL0
    (0 to 3): PSTATE is saved, the exception is taken with SP_EL1 and all
    interrupts masked. *)
Definition exc_type_of (kind : Z) (pst : Z) : Z :=
  if Z.land pst 0xf =? 0 then 8 + kind else if Z.testbit pst 0 then 4 + kind else kind.
Definition take_exception (kind esr far : Z) (c : CpuA64) : CpuA64 :=
  let s := sput ELR_EL1 (a_pc c) (sput SPSR_EL1 (a_pst c) (sput ESR_EL1 esr (sput FAR_EL1 far (a_sys c)))) in
  a_with_ctrl (a_with_sys c s) 0x3c5 (r_vbar (a_sys c) + 0x80 * exc_type_of kind (a_pst c)).
