(* ===== verification/A64Exc.v ===== *)
(** * A64Exc: exceptions and context switches (arch/aarch64/exc.rs, proc.rs)

    The vectors, [exc_entry], the frame that they build, [exc_handler],
    [rstr_ctxt] and [init].  The macro [ref_frame!] is a block around
    [*frame], which is a copy of the frame. *)

From S2P Require Import Prelude Bytes Memory Rvm Kreq A64.

(** ** The frame *)

Record ExcFrame_aarch64 : Type := mkExcFrameA {
  fa_x : list Z; fa_elr : Z; fa_spsr : Z; fa_esr : Z; fa_far : Z; fa_q : list Z; fa_fpcr : Z; fa_fpsr : Z
}.
Definition size_of_ExcFrame_aarch64 : Z := 816.

(** The words of a 128-bit value, and the words of the frame. *)
Definition frame_words_aarch64 (f : ExcFrame_aarch64) : list Z :=
  fa_x f ++ [fa_elr f; fa_spsr f; fa_esr f; fa_far f] ++ (fa_q f ≫= halves) ++ [fa_fpcr f; fa_fpsr f].
Definition read_frame_aarch64 (m : Mem) (a : Z) : ExcFrame_aarch64 :=
  mkExcFrameA ((fun i => load 8 m (a + 8 * i)) <$> seqZ 0 32)
    (load 8 m (a + 256)) (load 8 m (a + 264)) (load 8 m (a + 272)) (load 8 m (a + 280))
    ((fun i => load 16 m (a + 288 + 16 * i)) <$> seqZ 0 32) (load 8 m (a + 800)) (load 8 m (a + 808)).
Definition write_frame_aarch64 (m : Mem) (a : Z) (f : ExcFrame_aarch64) : Mem := store_words m a (frame_words_aarch64 f).

Definition ExcFrame_new_aarch64 : ExcFrame_aarch64 := mkExcFrameA (replicate 32 0) 0 0 0 0 (replicate 32 0) 0 0.

Definition set_x (f : ExcFrame_aarch64) (i : nat) (v : Z) : ExcFrame_aarch64 :=
  mkExcFrameA (<[i := v]> (fa_x f)) (fa_elr f) (fa_spsr f) (fa_esr f) (fa_far f) (fa_q f) (fa_fpcr f) (fa_fpsr f).
Definition set_elr (f : ExcFrame_aarch64) (v : Z) : ExcFrame_aarch64 :=
  mkExcFrameA (fa_x f) v (fa_spsr f) (fa_esr f) (fa_far f) (fa_q f) (fa_fpcr f) (fa_fpsr f).

Definition pc_aarch64 (f : ExcFrame_aarch64) : Z := fa_elr f.
Definition sp_aarch64 (f : ExcFrame_aarch64) : Z := nth 31 (fa_x f) 0.
(** [self.x[arg_i]]: a panic when the index is out of range. *)
Definition arg_aarch64 (f : ExcFrame_aarch64) (arg_i : nat) : outcome Z := unwrap (fa_x f !! arg_i).
Definition set_pc_aarch64 (f : ExcFrame_aarch64) (pc : Z) : ExcFrame_aarch64 := set_elr f pc.
Definition set_sp_aarch64 (f : ExcFrame_aarch64) (sp : Z) : ExcFrame_aarch64 := set_x f 31 sp.
Definition set_arg_aarch64 (f : ExcFrame_aarch64) (arg_i : nat) (arg : Z) : outcome ExcFrame_aarch64 :=
  if (arg_i <? length (fa_x f))%nat then Ret (set_x f arg_i arg) else Panic.

(** ** The assembly *)

(** [exc_stub_el1t!], up to the branch to [exc_entry]. *)
Definition exc_stub_el1t (n : Z) : list ainstr :=
  [SUB_SP 816;
   STP 0 1 SP 0;
   STP 2 3 SP 16;
   MRS 0 SP_EL0;
   STR 0 SP 248;
   MOV_FROM_SP 1;
   MOVI 0 n].

(** [exc_stub_el0!], up to the branch to [exc_entry]. *)
Definition exc_stub_el0 (n : Z) : list ainstr :=
  [STP_PRE 0 1 (-32);
   STP 2 3 SP 16;
   MRS 0 SP_EL0;
   MRS 1 TPIDR_EL1;
   SUBI 1 1 816;
   STR 0 (X 1) 248;
   LDP 2 3 SP 0;
   STP 2 3 (X 1) 0;
   LDP 2 3 SP 16;
   STP 2 3 (X 1) 16;
   ADD_SP 32;
   MOVI 0 n].

(** The pairs from register [r] on, [n] of them, from offset [off] on. *)
Definition stps (n r : nat) (b : base) (off : Z) : list ainstr :=
  (fun i => STP (r + 2 * i) (r + 2 * i + 1) b (off + 16 * Z.of_nat i)) <$> seq 0 n.
Definition ldps (n r : nat) (b : base) (off : Z) : list ainstr :=
  (fun i => LDP (r + 2 * i) (r + 2 * i + 1) b (off + 16 * Z.of_nat i)) <$> seq 0 n.
Definition stpqs (b : base) : list ainstr :=
  (fun i => STPQ (2 * i) (2 * i + 1) b (288 + 32 * Z.of_nat i)) <$> seq 0 16.
Definition ldpqs (b : base) : list ainstr :=
  (fun i => LDPQ (2 * i) (2 * i + 1) b (288 + 32 * Z.of_nat i)) <$> seq 0 16.

(** [exc_entry:] up to the call. *)
Definition exc_entry_save : list ainstr :=
  stps 13 4 (X 1) 32 ++
  [STR 30 (X 1) 240;
   MRS 2 ELR_EL1;
   MRS 3 SPSR_EL1;
   STP 2 3 (X 1) 256;
   MRS 2 ESR_EL1;
   MRS 3 FAR_EL1;
   STP 2 3 (X 1) 272] ++
  stpqs (X 1) ++
  [MRS 2 FPCR;
   STR 2 (X 1) 800;
   MRS 2 FPSR;
   STR 2 (X 1) 808;
   MSR SP_EL0 1;
   MSR_SPSEL false;
   MOV_FROM_SP 1].

(** From the return of the handler to the branch. *)
Definition exc_entry_rstr : list ainstr :=
  [LDP 2 3 SP 256;
   MSR ELR_EL1 2;
   MSR SPSR_EL1 3;
   LDR 2 SP 800;
   MSR FPCR 2;
   LDR 2 SP 808;
   MSR FPSR 2] ++
  ldpqs SP ++
  [LDR 2 SP 264;
   TST 2 12;
   MOV_FROM_SP 9;
   MSR_SPSEL true;
   LDR 10 (X 9) 248;
   MSR SP_EL0 10] ++
  ldps 4 0 (X 9) 0 ++
  [LDR 8 (X 9) 64] ++
  ldps 10 10 (X 9) 80 ++
  [LDR 30 (X 9) 240;
   LDR 9 (X 9) 72].

(** [b.ne 2f; eret; 2: add sp, sp, #816; eret] *)
Definition exc_entry (callee : CpuA64 -> outcome (result Z CpuA64)) (c : CpuA64) : outcome (result Z CpuA64) :=
  c ←? execA callee (exc_entry_save ++ [BL] ++ exc_entry_rstr) c;
  execA callee (if flag_ne c then [ADD_SP 816; ERET] else [ERET]) c.

(** The code at the vector [n]; the vectors of EL1h stop the processor. *)
Definition exc_vts (callee : CpuA64 -> outcome (result Z CpuA64)) (n : Z) (c : CpuA64) : outcome (result Z CpuA64) :=
  if n <? 4 then c ←? execA callee (exc_stub_el1t n) c; exc_entry callee c
  else if n <? 8 then Panic
  else c ←? execA callee (exc_stub_el0 n) c; exc_entry callee c.

(** [rstr_ctxt]; the compiler chooses the registers of the operands. *)
Definition rstr_ctxt_aarch64 (ctxt ksp : nat) : list ainstr :=
  [MOVR 9 ctxt;
   MSR TPIDR_EL1 ksp;
   LDR 10 (X 9) 256;
   MSR ELR_EL1 10;
   LDR 10 (X 9) 264;
   MSR SPSR_EL1 10;
   LDR 10 (X 9) 800;
   MSR FPCR 10;
   LDR 10 (X 9) 808;
   MSR FPSR 10] ++
  ldpqs (X 9) ++
  [MSR_SPSEL true;
   LDR 10 (X 9) 248;
   MSR SP_EL0 10] ++
  ldps 4 0 (X 9) 0 ++
  [LDR 8 (X 9) 64] ++
  ldps 10 10 (X 9) 80 ++
  [LDR 30 (X 9) 240;
   LDR 9 (X 9) 72;
   ERET].

(** [init]; the compiler chooses the registers, [vbar] and [tramp] are in. *)
Definition exc_init_aarch64 (vbar tramp tmp : nat) : list ainstr :=
  [MSR VBAR_EL1 vbar;
   MOVI tmp 0;                                  (* the zero register *)
   MSR TPIDR_EL1 tmp;
   MOV_FROM_SP tmp;
   MSR SP_EL0 tmp;
   MOV_TO_SP tramp;
   MSR_SPSEL false].

Definition set_kstk_aarch64 (kstk_top : Z) (c : CpuA64) : CpuA64 := a_with_sys c (sput TPIDR_EL1 kstk_top (a_sys c)).

(** ** [exc_handler] *)

(** "Timer IRQ\n" and "Unhandled IRQ: " *)
Definition b_timer_irq : list Z := [0x54; 0x69; 0x6d; 0x65; 0x72; 0x20; 0x49; 0x52; 0x51; 0x0a].
Definition b_unhandled : list Z :=
  [0x55; 0x6e; 0x68; 0x61; 0x6e; 0x64; 0x6c; 0x65; 0x64; 0x20; 0x49; 0x52; 0x51; 0x3a; 0x20].

(** The decimal digits of a [u32], as [Display] prints them. *)
Fixpoint digits (n : nat) (x : Z) : list Z :=
  match n with
  | O => []
  | S n => (if x <? 10 then [] else digits n (x / 10)) ++ [0x30 + x mod 10]
  end.

Definition irq_msg (intid : Z) : list visible :=
  Out <$> (if intid =? 27 then b_timer_irq else b_unhandled ++ digits 10 intid ++ [0x0a]).

Section Handler.
Context `{Platform}.
Variable fuel : nat.

(** The assignment to [ref_frame!().x[0]] is to a field of a copy: the frame
    that is returned is the one that came in.  [intid] is what [intc::ack]
    returns. *)
Definition exc_handler_aarch64 (rd : Z -> outcome Z) (intid exc_type : Z) (frame : ExcFrame_aarch64)
    : outcome (result Z (ExcFrame_aarch64 * list visible)) :=
  if exc_type =? 0 then Panic
  else if exc_type =? 1 then
    Ret (Ok (frame, irq_msg intid ++ (if intid =? 27 then [TimerSet 1000] else []) ++ [EndIntr intid]))
  else if (4 <=? exc_type) && (exc_type <? 8) then Panic
  else if (exc_type =? 8) || (exc_type =? 12) then
    if Z.land (Z.shiftr (fa_esr frame) 26) 0x3f =? 0x15 then
      x0 ← arg_aarch64 frame 0; x1 ← arg_aarch64 frame 1; x2 ← arg_aarch64 frame 2;
      r ← kernel_requestee rd fuel x0 x1 x2;
      match r with
      | Returns v out => let copy := set_x frame 0 v in Ret (Ok (frame, Out <$> out))
      | Exits code => Ret (Err code)
      end
    else Panic
  else if (exc_type =? 9) || (exc_type =? 13) then
    Ret (Ok (frame, irq_msg intid ++ [EndIntr intid]))
  else Panic.

(** The compiled function: arguments in x0 and x1; [abi] is what it leaves
    in the registers and the memory besides the frame. *)
Variable mapped : Z -> bool.
Variable intid : Z.
Variable abi : CpuA64 -> CpuA64.

Definition readerA (m : Mem) (a : Z) : outcome Z := if mapped a then Ret (m a) else Panic.

Definition call_handler_aarch64 (c : CpuA64) : outcome (result Z CpuA64) :=
  let a := xget 1 c in
  '(f, ev) ←? exc_handler_aarch64 (readerA (a_mem c)) intid (xget 0 c) (read_frame_aarch64 (a_mem c) a);
  let c' := abi c in
  Ret (Ok (a_with_log (a_with_mem c' (write_frame_aarch64 (a_mem c') a f)) (a_log c ++ ev))).
End Handler.

(** The calling convention: the stack pointer in use is kept, and nothing
    touches the other one, PSTATE's mode or the system registers of the
    kernel. *)
Record abi_ok_aarch64 (abi : CpuA64 -> CpuA64) : Prop := {
  aa_sp : forall c, sp (abi c) = sp c;
  aa_sp1 : forall c, a_sp1 (abi c) = a_sp1 c;
  aa_mode : forall c, Z.land (a_pst (abi c)) 0x3ff = Z.land (a_pst c) 0x3ff;
  aa_tpidr : forall c, sget TPIDR_EL1 (a_sys (abi c)) = sget TPIDR_EL1 (a_sys c);
  aa_vbar : forall c, sget VBAR_EL1 (a_sys (abi c)) = sget VBAR_EL1 (a_sys c)
}.
