(* ===== verification/A64Facts.v ===== *)
(** * A64Facts: running code over a frame

    A symbolic processor: the memory is the list of the words of one frame,
    reached through one base register.  [sym_run] turns a run of it, which is
    a computation, into a run of the processor. *)

From S2P Require Import Prelude Bytes Memory A64.

(** ** The words of a frame in memory *)

Definition lo64 (x : Z) : Z := x mod 2 ^ 64.
Definition hi64 (x : Z) : Z := x / 2 ^ 64.
Definition join64 (lo hi : Z) : Z := lo + 2 ^ 64 * hi.
Definition is_u128 (x : Z) : Prop := 0 <= x < 2 ^ 128.

Lemma join_halves x : join64 (lo64 x) (hi64 x) = x.
Proof. unfold join64, lo64, hi64. pose proof (Z.div_mod x (2 ^ 64) ltac:(lia)). lia. Qed.
Lemma lo64_word x : is_word (lo64 x).
Proof. apply Z.mod_pos_bound. lia. Qed.
Lemma hi64_word x : is_u128 x -> is_word (hi64 x).
Proof.
  unfold is_u128, hi64, is_word. intros Hx. split; [apply Z.div_pos; lia|apply Z.div_lt_upper_bound; lia].
Qed.
Lemma join_u128 a b : is_word a -> is_word b -> is_u128 (join64 a b).
Proof. unfold is_word, is_u128, join64. lia. Qed.

Lemma reads_insert m a ws i v :
  reads m a ws -> (i < length ws)%nat -> is_word v -> reads (store 8 m (a + 8 * Z.of_nat i) v) a (<[i := v]> ws).
Proof.
  intros Hr Hi Hv j w Hj. apply list_lookup_insert_Some in Hj as [(<- & <- & _)|(Hne & Hj)].
  - rewrite load_store by lia. apply Z.mod_small, Hv.
  - rewrite load_store_other by lia. by apply Hr.
Qed.

Lemma reads_insert16 m a ws i v :
  reads m a ws -> (S i < length ws)%nat -> is_u128 v ->
  reads (store 16 m (a + 8 * Z.of_nat i) v) a (<[S i := hi64 v]> (<[i := lo64 v]> ws)).
Proof.
  intros Hr Hi Hv j w Hj. apply list_lookup_insert_Some in Hj as [(<- & <- & _)|(Hne & Hj)].
  - replace (a + 8 * Z.of_nat (S i)) with (a + 8 * Z.of_nat i + Z.of_nat 8) by lia.
    rewrite load_store_hi by lia. apply Z.mod_small, (hi64_word v Hv).
  - apply list_lookup_insert_Some in Hj as [(<- & <- & _)|(Hne' & Hj)].
    + by rewrite load_store by lia.
    + rewrite load_store_other by lia. by apply Hr.
Qed.

Lemma reads_nth m a ws i : reads m a ws -> (i < length ws)%nat -> load 8 m (a + 8 * Z.of_nat i) = nth i ws 0.
Proof.
  intros Hr Hi. destruct (lookup_lt_is_Some_2 ws i Hi) as [w Hw]. rewrite (Hr i w Hw).
  by rewrite nth_lookup, Hw.
Qed.

Lemma reads_nth16 m a ws i :
  reads m a ws -> (S i < length ws)%nat -> load 16 m (a + 8 * Z.of_nat i) = join64 (nth i ws 0) (nth (S i) ws 0).
Proof.
  intros Hr Hi. change 16%nat with (8 + 8)%nat. rewrite load_split.
  rewrite (reads_nth m a ws i Hr) by lia.
  replace (a + 8 * Z.of_nat i + Z.of_nat 8) with (a + 8 * Z.of_nat (S i)) by lia.
  by rewrite (reads_nth m a ws (S i) Hr) by lia.
Qed.

(** What is in memory anyway. *)
Definition words_at (m : Mem) (a : Z) (n : nat) : list Z := (fun i => load 8 m (a + 8 * i)) <$> seqZ 0 (Z.of_nat n).
Lemma reads_words_at m a n : reads m a (words_at m a n).
Proof.
  intros i w Hi. apply list_lookup_fmap_Some in Hi as (j & -> & Hj). apply lookup_seqZ in Hj as [-> _].
  do 2 f_equal; lia.
Qed.
Lemma words_at_ok m a n : (forall x, is_byte (m x)) -> Forall is_word (words_at m a n).
Proof. intros Hm. apply Forall_fmap, Forall_true. intros i. apply (load_bound 8 m _ Hm). Qed.

(** ** Registers in their width *)

Record a_ok (c : CpuA64) : Prop := {
  ok_x : Forall is_word (a_x c);
  ok_q : Forall is_u128 (a_q c);
  ok_sys : forall s, is_word (sget s (a_sys c));
  ok_sp1 : is_word (a_sp1 c)
}.

Lemma nth_word l i : Forall is_word l -> is_word (nth i l 0).
Proof.
  intros Hl. rewrite nth_lookup. destruct (l !! i) as [b|] eqn:Hi; [|by vm_compute].
  by apply (Forall_lookup_1 _ _ _ _ Hl Hi).
Qed.
Lemma nth_u128 l i : Forall is_u128 l -> is_u128 (nth i l 0).
Proof.
  intros Hl. rewrite nth_lookup. destruct (l !! i) as [b|] eqn:Hi; [|by vm_compute].
  by apply (Forall_lookup_1 _ _ _ _ Hl Hi).
Qed.
Lemma ok_xset r v c : a_ok c -> is_word v -> a_ok (xset r v c).
Proof. intros [] Hv. constructor; try done. by apply Forall_insert. Qed.
Lemma ok_qset r v c : a_ok c -> is_u128 v -> a_ok (qset r v c).
Proof. intros [] Hv. constructor; try done. by apply Forall_insert. Qed.
Lemma ok_msr s v c : a_ok c -> is_word v -> a_ok (a_with_sys c (sput s v (a_sys c))).
Proof.
  intros [H1 H2 H3 H4] Hv. constructor; try done. intros s'. specialize (H3 s'). cbn.
  destruct (a_sys c). by destruct s, s'.
Qed.

Lemma sget_sput s v r : sget s (sput s v r) = v.
Proof. destruct r. by destruct s. Qed.
Lemma sget_sput_ne s s' v r : s <> s' -> sget s (sput s' v r) = sget s r.
Proof. intros Hs. destruct r. by destruct s, s'. Qed.

(** ** The symbolic processor *)

Definition base_eqb (b b' : base) : bool :=
  match b, b' with SP, SP => true | X r, X r' => (r =? r')%nat | _, _ => false end.
Definition keeps (b : base) (r : nat) : bool := match b with X r' => negb (r =? r')%nat | SP => true end.
Definition word_at (off : Z) : nat := Z.to_nat (Z.shiftr off 3).
Definition in_frame (b b' : base) (off n : Z) (ws : list Z) : bool :=
  base_eqb b b' && (Z.land off 7 =? 0) && (0 <=? off) && (off + n <=? 8 * Z.of_nat (length ws)).

Definition sym (b : base) (i : ainstr) (s : CpuA64 * list Z) : option (CpuA64 * list Z) :=
  let '(c, ws) := s in
  match i with
  | STP r1 r2 b' off =>
      if in_frame b b' off 16 ws then Some (c, <[S (word_at off) := xget r2 c]> (<[word_at off := xget r1 c]> ws)) else None
  | STR r b' off => if in_frame b b' off 8 ws then Some (c, <[word_at off := xget r c]> ws) else None
  | STPQ q1 q2 b' off =>
      if in_frame b b' off 32 ws then
        let k := word_at off in
        Some (c, <[S (S (S k)) := hi64 (qget q2 c)]> (<[S (S k) := lo64 (qget q2 c)]>
                  (<[S k := hi64 (qget q1 c)]> (<[k := lo64 (qget q1 c)]> ws))))
      else None
  | LDP r1 r2 b' off =>
      if in_frame b b' off 16 ws && keeps b r1 && keeps b r2
      then Some (xset r2 (nth (S (word_at off)) ws 0) (xset r1 (nth (word_at off) ws 0) c), ws) else None
  | LDR r b' off =>
      if in_frame b b' off 8 ws && keeps b r then Some (xset r (nth (word_at off) ws 0) c, ws) else None
  | LDPQ q1 q2 b' off =>
      if in_frame b b' off 32 ws then
        let k := word_at off in
        Some (qset q2 (join64 (nth (S (S k)) ws 0) (nth (S (S (S k))) ws 0))
               (qset q1 (join64 (nth k ws 0) (nth (S k) ws 0)) c), ws)
      else None
  | MRS r s => if keeps b r then Some (xset r (sget s (a_sys c)) c, ws) else None
  | MSR s r =>
      match b, s with
      | SP, SP_EL0 => None
      | _, _ => Some (a_with_sys c (sput s (xget r c) (a_sys c)), ws)
      end
  | _ => None
  end.

Fixpoint syms (b : base) (l : list ainstr) (s : CpuA64 * list Z) : option (CpuA64 * list Z) :=
  match l with
  | [] => Some s
  | i :: l => match sym b i s with Some s => syms b l s | None => None end
  end.

(** The base register holds the address of the frame. *)
Definition is_at (b : base) (a : Z) (c : CpuA64) : Prop :=
  match b with SP => sp c = a /\ a mod 16 = 0 | X r => xget r c = a end.

Lemma is_at_xset b a r v c : is_at b a c -> keeps b r = true -> is_at b a (xset r v c).
Proof.
  destruct b as [|r']; cbn; [done|]. intros Hx Hr. apply negb_true_iff, Nat.eqb_neq in Hr.
  unfold xget, xset in *. cbn. rewrite nth_lookup, list_lookup_insert_ne by done. by rewrite <- nth_lookup.
Qed.
Lemma is_at_qset b a r v c : is_at b a c -> is_at b a (qset r v c).
Proof. by destruct b. Qed.

Section Sym.
Variable callee : CpuA64 -> outcome (result Z CpuA64).
Variables (b : base) (a : Z).

Lemma in_frame_ok b' off n ws :
  in_frame b b' off n ws = true -> b' = b /\ 0 <= off /\ off = 8 * Z.of_nat (word_at off) /\ off + n <= 8 * Z.of_nat (length ws).
Proof.
  unfold in_frame. intros Hf. rewrite !andb_true_iff in Hf. destruct Hf as [[[Hb Hm] Hlo] Hhi]. zbool.
  split_and!; [|done| |done].
  - destruct b as [|r], b' as [|r']; cbn in Hb; try done. by apply Nat.eqb_eq in Hb as ->.
  - unfold word_at. rewrite Z.shiftr_div_pow2 by lia. change (2 ^ 3) with 8.
    change 7 with (Z.ones 3) in Hm. rewrite Z.land_ones in Hm by lia. change (2 ^ 3) with 8 in Hm.
    assert (0 <= off / 8) by (apply Z.div_pos; lia). pose proof (Z.div_mod off 8 ltac:(lia)). lia.
Qed.

Lemma with_addr_at off c m k :
  is_at b a c -> 0 <= a + off < 2 ^ 64 -> with_addr b off (a_with_mem c m) k = Ret (Ok (k (a + off))).
Proof.
  destruct b as [|r]; cbn [is_at with_addr].
  - intros [Hs Ha] Ho. change (sp (a_with_mem c m)) with (sp c). rewrite Hs, Ha.
    unfold uwrap_add. by rewrite Z.mod_small.
  - intros Hx Ho. change (xget r (a_with_mem c m)) with (xget r c). rewrite Hx.
    unfold uwrap_add. by rewrite Z.mod_small.
Qed.

Record sound (c : CpuA64) (ws : list Z) (m : Mem) : Prop := {
  so_at : is_at b a c;
  so_ok : a_ok c;
  so_ws : Forall is_word ws;
  so_reads : reads m a ws
}.

Hypothesis Ha : 0 <= a.

Lemma sym_step i c ws c' ws' m :
  sym b i (c, ws) = Some (c', ws') -> a + 8 * Z.of_nat (length ws) < 2 ^ 64 -> sound c ws m ->
  exists m', stepA callee i (a_with_mem c m) = Ret (Ok (a_with_mem c' m')) /\ sound c' ws' m' /\
    length ws' = length ws /\ same_outside a (a + 8 * Z.of_nat (length ws)) m m'.
Proof.
  intros Hsym Hb [Hat Hok Hws Hr]. destruct i; cbn [sym] in Hsym; try done.
  - destruct (in_frame b b0 off 16 ws) eqn:Hf; [|done]. injection Hsym as <- <-.
    apply in_frame_ok in Hf as (-> & Hlo & He & Hhi). cbn [stepA]. rewrite with_addr_at by (done || lia).
    eexists. split; [done|]. split_and!; [|by rewrite !length_insert|].
    + assert (is_word (xget r1 c)) by (apply nth_word, Hok). assert (is_word (xget r2 c)) by (apply nth_word, Hok).
      constructor; [done|done|by repeat apply Forall_insert|].
      replace (a + off + 8) with (a + 8 * Z.of_nat (S (word_at off))) by lia. rewrite He at 1.
      apply reads_insert; [|rewrite length_insert; lia|done]. apply reads_insert; [done|lia|done].
    + eapply same_trans; apply same_store; lia.
  - destruct (in_frame b b0 off 8 ws) eqn:Hf; [|done]. injection Hsym as <- <-.
    apply in_frame_ok in Hf as (-> & Hlo & He & Hhi). cbn [stepA]. rewrite with_addr_at by (done || lia).
    eexists. split; [done|]. split_and!; [|by rewrite !length_insert|].
    + assert (is_word (xget r c)) by (apply nth_word, Hok).
      constructor; [done|done|by repeat apply Forall_insert|]. rewrite He at 1. apply reads_insert; [done|lia|done].
    + apply same_store; lia.
  - destruct (in_frame b b0 off 16 ws) eqn:Hf; [|done]. destruct (keeps b r1) eqn:Hk1; [|done].
    destruct (keeps b r2) eqn:Hk2; [|done]. injection Hsym as <- <-.
    apply in_frame_ok in Hf as (-> & Hlo & He & Hhi). cbn [stepA]. rewrite with_addr_at by (done || lia).
    exists m. replace (a + off + 8) with (a + 8 * Z.of_nat (S (word_at off))) by lia.
    replace (a + off) with (a + 8 * Z.of_nat (word_at off)) by lia. cbn [a_mem a_with_mem].
    rewrite !(reads_nth m a ws) by (done || lia). split; [done|]. split_and!; [|done|apply same_refl].
    constructor; [by repeat apply is_at_xset| |done|done]. repeat apply ok_xset; try done; by apply nth_word.
  - destruct (in_frame b b0 off 8 ws) eqn:Hf; [|done]. destruct (keeps b r) eqn:Hk1; [|done]. injection Hsym as <- <-.
    apply in_frame_ok in Hf as (-> & Hlo & He & Hhi). cbn [stepA]. rewrite with_addr_at by (done || lia).
    exists m. replace (a + off) with (a + 8 * Z.of_nat (word_at off)) by lia. cbn [a_mem a_with_mem].
    rewrite !(reads_nth m a ws) by (done || lia). split; [done|]. split_and!; [|done|apply same_refl].
    constructor; [by apply is_at_xset| |done|done]. apply ok_xset; [done|by apply nth_word].
  - destruct (in_frame b b0 off 32 ws) eqn:Hf; [|done]. injection Hsym as <- <-.
    apply in_frame_ok in Hf as (-> & Hlo & He & Hhi). cbn [stepA]. rewrite with_addr_at by (done || lia).
    assert (is_u128 (qget q1 c)) as H1 by (apply nth_u128, Hok). assert (is_u128 (qget q2 c)) as H2 by (apply nth_u128, Hok).
    eexists. split; [done|]. split_and!; [|by rewrite !length_insert|].
    + constructor; [done|done| |].
      * repeat apply Forall_insert; try done; first [apply lo64_word|by apply hi64_word].
      * replace (a + off + 16) with (a + 8 * Z.of_nat (S (S (word_at off)))) by lia. rewrite He at 1.
        apply reads_insert16; [|rewrite !length_insert; lia|done]. apply reads_insert16; [done|lia|done].
    + eapply same_trans; apply same_store; lia.
  - destruct (in_frame b b0 off 32 ws) eqn:Hf; [|done]. injection Hsym as <- <-.
    apply in_frame_ok in Hf as (-> & Hlo & He & Hhi). cbn [stepA]. rewrite with_addr_at by (done || lia).
    exists m. replace (a + off + 16) with (a + 8 * Z.of_nat (S (S (word_at off)))) by lia.
    replace (a + off) with (a + 8 * Z.of_nat (word_at off)) by lia. cbn [a_mem a_with_mem].
    rewrite !(reads_nth16 m a ws) by (done || lia). split; [done|]. split_and!; [|done|apply same_refl].
    constructor; [by repeat apply is_at_qset| |done|done].
    repeat apply ok_qset; try done; apply join_u128; by apply nth_word.
  - destruct (keeps b r) eqn:Hk; [|done]. injection Hsym as <- <-. exists m. split; [done|].
    split_and!; [|done|apply same_refl]. constructor; [by apply is_at_xset| |done|done]. apply ok_xset; [done|apply Hok].
  - assert (c' = a_with_sys c (sput s (xget r c) (a_sys c)) /\ ws' = ws /\ (b = SP -> s <> SP_EL0)) as (-> & -> & Hs).
    { destruct b, s; try done; injection Hsym as <- <-; (split_and!; [done|done|done]). }
    exists m. split; [done|]. split_and!; [|done|apply same_refl].
    constructor; [|apply ok_msr; [done|by apply nth_word, Hok]|done|done].
    destruct b as [|r']; cbn in *; [|done]. revert Hat. unfold sp. cbn.
    destruct (Z.odd (a_pst c)); [done|]. specialize (Hs eq_refl). destruct (a_sys c). by destruct s.
Qed.

Lemma sym_run l c ws c' ws' m :
  syms b l (c, ws) = Some (c', ws') -> a + 8 * Z.of_nat (length ws) < 2 ^ 64 -> sound c ws m ->
  exists m', execA callee l (a_with_mem c m) = Ret (Ok (a_with_mem c' m')) /\ sound c' ws' m' /\
    length ws' = length ws /\ same_outside a (a + 8 * Z.of_nat (length ws)) m m'.
Proof.
  revert c ws m. induction l as [|i l IH]; intros c ws m Hs Hb Hso; cbn [syms] in Hs.
  { injection Hs as <- <-. exists m. split_and!; [done|done|done|apply same_refl]. }
  destruct (sym b i (c, ws)) as [[c1 ws1]|] eqn:H1; [|done].
  destruct (sym_step i c ws c1 ws1 m H1 Hb Hso) as (m1 & He & Hso1 & Hl1 & Hs1).
  rewrite execA_cons, He, Ok_try.
  destruct (IH c1 ws1 m1 Hs) as (m' & He' & Hso' & Hl' & Hs'); [lia|done|].
  exists m'. split_and!; [done|done|lia|]. rewrite Hl1 in Hs'. by eapply same_trans.
Qed.
End Sym.
