(* ===== verification/A64Thms.v ===== *)
(** * A64Thms: exceptions on AArch64 from end to end

    The vectors build the frame that [exc_handler] is given, and the code
    behind the call puts the frame back into the registers. *)

From S2P Require Import Prelude Bytes Memory Rvm Kreq A64 A64Exc A64Facts.

(** A list of known length, element by element. *)
Ltac explode l :=
  repeat (let x := fresh "v" in destruct l as [|x l]; [discriminate|]); destruct l as [|? l]; [|discriminate].

(** ** The symbolic runs *)

Definition save_sym : list ainstr :=
  stps 13 4 (X 1) 32 ++
  [STR 30 (X 1) 240; MRS 2 ELR_EL1; MRS 3 SPSR_EL1; STP 2 3 (X 1) 256; MRS 2 ESR_EL1; MRS 3 FAR_EL1; STP 2 3 (X 1) 272] ++
  stpqs (X 1) ++ [MRS 2 FPCR; STR 2 (X 1) 800; MRS 2 FPSR; STR 2 (X 1) 808].

Lemma save_parts : exc_entry_save = save_sym ++ [MSR SP_EL0 1; MSR_SPSEL false; MOV_FROM_SP 1].
Proof. reflexivity. Qed.

(** The words of a frame, with the halves of the vector registers folded. *)
Definition words_of (f : ExcFrame_aarch64) : list Z :=
  fa_x f ++ [fa_elr f; fa_spsr f; fa_esr f; fa_far f] ++ (fa_q f ≫= (fun x => [lo64 x; hi64 x])) ++ [fa_fpcr f; fa_fpsr f].
Lemma words_of_frame f : frame_words_aarch64 f = words_of f.
Proof. reflexivity. Qed.

(** The frame of a processor at the entry, with the registers that the stub
    has saved. *)
Definition frame_at (head xs : list Z) (usp : Z) (c : CpuA64) : ExcFrame_aarch64 :=
  let s := a_sys c in
  mkExcFrameA (head ++ xs ++ [usp]) (r_elr s) (r_spsr s) (r_esr s) (r_far s) (a_q c) (r_fpcr s) (r_fpsr s).

Lemma sym_save n a y2 y3 x0 x1 x2 x3 xs usp j1 j2 c :
  length xs = 27%nat -> length (a_q c) = 32%nat -> length j1 = 27%nat -> length j2 = 70%nat ->
  a_x c = n :: a :: y2 :: y3 :: xs ->
  syms (X 1) save_sym (c, [x0; x1; x2; x3] ++ j1 ++ [usp] ++ j2) =
    Some (a_with_x c (n :: a :: r_fpsr (a_sys c) :: r_far (a_sys c) :: xs),
          words_of (frame_at [x0; x1; x2; x3] xs usp c)).
Proof.
  intros H1 H2 H3 H4 Hx. destruct c as [x q s s1 ps p m l]. cbn in Hx, H2. subst x. destruct s.
  explode xs. explode q. explode j1. explode j2. lazy -[lo64 hi64]. reflexivity.
Qed.

Definition rstr1_sym (b : base) : list ainstr :=
  [LDP 2 3 b 256; MSR ELR_EL1 2; MSR SPSR_EL1 3; LDR 2 b 800; MSR FPCR 2; LDR 2 b 808; MSR FPSR 2] ++
  ldpqs b ++ [LDR 2 b 264].
Definition rstr2_sym : list ainstr :=
  [LDR 10 (X 9) 248; MSR SP_EL0 10] ++ ldps 4 0 (X 9) 0 ++ [LDR 8 (X 9) 64] ++ ldps 10 10 (X 9) 80 ++ [LDR 30 (X 9) 240].

Lemma rstr_parts :
  exc_entry_rstr = rstr1_sym SP ++ [TST 2 12; MOV_FROM_SP 9; MSR_SPSEL true] ++ rstr2_sym ++ [LDR 9 (X 9) 72].
Proof. reflexivity. Qed.

(** The control registers of a frame. *)
Definition frame_sys (f : ExcFrame_aarch64) (s : SysRegs) : SysRegs :=
  mkSys (r_sp_el0 s) (fa_elr f) (fa_spsr f) (r_esr s) (r_far s) (r_tpidr s) (fa_fpcr f) (fa_fpsr f) (r_vbar s).

Definition frame_len (f : ExcFrame_aarch64) : Prop := length (fa_x f) = 32%nat /\ length (fa_q f) = 32%nat.

Lemma sym_rstr1 f c :
  frame_len f -> length (a_x c) = 31%nat -> length (a_q c) = 32%nat ->
  syms SP (rstr1_sym SP) (c, words_of f) =
    Some (mkA64 (take 2 (a_x c) ++ [fa_spsr f; fa_spsr f] ++ drop 4 (a_x c)) ((fun x => join64 (lo64 x) (hi64 x)) <$> fa_q f)
            (frame_sys f (a_sys c)) (a_sp1 c) (a_pst c) (a_pc c) (a_mem c) (a_log c), words_of f).
Proof.
  intros [H1 H2] H3 H4. destruct f as [fx e1 e2 e3 e4 fq e5 e6], c as [x q s s1 ps p m l]. cbn in *. destruct s.
  explode fx. explode fq. explode x. explode q. lazy -[lo64 hi64 join64]. reflexivity.
Qed.

(** The last load puts x9 back, which held the address of the frame. *)
Definition but_x9 (f : ExcFrame_aarch64) (y : Z) : list Z := take 9 (fa_x f) ++ [y] ++ drop 10 (take 31 (fa_x f)).

Lemma sym_rstr2 f c :
  frame_len f -> length (a_x c) = 31%nat ->
  syms (X 9) rstr2_sym (c, words_of f) =
    Some (mkA64 (but_x9 f (nth 9 (a_x c) 0)) (a_q c)
            (sput SP_EL0 (nth 31 (fa_x f) 0) (a_sys c)) (a_sp1 c) (a_pst c) (a_pc c) (a_mem c) (a_log c), words_of f).
Proof.
  intros [H1 H2] H3. destruct f as [fx e1 e2 e3 e4 fq e5 e6], c as [x q s s1 ps p m l]. cbn in *. destruct s.
  explode fx. explode fq. explode x. lazy -[lo64 hi64 join64]. reflexivity.
Qed.

(** ** Well-formed frames *)

Record frame_ok_aarch64 (f : ExcFrame_aarch64) : Prop := {
  ff_len : frame_len f;
  ff_x : Forall is_word (fa_x f);
  ff_q : Forall is_u128 (fa_q f);
  ff_ctrl : Forall is_word [fa_elr f; fa_spsr f; fa_esr f; fa_far f; fa_fpcr f; fa_fpsr f]
}.

Lemma words_of_len f : frame_len f -> length (words_of f) = 102%nat.
Proof.
  intros [H1 H2]. destruct f as [fx e1 e2 e3 e4 fq e5 e6]. cbn in H1, H2. explode fx. explode fq. reflexivity.
Qed.

Lemma words_of_ok f : frame_ok_aarch64 f -> Forall is_word (words_of f).
Proof.
  intros [_ Hx Hq Hc]. unfold words_of. rewrite !Forall_cons in Hc. destruct Hc as (? & ? & ? & ? & ? & ? & _).
  rewrite !Forall_app. split_and!; [done| | |]; [repeat (apply Forall_cons_2; [done|]); apply Forall_nil_2| |repeat (apply Forall_cons_2; [done|]); apply Forall_nil_2].
  apply Forall_bind. eapply Forall_impl; [exact Hq|]. intros x Hx'.
  apply Forall_cons_2; [apply lo64_word|]. apply Forall_cons_2; [by apply hi64_word|apply Forall_nil_2].
Qed.

Lemma join_all (q : list Z) : (fun x => join64 (lo64 x) (hi64 x)) <$> q = q.
Proof. induction q as [|x q IH]; [done|]. cbn. by rewrite join_halves, IH. Qed.

Lemma if_swap_bit (b : bool) x i : Z.testbit x i = false -> Z.testbit (if b then x else 0) i = false.
Proof. destruct b; [done|intros _; apply Z.bits_0]. Qed.

Lemma tst_flags_low v p i : 0 <= i < 28 -> Z.testbit (tst_flags v p) i = Z.testbit p i.
Proof.
  intros Hi. unfold tst_flags. rewrite !Z.lor_spec, Z.land_spec. change 0xfffffff with (Z.ones 28).
  rewrite Z.ones_spec_low, andb_true_r by lia.
  assert (forall k, 28 <= k -> Z.testbit (2 ^ k) i = false) as Hp by (intros; apply Z.pow2_bits_false; lia).
  rewrite !if_swap_bit by (apply Hp; lia). by rewrite !orb_false_r.
Qed.

Lemma a_mem_eta c : a_with_mem c (a_mem c) = c.
Proof. by destruct c. Qed.

Lemma put_back_nth f y : frame_len f -> nth 9 (but_x9 f y) 0 = y.
Proof.
  intros [H _]. unfold but_x9. assert (length (take 9 (fa_x f)) = 9%nat) as Hl by (rewrite length_take; lia).
  rewrite app_nth2 by lia. by rewrite Hl.
Qed.
Lemma put_back f y : frame_len f -> <[9%nat := nth 9 (words_of f) 0]> (but_x9 f y) = take 31 (fa_x f).
Proof.
  intros [H _]. unfold words_of, but_x9. rewrite app_nth1 by lia. destruct f as [fx e1 e2 e3 e4 fq e5 e6]. cbn [fa_x] in *.
  clear -H. explode fx. reflexivity.
Qed.

(** One instruction, on a processor that is a record of its parts. *)
Ltac astep := rewrite execA_cons; cbn [stepA with_addr];
  unfold sp, set_sp, spsel, xget, xset, a_with_x, a_with_mem, a_with_sp1, a_with_sys, a_with_ctrl;
  cbn [a_pst a_x a_q a_sys a_sp1 a_pc a_mem a_log nth insert list_insert sget].

Section Runs.
Variable callee : CpuA64 -> outcome (result Z CpuA64).
#[local] Abbreviation execA := (execA callee).

Lemma mid_run c :
  spsel c = false -> execA [TST 2 12; MOV_FROM_SP 9; MSR_SPSEL true] c =
    Ret (Ok (mkA64 (<[9%nat := sget SP_EL0 (a_sys c)]> (a_x c)) (a_q c) (a_sys c) (a_sp1 c)
      (Z.lor (tst_flags (Z.land (xget 2 c) 12) (a_pst c)) 1) (a_pc c) (a_mem c) (a_log c))).
Proof.
  intros Hs. rewrite !execA_cons. cbn [stepA]. rewrite Ok_try, execA_cons. cbn [stepA]. rewrite Ok_try, execA_cons. cbn [stepA].
  rewrite Ok_try. unfold sp, spsel in *. cbn [a_pst a_with_ctrl]. by rewrite tst_flags_low, Hs by lia.
Qed.

(** The last loads: SP_EL0 and the general registers. *)
Definition with_regs (f : ExcFrame_aarch64) (c : CpuA64) (m : Mem) : CpuA64 :=
  mkA64 (take 31 (fa_x f)) (a_q c) (sput SP_EL0 (nth 31 (fa_x f) 0) (a_sys c)) (a_sp1 c) (a_pst c) (a_pc c) m (a_log c).

Lemma back_run f c a :
  frame_ok_aarch64 f -> a_ok c -> length (a_x c) = 31%nat -> xget 9 c = a -> 0 <= a -> a + 816 < 2 ^ 64 ->
  reads (a_mem c) a (words_of f) ->
  exists m, execA (rstr2_sym ++ [LDR 9 (X 9) 72]) c = Ret (Ok (with_regs f c m)) /\
    reads m a (words_of f) /\ same_outside a (a + 816) (a_mem c) m.
Proof.
  intros Hf Hok Hlx Hx9 Ha Hb Hr. pose proof (words_of_len f (ff_len _ Hf)) as Hwl.
  destruct (sym_run callee (X 9) a Ha _ c (words_of f) _ _ (a_mem c) (sym_rstr2 f c (ff_len _ Hf) Hlx)) as (m & Hrun & Hs & _ & Hm);
    [lia|by constructor; [| |apply words_of_ok|]|].
  rewrite Hwl in Hm. destruct Hs as [_ _ _ Hrd]. exists m. split_and!; [|done|exact Hm].
  rewrite a_mem_eta in Hrun. rewrite execA_app, Hrun, Ok_try, execA_cons. cbn [stepA with_addr].
  set (c3 := mkA64 (but_x9 _ _) _ _ _ _ _ _ _).
  assert (xget 9 (a_with_mem c3 m) = a) as ->.
  { unfold xget in *. cbn [a_x a_with_mem c3]. rewrite Hx9. by apply put_back_nth, Hf. }
  rewrite wrap_add_small, Ok_try by lia. change (a + 72) with (a + 8 * Z.of_nat 9). cbn [a_mem a_with_mem].
  rewrite (reads_nth m a _ 9 Hrd) by (rewrite Hwl; lia). unfold xset, c3, a_with_x, a_with_mem.
  cbn [a_x a_q a_sys a_sp1 a_pst a_pc a_log a_mem A64.execA]. by rewrite put_back by apply Hf.
Qed.

(** From a frame to the registers: the code behind the call. *)
Definition restored (f : ExcFrame_aarch64) (c : CpuA64) (m : Mem) : CpuA64 :=
  mkA64 (take 31 (fa_x f)) (fa_q f) (sput SP_EL0 (nth 31 (fa_x f) 0) (frame_sys f (a_sys c))) (a_sp1 c)
    (Z.lor (tst_flags (Z.land (fa_spsr f) 12) (a_pst c)) 1) (a_pc c) m (a_log c).

Lemma ok_frame_regs x f s c :
  frame_ok_aarch64 f -> a_ok c -> Forall is_word x -> a_sys c = s ->
  forall s1 p pc m l, s1 = a_sp1 c -> a_ok (mkA64 x (fa_q f) (frame_sys f s) s1 p pc m l).
Proof.
  intros Hf [_ _ Hs Hs1] Hx <- s1 p pc m l ->. constructor; [done|apply Hf| |done].
  pose proof (ff_ctrl _ Hf) as Hc. rewrite !Forall_cons in Hc. destruct Hc as (? & ? & ? & ? & ? & ? & _).
  intros r. specialize (Hs r). by destruct r.
Qed.

Lemma rstr_run f c a :
  frame_ok_aarch64 f -> a_ok c -> length (a_x c) = 31%nat -> length (a_q c) = 32%nat ->
  spsel c = false -> sget SP_EL0 (a_sys c) = a -> a mod 16 = 0 -> 0 <= a -> a + 816 < 2 ^ 64 ->
  reads (a_mem c) a (words_of f) ->
  exists m, execA exc_entry_rstr c = Ret (Ok (restored f c m)) /\ same_outside a (a + 816) (a_mem c) m.
Proof.
  intros Hf Hok Hlx Hlq Hsel Hsp Hal Ha Hb Hr. pose proof (words_of_len f (ff_len _ Hf)) as Hwl.
  rewrite rstr_parts, execA_app.
  destruct (sym_run callee SP a Ha _ c (words_of f) _ _ (a_mem c) (sym_rstr1 f c (ff_len _ Hf) Hlx Hlq))
    as (m1 & Hr1 & Hs1 & _ & Hm1);
    [lia|constructor; [by split; [unfold sp; rewrite Hsel|]|done|by apply words_of_ok|done]|].
  rewrite a_mem_eta in Hr1. rewrite Hr1, Ok_try, execA_app, join_all. rewrite join_all in Hs1. rewrite Hwl in Hm1.
  set (x1 := take 2 (a_x c) ++ _) in *. set (c1 := a_with_mem _ m1).
  assert (length x1 = 31%nat) as Hl1 by (unfold x1; rewrite !length_app, length_take, length_drop, Hlx; done).
  rewrite mid_run, Ok_try by done. set (c2 := mkA64 _ _ _ _ _ _ _ _).
  assert (xget 2 c1 = fa_spsr f) as Hx2.
  { unfold xget, c1, x1. cbn [a_x a_with_mem]. rewrite app_nth2; rewrite length_take, Hlx; [done|cbn; lia]. }
  destruct (back_run f c2 a Hf) as (m2 & H2 & _ & Hm2); [| | |exact Ha|exact Hb| |].
  - unfold c2, c1. cbn [a_with_mem a_x a_q a_sys a_sp1 a_pst a_pc a_mem a_log]. apply (ok_frame_regs _ f _ c); [exact Hf|exact Hok| |reflexivity..].
    apply Forall_insert; [apply Hs1|]. cbn [sget frame_sys r_sp_el0]. cbn in Hsp. unfold is_word. lia.
  - unfold c2, c1. cbn. by rewrite length_insert.
  - unfold c2, c1, xget. cbn. rewrite nth_lookup, list_lookup_insert_eq; [done|lia].
  - apply Hs1.
  - exists m2. split; [|by eapply same_trans]. rewrite H2. unfold with_regs, restored. cbn [c2 c1 a_with_mem a_q a_sys a_sp1 a_pst a_pc a_log].
    by rewrite Hx2.
Qed.

(** From the registers to a frame: the code before the call. *)
Definition saved (n a : Z) (xs : list Z) (c : CpuA64) (m : Mem) : CpuA64 :=
  mkA64 (n :: a :: r_fpsr (a_sys c) :: r_far (a_sys c) :: xs) (a_q c) (sput SP_EL0 a (a_sys c)) (a_sp1 c)
    (Z.ldiff (a_pst c) 1) (a_pc c) m (a_log c).

Lemma ldiff_odd p : Z.testbit (Z.ldiff p 1) 0 = false.
Proof. by rewrite Z.ldiff_spec, andb_false_r. Qed.

Lemma save_run n a y2 y3 x0 x1 x2 x3 xs usp c :
  length xs = 27%nat -> length (a_q c) = 32%nat -> a_x c = n :: a :: y2 :: y3 :: xs -> a_ok c ->
  0 <= a -> a + 816 < 2 ^ 64 -> Forall is_word [x0; x1; x2; x3; usp] ->
  (forall x, is_byte (a_mem c x)) -> reads (a_mem c) a [x0; x1; x2; x3] -> load 8 (a_mem c) (a + 248) = usp ->
  exists m, execA exc_entry_save c = Ret (Ok (saved n a xs c m)) /\
    reads m a (words_of (frame_at [x0; x1; x2; x3] xs usp c)) /\ same_outside a (a + 816) (a_mem c) m.
Proof.
  intros Hl Hq Hx Hok Ha Hb Hw Hby Hr Hu. set (j1 := words_at (a_mem c) (a + 32) 27). set (j2 := words_at (a_mem c) (a + 256) 70).
  assert (length j1 = 27%nat /\ length j2 = 70%nat) as [Hj1 Hj2] by (unfold j1, j2, words_at; by rewrite !length_fmap, !length_seqZ).
  pose proof (sym_save n a y2 y3 x0 x1 x2 x3 xs usp j1 j2 c Hl Hq Hj1 Hj2 Hx) as Hsym.
  assert (length ([x0; x1; x2; x3] ++ j1 ++ [usp] ++ j2) = 102%nat) as Hlen by (rewrite !length_app, Hj1, Hj2; done).
  rewrite save_parts, execA_app.
  destruct (sym_run callee (X 1) a Ha save_sym c _ _ _ (a_mem c) Hsym) as (m & Hrun & Hs & _ & Hm); [lia| |].
  { rewrite !Forall_cons in Hw. destruct Hw as (? & ? & ? & ? & ? & _).
    constructor; [cbn [is_at]; unfold xget; by rewrite Hx|done| |].
    - rewrite !Forall_app. split_and!; [repeat (apply Forall_cons_2; [done|]); apply Forall_nil_2|by apply words_at_ok|
        by apply Forall_singleton|by apply words_at_ok].
    - rewrite !reads_app. cbn [length]. rewrite Hj1. split_and!; [done|apply reads_words_at| |].
      + rewrite reads_cons. split; [rewrite <- Hu; f_equal; lia|apply reads_nil].
      + unfold j2. replace (a + 8 * Z.of_nat 4 + 8 * Z.of_nat 27 + 8 * Z.of_nat 1) with (a + 256) by lia. apply reads_words_at. }
  rewrite a_mem_eta in Hrun. rewrite Hrun, Ok_try, !execA_cons. cbn [stepA]. rewrite Ok_try, execA_cons. cbn [stepA].
  rewrite Ok_try, execA_cons. cbn [stepA]. rewrite Ok_try. exists m. rewrite Hlen in Hm. split_and!; [|apply Hs|exact Hm].
  destruct c as [x q s s1 ps p mm l]. cbn in Hx. subst x. destruct s. unfold saved, sp, spsel.
  cbn [a_pst a_with_ctrl a_with_sys a_with_mem a_with_x]. rewrite ldiff_odd. done.
Qed.

(** ** The stubs *)

Lemma four_words m a x0 x1 x2 x3 :
  Forall is_word [x0; x1; x2; x3] ->
  reads (store 8 (store 8 (store 8 (store 8 m a x0) (a + 8) x1) (a + 16) x2) (a + 24) x3) a [x0; x1; x2; x3].
Proof.
  rewrite !Forall_cons. intros (H0 & H1 & H2 & H3 & _). rewrite !reads_cons.
  replace (a + 8 + 8) with (a + 16) by lia. replace (a + 16 + 8) with (a + 24) by lia.
  split_and!; [| | | |apply reads_nil];
    repeat first [rewrite load_store by lia; by apply Z.mod_small | rewrite load_store_other by lia].
Qed.

(** The stub of an exception of a program: the frame is at the top of the
    kernel stack of the process, x0 to x3 come by way of the stack. *)
Lemma stub_el0_run n x0 x1 x2 x3 xs c kt :
  a_x c = x0 :: x1 :: x2 :: x3 :: xs -> spsel c = true -> r_tpidr (a_sys c) = kt ->
  a_sp1 c mod 16 = 0 -> 32 <= a_sp1 c < 2 ^ 64 -> 816 <= kt < 2 ^ 64 ->
  a_sp1 c <= kt - 816 \/ kt <= a_sp1 c - 32 -> Forall is_word [x0; x1; x2; x3; r_sp_el0 (a_sys c)] ->
  exists m, execA (exc_stub_el0 n) c = Ret (Ok (a_with_mem (a_with_x c (n :: kt - 816 :: x2 :: x3 :: xs)) m)) /\
    reads m (kt - 816) [x0; x1; x2; x3] /\ load 8 m (kt - 816 + 248) = r_sp_el0 (a_sys c) /\
    (forall x, x < kt - 816 \/ kt <= x -> x < a_sp1 c - 32 \/ a_sp1 c <= x -> m x = a_mem c x) /\
    ((forall x, is_byte (a_mem c x)) -> forall x, is_byte (m x)).
Proof.
  intros Hx Hsel Hkt Hal Hs1 Hktb Hdis Hw. destruct c as [x q s s1 p pc m l]. cbn in Hx, Hkt, Hal, Hs1, Hdis, Hw. subst x.
  unfold spsel in Hsel. cbn [a_pst] in Hsel. set (b := s1 - 32). set (f := kt - 816).
  assert (Forall is_word [x0; x1; x2; x3]) as Hw4 by exact (Forall_take _ 4 _ Hw).
  assert (b mod 16 = 0) as Hbal by (unfold b; rewrite Zminus_mod, Hal; done).
  unfold exc_stub_el0. astep. rewrite ?Hsel, Hal. cbn [Z.eqb]. rewrite Ok_try.
  rewrite ?Hsel. rewrite wrap_add_small by lia. change (s1 + -32) with b.
  astep. rewrite ?Hsel, Hbal. cbn [Z.eqb]. rewrite Ok_try, wrap_add_small by (unfold b; lia).
  replace (b + 16 + 8) with (b + 24) by lia.
  set (m2 := store 8 (store 8 (store 8 (store 8 m b x0) (b + 8) x1) (b + 16) x2) (b + 24) x3).
  assert (reads m2 b [x0; x1; x2; x3]) as Hr2 by (by apply four_words).
  assert (same_outside b s1 m m2) as Hm2.
  { eapply same_trans; [eapply same_trans; [eapply same_trans|]|]; apply same_store; unfold b; lia. }
  astep. rewrite Ok_try. astep. rewrite Ok_try. rewrite Hkt. astep. rewrite Ok_try, wrap_sub_small by lia. fold f.
  astep. rewrite Ok_try, wrap_add_small by (unfold f; lia). set (m3 := store 8 m2 (f + 248) (r_sp_el0 s)).
  assert (reads m3 b [x0; x1; x2; x3]) as Hr3 by (apply reads_store; [cbn; unfold b, f; lia|done]).
  pose proof (reads_lookup _ _ _ 0 x0 Hr3 eq_refl) as L0. pose proof (reads_lookup _ _ _ 1 x1 Hr3 eq_refl) as L1.
  pose proof (reads_lookup _ _ _ 2 x2 Hr3 eq_refl) as L2. pose proof (reads_lookup _ _ _ 3 x3 Hr3 eq_refl) as L3.
  astep. rewrite ?Hsel, Hbal. cbn [Z.eqb]. rewrite Ok_try, wrap_add_small by (unfold b; lia).
  change (b + 8 * Z.of_nat 0) with (b + 0) in L0. change (b + 8 * Z.of_nat 1) with (b + 8) in L1.
  replace (b + 0 + 8) with (b + 8) by lia. rewrite L0, L1.
  astep. rewrite Ok_try, wrap_add_small by (unfold f; lia). rewrite Z.add_0_r. set (m4 := store 8 (store 8 m3 f x0) (f + 8) x1).
  assert (reads m4 b [x0; x1; x2; x3]) as Hr4 by (apply reads_store; [cbn; unfold b, f; lia|]; apply reads_store; [cbn; unfold b, f; lia|exact Hr3]).
  pose proof (reads_lookup _ _ _ 2 x2 Hr4 eq_refl) as L2'. pose proof (reads_lookup _ _ _ 3 x3 Hr4 eq_refl) as L3'.
  change (b + 8 * Z.of_nat 2) with (b + 16) in L2'. change (b + 8 * Z.of_nat 3) with (b + 24) in L3'.
  astep. rewrite ?Hsel, Hbal. cbn [Z.eqb]. rewrite Ok_try, wrap_add_small by (unfold b; lia).
  replace (b + 16 + 8) with (b + 24) by lia. rewrite L2', L3'.
  astep. rewrite Ok_try, wrap_add_small by (unfold f; lia). replace (f + 16 + 8) with (f + 24) by lia.
  set (m5 := store 8 (store 8 m4 (f + 16) x2) (f + 24) x3).
  astep. rewrite ?Hsel, Ok_try, wrap_add_small by (unfold b; lia). replace (b + 32) with s1 by (unfold b; lia).
  rewrite ?Hsel. astep. rewrite Ok_try. exists m5. split_and!; [done| | | |].
  - by apply four_words.
  - unfold m5, m4. rewrite !load_store_other by lia. unfold m3. rewrite load_store by lia.
    apply Z.mod_small, (Forall_lookup_1 _ _ 4 _ Hw eq_refl).
  - intros x Hx1 Hx2. unfold m5, m4, m3. rewrite !store_other by (unfold f; lia). apply Hm2. cbn in Hx2. unfold b. lia.
  - intros Hby x. unfold m5, m4, m3, m2. repeat (apply store_byte; intros ?). apply Hby.
Qed.

(** The stub of an exception of the kernel: the frame is below SP_EL1. *)
Lemma stub_el1t_run n x0 x1 x2 x3 xs c :
  a_x c = x0 :: x1 :: x2 :: x3 :: xs -> spsel c = true -> let f := a_sp1 c - 816 in
  a_sp1 c mod 16 = 0 -> 816 <= a_sp1 c < 2 ^ 64 -> Forall is_word [x0; x1; x2; x3; r_sp_el0 (a_sys c)] ->
  exists m, execA (exc_stub_el1t n) c = Ret (Ok (a_with_mem (a_with_sp1 (a_with_x c (n :: f :: x2 :: x3 :: xs)) f) m)) /\
    reads m f [x0; x1; x2; x3] /\ load 8 m (f + 248) = r_sp_el0 (a_sys c) /\ same_outside f (f + 816) (a_mem c) m /\
    ((forall x, is_byte (a_mem c x)) -> forall x, is_byte (m x)).
Proof.
  intros Hx Hsel f Hal Hs1 Hw. destruct c as [x q s s1 p pc m l]. cbn in Hx, Hal, Hs1, Hw. subst x.
  unfold spsel in Hsel. cbn [a_pst] in Hsel. unfold f. cbn [a_sp1]. clear f. set (f := s1 - 816).
  assert (Forall is_word [x0; x1; x2; x3]) as Hw4 by exact (Forall_take _ 4 _ Hw).
  assert (f mod 16 = 0) as Hfal by (unfold f; rewrite Zminus_mod, Hal; done).
  unfold exc_stub_el1t. astep. rewrite ?Hsel, Ok_try, ?Hsel, wrap_sub_small by lia. fold f.
  astep. rewrite ?Hsel, Hfal. cbn [Z.eqb]. rewrite Ok_try, wrap_add_small, Z.add_0_r by (unfold f; lia).
  astep. rewrite ?Hsel, Hfal. cbn [Z.eqb]. rewrite Ok_try, wrap_add_small by (unfold f; lia).
  replace (f + 16 + 8) with (f + 24) by lia. set (m2 := store 8 _ (f + 24) x3).
  astep. rewrite Ok_try. astep. rewrite ?Hsel, Hfal. cbn [Z.eqb]. rewrite Ok_try, wrap_add_small by (unfold f; lia).
  astep. rewrite ?Hsel, Ok_try. astep. rewrite Ok_try. exists (store 8 m2 (f + 248) (r_sp_el0 s)). split_and!; [done| | | |].
  - apply reads_store; [cbn; lia|]. by apply four_words.
  - rewrite load_store by lia. apply Z.mod_small, (Forall_lookup_1 _ _ 4 _ Hw eq_refl).
  - unfold m2. repeat (eapply same_trans; [|apply same_store; lia]). apply same_refl.
  - intros Hby x. unfold m2. repeat (apply store_byte; intros ?). apply Hby.
Qed.
End Runs.

(** ** Frames in memory *)

Lemma length_pairs (q : list Z) : length (q ≫= (fun x => [lo64 x; hi64 x])) = (2 * length q)%nat.
Proof. induction q as [|x q IH]; [done|]. rewrite bind_cons, length_app, IH. cbn [length]. lia. Qed.
Lemma nth_pairs q i y :
  q !! i = Some y ->
  join64 (nth (2 * i) (q ≫= (fun x => [lo64 x; hi64 x])) 0) (nth (S (2 * i)) (q ≫= (fun x => [lo64 x; hi64 x])) 0) = y.
Proof.
  revert i. induction q as [|x q IH]; intros [|i] Hi; cbn in Hi; [done|done|injection Hi as ->; apply join_halves|].
  replace (2 * S i)%nat with (S (S (2 * i))) by lia. apply (IH i Hi).
Qed.
Lemma nth_q f k :
  frame_len f -> (k < 64)%nat -> nth (36 + k) (words_of f) 0 = nth k (fa_q f ≫= (fun x => [lo64 x; hi64 x])) 0.
Proof.
  intros [H1 H2] Hk. unfold words_of. rewrite app_nth2 by lia. rewrite app_nth2 by (cbn; lia).
  rewrite app_nth1 by (rewrite length_pairs; cbn; lia). f_equal. cbn [length]. lia.
Qed.

Lemma read_words_of m a f :
  frame_len f -> reads m a (words_of f) -> read_frame_aarch64 m a = f.
Proof.
  intros [H1 H2] Hr. assert (forall i w, words_of f !! i = Some w -> load 8 m (a + 8 * Z.of_nat i) = w) as Hw by exact Hr.
  unfold words_of in Hw. unfold read_frame_aarch64.
  assert ((fun i => load 8 m (a + 8 * i)) <$> seqZ 0 32 = fa_x f) as ->.
  { apply list_eq_same_length with 32%nat; [done|by rewrite length_fmap, length_seqZ|].
    intros i x y Hi Hxi Hyi. rewrite list_lookup_fmap, lookup_seqZ_lt in Hxi by lia. cbn in Hxi. injection Hxi as <-.
    rewrite Z.add_0_l. apply Hw. by apply lookup_app_l_Some. }
  assert ((fun i => load 16 m (a + 288 + 16 * i)) <$> seqZ 0 32 = fa_q f) as ->.
  { apply list_eq_same_length with 32%nat; [done|by rewrite length_fmap, length_seqZ|].
    intros i x y Hi Hxi Hyi. rewrite list_lookup_fmap, lookup_seqZ_lt in Hxi by lia. cbn in Hxi. injection Hxi as <-.
    rewrite Z.add_0_l. replace (a + 288 + 16 * Z.of_nat i) with (a + 8 * Z.of_nat (36 + 2 * i)) by lia.
    rewrite (reads_nth16 m a _ _ Hr) by (rewrite words_of_len by done; lia).
    replace (S (36 + 2 * i)) with (36 + S (2 * i))%nat by lia. rewrite !nth_q by (done || lia). by apply nth_pairs. }
  assert (forall k w, [fa_elr f; fa_spsr f; fa_esr f; fa_far f] !! k = Some w -> load 8 m (a + 8 * Z.of_nat (32 + k)) = w) as Hc.
  { intros k w Hk. apply Hw. rewrite lookup_app_r by lia. replace (32 + k - length (fa_x f))%nat with k by lia.
    by apply lookup_app_l_Some. }
  assert (forall k w, [fa_fpcr f; fa_fpsr f] !! k = Some w -> load 8 m (a + 8 * Z.of_nat (100 + k)) = w) as Hd.
  { intros k w Hk. apply Hw. rewrite lookup_app_r by lia. rewrite lookup_app_r by (cbn; lia). rewrite lookup_app_r by (rewrite length_pairs; cbn; lia).
    rewrite length_pairs. cbn [length]. by replace (100 + k - length (fa_x f) - 4 - 2 * length (fa_q f))%nat with k by lia. }
  pose proof (Hc 0%nat _ eq_refl) as C0. pose proof (Hc 1%nat _ eq_refl) as C1. pose proof (Hc 2%nat _ eq_refl) as C2.
  pose proof (Hc 3%nat _ eq_refl) as C3. pose proof (Hd 0%nat _ eq_refl) as D0. pose proof (Hd 1%nat _ eq_refl) as D1.
  cbn [Nat.add] in *. change (8 * Z.of_nat 32) with 256 in C0. change (8 * Z.of_nat 33) with 264 in C1. change (8 * Z.of_nat 34) with 272 in C2.
  change (8 * Z.of_nat 35) with 280 in C3. change (8 * Z.of_nat 100) with 800 in D0. change (8 * Z.of_nat 101) with 808 in D1.
  rewrite C0, C1, C2, C3, D0, D1. by destruct f.
Qed.
