(* ===== verification/A64Trap.v ===== *)
(** * A64Trap: what an exception does to the interrupted code (AArch64)

    An exception of a program and an exception of the kernel, from the vector
    to the return, against [exc_effect]: what becomes visible outside. *)

From S2P Require Import Prelude Bytes Memory Rvm Kreq A64 A64Exc A64Facts A64Thms.

(** ** The specification *)

Section Spec.
Context `{Platform}.
Variable fuel : nat.

(** What becomes visible outside; [Err] when the process ends, [Panic] when
    the kernel stops. *)
Definition exc_effect (rd : Z -> outcome Z) (intid v esr x0 x1 x2 : Z) : outcome (result Z (list visible)) :=
  if v =? 1 then Ret (Ok (irq_msg intid ++ (if intid =? 27 then [TimerSet 1000] else []) ++ [EndIntr intid]))
  else if (v =? 8) || (v =? 12) then
    if Z.land (Z.shiftr esr 26) 0x3f =? 0x15 then
      r ← kernel_requestee rd fuel x0 x1 x2;
      match r with Returns _ out => Ret (Ok (Out <$> out)) | Exits code => Ret (Err code) end
    else Panic
  else if (v =? 9) || (v =? 13) then Ret (Ok (irq_msg intid ++ [EndIntr intid]))
  else Panic.

Lemma arg_at f i x : fa_x f !! i = Some x -> arg_aarch64 f i = Ret x.
Proof. unfold arg_aarch64. by intros ->. Qed.

(** The frame comes back as it was. *)
Lemma handler_effect_aarch64 rd intid v f x0 x1 x2 xs :
  fa_x f = x0 :: x1 :: x2 :: xs ->
  exc_handler_aarch64 fuel rd intid v f = ev ←? exc_effect rd intid v (fa_esr f) x0 x1 x2; Ret (Ok (f, ev)).
Proof.
  intros Hx. unfold exc_handler_aarch64, exc_effect.
  rewrite (arg_at f 0 x0), (arg_at f 1 x1), (arg_at f 2 x2) by (by rewrite Hx). rewrite !Ret_bind.
  destruct (Z.eqb_spec v 0) as [->|H0]; [done|]. destruct (Z.eqb_spec v 1) as [->|H1]; [done|].
  destruct ((4 <=? v) && (v <? 8)) eqn:Hk.
  { apply andb_true_iff in Hk as [Hk1 Hk2]. zbool.
    rewrite !(proj2 (Z.eqb_neq v _)) by lia. done. }
  destruct ((v =? 8) || (v =? 12)); [|by destruct ((v =? 9) || (v =? 13))].
  destruct (_ =? 0x15); [|done]. destruct (kernel_requestee rd fuel x0 x1 x2) as [[r out|code]| |]; reflexivity.
Qed.
End Spec.

(** A processor whose registers are in their widths. *)
Record a_typed (c : CpuA64) : Prop := {
  at_ok : a_ok c;
  at_x : length (a_x c) = 31%nat;
  at_q : length (a_q c) = 32%nat
}.

(** The interrupted code continues: all of its registers are as they were. *)
Record resumed_aarch64 (c : CpuA64) (ev : list visible) (c' : CpuA64) : Prop := {
  rs_x : a_x c' = a_x c;
  rs_q : a_q c' = a_q c;
  rs_sp0 : sget SP_EL0 (a_sys c') = sget SP_EL0 (a_sys c);
  rs_sp1 : a_sp1 c' = a_sp1 c;
  rs_pc : a_pc c' = a_pc c;
  rs_pst : a_pst c' = a_pst c;
  rs_fp : sget FPCR (a_sys c') = sget FPCR (a_sys c) /\ sget FPSR (a_sys c') = sget FPSR (a_sys c);
  rs_kern : sget TPIDR_EL1 (a_sys c') = sget TPIDR_EL1 (a_sys c) /\ sget VBAR_EL1 (a_sys c') = sget VBAR_EL1 (a_sys c);
  rs_log : a_log c' = a_log c ++ ev
}.

Section Traps.
Context `{Platform}.
Variables (fuel : nat) (mapped : Z -> bool) (intid : Z) (abi : CpuA64 -> CpuA64).
Hypothesis abi_law : abi_ok_aarch64 abi.
Hypothesis abi_typed : forall c, a_typed c -> a_typed (abi c).

#[local] Abbreviation callee := (call_handler_aarch64 fuel mapped intid abi).
#[local] Abbreviation effect m := (exc_effect fuel (readerA mapped m) intid).

(** ** From the stub to the branch *)

(** The state at the branch that ends [exc_entry], for a frame saved from
    [c]; the flag tells a program's exception from the kernel's. *)
Record left (c : CpuA64) (f : ExcFrame_aarch64) (ev : list visible) (c' : CpuA64) : Prop := {
  lf_x : a_x c' = take 31 (fa_x f);
  lf_q : a_q c' = fa_q f;
  lf_sp0 : sget SP_EL0 (a_sys c') = nth 31 (fa_x f) 0;
  lf_sp1 : a_sp1 c' = a_sp1 c;
  lf_sel : spsel c' = true;
  lf_ne : flag_ne c' = negb (Z.land (fa_spsr f) 12 =? 0);
  lf_ret : sget ELR_EL1 (a_sys c') = fa_elr f /\ sget SPSR_EL1 (a_sys c') = fa_spsr f;
  lf_fp : sget FPCR (a_sys c') = fa_fpcr f /\ sget FPSR (a_sys c') = fa_fpsr f;
  lf_kern : sget TPIDR_EL1 (a_sys c') = sget TPIDR_EL1 (a_sys c) /\ sget VBAR_EL1 (a_sys c') = sget VBAR_EL1 (a_sys c);
  lf_log : a_log c' = a_log c ++ ev
}.

Lemma tst_flag_z v p : Z.testbit (Z.lor (tst_flags v p) 1) 30 = (v =? 0).
Proof.
  unfold tst_flags. rewrite !Z.lor_spec, Z.land_spec. change (Z.testbit 1 30) with false.
  change (Z.testbit 0xfffffff 30) with false. rewrite andb_false_r, orb_false_r. cbn [orb].
  rewrite if_swap_bit by done. by destruct (v =? 0).
Qed.

Lemma lor_one_odd p : Z.testbit (Z.lor p 1) 0 = true.
Proof. by rewrite Z.lor_spec, orb_true_r. Qed.

Lemma frame_at_ok head xs usp c :
  length head = 4%nat -> length xs = 27%nat -> Forall is_word head -> Forall is_word xs -> is_word usp ->
  a_ok c -> length (a_q c) = 32%nat -> frame_ok_aarch64 (frame_at head xs usp c).
Proof.
  intros H1 H2 H3 H4 H5 [Hx Hq Hs _] H6. constructor; [split; [|done]| |done|].
  - unfold frame_at. cbn [fa_x]. rewrite !length_app, H1, H2. done.
  - unfold frame_at. cbn [fa_x]. rewrite !Forall_app. split_and!; [done|done|by apply Forall_singleton].
  - unfold frame_at. cbn [fa_elr fa_spsr fa_esr fa_far fa_fpcr fa_fpsr].
    repeat (apply Forall_cons_2; [first [exact (Hs ELR_EL1)|exact (Hs SPSR_EL1)|exact (Hs ESR_EL1)|exact (Hs FAR_EL1)
      |exact (Hs FPCR)|exact (Hs FPSR)]|]). apply Forall_nil_2.
Qed.

(** The call, with the frame in memory. *)
Lemma call_run n f c x0 x1 x2 xs :
  a_typed c -> frame_ok_aarch64 f -> fa_x f = x0 :: x1 :: x2 :: xs -> xget 0 c = n ->
  reads (a_mem c) (xget 1 c) (words_of f) ->
  follows (effect (a_mem c) n (fa_esr f) x0 x1 x2) (callee c) (fun ev c' =>
    exists m, c' = a_with_log (a_with_mem (abi c) m) (a_log c ++ ev) /\ a_typed c' /\ reads m (xget 1 c) (words_of f)).
Proof.
  intros Hc Hf Hx Hn Hr. unfold call_handler_aarch64.
  rewrite (read_words_of _ _ f (ff_len _ Hf) Hr), Hn, (handler_effect_aarch64 fuel _ intid n f x0 x1 x2 xs Hx).
  destruct (exc_effect _ _ _ _ _ _ _ _) as [[ev|code]| |]; cbn [follows]; [|done..].
  rewrite !Ok_try. eexists. split; [done|]. eexists. split; [done|]. split.
  - by destruct (abi_typed _ Hc) as [[] ??].
  - apply reads_store_words, words_of_ok, Hf.
Qed.

(** At the call. *)
Lemma saved_typed n a y2 y3 xs c m :
  a_typed c -> a_x c = n :: a :: y2 :: y3 :: xs -> is_word a -> a_typed (saved n a xs c m).
Proof.
  intros [[H1 H2 H3 H4] Hlx Hlq] Hx Ha. rewrite Hx in *. constructor; [|done|done].
  constructor; cbn; [|done| |done].
  - rewrite !Forall_cons in *. destruct H1 as (? & ? & _ & _ & ?). split_and!; try done; [apply (H3 FPSR)|apply (H3 FAR_EL1)].
  - intros s. specialize (H3 s). destruct (a_sys c). by destruct s.
Qed.

(** [exc_entry] up to the branch. *)
Lemma entry_run_a64 n a y2 y3 x0 x1 x2 x3 xs usp c :
  a_typed c -> (forall x, is_byte (a_mem c x)) -> a_x c = n :: a :: y2 :: y3 :: xs ->
  a mod 16 = 0 -> 0 <= a -> a + 816 < 2 ^ 64 -> Forall is_word [x0; x1; x2; x3; usp] ->
  reads (a_mem c) a [x0; x1; x2; x3] -> load 8 (a_mem c) (a + 248) = usp ->
  exists m, same_outside a (a + 816) (a_mem c) m /\
    follows (effect m n (sget ESR_EL1 (a_sys c)) x0 x1 x2) (execA callee (exc_entry_save ++ [BL] ++ exc_entry_rstr) c)
      (left c (frame_at [x0; x1; x2; x3] xs usp c)).
Proof.
  intros Hc Hby Hx Hal Ha Hb Hw Hr Hu. pose proof Hc as [Hok Hlx Hlq].
  assert (length xs = 27%nat) as Hl by (rewrite Hx in Hlx; by injection Hlx).
  set (f := frame_at [x0; x1; x2; x3] xs usp c).
  assert (frame_ok_aarch64 f) as Hf.
  { pose proof (ok_x _ Hok) as Hxo. rewrite Hx in Hxo. apply (Forall_drop _ 4) in Hxo.
    apply frame_at_ok; try done; [exact (Forall_take _ 4 _ Hw)|exact (Forall_lookup_1 _ _ 4 _ Hw eq_refl)]. }
  destruct (save_run callee n a y2 y3 x0 x1 x2 x3 xs usp c Hl Hlq Hx Hok Ha Hb Hw Hby Hr Hu) as (m & Hs & Hrf & Hm).
  exists m. split; [done|]. rewrite execA_app, Hs, Ok_try, execA_app. set (c1 := saved n a xs c m) in *.
  assert (a_typed c1) as Hc1 by (apply (saved_typed n a y2 y3); [done..|unfold is_word; lia]).
  assert (spsel c1 = false) as Hsel1 by apply ldiff_odd.
  change [BL] with ([BL] ++ []). eapply follows_bind.
  { cbn [execA stepA app]. rewrite try_Ok. apply (call_run n f c1 x0 x1 x2 (x3 :: xs ++ [usp])); try done. }
  intros ev c2 _ (m2 & -> & Hc2 & Hr2). set (c2 := a_with_log _ _) in *.
  assert (spsel c2 = false) as Hsel2.
  { rewrite <- Hsel1. unfold spsel. change (a_pst c2) with (a_pst (abi c1)). pose proof (aa_mode _ abi_law c1) as Hmode.
    apply (f_equal (fun x => Z.testbit x 0)) in Hmode. by rewrite !Z.land_spec, !andb_true_r in Hmode. }
  assert (sget SP_EL0 (a_sys c2) = a) as Hsp2.
  { pose proof (aa_sp _ abi_law c1) as Hsp. unfold sp in Hsp. rewrite Hsel1 in Hsp. unfold spsel in Hsp, Hsel2.
    change (a_pst c2) with (a_pst (abi c1)) in Hsel2. rewrite Hsel2 in Hsp. change (a_sys c2) with (a_sys (abi c1)). rewrite Hsp. apply (sget_sput SP_EL0). }
  destruct (rstr_run callee f c2 a Hf (at_ok _ Hc2) (at_x _ Hc2) (at_q _ Hc2) Hsel2 Hsp2 Hal Ha Hb Hr2) as (m3 & H3 & _).
  exists (restored f c2 m3). split; [exact H3|]. constructor; try reflexivity.
  - apply (aa_sp1 _ abi_law c1).
  - apply lor_one_odd.
  - unfold flag_ne. cbn [a_pst restored]. by rewrite tst_flag_z.
  - by split.
  - by split.
  - split; [etransitivity; [apply (aa_tpidr _ abi_law c1)|]|etransitivity; [apply (aa_vbar _ abi_law c1)|]]; by apply sget_sput_ne.
Qed.

(** ** From the exception to the return *)

Lemma taken_sys kind esr far c s :
  sget s (a_sys (take_exception kind esr far c)) =
    match s with ELR_EL1 => a_pc c | SPSR_EL1 => a_pst c | ESR_EL1 => esr | FAR_EL1 => far | s => sget s (a_sys c) end.
Proof. unfold take_exception. cbn. destruct (a_sys c). by destruct s. Qed.

(** Code that runs, and may be interrupted. *)
Record running (c : CpuA64) : Prop := {
  ru_typed : a_typed c;
  ru_bytes : forall x, is_byte (a_mem c x);
  ru_pst : is_word (a_pst c);
  ru_pc : is_word (a_pc c)
}.

(** The state in which a stub leaves the processor. *)
Definition at_entry (kind esr far n a s1 : Z) (rest : list Z) (m : Mem) (c : CpuA64) : CpuA64 :=
  let c0 := take_exception kind esr far c in
  mkA64 (n :: a :: rest) (a_q c) (a_sys c0) s1 (a_pst c0) (a_pc c0) m (a_log c).

Lemma at_entry_typed kind esr far n a s1 rest m c :
  running c -> is_word esr -> is_word far -> is_word n -> is_word a -> is_word s1 ->
  rest = drop 2 (a_x c) -> a_typed (at_entry kind esr far n a s1 rest m c).
Proof.
  intros [[[H1 H2 H3 H4] Hlx Hlq] Hby Hpst Hpc] He Hf Hn Ha Hs ->. constructor; [constructor| |done]; cbn [at_entry a_x a_q a_sp1].
  - apply Forall_cons_2; [done|]. apply Forall_cons_2; [done|]. by apply Forall_drop.
  - done.
  - intros s. unfold at_entry. cbn [a_sys]. rewrite taken_sys. destruct s; try done; first
      [exact (H3 SP_EL0)|exact (H3 TPIDR_EL1)|exact (H3 FPCR)|exact (H3 FPSR)|exact (H3 VBAR_EL1)].
  - done.
  - cbn [length]. by rewrite length_drop, Hlx.
Qed.

(** The branch and the return. *)
Lemma eret_run c c1 f ev c' :
  left c1 f ev c' -> take 31 (fa_x f) = a_x c -> nth 31 (fa_x f) 0 = sget SP_EL0 (a_sys c) -> fa_q f = a_q c ->
  fa_elr f = a_pc c -> fa_spsr f = a_pst c -> fa_fpcr f = sget FPCR (a_sys c) -> fa_fpsr f = sget FPSR (a_sys c) ->
  sget TPIDR_EL1 (a_sys c1) = sget TPIDR_EL1 (a_sys c) -> sget VBAR_EL1 (a_sys c1) = sget VBAR_EL1 (a_sys c) ->
  a_log c1 = a_log c -> (if Z.land (a_pst c) 12 =? 0 then a_sp1 c1 else uwrap_add 64 (a_sp1 c1) 816) = a_sp1 c ->
  exists c'', execA callee (if flag_ne c' then [ADD_SP 816; ERET] else [ERET]) c' = Ret (Ok c'') /\
    resumed_aarch64 c ev c''.
Proof.
  intros [Lx Lq L0 L1 Lsel Lne [Lr1 Lr2] [Lf1 Lf2] [Lk1 Lk2] Ll] Hx H0 Hq Hpc Hps Hf1 Hf2 Ht Hv Hlog Hs1.
  rewrite Lne, Hps. assert (sp c' = a_sp1 c1) as Hsp by (unfold sp; by rewrite Lsel).
  destruct (Z.land (a_pst c) 12 =? 0); cbn [negb execA stepA]; rewrite ?Ok_try.
  - eexists. split; [done|]. constructor; cbn [a_with_ctrl a_x a_q a_sys a_sp1 a_pst a_pc a_log]; try split; congruence.
  - eexists. split; [done|]. unfold set_sp. rewrite Lsel, Hsp.
    constructor; cbn [a_with_ctrl a_with_sp1 a_x a_q a_sys a_sp1 a_pst a_pc a_log]; try split; congruence.
Qed.

Lemma exc_entry_run kind esr far c n a s1 x0 x1 x2 x3 xs m1 :
  running c -> is_word esr -> is_word far -> is_word n -> is_word s1 -> a_x c = x0 :: x1 :: x2 :: x3 :: xs ->
  (forall x, is_byte (m1 x)) -> a mod 16 = 0 -> 0 <= a -> a + 816 < 2 ^ 64 ->
  reads m1 a [x0; x1; x2; x3] -> load 8 m1 (a + 248) = sget SP_EL0 (a_sys c) ->
  (if Z.land (a_pst c) 12 =? 0 then s1 else uwrap_add 64 s1 816) = a_sp1 c ->
  exists m, same_outside a (a + 816) m1 m /\
    follows (effect m n esr x0 x1 x2) (exc_entry callee (at_entry kind esr far n a s1 (x2 :: x3 :: xs) m1 c))
      (resumed_aarch64 c).
Proof.
  intros Hc He Hf Hn Hs1 Hx Hby Hal Ha Hb Hr Hu Hsp1. set (c1 := at_entry _ _ _ _ _ _ _ _ _).
  pose proof (at_ok _ (ru_typed _ Hc)) as [Hxw _ Hsw _].
  assert (a_typed c1) as Hc1 by (apply at_entry_typed; [done..|unfold is_word; lia|done|by rewrite Hx]).
  rewrite Hx, !Forall_cons in Hxw. destruct Hxw as (? & ? & ? & ? & _).
  pose proof (taken_sys kind esr far c) as Hsys.
  destruct (entry_run_a64 n a x2 x3 x0 x1 x2 x3 xs (sget SP_EL0 (a_sys c)) c1 Hc1 Hby eq_refl Hal Ha Hb) as (m & Hm & Hrun); try done.
  { repeat (apply Forall_cons_2; [done|]). apply Forall_nil_2. }
  exists m. split; [done|]. change (sget ESR_EL1 (a_sys c1)) with (sget ESR_EL1 (a_sys (take_exception kind esr far c))) in Hrun.
  rewrite Hsys in Hrun. unfold exc_entry. eapply follows_bind; [exact Hrun|].
  assert (length xs = 27%nat) as Hl by (pose proof (at_x _ (ru_typed _ Hc)) as Hlx; rewrite Hx in Hlx; by injection Hlx).
  intros ev c' _ Hleft. apply (eret_run c c1 _ ev c' Hleft); try done.
  - rewrite Hx. transitivity (x0 :: x1 :: x2 :: x3 :: take 27 (xs ++ [sget SP_EL0 (a_sys c)])); [done|].
    by rewrite take_app_length'.
  - transitivity (nth 27 (xs ++ [sget SP_EL0 (a_sys c)]) 0); [done|]. rewrite app_nth2, Hl by lia. done.
  - apply (Hsys ELR_EL1).
  - apply (Hsys SPSR_EL1).
  - apply (Hsys FPCR).
  - apply (Hsys FPSR).
Qed.

(** ** The theorems *)

Lemma land_12 p m : Z.land p 0xf = m -> Z.land p 12 = Z.land m 12.
Proof. intros <-. by rewrite <- Z.land_assoc. Qed.
Lemma split4 (l : list Z) : length l = 31%nat -> exists x0 x1 x2 x3 xs, l = x0 :: x1 :: x2 :: x3 :: xs.
Proof. destruct l as [|x0 [|x1 [|x2 [|x3 xs]]]]; try done. intros _. by exists x0, x1, x2, x3, xs. Qed.

(** C12: an exception of a program, through the vector that the processor
    takes: the stub puts the frame at the top of the kernel stack of the
    process, the handler does what [exc_effect] says, and the program
    continues with every register as it was, x0 too, which is where the
    result of a system call was meant to be.  Outside of the frame and the 32
    bytes below SP_EL1, memory is as it was when the handler starts. *)
Theorem el0_exception_refines kind esr far c :
  running c -> is_word esr -> is_word far -> 0 <= kind < 4 -> Z.land (a_pst c) 0xf = 0 ->
  let kt := sget TPIDR_EL1 (a_sys c) in
  kt mod 16 = 0 -> 816 <= kt -> a_sp1 c mod 16 = 0 -> 32 <= a_sp1 c ->
  a_sp1 c <= kt - 816 \/ kt <= a_sp1 c - 32 ->
  exists m, (forall x, x < kt - 816 \/ kt <= x -> x < a_sp1 c - 32 \/ a_sp1 c <= x -> m x = a_mem c x) /\
    follows (effect m (8 + kind) esr (xget 0 c) (xget 1 c) (xget 2 c))
      (exc_vts callee (exc_type_of kind (a_pst c)) (take_exception kind esr far c)) (resumed_aarch64 c).
Proof.
  intros Hc He Hf Hk Hel kt Hkt Hktb Hal Hs1 Hdis. pose proof (ru_typed _ Hc) as [[Hxw _ Hsw Hs1w] Hlx Hlq].
  destruct (split4 _ Hlx) as (x0 & x1 & x2 & x3 & xs & Hx). pose proof (Hsw TPIDR_EL1) as Hktw. fold kt in Hktw.
  rewrite Hx in Hxw. pose proof (taken_sys kind esr far c) as Hsys. set (c0 := take_exception kind esr far c) in *.
  destruct (stub_el0_run callee (8 + kind) x0 x1 x2 x3 xs c0 kt) as (m1 & Hst & Hr & Hu & Hm1 & Hby1);
    [done|done|apply (Hsys TPIDR_EL1)|done|unfold is_word in Hs1w; cbn; lia|unfold is_word in Hktw; lia|done| |].
  { repeat (apply Forall_cons_2; [by repeat (apply Forall_cons_1 in Hxw as [? Hxw])|]). apply Forall_singleton.
    change (is_word (sget SP_EL0 (a_sys c0))). rewrite Hsys. apply (Hsw SP_EL0). }
  assert (load 8 m1 (kt - 816 + 248) = sget SP_EL0 (a_sys c)) as Hu'.
  { rewrite Hu. apply (Hsys SP_EL0). }
  destruct (exc_entry_run kind esr far c (8 + kind) (kt - 816) (a_sp1 c) x0 x1 x2 x3 xs m1) as (m & Hm & Hrun); try done.
  - unfold is_word. lia.
  - by apply Hby1, Hc.
  - by rewrite Zminus_mod, Hkt.
  - lia.
  - unfold is_word in Hktw. lia.
  - by rewrite (land_12 _ _ Hel).
  - exists m. split.
    + intros x Hx1 Hx2. rewrite (Hm x) by lia. apply Hm1; done.
    + unfold xget. rewrite Hx. cbn [nth]. unfold exc_type_of. rewrite Hel. cbn [Z.eqb]. unfold exc_vts.
      rewrite !(proj2 (Z.ltb_ge _ _)) by lia. fold c0. rewrite Hst, Ok_try. exact Hrun.
Qed.

(** C13: an exception of the kernel while it runs on SP_EL0: the frame is
    below SP_EL1, and the kernel continues with every register as it was.
    SP_EL1 is the top of the kernel's own stack since [init], so that the
    frame and the handler lie on what the interrupted code had there. *)
Theorem el1_exception_refines kind esr far c :
  running c -> is_word esr -> is_word far -> 0 <= kind < 4 -> Z.land (a_pst c) 0xf = 4 ->
  a_sp1 c mod 16 = 0 -> 816 <= a_sp1 c ->
  exists m, same_outside (a_sp1 c - 816) (a_sp1 c) (a_mem c) m /\
    follows (effect m kind esr (xget 0 c) (xget 1 c) (xget 2 c))
      (exc_vts callee (exc_type_of kind (a_pst c)) (take_exception kind esr far c)) (resumed_aarch64 c).
Proof.
  intros Hc He Hf Hk Hel Hal Hs1. pose proof (ru_typed _ Hc) as [[Hxw _ Hsw Hs1w] Hlx Hlq].
  destruct (split4 _ Hlx) as (x0 & x1 & x2 & x3 & xs & Hx).
  rewrite Hx in Hxw. pose proof (taken_sys kind esr far c) as Hsys. set (c0 := take_exception kind esr far c) in *.
  unfold is_word in Hs1w.
  destruct (stub_el1t_run callee kind x0 x1 x2 x3 xs c0) as (m1 & Hst & Hr & Hu & Hm1 & Hby1);
    [done|done|done|cbn; lia| |].
  { repeat (apply Forall_cons_2; [by repeat (apply Forall_cons_1 in Hxw as [? Hxw])|]). apply Forall_singleton.
    change (is_word (sget SP_EL0 (a_sys c0))). rewrite Hsys. apply (Hsw SP_EL0). }
  change (a_sp1 c0) with (a_sp1 c) in *.
  assert (load 8 m1 (a_sp1 c - 816 + 248) = sget SP_EL0 (a_sys c)) as Hu'.
  { rewrite Hu. apply (Hsys SP_EL0). }
  destruct (exc_entry_run kind esr far c kind (a_sp1 c - 816) (a_sp1 c - 816) x0 x1 x2 x3 xs m1) as (m & Hm & Hrun); try done.
  - unfold is_word. lia.
  - unfold is_word. lia.
  - by apply Hby1, Hc.
  - by rewrite Zminus_mod, Hal.
  - lia.
  - lia.
  - rewrite (land_12 _ _ Hel). change (Z.land 4 12 =? 0) with false. cbv iota. unfold uwrap_add. rewrite Z.mod_small by lia. lia.
  - exists m. replace (a_sp1 c - 816 + 816) with (a_sp1 c) in * by lia. split; [by eapply same_trans|].
    unfold xget. rewrite Hx. cbn [nth]. assert (exc_type_of kind (a_pst c) = kind) as ->.
    { unfold exc_type_of. rewrite Hel. cbn [Z.eqb].
      apply (f_equal (fun x => Z.testbit x 0)) in Hel. rewrite Z.land_spec, andb_true_r in Hel. by rewrite Hel. }
    unfold exc_vts. rewrite (proj2 (Z.ltb_lt kind 4)) by lia. fold c0. rewrite Hst, Ok_try. exact Hrun.
Qed.
End Traps.
