(* ===== verification/A64Ctxt.v ===== *)
(** * A64Ctxt: context switches and the start of the exceptions (AArch64)

    [rstr_ctxt] starts a program from a frame; [init] sets the vectors up and
    moves the kernel to SP_EL0. *)

From S2P Require Import Prelude Bytes Memory Rvm Kreq A64 A64Exc A64Facts A64Thms A64Trap.

(** The control registers and the vector registers. *)
Definition ctxt_sym : list ainstr :=
  [LDR 10 (X 9) 256; MSR ELR_EL1 10; LDR 10 (X 9) 264; MSR SPSR_EL1 10; LDR 10 (X 9) 800; MSR FPCR 10;
   LDR 10 (X 9) 808; MSR FPSR 10] ++ ldpqs (X 9).

Lemma ctxt_parts ctxt ksp :
  rstr_ctxt_aarch64 ctxt ksp =
    [MOVR 9 ctxt; MSR TPIDR_EL1 ksp] ++ ctxt_sym ++ [MSR_SPSEL true] ++ (rstr2_sym ++ [LDR 9 (X 9) 72]) ++ [ERET].
Proof. reflexivity. Qed.

Lemma sym_ctxt f c :
  frame_len f -> length (a_x c) = 31%nat -> length (a_q c) = 32%nat ->
  syms (X 9) ctxt_sym (c, words_of f) =
    Some (mkA64 (take 10 (a_x c) ++ [fa_fpsr f] ++ drop 11 (a_x c)) ((fun x => join64 (lo64 x) (hi64 x)) <$> fa_q f)
            (frame_sys f (a_sys c)) (a_sp1 c) (a_pst c) (a_pc c) (a_mem c) (a_log c), words_of f).
Proof.
  intros [H1 H2] H3 H4. destruct f as [fx e1 e2 e3 e4 fq e5 e6], c as [x q s s1 ps p m l]. cbn in *. destruct s.
  explode fx. explode fq. explode x. explode q. lazy -[lo64 hi64 join64]. reflexivity.
Qed.

Section Ctxt.
Variable callee : CpuA64 -> outcome (result Z CpuA64).
#[local] Abbreviation execA := (execA callee).

(** The frame at [a] is in the registers; [ksp] is where the next exception
    of the program puts its frame. *)
Record entered (f : ExcFrame_aarch64) (ksp : Z) (c c' : CpuA64) : Prop := {
  en_x : a_x c' = take 31 (fa_x f);
  en_q : a_q c' = fa_q f;
  en_sp0 : sget SP_EL0 (a_sys c') = sp_aarch64 f;
  en_pc : a_pc c' = pc_aarch64 f;
  en_pst : a_pst c' = fa_spsr f;
  en_fp : sget FPCR (a_sys c') = fa_fpcr f /\ sget FPSR (a_sys c') = fa_fpsr f;
  en_tpidr : sget TPIDR_EL1 (a_sys c') = ksp;
  en_vbar : sget VBAR_EL1 (a_sys c') = sget VBAR_EL1 (a_sys c);
  en_sp1 : a_sp1 c' = a_sp1 c;
  en_log : a_log c' = a_log c
}.

(** Both operands in registers; then [mov x9, ctxt] comes first, and the
    kernel stack is read from its register after it. *)
Lemma ctxt_prefix ctxt ksp c :
  length (a_x c) = 31%nat -> ksp <> 9%nat -> exists c1,
    execA [MOVR 9 ctxt; MSR TPIDR_EL1 ksp] c = Ret (Ok c1) /\
    c1 = a_with_sys (xset 9 (xget ctxt c) c) (sput TPIDR_EL1 (xget ksp c) (a_sys c)).
Proof.
  intros Hl Hk. eexists. split; [reflexivity|]. do 2 f_equal.
  unfold xget, xset. cbn [a_x a_with_x]. by rewrite !nth_lookup, list_lookup_insert_ne by done.
Qed.

Lemma spsel_run c : execA [MSR_SPSEL true] c = Ret (Ok (a_with_ctrl c (Z.lor (a_pst c) 1) (a_pc c))).
Proof. reflexivity. Qed.

(** [rstr_ctxt] on a frame in memory, as long as the compiler does not
    put the kernel stack into x9: every register is the frame's, SP_EL0 and
    the return to the program too, TPIDR_EL1 is the kernel stack, and memory
    outside of the frame is as it was. *)
Theorem rstr_ctxt_aarch64_spec ctxt ksp c f a :
  a_typed c -> frame_ok_aarch64 f -> xget ctxt c = a -> ksp <> 9%nat -> 0 <= a -> a + 816 < 2 ^ 64 ->
  reads (a_mem c) a (frame_words_aarch64 f) ->
  exists c', execA (rstr_ctxt_aarch64 ctxt ksp) c = Ret (Ok c') /\ entered f (xget ksp c) c c' /\
    reads (a_mem c') a (frame_words_aarch64 f) /\ same_outside a (a + 816) (a_mem c) (a_mem c').
Proof.
  intros [Hok Hlx Hlq] Hf Hctxt Hk Ha Hb Hr. rewrite words_of_frame in *.
  pose proof (words_of_len f (ff_len _ Hf)) as Hwl.
  destruct (ctxt_prefix ctxt ksp c Hlx Hk) as (c1 & H1 & Hc1). rewrite ctxt_parts, execA_app, H1, Ok_try, execA_app.
  assert (a_ok c1) as Hok1.
  { rewrite Hc1. apply (ok_msr TPIDR_EL1 _ (xset 9 _ c)); [apply ok_xset; [done|]|]; apply nth_word, Hok. }
  assert (length (a_x c1) = 31%nat) as Hl1 by (rewrite Hc1; cbn; by rewrite length_insert).
  assert (a_q c1 = a_q c /\ a_mem c1 = a_mem c /\ a_log c1 = a_log c /\ a_sp1 c1 = a_sp1 c) as (Hq1 & Hm1 & Hlog1 & Hs1) by by rewrite Hc1.
  assert (xget 9 c1 = a) as Hx9.
  { rewrite Hc1. unfold xget, xset. cbn. rewrite nth_lookup, list_lookup_insert_eq; [done|lia]. }
  destruct (sym_run callee (X 9) a Ha _ c1 (words_of f) _ _ (a_mem c1) (sym_ctxt f c1 (ff_len _ Hf) Hl1 ltac:(by rewrite Hq1)))
    as (m2 & H2 & Hs2 & _ & Hm2); [lia|constructor; [exact Hx9|exact Hok1|by apply words_of_ok|by rewrite Hm1]|].
  rewrite a_mem_eta in H2. rewrite H2, Ok_try, execA_app, join_all. rewrite join_all in Hs2. rewrite Hwl, Hm1 in Hm2.
  rewrite spsel_run, Ok_try, execA_app. set (c3 := a_with_ctrl _ _ _).
  destruct (back_run callee f c3 a Hf) as (m4 & H4 & Hr4 & Hm4); [| | |exact Ha|exact Hb| |].
  - destruct (so_ok _ _ _ _ _ Hs2). by constructor.
  - unfold c3. cbn. rewrite length_app, length_cons, length_take, length_drop, Hl1. done.
  - apply Hs2.
  - apply Hs2.
  - rewrite H4, Ok_try. cbn [A64.execA stepA]. rewrite Ok_try. eexists. split; [reflexivity|].
    split_and!; [|exact Hr4|by eapply same_trans].
    constructor; cbn [with_regs c3 a_with_ctrl a_with_mem a_x a_q a_sys a_sp1 a_pst a_pc a_log sget sput frame_sys
      r_sp_el0 r_elr r_spsr r_tpidr r_fpcr r_fpsr r_vbar]; [reflexivity..|by split| | |exact Hs1|exact Hlog1].
    + rewrite Hc1. apply (sget_sput TPIDR_EL1).
    + rewrite Hc1. by apply (sget_sput_ne VBAR_EL1 TPIDR_EL1).
Qed.

(** When the kernel stack is in x9, it is lost before it is used. *)
Lemma rstr_ctxt_aarch64_x9 ctxt c :
  length (a_x c) = 31%nat ->
  execA (take 2 (rstr_ctxt_aarch64 ctxt 9)) c =
    Ret (Ok (a_with_sys (xset 9 (xget ctxt c) c) (sput TPIDR_EL1 (xget ctxt c) (a_sys c)))).
Proof.
  intros Hl. change (take 2 (rstr_ctxt_aarch64 ctxt 9)) with [MOVR 9 ctxt; MSR TPIDR_EL1 9].
  cbn [A64.execA stepA]. rewrite !Ok_try. do 4 f_equal.
  unfold xget, xset. cbn [a_x a_with_x]. rewrite !nth_lookup, list_lookup_insert_eq; [done|lia].
Qed.

(** ** [init] *)

(** [init], called on SP_EL1: the kernel continues on the same stack,
    which is now SP_EL0; exceptions start at the top of the stack, through
    the vectors; there is no process. *)
Theorem exc_init_aarch64_spec vbar tramp tmp c :
  length (a_x c) = 31%nat -> spsel c = true -> (tmp < 31)%nat -> tmp <> vbar -> tmp <> tramp ->
  exists c', execA (exc_init_aarch64 vbar tramp tmp) c = Ret (Ok c') /\
    spsel c' = false /\ sp c' = sp c /\ a_sp1 c' = xget tramp c /\ sget VBAR_EL1 (a_sys c') = xget vbar c /\
    sget TPIDR_EL1 (a_sys c') = 0 /\ a_mem c' = a_mem c /\
    (forall r, r <> tmp -> xget r c' = xget r c) /\ (forall i, 0 < i -> Z.testbit (a_pst c') i = Z.testbit (a_pst c) i).
Proof.
  intros Hl Hsel Ht Hv Htr. destruct c as [x q [t0 t1 t2 t3 t4 t5 t6 t7 t8] s1 p pc m l]. unfold spsel in Hsel. cbn [a_pst] in Hsel.
  assert (forall r v, r <> tmp -> nth r (<[tmp := v]> x) 0 = nth r x 0) as Hne.
  { intros r v Hr. by rewrite !nth_lookup, list_lookup_insert_ne. }
  assert (forall v, nth tmp (<[tmp := v]> x) 0 = v) as Heq.
  { intros v. rewrite nth_lookup, list_lookup_insert_eq; [done|]. cbn in Hl. lia. }
  eexists. split.
  { unfold exc_init_aarch64. astep. rewrite Ok_try. astep. rewrite Ok_try. astep. rewrite Ok_try. astep. rewrite Ok_try.
    astep. rewrite Ok_try. astep. rewrite Ok_try, Hsel. astep. rewrite Ok_try, list_insert_insert_eq. reflexivity. }
  unfold sp, spsel, xget. cbn [a_pst a_x a_sys a_sp1 a_mem sget sput r_sp_el0 r_vbar r_tpidr].
  rewrite ldiff_odd, Hsel, ?Heq, ?Hne by done. split_and!; try done.
  - intros r Hr. by apply Hne.
  - intros i Hi. rewrite Z.ldiff_spec. change 1 with (Z.ones 1). rewrite Z.ones_spec_high by lia. by rewrite andb_true_r.
Qed.
End Ctxt.
