(* ===== verification/A64Demo.v ===== *)
(** * A64Demo: a program and the kernel on the modelled AArch64 processor

    The theorems on exceptions and context switches at concrete processors. *)

From S2P Require Import Prelude Bytes Memory Rvm Kreq A64 A64Exc A64Facts A64Thms A64Trap A64Ctxt.

Module A64Demo.
#[local] Instance demo : Platform :=
  {| platform_build := {| overflow_checks := false |}; target_arch := AArch64; G_CFG := mkRvmCfg Size4kiB 48 48 |}.

Definition ktop : Z := 0xffff900000001000.
Definition stop : Z := 0xffff900000008000.

Definition no_calleeA (c : CpuA64) : outcome (result Z CpuA64) := Panic.

(** "_print" at 0x1000, "AB" at 0x2000, zeros. *)
Definition mem0 (a : Z) : Z :=
  if (0x1000 <=? a) && (a <? 0x1006) then nth (Z.to_nat (a - 0x1000)) b_print 0
  else if (0x2000 <=? a) && (a <? 0x2002) then 0x41 + (a - 0x2000)
  else 0.
Definition mapped (a : Z) : bool := a <? 0x800000000000.

Definition regs0 : list Z := [0x1000; 0x2000; 2] ++ seqZ 3 28.
Definition sys0 (sp : Z) : SysRegs := mkSys sp 0 0 0 0 ktop 5 6 0xffff800000000800.
(** A program at EL0, and the kernel at EL1 on SP_EL0. *)
Definition user : CpuA64 := mkA64 regs0 (seqZ 100 32) (sys0 0x7ff000) stop 0 0x400000 mem0 [].
Definition kern : CpuA64 := mkA64 regs0 (seqZ 100 32) (sys0 (stop - 0x1000)) stop 4 0xffff800000002000 mem0 [].

(** A handler that destroys the registers that it may destroy. *)
Definition abi (c : CpuA64) : CpuA64 := a_with_q (xset 0 0xdead (xset 17 0xbeef c)) (replicate 32 1).

Lemma abi_law_a64 : abi_ok_aarch64 abi.
Proof. by constructor. Qed.
Lemma abi_typed_a64 c : a_typed c -> a_typed (abi c).
Proof.
  intros [Hok Hx Hq]. assert (a_ok (xset 0 0xdead (xset 17 0xbeef c))) as [] by (by repeat apply ok_xset).
  constructor; [|cbn; by rewrite !length_insert|done]. constructor; try done.
  cbn. repeat (apply Forall_cons_2; [done|]). apply Forall_nil_2.
Qed.

Lemma mem_byte_a64 a : is_byte (mem0 a).
Proof.
  unfold mem0. repeat case_match; zbool; try done.
  - rewrite nth_lookup. destruct (b_print !! _) as [b|] eqn:Hb; [|done].
    assert (Forall is_byte b_print) as Hp by (by repeat constructor). by apply (Forall_lookup_1 _ _ _ _ Hp Hb).
  - unfold is_byte. lia.
Qed.

Lemma typed_regs (sys : SysRegs) sp1 pst pc m l :
  (forall s, is_word (sget s sys)) -> is_word sp1 -> a_typed (mkA64 regs0 (seqZ 100 32) sys sp1 pst pc m l).
Proof.
  intros Hs Hp. constructor; [constructor|done|done]; cbn; try done;
    (repeat (apply Forall_cons_2; [by vm_compute|]); apply Forall_nil_2).
Qed.
Lemma running_user : running user.
Proof. constructor; try done; [|apply mem_byte_a64]. apply typed_regs; [|done]. intros s. by destruct s; vm_compute. Qed.
Lemma running_kern : running kern.
Proof. constructor; try done; [|apply mem_byte_a64]. apply typed_regs; [|done]. intros s. by destruct s; vm_compute. Qed.

Definition svc : Z := Z.shiftl 0x15 26.
#[local] Abbreviation callee := (call_handler_aarch64 0 mapped 27 abi).

Lemma el0_exception_refines_witness :
  exists m, (forall x, x < ktop - 816 \/ ktop <= x -> x < stop - 32 \/ stop <= x -> m x = mem0 x) /\
    follows (exc_effect 0 (readerA mapped m) 27 8 svc 0x1000 0x2000 2)
      (exc_vts callee 8 (take_exception 0 svc 0 user)) (resumed_aarch64 user).
Proof.
  apply (el0_exception_refines 0 mapped 27 abi abi_law_a64 abi_typed_a64 0 svc 0 user running_user); try done. by right.
Defined.

Lemma el1_exception_refines_witness :
  exists m, same_outside (stop - 816) stop mem0 m /\
    follows (exc_effect 0 (readerA mapped m) 27 1 0 0x1000 0x2000 2)
      (exc_vts callee 1 (take_exception 1 0 0 kern)) (resumed_aarch64 kern).
Proof. apply (el1_exception_refines 0 mapped 27 abi abi_law_a64 abi_typed_a64 1 0 0 kern running_kern); done. Defined.

(** The system call prints "AB", and the program finds its x0 again. *)
Lemma svc_prints :
  match exc_vts callee 8 (take_exception 0 svc 0 user) with
  | Ret (Ok c') => Some (a_x c', a_pc c', a_log c') | _ => None end = Some (regs0, 0x400000, [Out 0x41; Out 0x42]).
Proof. by vm_compute. Qed.

(** The timer in the kernel. *)
Lemma timer_in_kernel :
  match exc_vts callee 1 (take_exception 1 0 0 kern) with
  | Ret (Ok c') => Some (a_x c', sp c', a_log c') | _ => None end =
    Some (regs0, stop - 0x1000, (Out <$> b_timer_irq) ++ [TimerSet 1000; EndIntr 27]).
Proof. by vm_compute. Qed.

(** The frame of a new program at 0x3000. *)
Definition frame0 : ExcFrame_aarch64 := set_sp_aarch64 (set_pc_aarch64 ExcFrame_new_aarch64 0x401000) 0x7ffffffff000.
Definition switch : CpuA64 := xset 2 ktop (xset 1 0x3000 (a_with_mem kern (store_words mem0 0x3000 (frame_words_aarch64 frame0)))).

Lemma frame0_ok_a64 : frame_ok_aarch64 frame0.
Proof. constructor; [done|..]; cbn; (repeat (apply Forall_cons_2; [by vm_compute|])); apply Forall_nil_2. Qed.

Lemma rstr_ctxt_aarch64_spec_witness :
  exists c', execA no_calleeA (rstr_ctxt_aarch64 1 2) switch = Ret (Ok c') /\ entered frame0 ktop switch c' /\
    reads (a_mem c') 0x3000 (frame_words_aarch64 frame0) /\ same_outside 0x3000 (0x3000 + 816) (a_mem switch) (a_mem c').
Proof.
  apply (rstr_ctxt_aarch64_spec no_calleeA 1 2 switch frame0 0x3000); try done.
  - assert (a_ok switch) as Hok.
    { apply ok_xset; [apply ok_xset; [|done]|done]. destruct (at_ok _ (ru_typed _ running_kern)). by constructor. }
    by constructor.
  - apply frame0_ok_a64.
  - apply reads_store_words. rewrite words_of_frame. apply words_of_ok, frame0_ok_a64.
Defined.

Definition fresh : CpuA64 := xset 1 stop (xset 2 0xffff800000000800 (a_with_ctrl kern 0x3c5 0xffff800000001000)).

Lemma exc_init_aarch64_spec_witness :
  exists c', execA no_calleeA (exc_init_aarch64 2 1 8) fresh = Ret (Ok c') /\
    spsel c' = false /\ sp c' = sp fresh /\ a_sp1 c' = stop /\ sget VBAR_EL1 (a_sys c') = 0xffff800000000800 /\
    sget TPIDR_EL1 (a_sys c') = 0 /\ a_mem c' = mem0 /\
    (forall r, r <> 8%nat -> xget r c' = xget r fresh) /\ (forall i, 0 < i -> Z.testbit (a_pst c') i = Z.testbit (a_pst fresh) i).
Proof. apply (exc_init_aarch64_spec no_calleeA 2 1 8 fresh); try done. lia. Defined.
End A64Demo.
