(* ===== verification/Proc.v ===== *)
(** * Proc: programs and processes (proc/)

    [ProcCtrlBlk::new] builds the address space, the memory and the first
    context of a program; the table of processes names them; [exec_proc]
    enters one, and [exit_proc] ends the one that runs.

    A value that goes out of scope is dropped where the code drops it: the
    page tables and the page buffers when an error returns early, the fields
    of a process when it leaves the table.  [OwnedPtr] has no [Drop]. *)

From S2P Require Import Prelude Kargs Rvm RamUtil Physalloc Glacier Heap Aps Bytes Memory Elf Flint.
From S2P Require Import Block Fat Vfs Amd64Exc A64Exc.

(** ** Interfaces *)

(** What processes need of the kernel beside page tables: [PHYS_ALLOC.free],
    and the heap.  The flag of [heap_alloc] says that the caller holds the
    lock of [GLACIER], which the heap takes when it has to grow; size and
    alignment follow; the result is 0 when there is no memory. *)
Class KernelMem (A T : Type) : Type := {
  km_free : A -> OwnedPtr -> outcome A;
  heap_alloc : bool -> Z -> Z -> Machine A -> T -> outcome (Machine A * T * Z);
  heap_dealloc : Z -> Z -> T -> outcome T
}.

(** [xmas_elf::ElfFile::new] *)
Class ElfParser : Type := { elf_file_new : list Z -> result string ElfFile }.

(** What a process needs of an [ExcFrame]. *)
Class ExcCtxt (F : Type) : Type := {
  ctxt_new : F;
  ctxt_set_pc : F -> Z -> F;
  ctxt_set_sp : F -> Z -> F;
  ctxt_pc : F -> Z;
  ctxt_sp : F -> Z
}.
Class ExcCtxtLaws (F : Type) `{ExcCtxt F} : Prop := {
  pc_set_pc : forall f v, ctxt_pc (ctxt_set_pc f v) = v;
  pc_set_sp : forall f v, ctxt_pc (ctxt_set_sp f v) = ctxt_pc f;
  sp_set_sp : forall pc v, ctxt_sp (ctxt_set_sp (ctxt_set_pc ctxt_new pc) v) = v
}.

#[export] Instance ctxt_amd64 : ExcCtxt ExcFrame := {|
  ctxt_new := ExcFrame_new; ctxt_set_pc := ExcFrame_set_pc; ctxt_set_sp := ExcFrame_set_sp;
  ctxt_pc := ExcFrame_pc; ctxt_sp := ExcFrame_sp
|}.
#[export] Instance ctxt_aarch64 : ExcCtxt ExcFrame_aarch64 := {|
  ctxt_new := ExcFrame_new_aarch64; ctxt_set_pc := set_pc_aarch64; ctxt_set_sp := set_sp_aarch64;
  ctxt_pc := pc_aarch64; ctxt_sp := sp_aarch64
|}.
#[export] Instance laws_amd64 : ExcCtxtLaws ExcFrame.
Proof. by constructor. Qed.
#[export] Instance laws_aarch64 : ExcCtxtLaws ExcFrame_aarch64.
Proof. by constructor. Qed.

(** ** The kernel's memory *)

Section Proc.
Context `{Platform} {A T : Type} `{!FrameAlloc A} `{!KernelMem A T}.

(** Page tables and allocator, heap, the bytes of the memory, [GLACIER]. *)
Record Kern : Type := mkKern { kn_st : Machine A; kn_heap : T; kn_mem : Mem; kn_glacier : Glacier }.

Definition with_st (s : Kern) (st : Machine A) : Kern := mkKern st (kn_heap s) (kn_mem s) (kn_glacier s).
Definition with_bytes (s : Kern) (m : Mem) : Kern := mkKern (kn_st s) (kn_heap s) m (kn_glacier s).

Definition phys_alloc_op (args : AllocParams) (s : Kern) : outcome (Kern * option OwnedPtr) :=
  '(a, r) ← fa_alloc (m_fa (kn_st s)) args;
  Ret (with_st s (set_fa (kn_st s) a), r).
Definition phys_free_op (p : OwnedPtr) (s : Kern) : outcome Kern :=
  a ← km_free (m_fa (kn_st s)) p;
  Ret (with_st s (set_fa (kn_st s) a)).

(** [VirtPageBuf]: the address and the size of its layout.  A null pointer is
    not looked at. *)
Record VirtPageBuf : Type := mkVirtPageBuf { vb_ptr : Z; vb_size : Z }.
Definition VirtPageBuf_new (held : bool) (size : Z) (s : Kern) : outcome (Kern * option VirtPageBuf) :=
  if 2 ^ 63 - page_size <? size then Ret (s, None)
  else
    '(st, t, ptr) ← heap_alloc held size page_size (kn_st s) (kn_heap s);
    Ret (mkKern st t (kn_mem s) (kn_glacier s), Some (mkVirtPageBuf ptr size)).
Definition VirtPageBuf_drop (b : VirtPageBuf) (s : Kern) : outcome Kern :=
  t ← heap_dealloc (vb_ptr b) (vb_size b) (kn_heap s);
  Ret (mkKern (kn_st s) t (kn_mem s) (kn_glacier s)).

(** ** [KernelStack] (kstack.rs) *)

Record KernelStack : Type := mkKernelStack { ks_buf : VirtPageBuf; ks_pa : Z }.

Definition KernelStack_new (s : Kern) : outcome (Kern * option KernelStack) :=
  n ← uadd 64 stack_size page_size;
  '(s, r) ← VirtPageBuf_new true n s;
  match r with
  | None => Ret (s, None)
  | Some buf =>
      let va := vb_ptr buf in
      r ← get_pa (kn_glacier s) va (kn_st s);
      match r with
      | None => s ← VirtPageBuf_drop buf s; Ret (s, None)
      | Some pa =>
          st ← unmap_page (kn_glacier s) va (kn_st s);
          Ret (with_st s st, Some (mkKernelStack buf pa))
      end
  end.

Definition KernelStack_top (k : KernelStack) : outcome Z :=
  a ← uadd 64 (vb_ptr (ks_buf k)) page_size;
  uadd 64 a stack_size.

(** [drop], and then the drop of the buffer. *)
Definition KernelStack_drop (k : KernelStack) (s : Kern) : outcome Kern :=
  '(st, _) ← map_page (kn_glacier s) (vb_ptr (ks_buf k)) (ks_pa k) (K_RWO flags) (kn_st s);
  VirtPageBuf_drop (ks_buf k) (with_st s st).

(** ** [ProcCtrlBlk] (ctrlblk.rs) *)

Record VRamMap : Type := mkVRamMap { vm_va : Z; vm_pa : Z; vm_size : Z; vm_flags : Z }.

Inductive ProcState : Type := Ready | Blocked | Sleeping.
#[export] Instance ProcState_eq_dec : EqDecision ProcState.
Proof. solve_decision. Defined.

Context {W : Type} {F : Type} `{!ExcCtxt F} `{!ElfParser}.
(** The bound on the clusters of a FAT file that are read. *)
Variable fuel : nat.

Record ProcCtrlBlk : Type := mkProc {
  ppid : Z;
  pc_glacier : Glacier;
  kstack : KernelStack;
  phys_alloc : list OwnedPtr;
  vram_map : list VRamMap;
  ctxt : F;
  state : ProcState;
  fds : gmap Z (vnode (W := W))
}.

(** The bounds of the segments to load; no segment is a panic. *)
Definition get_proc_vaset (elf : ElfFile) : outcome (Z * Z) :=
  va_base ← iter_min (ph_virtual_addr <$> List.filter is_load (program_iter elf));
  ends ← load_ends (program_iter elf);
  va_top ← iter_max ends;
  Ret (va_base, va_top).

(** [match ph.flags().0] *)
Definition seg_uflags (f : Z) : Z :=
  if f =? 4 then U_ROO flags else if f =? 5 then U_ROX flags
  else if f =? 6 then U_RWO flags else if f =? 7 then U_RWX flags else U_RWO flags.

(** One turn of the loop, for a segment to load. *)
Definition put_segment (glacier : Glacier) (file_bin : list Z) (proc_addr va_base : Z) (ph : ProgramHeader) (s : Kern)
    : outcome (Kern * result string VRamMap) :=
  let virt_addr := ph_virtual_addr ph in
  d ← usub 64 virt_addr va_base;
  phys_addr ← uadd 64 proc_addr d;
  let fl := seg_uflags (ph_flags ph) in
  '(st, r) ← map_range glacier virt_addr phys_addr (ph_mem_size ph) fl (kn_st s);
  let s := with_st s st in
  match r with
  | Err _ => Ret (s, Err "Failed to map process")
  | Ok _ =>
      let m := zero_bytes (kn_mem s) phys_addr (ph_mem_size ph) in
      e ← uadd 64 (ph_offset ph) (ph_file_size ph);
      src ← slice file_bin (ph_offset ph) (e - ph_offset ph);
      Ret (with_bytes s (put_bytes m phys_addr src), Ok (mkVRamMap virt_addr phys_addr (ph_mem_size ph) fl))
  end.

Fixpoint put_segments (glacier : Glacier) (file_bin : list Z) (proc_addr va_base : Z) (phs : list ProgramHeader)
    (vram_map : list VRamMap) (s : Kern) : outcome (Kern * result string (list VRamMap)) :=
  match phs with
  | [] => Ret (s, Ok vram_map)
  | ph :: phs =>
      if is_load ph then
        '(s, r) ← put_segment glacier file_bin proc_addr va_base ph s;
        match r with
        | Err e => Ret (s, Err e)
        | Ok v => put_segments glacier file_bin proc_addr va_base phs (vram_map ++ [v]) s
        end
      else put_segments glacier file_bin proc_addr va_base phs vram_map s
  end.

Definition user_stack_size : Z := 0x100000.

(** [0usize.wrapping_sub(hihalf())] *)
Definition lohalf_top : outcome Z := hh ← hihalf; Ret (uwrap_sub 64 0 hh).

(** From the allocation of the memory of the process on, with the address
    space that was just made: what is left is to drop it and [file_bin]. *)
Definition build (glacier : Glacier) (elf : ElfFile) (file_bin : list Z) (s : Kern)
    : outcome (Kern * result string ProcCtrlBlk) :=
  '(va_base, va_top) ← get_proc_vaset elf;
  proc_size ← usub 64 va_top va_base;
  '(s, r) ← phys_alloc_op (AllocParams_new proc_size) s;
  match r with
  | None => Ret (s, Err "Failed to allocate process memory")
  | Some proc_ptr =>
      '(s, r) ← put_segments glacier file_bin (op_ptr proc_ptr) va_base (program_iter elf) [] s;
      match r with
      | Err e => Ret (s, Err e)
      | Ok vmap =>
          '(s, r) ← phys_alloc_op (AllocParams_new user_stack_size) s;
          match r with
          | None => Ret (s, Err "Failed to allocate user stack")
          | Some stack_ptr =>
              top ← lohalf_top;
              lo ← usub 64 top user_stack_size;
              '(st, r) ← map_range glacier lo (op_ptr stack_ptr) user_stack_size (U_RWO flags) (kn_st s);
              let s := with_st s st in
              match r with
              | Err _ => Ret (s, Err "Failed to map user stack")
              | Ok _ =>
                  let vmap := vmap ++ [mkVRamMap lo (op_ptr stack_ptr) user_stack_size (U_RWO flags)] in
                  let c := ctxt_set_sp (ctxt_set_pc ctxt_new (entry_point elf)) top in
                  '(s, k) ← KernelStack_new s;
                  match k with
                  | None => Ret (s, Err "Failed to create kernel stack")
                  | Some k => Ret (s, Ok (mkProc 0 glacier k [proc_ptr; stack_ptr] vmap c Ready ∅))
                  end
              end
          end
      end
  end.

(** A new address space, and [build]; the address space is dropped when the
    rest fails. *)
Definition with_glacier (elf : ElfFile) (file_bin : list Z) (s : Kern) : outcome (Kern * result string ProcCtrlBlk) :=
  '(st, glacier) ← Glacier_new (root_table (kn_glacier s)) (kn_st s);
  '(s, r) ← build glacier elf file_bin (with_st s st);
  match r with
  | Ok p => Ret (s, Ok p)
  | Err e => st ← Glacier_drop glacier (kn_st s); Ret (with_st s st, Err e)
  end.

(** The bytes of a page buffer. *)
Definition buf_bytes (m : Mem) (p : OwnedPtr) : list Z := (fun i => m (op_ptr p + i)) <$> seqZ 0 (op_size p).

Definition ProcCtrlBlk_new (vfs : Vfs (W := W)) (node : vnode) (s : Kern) : outcome (Kern * result string ProcCtrlBlk) :=
  meta ← node_meta vfs node;
  '(s, r) ← phys_alloc_op (buffer_request (fm_size meta)) s;
  match r with
  | None => Ret (s, Err "Failed to allocate buffer")
  | Some buf =>
      r ← node_read fuel vfs node (buf_bytes (kn_mem s) buf) 0;
      '(s, r) ← (match r with
        | Err e => Ret (s, Err e)
        | Ok file_bin =>
            let s := with_bytes s (put_bytes (kn_mem s) (op_ptr buf) file_bin) in
            match elf_file_new file_bin with
            | Err e => Ret (s, Err e)
            | Ok elf => with_glacier elf file_bin s
            end
        end);
      s ← phys_free_op buf s;
      Ret (s, r)
  end.

Fixpoint free_all (ps : list OwnedPtr) (s : Kern) : outcome Kern :=
  match ps with
  | [] => Ret s
  | p :: ps => s ← phys_free_op p s; free_all ps s
  end.

(** [drop], and the drops of the fields in their order. *)
Definition ProcCtrlBlk_drop (p : ProcCtrlBlk) (s : Kern) : outcome Kern :=
  s ← free_all (phys_alloc p) s;
  st ← Glacier_drop (pc_glacier p) (kn_st s);
  KernelStack_drop (kstack p) (with_st s st).
End Proc.
Arguments Kern A T : clear implicits.
Arguments ProcCtrlBlk W F : clear implicits.
