(* ===== verification/ProcTable.v ===== *)
(** * ProcTable: the table of processes (proc/mod.rs)

    [PROCS], [PID_RR] and [RQ], what the processor that runs the code has
    loaded, and the operations [exec], [exec_aleph], [exec_proc] and
    [exit_proc]. *)

From S2P Require Import Prelude Kargs Rvm RamUtil Physalloc Glacier Heap Bytes Memory Elf Flint Block.
From S2P Require Import Fat Vfs Aps Amd64Exc A64Exc Proc.

(** What becomes visible outside. *)
Inductive ProcMsg : Type :=
  | ProcExited (pid code : Z)
  | ExecFailed (path : list Z) (err : string)
  | ScheduleMsg
  | SchedTimer (ms : Z).

Section Table.
Context `{Platform} {A T : Type} `{!FrameAlloc A} `{!KernelMem A T}.
Context {W F : Type} `{!ExcCtxt F} `{!ElfParser}.
Variable fuel : nat.
Abbreviation PCB := (ProcCtrlBlk W F).

(** The state of a processor: the page tables that are loaded, the stack of
    its exceptions, whether interrupts are enabled. *)
Record ProcCpu : Type := mkProcCpu { cp_root : Z; cp_kstk : Z; cp_ints : bool }.

(** [RQ] is by the physical number of the processor. *)
Record System : Type := mkSystem {
  sy_kern : Kern A T;
  sy_procs : gmap Z PCB;
  sy_pid_rr : Z;
  sy_rq : gmap Z Z;
  sy_cpu : gmap Z ProcCpu;
  sy_log : list ProcMsg
}.

Definition ProcTables_new : gmap Z PCB := ∅.

Definition sy_say (s : System) (m : ProcMsg) : System :=
  mkSystem (sy_kern s) (sy_procs s) (sy_pid_rr s) (sy_rq s) (sy_cpu s) (sy_log s ++ [m]).
Definition sy_set_cpu (s : System) (i : Z) (c : ProcCpu) : System :=
  mkSystem (sy_kern s) (sy_procs s) (sy_pid_rr s) (sy_rq s) (<[i := c]> (sy_cpu s)) (sy_log s).
Definition cpu_of (s : System) (i : Z) : ProcCpu := default (mkProcCpu 0 0 false) (sy_cpu s !! i).

(** The loop in [exec]: the number, which is where [PID_RR] stays. *)
Fixpoint find_pid (n : nat) (procs : gmap Z PCB) (pid_rr : Z) : outcome Z :=
  match n with
  | O => NoFuel
  | S n =>
      let pid := pid_rr in
      if negb (bool_decide (is_Some (procs !! pid))) && negb (pid =? 0) then Ret pid
      else find_pid n procs (uwrap_add 64 pid_rr 1)
  end.

Definition exec (n : nat) (vfs : Vfs (W := W)) (node : vnode) (s : System) : outcome (System * result string Z) :=
  '(k, r) ← ProcCtrlBlk_new fuel vfs node (sy_kern s);
  let s := mkSystem k (sy_procs s) (sy_pid_rr s) (sy_rq s) (sy_cpu s) (sy_log s) in
  match r with
  | Err e => Ret (s, Err e)
  | Ok proc =>
      pid ← find_pid n (sy_procs s) (sy_pid_rr s);
      Ret (mkSystem k (<[pid := proc]> (sy_procs s)) pid (sy_rq s) (sy_cpu s) (sy_log s), Ok pid)
  end.

(** [exec_proc] on processor [i]: [Ok] is the context that [rstr_ctxt] is
    given and the top of the kernel stack; it does not come back. *)
Definition exec_proc (i pid : Z) (s : System) : outcome (System * result string (F * Z)) :=
  match sy_procs s !! pid with
  | None => Ret (s, Err "No such process")
  | Some proc =>
      if negb (bool_decide (state proc = Ready)) then Ret (s, Err "Process not in ready state")
      else
        top ← KernelStack_top (kstack proc);
        let c := cpu_of s i in
        Ret (sy_set_cpu (mkSystem (sy_kern s) (sy_procs s) (sy_pid_rr s) (<[i := pid]> (sy_rq s)) (sy_cpu s) (sy_log s))
               i (mkProcCpu (root_table (pc_glacier proc)) (cp_kstk c) (cp_ints c)),
             Ok (ctxt proc, top))
  end.

(** "/mnt/block0p0/sbin/aleph" *)
Definition aleph_path : list Z := str "/mnt/block0p0/sbin/aleph".

Definition exec_aleph (n : nat) (i : Z) (vfs : Vfs (W := W)) (s : System) : outcome (System * option (F * Z)) :=
  r ← vfs_walk fuel vfs aleph_path;
  match r with
  | Err e => Ret (sy_say s (ExecFailed aleph_path e), None)
  | Ok node =>
      '(s, r) ← exec n vfs node s;
      match r with
      | Err e => Ret (sy_say s (ExecFailed aleph_path e), None)
      | Ok pid =>
          '(s, r) ← exec_proc i pid s;
          match r with
          | Err e => Ret (sy_say s (ExecFailed aleph_path e), None)
          | Ok x => Ret (s, Some x)
          end
      end
  end.

(** [schedule], which then waits for interrupts for ever. *)
Definition schedule (s : System) : System := sy_say (sy_say s ScheduleMsg) (SchedTimer 1000).

(** [exit_proc] on processor [i]; [virtid] is its number in [AP_LIST]. *)
Definition exit_proc (i virtid code : Z) (s : System) : outcome System :=
  let c := cpu_of s i in
  let s := sy_set_cpu s i (mkProcCpu (root_table (kn_glacier (sy_kern s))) (cp_kstk c) false) in
  let pid := default 0 (sy_rq s !! i) in
  k ← (match sy_procs s !! pid with
       | None => Ret (sy_kern s)
       | Some proc => ProcCtrlBlk_drop proc (sy_kern s)
       end);
  let s := mkSystem k (delete pid (sy_procs s)) (sy_pid_rr s) (delete i (sy_rq s)) (sy_cpu s) (sy_log s) in
  let s := sy_say s (ProcExited pid code) in
  top ← stack_top virtid;
  let c := cpu_of s i in
  Ret (schedule (sy_set_cpu s i (mkProcCpu (cp_root c) top (cp_ints c)))).
End Table.
Arguments System A T W F : clear implicits.

(** * Process numbers, and processors that run processes

    [exec] always finds a number; on every reachable state of any number of
    processors, the running processes exist, each on one processor, with its
    own page tables loaded. *)

Section Table.
Context `{Platform} {A T : Type} `{!FrameAlloc A} `{!KernelMem A T}.
Context {W F : Type} `{!ExcCtxt F} `{!ElfParser}.
Variable fuel : nat.
Abbreviation PCB := (ProcCtrlBlk W F).
Abbreviation Sys := (System A T W F).
Implicit Types (procs : gmap Z PCB) (s : Sys).

(** ** Process numbers *)

Definition pid_free procs (pid : Z) : Prop := procs !! pid = None /\ pid <> 0.
Definition pid_at (rr : Z) (j : nat) : Z := (rr + Z.of_nat j) mod 2 ^ 64.

Lemma pid_at_S rr j : pid_at (uwrap_add 64 rr 1) j = pid_at rr (S j).
Proof. unfold pid_at, uwrap_add. rewrite Z.add_mod_idemp_l by lia. f_equal. lia. Qed.

Lemma pid_test procs pid :
  negb (bool_decide (is_Some (procs !! pid))) && negb (pid =? 0) = true <-> pid_free procs pid.
Proof.
  unfold pid_free. rewrite andb_true_iff, !negb_true_iff, bool_decide_eq_false, Z.eqb_neq, eq_None_not_Some. done.
Qed.

(** The first free number from [rr] on. *)
Lemma find_pid_first n procs rr :
  0 <= rr < 2 ^ 64 ->
  (exists k, (k < n)%nat /\ find_pid n procs rr = Ret (pid_at rr k) /\ pid_free procs (pid_at rr k) /\
     forall j, (j < k)%nat -> ~ pid_free procs (pid_at rr j)) \/
  (find_pid n procs rr = NoFuel /\ forall j, (j < n)%nat -> ~ pid_free procs (pid_at rr j)).
Proof.
  revert rr. induction n as [|n IH]; intros rr Hr; [right; split; [done|lia]|]. cbn [find_pid].
  assert (pid_at rr 0 = rr) as Hz0 by (unfold pid_at; rewrite Z.add_0_r; by apply Z.mod_small).
  destruct (negb _ && negb _) eqn:Ht.
  - apply pid_test in Ht. left. exists 0%nat. rewrite Hz0. split_and!; [lia|done|done|lia].
  - assert (~ pid_free procs rr) as Hn by (rewrite <- pid_test, Ht; done).
    destruct (IH (uwrap_add 64 rr 1)) as [(k & Hk & -> & Hf & Hj)|[-> Hj]]; [apply Z.mod_pos_bound; lia| |].
    + left. exists (S k). rewrite pid_at_S in *. split_and!; [lia|done|done|].
      intros [|j] Hlt; [by rewrite Hz0|]. rewrite <- pid_at_S. apply Hj. lia.
    + right. split; [done|]. intros [|j] Hlt; [by rewrite Hz0|]. rewrite <- pid_at_S. apply Hj. lia.
Qed.

Lemma pid_at_inj rr i j :
  Z.of_nat i < 2 ^ 64 -> Z.of_nat j < 2 ^ 64 -> pid_at rr i = pid_at rr j -> i = j.
Proof.
  unfold pid_at. intros Hi Hj He.
  assert ((Z.of_nat i - Z.of_nat j) mod 2 ^ 64 = 0) as Hd.
  { replace (Z.of_nat i - Z.of_nat j) with (rr + Z.of_nat i - (rr + Z.of_nat j)) by lia. rewrite Zminus_mod, He, Z.sub_diag. done. }
  apply Z.mod_divide in Hd as [z Hz]; [|lia].
  assert (z < 1) by (apply (Z.mul_lt_mono_pos_r (2 ^ 64)); lia). assert (-1 < z) by (apply (Z.mul_lt_mono_pos_r (2 ^ 64)); lia). nia.
Qed.

(** Among one more numbers than there are in use, one is free. *)
Lemma some_pid_free procs rr n :
  (size procs + 1 < n)%nat -> Z.of_nat n <= 2 ^ 64 -> exists j, (j < n)%nat /\ pid_free procs (pid_at rr j).
Proof.
  intros Hs Hn. destruct (decide (Exists (fun j => procs !! pid_at rr j = None /\ pid_at rr j <> 0) (seq 0 n))) as [He|He].
  { apply Exists_exists in He as (j & Hj & Hf). exists j. apply elem_of_seq in Hj. split; [lia|done]. }
  exfalso. assert (NoDup (pid_at rr <$> seq 0 n)) as Hnd.
  { apply NoDup_fmap_2_strong; [|apply NoDup_seq]. intros i j Hi%elem_of_seq Hj%elem_of_seq. apply pid_at_inj; lia. }
  assert (list_to_set (pid_at rr <$> seq 0 n) ⊆ dom procs ∪ {[0]}) as Hsub.
  { intros x Hx. apply elem_of_list_to_set, list_elem_of_fmap in Hx as (j & -> & Hj).
    destruct (procs !! pid_at rr j) eqn:Hp; [apply elem_of_union_l, elem_of_dom; by eexists|].
    destruct (decide (pid_at rr j = 0)) as [->|Hz]; [by apply elem_of_union_r, elem_of_singleton|].
    destruct He. apply Exists_exists. by exists j. }
  apply subseteq_size in Hsub. rewrite size_list_to_set in Hsub by done. rewrite length_fmap, length_seq in Hsub.
  rewrite size_union_alt, size_dom in Hsub. pose proof (subseteq_size ({[0]} ∖ dom procs) {[0]} (subseteq_difference_l _ _ _ (reflexivity _))) as Hsz.
  rewrite size_singleton in Hsz. lia.
Qed.

(** C18: [exec] of a program that loads ends with a number that no process
    has, not 0, the first such number from the last one given on, within as
    many turns as there are processes and two; the table gains that process
    and nothing else. *)
Theorem exec_spec n vfs node s k p :
  ProcCtrlBlk_new fuel vfs node (sy_kern s) = Ret (k, Ok p) ->
  0 <= sy_pid_rr s < 2 ^ 64 -> (size (sy_procs s) + 2 <= n)%nat -> Z.of_nat (size (sy_procs s)) + 2 <= 2 ^ 64 ->
  exists j, (j <= size (sy_procs s) + 1)%nat /\ let pid := pid_at (sy_pid_rr s) j in
    exec fuel n vfs node s =
      Ret (mkSystem k (<[pid := p]> (sy_procs s)) pid (sy_rq s) (sy_cpu s) (sy_log s), Ok pid) /\
    pid_free (sy_procs s) pid /\ forall i, (i < j)%nat -> ~ pid_free (sy_procs s) (pid_at (sy_pid_rr s) i).
Proof.
  intros Hnew Hrr Hn Hb. set (procs := sy_procs s) in *.
  destruct (some_pid_free procs (sy_pid_rr s) (size procs + 2)) as (j0 & Hj0 & Hf0); [lia|lia|].
  unfold exec. rewrite Hnew, Ret_bind. cbn [sy_procs sy_pid_rr]. fold procs.
  destruct (find_pid_first n procs (sy_pid_rr s) Hrr) as [(j & Hj & -> & Hf & Hno)|[_ Hno]]; [|by destruct (Hno j0); [lia|]].
  exists j. split_and!; [|done|done|done].
  destruct (decide (j <= size procs + 1)%nat); [done|]. destruct (Hno j0); [lia|done].
Qed.

(** ** What runs *)

Lemma build_ready glacier elf file k k' (p : PCB) : build glacier elf file k = Ret (k', Ok p) -> state p = Ready.
Proof.
  unfold build. intros Hb. apply bind_Ret in Hb as ([lo hi] & _ & Hb). apply bind_Ret in Hb as (sz & _ & Hb).
  apply bind_Ret in Hb as ([k1 [pp|]] & _ & Hb); [|done]. apply bind_Ret in Hb as ([k2 [vm|e]] & _ & Hb); [|done].
  apply bind_Ret in Hb as ([k3 [sp|]] & _ & Hb); [|done]. apply bind_Ret in Hb as (top & _ & Hb).
  apply bind_Ret in Hb as (slo & _ & Hb). apply bind_Ret in Hb as ([k4 [u|e]] & _ & Hb); [|done].
  apply bind_Ret in Hb as ([k5 [ks|]] & _ & Hb); [|done]. by injection Hb as <- <-.
Qed.

Lemma with_glacier_ready elf file k k' (p : PCB) : with_glacier elf file k = Ret (k', Ok p) -> state p = Ready.
Proof.
  unfold with_glacier. intros Hb. apply bind_Ret in Hb as ([st g] & _ & Hb).
  apply bind_Ret in Hb as ([k1 [q|e]] & Hq & Hb).
  - injection Hb as <- <-. by apply build_ready in Hq.
  - by apply bind_Ret in Hb as (st' & _ & Hb).
Qed.

Lemma new_ready vfs node k k' (p : PCB) : ProcCtrlBlk_new fuel vfs node k = Ret (k', Ok p) -> state p = Ready.
Proof.
  unfold ProcCtrlBlk_new. intros Hb. apply bind_Ret in Hb as (md & _ & Hb). apply bind_Ret in Hb as ([k1 [buf|]] & _ & Hb); [|done].
  apply bind_Ret in Hb as (r & _ & Hb). apply bind_Ret in Hb as ([k2 r2] & Hr & Hb).
  apply bind_Ret in Hb as (k3 & _ & Hb). injection Hb as <- ->.
  destruct r as [file|e]; [|done]. destruct (elf_file_new file) as [elf|e]; [|done]. by apply with_glacier_ready in Hr.
Qed.

(** [n] bounds the search for a number.  Programs start on processors that
    run none, processors end what they run, and the rest of the kernel works
    on its memory. *)
Variable n : nat.

Inductive sys_step : Sys -> Sys -> Prop :=
  | step_exec i vfs s s' r : sy_rq s !! i = None -> exec_aleph fuel n i vfs s = Ret (s', r) -> sys_step s s'
  | step_exit i virtid code s s' : is_Some (sy_rq s !! i) -> exit_proc i virtid code s = Ret s' -> sys_step s s'
  | step_kern s k : sys_step s (mkSystem k (sy_procs s) (sy_pid_rr s) (sy_rq s) (sy_cpu s) (sy_log s)).

Definition sys_init k cpus : Sys := mkSystem k ∅ 1 ∅ cpus [].

Inductive reachable : Sys -> Prop :=
  | reach_init k cpus : reachable (sys_init k cpus)
  | reach_step s s' : reachable s -> sys_step s s' -> reachable s'.

Record procs_ok s : Prop := {
  po_rr : 0 <= sy_pid_rr s < 2 ^ 64;
  po_pid : forall pid p, sy_procs s !! pid = Some p -> 0 < pid < 2 ^ 64 /\ state p = Ready;
  po_runs : forall i pid, sy_rq s !! i = Some pid ->
    exists p, sy_procs s !! pid = Some p /\ cp_root (cpu_of s i) = root_table (pc_glacier p);
  po_once : forall i j pid, sy_rq s !! i = Some pid -> sy_rq s !! j = Some pid -> i = j
}.

Lemma procs_ok_kern s k l :
  procs_ok s -> procs_ok (mkSystem k (sy_procs s) (sy_pid_rr s) (sy_rq s) (sy_cpu s) l).
Proof. intros [K1 K2 K3 K4]. by constructor. Qed.

(** A new process that is not running yet. *)
Lemma exec_ok vfs node s s' r :
  procs_ok s -> exec fuel n vfs node s = Ret (s', r) ->
  procs_ok s' /\ sy_rq s' = sy_rq s /\ sy_cpu s' = sy_cpu s /\
  match r with
  | Ok pid => exists p, sy_procs s' = <[pid := p]> (sy_procs s) /\ sy_procs s !! pid = None /\ state p = Ready
  | Err _ => sy_procs s' = sy_procs s
  end.
Proof.
  intros Hok. pose proof Hok as [K1 K2 K3 K4]. unfold exec. intros Hx. apply bind_Ret in Hx as ([k [p|e]] & Hnew & Hx).
  - apply bind_Ret in Hx as (pid & Hp & Hx). injection Hx as <- <-. cbn [sy_procs sy_pid_rr] in *.
    destruct (find_pid_first n (sy_procs s) (sy_pid_rr s) K1) as [(j & _ & Hj & [Hf Hnz] & _)|[Hj _]]; [|congruence].
    rewrite Hj in Hp. injection Hp as <-. pose proof (new_ready _ _ _ _ _ Hnew) as Hr.
    assert (0 <= pid_at (sy_pid_rr s) j < 2 ^ 64) as Hrange by (apply Z.mod_pos_bound; lia).
    split_and!; [|done|done|by exists p]. constructor; cbn [sy_pid_rr sy_procs sy_rq]; [done| | |done].
    + intros pid q [[<- <-]|[_ Hq]]%lookup_insert_Some; [split; [lia|done]|by apply K2].
    + intros i pid Hi. destruct (K3 i pid Hi) as (q & Hq & Hroot). exists q. split; [|done].
      rewrite lookup_insert_ne; [done|]. intros <-. congruence.
  - injection Hx as <- <-. split_and!; [by apply procs_ok_kern|done..].
Qed.

(** The process starts on a processor. *)
Lemma exec_proc_ok i pid p s s' r :
  procs_ok s -> sy_rq s !! i = None -> (forall j, sy_rq s !! j <> Some pid) -> sy_procs s !! pid = Some p ->
  exec_proc i pid s = Ret (s', r) -> procs_ok s'.
Proof.
  intros [K1 K2 K3 K4] Hi Hno Hp Hx. unfold exec_proc in Hx. rewrite Hp in Hx.
  destruct (K2 _ _ Hp) as [_ Hst]. rewrite bool_decide_eq_true_2 in Hx by done. cbn [negb] in Hx.
  apply bind_Ret in Hx as (top & _ & Hx). injection Hx as <- <-.
  constructor; cbn [sy_set_cpu sy_pid_rr sy_procs sy_rq sy_cpu]; [done|done| |].
  - intros j pid' [[<- <-]|[Hne Hj]]%lookup_insert_Some.
    + exists p. split; [done|]. unfold cpu_of. cbn [sy_cpu sy_set_cpu]. by rewrite lookup_insert_eq.
    + destruct (K3 j pid' Hj) as (q & Hq & Hroot). exists q. split; [done|]. rewrite <- Hroot.
      unfold cpu_of. cbn [sy_cpu sy_set_cpu]. by rewrite lookup_insert_ne.
  - intros j j' pid' [[<- <-]|[Hne Hj]]%lookup_insert_Some [[<- He]|[Hne' Hj']]%lookup_insert_Some; [done| | |by eapply K4].
    + by destruct (Hno j').
    + subst. by destruct (Hno j).
Qed.

Lemma exec_aleph_ok i vfs s s' r :
  procs_ok s -> sy_rq s !! i = None -> exec_aleph fuel n i vfs s = Ret (s', r) -> procs_ok s'.
Proof.
  intros Hok Hi Hx. unfold exec_aleph in Hx. apply bind_Ret in Hx as ([node|e] & _ & Hx).
  2:{ injection Hx as <- <-. by apply procs_ok_kern. }
  apply bind_Ret in Hx as ([s1 r1] & He & Hx). pose proof (exec_ok vfs node s s1 r1 Hok He) as (Hok1 & Hrq & _ & Hr).
  destruct r1 as [pid|e]; [|injection Hx as <- <-; by apply procs_ok_kern].
  destruct Hr as (p & Hprocs & Hfree & _). apply bind_Ret in Hx as ([s2 r2] & Hp & Hx).
  assert (procs_ok s2) as Hok2.
  { eapply (exec_proc_ok i pid p s1); [done|by rewrite Hrq| |by rewrite Hprocs, lookup_insert_eq|done].
    intros j Hj. rewrite Hrq in Hj. destruct (po_runs _ Hok j pid Hj) as (q & Hq & _). congruence. }
  destruct r2 as [x|e]; injection Hx as <- <-; [done|by apply procs_ok_kern].
Qed.

(** The process that runs ends. *)
Lemma exit_proc_ok i virtid code s s' :
  procs_ok s -> is_Some (sy_rq s !! i) -> exit_proc i virtid code s = Ret s' -> procs_ok s'.
Proof.
  intros [K1 K2 K3 K4] [pid Hi] Hx. unfold exit_proc in Hx. cbn [sy_rq sy_set_cpu sy_procs] in Hx.
  rewrite Hi in Hx. cbn [default] in Hx. apply bind_Ret in Hx as (k & _ & Hx). apply bind_Ret in Hx as (top & _ & Hx).
  injection Hx as <-. constructor; cbn; [done| | |].
  - intros q p [_ Hq]%lookup_delete_Some. by apply (K2 q).
  - intros j q [Hne Hj]%lookup_delete_Some. destruct (K3 j q Hj) as (p & Hp & Hroot). exists p. split.
    + rewrite lookup_delete_ne; [done|]. intros <-. apply Hne. by eapply K4.
    + rewrite <- Hroot. unfold cpu_of. cbn. by rewrite !lookup_insert_ne by done.
  - intros j j' q [_ Hj]%lookup_delete_Some [_ Hj']%lookup_delete_Some. by eapply K4.
Qed.

(** C17: on every state that any number of processors reach, which start and
    end programs: every process has a number that is not 0 and is ready, the
    process that a processor runs is in the table and its page tables are
    the ones that are loaded, and no process runs on two processors. *)
Theorem procs_safe s : reachable s -> procs_ok s.
Proof.
  induction 1 as [k cpus|s s' _ IH Hstep].
  - constructor; cbn; [lia|intros pid p Hp; by rewrite lookup_empty in Hp|intros i pid Hp; by rewrite lookup_empty in Hp|].
    intros i j pid Hp. by rewrite lookup_empty in Hp.
  - destruct Hstep as [i vfs s s' r Hi Hx|i virtid code s s' Hi Hx|s k].
    + exact (exec_aleph_ok i vfs s s' r IH Hi Hx).
    + exact (exit_proc_ok i virtid code s s' IH Hi Hx).
    + by apply procs_ok_kern.
Qed.
End Table.
