(* ===== verification/ProcThms.v ===== *)
(** * ProcThms: what a new process looks like

    [ProcCtrlBlk::new] on a program whose segments do not share pages: the
    address space, the bytes of the program, its stack, its first context and
    the guard page of its kernel stack. *)

From S2P Require Import Prelude Kargs Rvm RamUtil Physalloc RvmFacts Glacier GlacierSpec GlacierThms.
From S2P Require Import BlockTable PhysallocSpec PhysallocThms GlacierRange Heap GlacierMaps Aps Bytes Memory Elf Flint FlintThms.
From S2P Require Import Block Fat Vfs Amd64Exc A64Exc Proc ProcTable.

(** ** What processes rely on *)

(** Any request: a page-aligned range that was not in use.  Giving a range in
    use back.  The table of blocks has room for a few more.  A heap that has
    room returns without growing. *)
Class ProcLaws `{Platform} (A T : Type) `{FrameLaws A} `{!KernelMem A T} : Type := {
  pl_alloc : forall a args, fa_inv a -> params_ok args -> (page_size | ap_align args) ->
    exists a' r, fa_alloc a args = Ret (a', r) /\ fa_inv a' /\
      match r with
      | None => forall x, fa_taken a' x <-> fa_taken a x
      | Some q =>
          (page_size | op_ptr q) /\ 0 <= op_ptr q /\ 0 < op_size q /\ ap_size args <= op_size q /\ op_ptr q + op_size q <= 2 ^ 60 /\
          (forall x, in_range (op_ptr q) (op_size q) x -> ~ fa_taken a x) /\
          (forall x, fa_taken a' x <-> fa_taken a x \/ in_range (op_ptr q) (op_size q) x)
      end;
  pl_free : forall a p, fa_inv a -> 1 <= fa_room a -> 0 <= op_ptr p -> 0 < op_size p -> op_ptr p + op_size p <= 2 ^ 60 ->
    (forall x, in_range (op_ptr p) (op_size p) x -> fa_taken a x) ->
    exists a', km_free a p = Ret a' /\ fa_inv a' /\ fa_room a - 1 <= fa_room a' /\
      forall x, fa_taken a' x <-> fa_taken a x /\ ~ in_range (op_ptr p) (op_size p) x;
  pl_room : forall a, fa_inv a -> lv G_CFG - 1 <= fa_room a;
  heap_has : T -> Z -> Z -> Prop;
  heap_alloc_law : forall t n al held (st : Machine A), heap_has t n al -> exists t' va,
    heap_alloc held n al st t = Ret (st, t', va) /\ 0 <= va /\ va + n < 2 ^ 64 /\
    exists t'', heap_dealloc va n t' = Ret t''
}.

Section Two.
Context `{Platform} {A : Type} `{!FrameAlloc A} `{!FrameLaws A}.
Abbreviation St := (Machine A).
Abbreviation c := G_CFG.
Abbreviation full := (2 ^ bits G_CFG 0).
Implicit Types (st : St) (τ : gmap (list Z) Z).
Hypothesis Hcfg : cfg_ok c.

Lemma half_ok : 0 < half <= full.
Proof. pose proof (half_facts Hcfg) as [? He]. lia. Qed.
Lemma full_ok : 0 < full <= full.
Proof. pose proof half_ok. lia. Qed.

(** A program's address space next to the kernel's, and ranges that are in
    use and no tables. *)
Record two g gk st τ τk (own : list OwnedPtr) : Prop := {
  tw_g : GInv half g st τ;
  tw_k : GInv full gk st τk;
  tw_dis : forall a, in_tables τk a -> ~ in_tables τ a;
  tw_own : forall q a, q ∈ own -> in_range (op_ptr q) (op_size q) a ->
    fa_taken (m_fa st) a /\ ~ in_tables τ a /\ ~ in_tables τk a
}.

Lemma tables_taken lim g st τ a : GInv lim g st τ -> in_tables τ a -> fa_taken (m_fa st) a.
Proof. intros [HT _] (p & t & Hp & Ha). by eapply t_taken. Qed.

Lemma ginv_alloc lim g st τ f :
  0 < lim <= full -> GInv lim g st τ -> fa_inv f -> (forall x, in_tables τ x -> fa_taken f x) -> GInv lim g (set_fa st f) τ.
Proof. intros Hl [HT _] Hf Hx. constructor; [|done]. by apply (tree_frame lim Hcfg Hl st). Qed.

Lemma two_alloc g gk st τ τk own f q :
  two g gk st τ τk own -> fa_inv f ->
  (forall x, in_range (op_ptr q) (op_size q) x -> ~ fa_taken (m_fa st) x) ->
  (forall x, fa_taken f x <-> fa_taken (m_fa st) x \/ in_range (op_ptr q) (op_size q) x) ->
  two g gk (set_fa st f) τ τk (q :: own).
Proof.
  intros [Hg Hk Hd Ho] Hf Hfresh Ht. constructor.
  - apply ginv_alloc; [apply half_ok|done|done|]. intros x Hx. apply Ht. left. apply (tables_taken _ _ _ _ _ Hg Hx).
  - apply ginv_alloc; [apply full_ok|done|done|]. intros x Hx. apply Ht. left. apply (tables_taken _ _ _ _ _ Hk Hx).
  - done.
  - intros p a [->|Hp]%elem_of_cons Ha.
    + split_and!; [apply Ht; by right|..]; intros Hx; apply (Hfresh a Ha); [apply (tables_taken _ _ _ _ _ Hg Hx)|apply (tables_taken _ _ _ _ _ Hk Hx)].
    + destruct (Ho p a Hp Ha) as (Hta & ? & ?). split_and!; [apply Ht; by left|done..].
Qed.

Lemma two_same g gk st τ τk own f :
  two g gk st τ τk own -> fa_inv f -> (forall x, fa_taken f x <-> fa_taken (m_fa st) x) -> two g gk (set_fa st f) τ τk own.
Proof.
  intros [Hg Hk Hd Ho] Hf Ht. constructor; [apply ginv_alloc; [apply half_ok|done|done|]|apply ginv_alloc; [apply full_ok|done|done|]|done|].
  - intros x Hx. apply Ht, (tables_taken _ _ _ _ _ Hg Hx).
  - intros x Hx. apply Ht, (tables_taken _ _ _ _ _ Hk Hx).
  - intros q a Hq Ha. destruct (Ho q a Hq Ha) as (? & ? & ?). split_and!; [by apply Ht|done..].
Qed.

(** Work on one address space does not reach the other one and the ranges. *)
Lemma own_evolves st τ st' τ' (own : list OwnedPtr) :
  evolves st τ st' τ' ->
  (forall q a, q ∈ own -> in_range (op_ptr q) (op_size q) a -> fa_taken (m_fa st) a /\ ~ in_tables τ a) ->
  forall q a, q ∈ own -> in_range (op_ptr q) (op_size q) a -> fa_taken (m_fa st') a /\ ~ in_tables τ' a.
Proof.
  intros [_ Ht Hn] Ho q a Hq Ha. destruct (Ho q a Hq Ha) as [K1 K2]. split; [by apply Ht|].
  intros Hx. destruct (Hn a Hx); done.
Qed.

Lemma two_map g gk st τ τk own st' τ' :
  two g gk st τ τk own -> GInv half g st' τ' -> evolves st τ st' τ' ->
  two g gk st' τ' τk own /\ forall va, 0 <= va < 2 ^ 64 -> get_pa gk va st' = get_pa gk va st.
Proof.
  intros [Hg Hk Hd Ho] Hg' He.
  destruct (evolves_other full Hcfg full_ok st τ st' τ' (root_table gk) τk He (gi_tree _ _ _ _ Hk) Hd) as (HT & Hd' & Hp).
  split.
  - constructor; [done|constructor; [done|apply Hg']|done|]. intros q a Hq Ha. destruct (Ho q a Hq Ha) as (K1 & K2 & K3).
    destruct (own_evolves st τ st' τ' [q] He) with (q := q) (a := a) as [K4 K5]; [|by left|done|done].
    intros q' a' ->%list_elem_of_singleton Ha'. destruct (Ho q a' Hq Ha') as (? & ? & _). done.
  - intros va Hva. pose proof (lv_bounds c Hcfg) as [? _].
    assert (in_lim full va) as Hl by (apply idx_range; [done|lia]).
    rewrite (get_pa_spec full Hcfg gk st' τk va), (get_pa_spec full Hcfg gk st τk va); [by rewrite Hp|apply Hk|done..].
Qed.

Lemma two_kern g gk st τ τk own st' τk' :
  two g gk st τ τk own -> GInv full gk st' τk' -> evolves st τk st' τk' ->
  two g gk st' τ τk' own /\
  forall va, 0 <= va < 2 ^ 64 -> in_lim half va -> get_pa g va st' = get_pa g va st.
Proof.
  intros [Hg Hk Hd Ho] Hk' He. assert (forall a, in_tables τ a -> ~ in_tables τk a) as Hd2 by (intros a Ha Hb; by apply (Hd a)).
  destruct (evolves_other half Hcfg half_ok st τk st' τk' (root_table g) τ He (gi_tree _ _ _ _ Hg) Hd2) as (HT & Hd' & Hp).
  split.
  - constructor; [constructor; [done|apply Hk']|done|intros a Ha Hb; by apply (Hd' a)|].
    intros q a Hq Ha. destruct (Ho q a Hq Ha) as (K1 & K2 & K3).
    destruct (own_evolves st τk st' τk' [q] He) with (q := q) (a := a) as [K4 K5]; [|by left|done|done].
    intros q' a' ->%list_elem_of_singleton Ha'. destruct (Ho q a' Hq Ha') as (? & _ & ?). done.
  - intros va Hva Hl. rewrite (get_pa_spec half Hcfg g st' τ va), (get_pa_spec half Hcfg g st τ va); [by rewrite Hp|apply Hg|done..].
Qed.
End Two.

(** ** The ranges of a program *)

Section Requests.
Context `{Platform}.
Abbreviation c := G_CFG.
Hypothesis Hcfg : cfg_ok c.

Definition seg_req (pp lo : Z) (ph : ProgramHeader) : MapReq :=
  mkMapReq (ph_virtual_addr ph) (pp + (ph_virtual_addr ph - lo)) (ph_mem_size ph) (seg_uflags (ph_flags ph)).
Definition stack_req (sp top : Z) : MapReq :=
  mkMapReq (top - user_stack_size) sp user_stack_size (U_RWO flags).
Definition seg_reqs (pp lo : Z) (phs : list ProgramHeader) : list MapReq := seg_req pp lo <$> List.filter is_load phs.
Definition user_reqs (pp lo sp top : Z) (phs : list ProgramHeader) : list MapReq :=
  seg_reqs pp lo phs ++ [stack_req sp top].
Definition vram_of (r : MapReq) : VRamMap := mkVRamMap (mq_va r) (mq_pa r) (mq_size r) (mq_fl r).

(** Where the frames are does not matter for the pages. *)
Lemma no_shared_moved rs rs' :
  Forall2 (fun r r' => mq_va r = mq_va r' /\ mq_size r = mq_size r') rs rs' -> no_shared rs -> no_shared rs'.
Proof.
  intros Hf Hn i j r1 r2 va Hi Hj Hva H1 H2.
  destruct (Forall2_lookup_r _ _ _ _ _ Hf Hi) as (q1 & Hi' & Ha1 & Hs1).
  destruct (Forall2_lookup_r _ _ _ _ _ Hf Hj) as (q2 & Hj' & Ha2 & Hs2).
  apply (Hn i j q1 q2 va Hi' Hj' Hva); unfold touches, mq_lo, mq_pages; by rewrite ?Ha1, ?Ha2, ?Hs1, ?Hs2.
Qed.

Lemma no_shared_prefix rs rs' : no_shared (rs ++ rs') -> no_shared rs.
Proof. intros Hn i j r r' va Hi Hj. apply (Hn i j r r' va); by apply lookup_app_l_Some. Qed.
Lemma no_shared_one r : no_shared [r].
Proof. intros [|i] [|j] r1 r2 va Hi Hj; by rewrite ?lookup_nil in *. Qed.

Lemma user_reqs_moved pp sp lo top phs pp' sp' :
  no_shared (user_reqs pp lo sp top phs) -> no_shared (user_reqs pp' lo sp' top phs).
Proof.
  apply no_shared_moved. unfold user_reqs, seg_reqs. apply Forall2_app; [|by repeat constructor].
  apply Forall2_fmap, Forall_Forall2_diag, Forall_true. done.
Qed.

(** The ranges of addresses are fine, and so are frames below [2 ^ 61]. *)
Definition va_ok (r : MapReq) : Prop :=
  0 <= mq_va r /\ 0 <= mq_size r <= 2 ^ 60 /\ mq_va r + mq_size r + page_size < 2 ^ 64 /\
  range_fits half (mq_lo r) (mq_pages r).

Lemma va_ok_req r : va_ok r -> 0 <= mq_pa r <= 2 ^ 61 -> req_ok half r.
Proof.
  intros (Hva & Hs & Hb & Hf) Hpa. constructor; [lia| |done]. split; [lia|].
  unfold mq_frames, mq_pages, pages_of, page_floor. pose proof page_size_range as [Hp1 Hp2]. pose proof page_size_pos as Hp.
  pose proof (Z.mul_div_le (mq_pa r) page_size Hp). pose proof (Z.mul_div_le (mq_va r + mq_size r + page_size - 1) page_size Hp).
  pose proof (Z.mul_succ_div_gt (mq_va r) page_size Hp). nia.
Qed.

(** The page of an address of the range, when both starts lie alike in their
    pages. *)
Lemma req_page r x :
  va_ok r -> 0 <= x < mq_size r -> (page_size | mq_pa r - mq_va r) ->
  let k := (mq_va r + x) / page_size - mq_va r / page_size in
  0 <= k < mq_pages r /\ vpn c (mq_va r + x) = vpn c (page (mq_lo r) k) /\
  page (mq_frames r) k = page_floor (mq_pa r + x) /\ (mq_pa r + x) mod page_size = (mq_va r + x) mod page_size /\
  0 <= mq_va r + x < 2 ^ 64 /\ in_lim half (mq_va r + x).
Proof.
  intros (Hva & Hs & Hb & Hf) Hx [d Hd]. pose proof page_size_pos as Hp.
  assert (mq_va r + x + 1 * page_size <= mq_va r + mq_size r + page_size - 1) as Hlast by lia. intros k.
  assert (page (mq_lo r) k = page_floor (mq_va r + x)) as Hpage by (unfold page, mq_lo, page_floor, k; ring).
  assert (vpn c (mq_va r + x) = vpn c (page (mq_lo r) k)) as Hvpn.
  { rewrite Hpage. unfold vpn, page_floor. by rewrite <- !page_size_pow2, Z.div_mul by lia. }
  assert (0 <= k < mq_pages r) as Hk.
  { pose proof (Z.div_le_mono (mq_va r) (mq_va r + x) page_size Hp ltac:(lia)).
    pose proof (Z.div_le_mono (mq_va r + x + 1 * page_size) (mq_va r + mq_size r + page_size - 1) page_size Hp Hlast) as Hm.
    rewrite Z.div_add in Hm by lia. unfold mq_pages, pages_of, k. lia. }
  assert (mq_pa r + x = mq_va r + x + d * page_size) as Ha by lia. split_and!; [lia|lia|done| | |lia|lia|].
  - unfold page, mq_frames, page_floor, k. replace (mq_pa r) with (mq_va r + d * page_size) by lia.
    replace (mq_va r + d * page_size + x) with (mq_va r + x + d * page_size) by lia. rewrite !Z.div_add by lia. ring.
  - by rewrite Ha, Z_mod_plus_full.
  - apply (in_lim_vpn half Hcfg (page (mq_lo r) k)); [done|]. by apply (rf_lim _ _ _ Hf).
Qed.

Lemma iter_min_le l m x : iter_min l = Ret m -> x ∈ l -> m <= x.
Proof.
  destruct l as [|y l]; [done|]. cbn [iter_min]. intros [= <-].
  assert (forall l y, foldl Z.min y l <= y /\ forall z, z ∈ l -> foldl Z.min y l <= z) as Hf.
  { clear. induction l as [|a l IH]; intros y; cbn [foldl]; [split; [lia|]; intros z Hz; by apply elem_of_nil in Hz|].
    destruct (IH (Z.min y a)) as [K1 K2]. split; [lia|]. intros z [->|Hz]%elem_of_cons; [lia|by apply K2]. }
  destruct (Hf l y) as [K1 K2]. intros [->|Hx]%elem_of_cons; [exact K1|by apply K2].
Qed.

Lemma elem_of_loads ph phs : ph ∈ List.filter is_load phs <-> ph ∈ phs /\ is_load ph = true.
Proof. rewrite !list_elem_of_In. apply filter_In. Qed.

Lemma vaset_lo elf lo hi ph :
  get_proc_vaset elf = Ret (lo, hi) -> ph ∈ program_iter elf -> is_load ph = true -> lo <= ph_virtual_addr ph.
Proof.
  unfold get_proc_vaset. intros (b & Hb & Hr)%bind_Ret Hp Hl. apply bind_Ret in Hr as (es & _ & Hr).
  apply bind_Ret in Hr as (t & _ & Hr). injection Hr as -> ->. apply (iter_min_le _ _ _ Hb).
  apply list_elem_of_fmap. exists ph. split; [done|]. by apply elem_of_loads.
Qed.
End Requests.

(** ** Building a program *)

Section Build.
Context `{Platform} {A T : Type} `{!FrameAlloc A} `{!FrameLaws A} `{!KernelMem A T} `{!ProcLaws A T}.
Context {W F : Type} `{!ExcCtxt F} `{!ExcCtxtLaws F} `{!ElfParser}.
Abbreviation c := G_CFG.
Abbreviation full := (2 ^ bits G_CFG 0).
Abbreviation K := (Kern A T).
Implicit Types (st : Machine A) (τ : gmap (list Z) Z) (s : K).
Hypothesis Hcfg : cfg_ok c.

Lemma all_mapped_app g rs1 rs2 st st1 st2 :
  all_mapped half g rs1 st st1 -> all_mapped half g rs2 st1 st2 -> no_shared (rs1 ++ rs2) -> all_mapped half g (rs1 ++ rs2) st st2.
Proof.
  intros [I1 O1] [I2 O2] Hn. constructor.
  - intros r va k [Hr|Hr]%elem_of_app Hva Hl Hk Hv; [|by apply (I2 r va k)].
    rewrite O2; [by apply (I1 r va k)|done|done|]. intros r' Hr' Ht.
    apply list_elem_of_lookup_1 in Hr as [i Hi], Hr' as [j Hj].
    assert (i < length rs1)%nat by (by eapply lookup_lt_Some).
    assert (i = (length rs1 + j)%nat); [|lia].
    apply (Hn i (length rs1 + j)%nat r r' va); [by apply lookup_app_l_Some|by rewrite lookup_app_r, Nat.add_comm, Nat.add_sub by lia|done|by exists k|done].
  - intros va Hva Hl Hno. rewrite O2, O1; [done|done|done| |done|done|]; intros r Hr; apply Hno, elem_of_app; auto.
Qed.

Lemma put_segment_run g file lo hi pp ph s st1 y :
  0 <= pp -> pp + (hi - lo) < 2 ^ 64 -> hi < 2 ^ 64 -> Z.of_nat (length file) < 2 ^ 64 ->
  lo <= ph_virtual_addr ph -> ph_ok file hi ph -> let r := seg_req pp lo ph in
  map_range g (mq_va r) (mq_pa r) (mq_size r) (mq_fl r) (kn_st s) = Ret (st1, y) ->
  put_segment g file pp lo ph s = match y with
    | Ok _ => Ret (mkKern st1 (kn_heap s) (place_one (pp - lo) file ph (kn_mem s)) (kn_glacier s), Ok (vram_of r))
    | Err _ => Ret (with_st s st1, Err "Failed to map process")
    end.
Proof.
  intros Hpp Hb Hhi Hlen Hlo [Hva Hend Hfs [Hof Hoe]] r. cbn [r seg_req mq_va mq_pa mq_size mq_fl]. intros Hmap. unfold put_segment.
  cbn zeta. rewrite usub_ok, Ret_bind, (uadd_ok 64 pp), Ret_bind, Hmap, Ret_bind by lia. destruct y as [u|e]; [|done].
  rewrite uadd_ok, Ret_bind, slice_ok, Ret_bind by lia.
  replace (ph_offset ph + ph_file_size ph - ph_offset ph) with (ph_file_size ph) by lia.
  unfold place_one. by replace (pp - lo + ph_virtual_addr ph) with (pp + (ph_virtual_addr ph - lo)) by lia.
Qed.

Lemma all_mapped_same g rs st0 st st1 st2 :
  all_mapped half g rs st st1 -> m_mem st0 = m_mem st ->
  (forall va, 0 <= va < 2 ^ 64 -> in_lim half va -> get_pa g va st2 = get_pa g va st1) -> all_mapped half g rs st0 st2.
Proof.
  intros [Hi Ho] Hm He. constructor.
  - intros r va k Hr Hva Hl Hk Hv. rewrite He by done. by apply (Hi r va k).
  - intros va Hva Hl Hn. unfold get_pa at 2. rewrite He, Hm by done. by apply Ho.
Qed.

(** The loop maps, and copies what it has mapped. *)
Lemma put_segments_run g file lo hi pp phs vm s st' x :
  0 <= pp -> pp + (hi - lo) < 2 ^ 64 -> hi < 2 ^ 64 -> Z.of_nat (length file) < 2 ^ 64 ->
  (forall ph, ph ∈ phs -> is_load ph = true -> lo <= ph_virtual_addr ph /\ ph_ok file hi ph) ->
  map_reqs g (seg_reqs pp lo phs) (kn_st s) = Ret (st', x) ->
  exists m', put_segments g file pp lo phs vm s =
      Ret (mkKern st' (kn_heap s) m' (kn_glacier s),
        match x with Ok _ => Ok (vm ++ (vram_of <$> seg_reqs pp lo phs)) | Err _ => Err "Failed to map process" end) /\
    (x = Ok () -> m' = place_all (pp - lo) file phs (kn_mem s)).
Proof.
  intros Hpp Hb Hhi Hlen. revert vm s. induction phs as [|ph phs IH]; intros vm s Hok Hrun.
  { injection Hrun as <- <-. exists (kn_mem s). cbn. rewrite app_nil_r. by destruct s. }
  assert (forall ph', ph' ∈ phs -> is_load ph' = true -> lo <= ph_virtual_addr ph' /\ ph_ok file hi ph') as Hok'
    by (intros q Hq; apply Hok; by right).
  cbn [put_segments]. unfold seg_reqs in *. cbn [List.filter place_all] in *.
  destruct (is_load ph) eqn:Hl; [|by apply IH].
  destruct (Hok ph ltac:(by left) Hl) as [Hlo Hph].
  rewrite fmap_cons in *. cbn [map_reqs] in Hrun. apply bind_Ret in Hrun as ([st1 y] & Hmap & Hrun).
  rewrite (put_segment_run g file lo hi pp ph s st1 y) by done.
  destruct y as [u|e]; [|injection Hrun as <- <-; exists (kn_mem s); by split]. rewrite Ret_bind.
  destruct (IH (vm ++ [vram_of (seg_req pp lo ph)])
    (mkKern st1 (kn_heap s) (place_one (pp - lo) file ph (kn_mem s)) (kn_glacier s)) Hok' Hrun) as (m' & -> & Hm).
  exists m'. split; [|done]. do 2 f_equal. destruct x; [|done]. by rewrite <- app_assoc.
Qed.

(** ** The kernel's stack *)

Definition kstack_len : Z := stack_size + page_size.

Lemma kstack_len_ok : 0 < kstack_len <= 2 ^ 32.
Proof. unfold kstack_len, stack_size. pose proof page_size_range. lia. Qed.

(** The lowest page of the stack is unmapped in the kernel's tables. *)
Record guarded gk st st' (k : KernelStack) : Prop := {
  gd_size : vb_size (ks_buf k) = kstack_len;
  gd_va : 0 <= vb_ptr (ks_buf k) < 2 ^ 64;
  gd_pa : get_pa gk (vb_ptr (ks_buf k)) st = Ret (Some (ks_pa k));
  gd_rest : forall va, 0 <= va < 2 ^ 64 ->
    get_pa gk va st' = if decide (vpn c va = vpn c (vb_ptr (ks_buf k))) then Ret None else get_pa gk va st
}.

Lemma kernel_stack_run g τ τk own s :
  two g (kn_glacier s) (kn_st s) τ τk own -> heap_has (kn_heap s) kstack_len page_size ->
  exists s' r, KernelStack_new s = Ret (s', r) /\ kn_mem s' = kn_mem s /\ kn_glacier s' = kn_glacier s /\
    match r with
    | None => kn_st s' = kn_st s
    | Some k => guarded (kn_glacier s) (kn_st s) (kn_st s') k /\
        (exists τk', two g (kn_glacier s) (kn_st s') τ τk' own) /\
        forall va, 0 <= va < 2 ^ 64 -> in_lim half va -> get_pa g va (kn_st s') = get_pa g va (kn_st s)
    end.
Proof.
  intros Htwo Hheap. pose proof kstack_len_ok as Hk. pose proof page_size_range as Hps. unfold KernelStack_new.
  unfold kstack_len in *. rewrite uadd_ok, Ret_bind by lia. fold kstack_len in *.
  unfold VirtPageBuf_new. rewrite (proj2 (Z.ltb_ge _ _)) by lia.
  destruct (heap_alloc_law (kn_heap s) kstack_len page_size true (kn_st s) Hheap) as (t' & va & -> & Hva & Hvb & t2 & Hd).
  rewrite !Ret_bind. cbn [vb_ptr kn_st kn_glacier]. assert (0 <= va < 2 ^ 64) as Hvr by lia.
  assert (in_lim full va) as Hl by (pose proof (lv_bounds c Hcfg) as [? _]; apply idx_range; [done|lia]).
  pose proof (tw_k _ _ _ _ _ _ Htwo) as HK. set (gk := kn_glacier s) in *.
  rewrite (get_pa_spec full Hcfg gk (kn_st s) τk va (gi_tree _ _ _ _ HK) Hvr Hl), Ret_bind.
  destruct (entry_pa (pte (kn_st s) τk va)) as [pa|] eqn:Hpa.
  2:{ unfold VirtPageBuf_drop. cbn [vb_ptr vb_size kn_heap]. rewrite Hd, !Ret_bind. eexists _, None. by split_and!. }
  destruct (unmap_page_run full Hcfg (full_ok Hcfg) gk (kn_st s) τk va HK) as (st' & τk' & -> & HK' & _ & Hev & Htr & _);
    [apply pl_room, HK|done|done|]. rewrite Ret_bind.
  destruct (two_kern Hcfg _ _ _ _ _ _ _ _ Htwo HK' Hev) as [Htwo' Hsame].
  eexists _, (Some _). split_and!; [reflexivity|done|done|..|by exists τk'|done].
  constructor; cbn [ks_buf ks_pa vb_ptr vb_size]; [done|done| |].
  - by rewrite (get_pa_spec full Hcfg gk (kn_st s) τk va (gi_tree _ _ _ _ HK) Hvr Hl), Hpa.
  - intros v Hv. cbn [kn_st with_st]. rewrite (Htr v Hv); [|pose proof (lv_bounds c Hcfg) as [? _]; apply idx_range; [done|lia]].
    case_decide; [|done]. unfold entry_pa. by rewrite valid_0.
Qed.

(** ** The program *)

(** What the program headers must satisfy: the segments lie between [lo], the
    start of a page, and [hi], share no page with each other or the stack, and fit below the upper
    half. *)
Record program_ok (elf : ElfFile) (file : list Z) (lo hi top : Z) : Prop := {
  pr_vaset : get_proc_vaset elf = Ret (lo, hi);
  pr_start : (page_size | lo);
  pr_bounds : 0 <= lo <= hi /\ hi < 2 ^ 64 /\ hi - lo <= 2 ^ 60 /\ Z.of_nat (length file) < 2 ^ 64;
  pr_segs : phs_ok file hi (program_iter elf);
  pr_top : lohalf_top = Ret top /\ user_stack_size <= top < 2 ^ 64;
  pr_fits : Forall va_ok (user_reqs 0 lo 0 top (program_iter elf));
  pr_pages : no_shared (user_reqs 0 lo 0 top (program_iter elf))
}.

(** The allocated ranges are where they should be. *)
Definition got (q : OwnedPtr) (n : Z) : Prop :=
  (page_size | op_ptr q) /\ 0 <= op_ptr q /\ n <= op_size q /\ op_ptr q + op_size q <= 2 ^ 60.

Definition build_errors : list string :=
  ["Failed to allocate process memory"; "Failed to map process"; "Failed to allocate user stack";
   "Failed to map user stack"; "Failed to create kernel stack"]%string.

(** The new process [p] of the program, from the state [s] to [s']. *)
Record new_process elf file lo hi top g s s' (p : ProcCtrlBlk W F) : Prop := {
  np_state : ppid p = 0 /\ state p = Ready /\ fds p = ∅ /\ pc_glacier p = g;
  np_ctxt : ctxt_pc (ctxt p) = entry_point elf /\ ctxt_sp (ctxt p) = top;
  np_user : exists pp sp, phys_alloc p = [pp; sp] /\ got pp (hi - lo) /\ got sp user_stack_size /\
    (let rs := user_reqs (op_ptr pp) lo (op_ptr sp) top (program_iter elf) in
     vram_map p = vram_of <$> rs /\ all_mapped half g rs (kn_st s) (kn_st s')) /\
    (forall ph y, ph ∈ program_iter elf -> is_load ph = true -> 0 <= y < ph_mem_size ph ->
       let va := ph_virtual_addr ph + y in let a := op_ptr pp + (va - lo) in
       get_pa g va (kn_st s') = Ret (entry_pa (Z.lor (page_floor a) (seg_uflags (ph_flags ph)))) /\
       a mod page_size = va mod page_size /\ kn_mem s' a = seg_byte file ph y) /\
    (forall a, ~ in_range (op_ptr pp) (hi - lo) a -> kn_mem s' a = kn_mem s a) /\
    (forall a, in_range (op_ptr pp) (op_size pp) a -> ~ fa_taken (m_fa (kn_st s)) a /\ ~ in_range (op_ptr sp) (op_size sp) a) /\
    exists τ τk, two g (kn_glacier s) (kn_st s') τ τk [sp; pp];
  np_kernel : guarded (kn_glacier s) (kn_st s) (kn_st s') (kstack p)
}.

Lemma req_args_ok n : 0 <= n <= 2 ^ 60 -> params_ok (AllocParams_new n).
Proof. intros Hn. pose proof page_size_range. constructor; cbn; [lia|lia|done]. Qed.

(** Allocating a range next to the two address spaces. *)
Lemma range_alloc_run g τ τk own s n :
  two g (kn_glacier s) (kn_st s) τ τk own -> 0 <= n <= 2 ^ 60 ->
  exists a' r, phys_alloc_op (AllocParams_new n) s = Ret (with_st s (set_fa (kn_st s) a'), r) /\
    match r with
    | None => True
    | Some q => got q n /\ two g (kn_glacier s) (set_fa (kn_st s) a') τ τk (q :: own) /\
        forall x, in_range (op_ptr q) (op_size q) x -> ~ fa_taken (m_fa (kn_st s)) x
    end.
Proof.
  intros Htwo Hn. destruct (pl_alloc (m_fa (kn_st s)) (AllocParams_new n)) as (f & r & Hr & Hf & Hq);
    [apply Htwo|by apply req_args_ok|apply Z.divide_refl|].
  exists f, r. unfold phys_alloc_op. rewrite Hr, Ret_bind. split; [done|]. destruct r as [q|]; [|done].
  destruct Hq as (H1 & H2 & H3 & H4 & H5 & H6 & H7). cbn [ap_size AllocParams_new] in *.
  split_and!; [done|by apply two_alloc|done].
Qed.

(** Mapping in the program's address space. *)
Lemma user_map_run g τ τk own s rs :
  two g (kn_glacier s) (kn_st s) τ τk own -> Forall (req_ok half) rs -> no_shared rs ->
  exists st' x τ', map_reqs g rs (kn_st s) = Ret (st', x) /\ two g (kn_glacier s) st' τ' τk own /\
    (x = Ok () -> all_mapped half g rs (kn_st s) st') /\
    (forall va, 0 <= va < 2 ^ 64 -> get_pa (kn_glacier s) va st' = get_pa (kn_glacier s) va (kn_st s)).
Proof.
  intros Htwo Hok Hns. destruct (map_reqs_run half Hcfg (half_ok Hcfg) g rs (kn_st s) τ (tw_g _ _ _ _ _ _ Htwo) Hok Hns)
    as (st' & x & τ' & Hrun & HG & Hx & Hev).
  destruct (two_map Hcfg _ _ _ _ _ _ _ _ Htwo HG Hev) as [Htwo' Hk].
  exists st', x, τ'. split_and!; [done|done|intros ->; exact Hx|done].
Qed.

Lemma guarded_from gk st0 st st' k :
  (forall va, 0 <= va < 2 ^ 64 -> get_pa gk va st = get_pa gk va st0) -> guarded gk st st' k -> guarded gk st0 st' k.
Proof.
  intros He [H1 H2 H3 H4]. constructor; [done|done|by rewrite <- He|]. intros va Hva. by rewrite <- He, H4.
Qed.

Lemma user_req_ok elf file lo hi top pp sp :
  program_ok elf file lo hi top -> got pp (hi - lo) -> got sp user_stack_size ->
  Forall (req_ok half) (seg_reqs (op_ptr pp) lo (program_iter elf)) /\ req_ok half (stack_req (op_ptr sp) top) /\
  (0 <= op_ptr pp /\ op_ptr pp + (hi - lo) < 2 ^ 64) /\
  forall ph, ph ∈ program_iter elf -> is_load ph = true -> lo <= ph_virtual_addr ph /\ ph_ok file hi ph.
Proof.
  intros [Hva _ (Hb & Hh & Hsz & Hl) Hsegs Htop Hf Hns] (_ & P1 & P2 & P3) (_ & S1 & S2 & S3).
  assert (0 <= user_stack_size) as Hu by done.
  assert (forall ph, ph ∈ program_iter elf -> is_load ph = true -> lo <= ph_virtual_addr ph /\ ph_ok file hi ph) as Hph.
  { intros ph Hp Hld. split; [by eapply vaset_lo|by apply Hsegs]. }
  apply Forall_app in Hf as [Hf1 Hf2]. apply Forall_cons_1 in Hf2 as [Hf2 _]. split_and!; [|apply va_ok_req; [exact Hf2|cbn; lia]|lia|lia|done].
  apply Forall_fmap, Forall_forall. intros ph Hp. unfold seg_reqs in Hf1. rewrite Forall_fmap, Forall_forall in Hf1. apply elem_of_loads in Hp as Hpl. destruct Hpl as [Hp1 Hp2].
  destruct (Hph ph Hp1 Hp2) as [Hlo [Hv He Hfs _]]. apply va_ok_req; [|cbn; lia].
  exact (Hf1 ph Hp).
Qed.

(** Mapping the stack is one more range. *)
Lemma map_reqs_one g r st st' x :
  map_reqs g [r] st = Ret (st', x) -> map_range g (mq_va r) (mq_pa r) (mq_size r) (mq_fl r) st = Ret (st', x).
Proof.
  cbn. intros ([st1 y] & -> & Hr)%bind_Ret. destruct y as [[]|e]; by injection Hr as <- <-.
Qed.

(** The bytes of the segments, and no others. *)
Lemma program_bytes elf file lo hi top pp m :
  program_ok elf file lo hi top -> let m' := place_all (pp - lo) file (program_iter elf) m in
  (forall ph y, ph ∈ program_iter elf -> is_load ph = true -> 0 <= y < ph_mem_size ph ->
    m' (pp + (ph_virtual_addr ph + y - lo)) = seg_byte file ph y) /\
  (forall a, ~ in_range pp (hi - lo) a -> m' a = m a).
Proof.
  intros [Hva _ _ Hsegs _ _ _]. destruct (place_all_spec (pp - lo) file hi (program_iter elf) m Hsegs) as [Hin Hout]. split.
  - intros ph y Hp Hl Hy. replace (pp + (ph_virtual_addr ph + y - lo)) with (pp - lo + (ph_virtual_addr ph + y)) by lia. by apply Hin.
  - intros a Ha. apply Hout. intros ph Hp Hl Hx. apply Ha. pose proof (vaset_lo _ _ _ _ Hva Hp Hl).
    destruct (proj1 Hsegs ph Hp Hl) as [? ? _ _]. unfold in_range, in_ph in *. lia.
Qed.

(** The page of a byte of a segment. *)
Lemma program_page elf file lo hi top pp sp g st st' ph y :
  program_ok elf file lo hi top -> (page_size | pp) -> all_mapped half g (user_reqs pp lo sp top (program_iter elf)) st st' ->
  ph ∈ program_iter elf -> is_load ph = true -> 0 <= y < ph_mem_size ph ->
  let va := ph_virtual_addr ph + y in let a := pp + (va - lo) in
  get_pa g va st' = Ret (entry_pa (Z.lor (page_floor a) (seg_uflags (ph_flags ph)))) /\ a mod page_size = va mod page_size.
Proof.
  intros Hok Hpp [Hin _] Hp Hl Hy va a. set (r := seg_req pp lo ph).
  assert (seg_req pp lo ph ∈ seg_reqs pp lo (program_iter elf)) as Hr.
  { apply list_elem_of_fmap. exists ph. split; [done|]. by apply elem_of_loads. }
  assert (va_ok r) as Hva.
  { pose proof (pr_fits _ _ _ _ _ Hok) as [Hf _]%Forall_app. unfold seg_reqs in Hf. rewrite Forall_fmap, Forall_forall in Hf.
    apply (Hf ph). by apply elem_of_loads. }
  destruct (req_page Hcfg r y Hva Hy) as (Hk & Hv & Hfr & Hmod & Hvr & Hlim).
  { replace (mq_pa r - mq_va r) with (pp - lo) by (cbn; lia). apply Z.divide_sub_r; [done|apply Hok]. }
  assert (mq_pa r + y = a) as Ha by (cbn; unfold a, va; lia). rewrite Ha in *. split; [|exact Hmod].
  rewrite <- Hfr. apply (Hin r va _); [apply elem_of_app; by left|done|done|exact Hk|exact Hv].
Qed.

Lemma build_run elf file lo hi top g τ τk s :
  two g (kn_glacier s) (kn_st s) τ τk [] -> program_ok elf file lo hi top -> heap_has (kn_heap s) kstack_len page_size ->
  exists s' r, build g elf file s = Ret (s', r) /\
    match r with Ok p => new_process elf file lo hi top g s s' p | Err e => e ∈ build_errors end.
Proof.
  intros Htwo Hok Hheap. pose proof Hok as [Hva Hst (Hb & Hh & Hsz & Hlen) Hsegs [Htop Htb] Hf Hns].
  assert (0 <= user_stack_size) as Hu by done. unfold build. rewrite Hva, Ret_bind, usub_ok, Ret_bind by lia.
  destruct (range_alloc_run _ _ _ _ s (hi - lo) Htwo) as (f1 & r1 & -> & Hr1); [lia|]. rewrite Ret_bind.
  destruct r1 as [pp|]; [|eexists _, (Err _); split; [done|by left]]. destruct Hr1 as (Hpp & Htwo1 & Hfresh1).
  set (s1 := with_st s (set_fa (kn_st s) f1)) in *.
  (* the segments *)
  assert (forall sp, no_shared (user_reqs (op_ptr pp) lo sp top (program_iter elf))) as Hns' by (intros sp; by eapply user_reqs_moved).
  assert (got (mkOwnedPtr 0 user_stack_size) user_stack_size) as Hg0 by (split; [apply Z.divide_0_r|unfold user_stack_size; cbn [op_ptr op_size]; lia]).
  destruct (user_req_ok elf file lo hi top pp _ Hok Hpp Hg0) as (Hreq & _ & Hpb & Hph).
  destruct (user_map_run g τ τk [pp] s1 (seg_reqs (op_ptr pp) lo (program_iter elf)) Htwo1 Hreq)
    as (st2 & x & τ2 & Hmap & Htwo2 & Hall & Hk2); [by eapply no_shared_prefix, (Hns' 0)|].
  destruct (put_segments_run g file lo hi (op_ptr pp) (program_iter elf) [] s1 st2 x) as (m2 & Hput & Hm2); [lia..|done|done|].
  rewrite Hput, Ret_bind. destruct x as [[]|e]; [|eexists _, (Err _); split; [done|by right; left]].
  specialize (Hall eq_refl). specialize (Hm2 eq_refl). rewrite app_nil_l.
  set (s2 := mkKern st2 (kn_heap s1) m2 (kn_glacier s1)) in *.
  (* the stack *)
  destruct (range_alloc_run g τ2 τk [pp] s2 user_stack_size Htwo2) as (f3 & r3 & -> & Hr3); [unfold user_stack_size; lia|]. rewrite Ret_bind.
  destruct r3 as [sp|]; [|eexists _, (Err _); split; [done|do 2 right; by left]]. destruct Hr3 as (Hsp & Htwo3 & Hfresh3).
  set (s3 := with_st s2 (set_fa (kn_st s2) f3)) in *. rewrite Htop, Ret_bind, usub_ok, Ret_bind by lia.
  destruct (user_req_ok elf file lo hi top pp sp Hok Hpp Hsp) as (_ & Hsreq & _).
  destruct (user_map_run g τ2 τk [sp; pp] s3 [stack_req (op_ptr sp) top] Htwo3) as (st4 & x & τ4 & Hmap4 & Htwo4 & Hall4 & Hk4);
    [by constructor|by apply no_shared_one|]. apply map_reqs_one in Hmap4. cbn [stack_req mq_va mq_pa mq_size mq_fl] in Hmap4.
  rewrite Hmap4, Ret_bind. destruct x as [[]|e]; [|eexists _, (Err _); split; [done|do 3 right; by left]].
  specialize (Hall4 eq_refl). set (s4 := with_st s3 st4) in *.
  (* the kernel's stack *)
  destruct (kernel_stack_run g τ4 τk [sp; pp] s4 Htwo4 Hheap) as (s5 & r5 & -> & Hm5 & Hg5 & Hr5). rewrite Ret_bind.
  destruct r5 as [k|]; [|eexists _, (Err _); split; [done|do 4 right; by left]].
  destruct Hr5 as (Hgd & [τk5 Htwo5] & Hsame). eexists s5, (Ok _). split; [reflexivity|].
  constructor; cbn [ppid state fds pc_glacier ctxt phys_alloc vram_map kstack].
  - done.
  - split; [|apply sp_set_sp]. by rewrite pc_set_sp, pc_set_pc.
  - exists pp, sp. destruct (program_bytes elf file lo hi top (op_ptr pp) (kn_mem s) Hok) as [Hin Hout].
    assert (all_mapped half g (user_reqs (op_ptr pp) lo (op_ptr sp) top (program_iter elf)) (kn_st s) (kn_st s5)) as Hall5.
    { eapply all_mapped_same; [|done|exact Hsame]. apply (all_mapped_app g _ _ (kn_st s) st2 st4); [| |apply Hns'].
      - by eapply all_mapped_same; [exact Hall|..].
      - by eapply all_mapped_same; [exact Hall4|..]. }
    refine (conj eq_refl (conj Hpp (conj Hsp (conj (conj _ _) (conj _ (conj _ (conj _ _))))))).
    + unfold user_reqs. by rewrite fmap_app.
    + exact Hall5.
    + intros ph y Hp Hl Hy. destruct (program_page elf file lo hi top _ _ g _ _ ph y Hok (proj1 Hpp) Hall5 Hp Hl Hy) as [Hpa Hmod].
      split; [exact Hpa|]. split; [exact Hmod|]. rewrite Hm5. cbn [s4 s3 with_st kn_mem s2]. rewrite Hm2. by apply Hin.
    + intros a Ha. rewrite Hm5. cbn [s4 s3 with_st kn_mem s2]. rewrite Hm2. by apply Hout.
    + intros a Ha. split; [by apply Hfresh1|]. intros Hs. apply (Hfresh3 a Hs). apply (tw_own _ _ _ _ _ _ Htwo2 pp a); [by left|done].
    + by exists τ4, τk5.
  - eapply guarded_from; [|exact Hgd]. intros va Hva'. exact (eq_trans (Hk4 va Hva') (Hk2 va Hva')).
Qed.

Definition req_of (v : VRamMap) : MapReq := mkMapReq (vm_va v) (vm_pa v) (vm_size v) (vm_flags v).

Lemma req_of_vram (rs : list MapReq) : req_of <$> (vram_of <$> rs) = rs.
Proof. induction rs as [|[] rs IH]; [done|]. cbn. by rewrite IH. Qed.

End Build.
