(* ===== verification/ProcDrop.v ===== *)
(** * ProcDrop: what a process gives back when it ends

    [ProcCtrlBlk::drop] and the drops of its fields. *)

From S2P Require Import Prelude Kargs Rvm RamUtil Physalloc RvmFacts Glacier GlacierSpec GlacierThms.
From S2P Require Import BlockTable PhysallocSpec PhysallocThms GlacierRange GlacierDrop Heap GlacierMaps Aps Bytes Memory Elf Flint FlintThms.
From S2P Require Import Block Fat Vfs Amd64Exc A64Exc Proc ProcTable ProcThms.

Section Drop.
Context `{Platform} {A T : Type} `{!FrameAlloc A} `{!FrameLaws A} `{!KernelMem A T} `{!ProcLaws A T}.
Context {W F : Type} `{!ExcCtxt F}.
Abbreviation c := G_CFG.
Abbreviation full := (2 ^ bits G_CFG 0).
Implicit Types (st : Machine A) (τ : gmap (list Z) Z) (s : Kern A T).
Hypothesis Hcfg : cfg_ok c.

(** The ranges that a process owns: apart from each other, and in use. *)
Definition in_owned (own : list OwnedPtr) (a : Z) : Prop := exists q, q ∈ own /\ in_range (op_ptr q) (op_size q) a.
Lemma in_owned_cons q own a : in_owned (q :: own) a <-> in_range (op_ptr q) (op_size q) a \/ in_owned own a.
Proof.
  split.
  - intros (r & [->|Hr]%elem_of_cons & Hx); [by left|right; by exists r].
  - intros [Hx|(r & Hr & Hx)]; [exists q; by split; [left|]|exists r; by split; [right|]].
Qed.
Fixpoint apart (own : list OwnedPtr) : Prop :=
  match own with
  | [] => True
  | q :: own => (forall a, in_range (op_ptr q) (op_size q) a -> ~ in_owned own a) /\ apart own
  end.
Definition owned_ok (q : OwnedPtr) : Prop := 0 <= op_ptr q /\ 0 < op_size q /\ op_ptr q + op_size q <= 2 ^ 60.

Lemma free_all_run own s :
  fa_inv (m_fa (kn_st s)) -> Forall owned_ok own -> apart own -> Z.of_nat (length own) <= fa_room (m_fa (kn_st s)) ->
  (forall a, in_owned own a -> fa_taken (m_fa (kn_st s)) a) ->
  exists f, free_all own s = Ret (with_st s (set_fa (kn_st s) f)) /\ fa_inv f /\
    fa_room (m_fa (kn_st s)) - Z.of_nat (length own) <= fa_room f /\
    forall a, fa_taken f a <-> fa_taken (m_fa (kn_st s)) a /\ ~ in_owned own a.
Proof.
  intros Hi Hok. revert s Hi. induction Hok as [|q own [Q1 [Q2 Q3]] Hok IH]; intros s Hi Ha Hroom Ht.
  - exists (m_fa (kn_st s)). cbn. split_and!; [by destruct s as [[]]|done|lia|]. intros a. split; [|by intros [? _]].
    intros Hx. split; [done|]. intros (q & Hq & _). by apply elem_of_nil in Hq.
  - destruct Ha as [Hd Ha]. cbn [length] in Hroom. cbn [free_all]. unfold phys_free_op at 1.
    destruct (pl_free (m_fa (kn_st s)) q Hi) as (f & -> & Hf & Hrm & Hft); [lia|done|done|done| |].
    { intros a Hx. apply Ht, in_owned_cons. by left. }
    rewrite !Ret_bind. destruct (IH (with_st s (set_fa (kn_st s) f))) as (f' & -> & Hf' & Hrm' & Hft'); [done|done|cbn; lia| |].
    { intros a Hx. apply Hft. split; [apply Ht, in_owned_cons; by right|]. intros Hy. by apply (Hd a Hy). }
    exists f'. split_and!; [done|done|cbn in *; lia|]. intros a. rewrite (Hft' a). cbn [with_st kn_st set_fa m_fa]. rewrite Hft, in_owned_cons. tauto.
Qed.

End Drop.
