(* ===== verification/ProcDemo.v ===== *)
(** * ProcDemo: a program with two segments is started and ends

    The machine hands out frames from the bottom up and remembers what was
    given back; the kernel's heap has room for stacks at two addresses, which
    its page tables map. *)

From S2P Require Import Prelude Kargs Rvm RamUtil Physalloc RvmFacts Glacier GlacierSpec GlacierThms.
From S2P Require Import BlockTable PhysallocSpec PhysallocThms GlacierRange Heap GlacierMaps Aps Bytes Memory Elf Flint FlintThms.
From S2P Require Import Block Fat Vfs Amd64Exc A64Exc Proc ProcTable ProcThms ProcDrop.

Module ProcDemo.
#[local] Existing Instance Demo.demo.

(** ** The allocator *)

(** The next free address, and the ranges that were given back. *)
Record Pool : Type := mkPool { pl_next : Z; pl_back : list OwnedPtr }.
Definition pool_taken (a : Pool) (x : Z) : Prop :=
  x < pl_next a /\ Forall (fun q => ~ in_range (op_ptr q) (op_size q) x) (pl_back a).
Definition pool_inv (a : Pool) : Prop :=
  0 <= pl_next a /\ (page_size | pl_next a) /\ Forall (fun q => op_ptr q + op_size q <= pl_next a) (pl_back a).

Definition pool_alloc (a : Pool) (args : AllocParams) : outcome (Pool * option OwnedPtr) :=
  let n := aup (Z.max (ap_size args) 1) page_size in
  if pl_next a + n <=? 2 ^ 40 then Ret (mkPool (pl_next a + n) (pl_back a), Some (mkOwnedPtr (pl_next a) n))
  else Ret (a, None).
Definition pool_free (a : Pool) (q : OwnedPtr) : outcome Pool := Ret (mkPool (pl_next a) (q :: pl_back a)).

#[local] Instance frames : FrameAlloc Pool := {|
  fa_alloc := pool_alloc; fa_free_raw := fun a p n => pool_free a (mkOwnedPtr p n)
|}.

Lemma pool_alloc_law a args :
  pool_inv a -> exists a' r, pool_alloc a args = Ret (a', r) /\ pool_inv a' /\
    match r with
    | None => forall x, pool_taken a' x <-> pool_taken a x
    | Some q => (page_size | op_ptr q) /\ 0 <= op_ptr q /\ 0 < op_size q /\ ap_size args <= op_size q /\
        (page_size | op_size q) /\ op_ptr q + op_size q <= 2 ^ 40 /\
        (forall x, in_range (op_ptr q) (op_size q) x -> ~ pool_taken a x) /\
        (forall x, pool_taken a' x <-> pool_taken a x \/ in_range (op_ptr q) (op_size q) x)
    end.
Proof.
  intros (Hn & Hd & Hb). unfold pool_alloc. set (n := aup _ _).
  pose proof (aup_spec (Z.max (ap_size args) 1) page_size page_size_pos) as [[Hn1 _] Hnd]. fold n in Hn1, Hnd.
  assert (ap_size args <= n) by lia. clearbody n.
  destruct (Z.leb_spec (pl_next a + n) (2 ^ 40)); [|exists a, None; by split_and!].
  eexists _, (Some _). split; [reflexivity|]. cbn [op_ptr op_size pl_next pl_back].
  split_and!; [|done|done|lia|done|done|done| |].
  - split_and!; cbn [pl_next pl_back]; [lia|by apply Z.divide_add_r|]. eapply Forall_impl; [exact Hb|]. cbn beta. lia.
  - intros x Hx [Hlt _]. unfold in_range in Hx. lia.
  - intros x. unfold pool_taken, in_range. cbn [pl_next pl_back]. split.
    + intros [Hlt Hf]. destruct (decide (x < pl_next a)); [by left|right; lia].
    + intros [[Hlt Hf]|Hx]; split; [lia|done|lia|]. eapply Forall_impl; [exact Hb|]. unfold in_range. cbn beta. lia.
Qed.

Lemma pool_free_law a q :
  pool_inv a -> (forall x, in_range (op_ptr q) (op_size q) x -> pool_taken a x) -> 0 < op_size q ->
  exists a', pool_free a q = Ret a' /\ pool_inv a' /\
    forall x, pool_taken a' x <-> pool_taken a x /\ ~ in_range (op_ptr q) (op_size q) x.
Proof.
  intros (Hn & Hd & Hb) Ht Hs. eexists. split; [done|]. split.
  - split_and!; [done|done|]. constructor; [|done].
    destruct (Ht (op_ptr q + op_size q - 1)) as [Hlt _]; [unfold in_range; lia|]. cbn [pl_next]. lia.
  - intros x. unfold pool_taken. cbn [pl_next pl_back]. rewrite Forall_cons. tauto.
Qed.

#[local] Instance flaws : FrameLaws Pool.
Proof.
  refine {| fa_inv := pool_inv; fa_taken := pool_taken; fa_room := fun _ => 1000 |}.
  - intros a Ha. destruct (pool_alloc_law a table_request Ha) as (a' & r & Hr & Hi & Hq). exists a', r. split_and!; [done|done|].
    destruct r as [q|]; [|done]. destruct Hq as (H1 & H2 & H3 & H4 & H5 & H6 & H7 & H8). cbn [ap_size] in H4.
    assert (op_size q = page_size) as Hz.
    { revert Hr. cbn. unfold pool_alloc. destruct (_ <=? _); [|done]. by intros [= _ <-]. }
    rewrite Hz in *. split_and!; [done|done|lia|done|done].
  - intros a p Ha _ Hp Hb Ht. destruct (pool_free_law a (mkOwnedPtr p page_size) Ha Ht) as (a' & Hr & Hi & Hx); [done|].
    exists a'. split_and!; [done|done|lia|done].
Defined.

(** The heap: the addresses at which there is room. *)
Definition heap_room (t : list Z) (n al : Z) : Prop :=
  match t with [] => False | va :: _ => 0 <= va /\ 0 <= n /\ va + n < 2 ^ 64 end.
#[local] Instance kmem : KernelMem Pool (list Z) := {|
  km_free := pool_free;
  heap_alloc := fun held n al st t =>
    match t with [] => if held then NoFuel else Ret (st, [], 0) | va :: t => Ret (st, t, va) end;
  heap_dealloc := fun va n t => Ret (va :: t)
|}.
#[local] Instance plaws : ProcLaws Pool (list Z).
Proof.
  refine {| heap_has := heap_room |}.
  - intros a args Ha _ _. destruct (pool_alloc_law a args Ha) as (a' & r & Hr & Hi & Hq). exists a', r. split_and!; [done|done|].
    destruct r as [q|]; [|done]. destruct Hq as (H1 & H2 & H3 & H4 & H5 & H6 & H7 & H8). split_and!; [done|done|done|done|lia|done|done].
  - intros a p Ha _ _ Hs _ Ht. destruct (pool_free_law a p Ha Ht Hs) as (a' & Hr & Hi & Hx). exists a'.
    split_and!; [done|done|cbn; lia|done].
  - intros a _. vm_compute. discriminate.
  - intros [|va t] n al held st; [done|]. intros (H1 & H2 & H3). eexists _, _. split_and!; [reflexivity|done|done|by eexists].
Defined.

(** ** The machine *)

(** The kernel's tables are at 0x1000; two stacks are mapped. *)
Definition gk : Glacier := mkGlacier 0x1000 true.
Definition kva : Z := 0xffffffff80000000.
Definition empty_machine : Machine Pool := mkMachine (mkPool 0x10000 []) (fun _ => 0) [].
Definition st0 : Machine Pool :=
  match map_page gk kva 0x8000 (K_RWO flags) empty_machine with Ret (st, _) => st | _ => empty_machine end.
Definition all : Z := 2 ^ bits G_CFG 0.

Lemma proc_cfg : cfg_ok G_CFG.
Proof. unfold cfg_ok. simpl. lia. Qed.
Lemma proc_all : 0 < all <= 2 ^ bits G_CFG 0.
Proof. unfold all. split; [reflexivity|done]. Qed.

Lemma kernel0 : exists τ, GInv all gk st0 τ.
Proof.
  assert (GInv all gk empty_machine {[ [] := 0x1000 ]}) as HG.
  { constructor; [|split_and!; [vm_compute; discriminate|by exists 16|constructor]]. apply (fresh_tree all proc_cfg).
    - change page_size with 4096. split; [by exists 1|vm_compute; split; discriminate].
    - intros x Hx. unfold in_range in Hx. change page_size with 4096 in Hx. split; [cbn in *; lia|constructor].
    - done. }
  destruct (map_page_run all proc_cfg proc_all gk empty_machine _ kva 0x8000 (K_RWO flags) HG) as (st' & r & τ & Hr & HG' & _);
    [vm_compute; split; [discriminate|reflexivity]|vm_compute; reflexivity|].
  exists τ. unfold st0. by rewrite Hr.
Qed.

(** The program: code at 0x400000, data at 0x402800, of which the file has
    four bytes. *)
Definition code0 : ProgramHeader := mkPh PhLoad 0 8 8 0x400000 5 0x1000.
Definition data0 : ProgramHeader := mkPh PhLoad 8 4 0x1000 0x402800 6 0x1000.
Definition elf0 : ElfFile := mkElf 0x400002 [code0; data0].
Definition file0 : list Z := [0x90; 0x90; 0x0f; 0x05; 0; 0; 0; 0; 1; 2; 3; 4].
Definition kern0 : Kern Pool (list Z) := mkKern st0 [kva] (fun _ => 0xff) gk.
Definition top0 : Z := 2 ^ 47.

#[local] Instance parser : ElfParser := {|
  elf_file_new := fun l => if bool_decide (take 12 l = file0) then Ok elf0 else Err "not an ELF"%string
|}.

Lemma low_in_half va : 0 <= va < 2 ^ 47 -> in_lim half va.
Proof.
  intros Hva. change (half) with 256. unfold in_lim. change (idx G_CFG 0 va) with ((va / 2 ^ 39) mod 512).
  assert (va / 2 ^ 39 < 256) by (apply Z.div_lt_upper_bound; lia). assert (0 <= va / 2 ^ 39) by (apply Z.div_pos; lia).
  rewrite Z.mod_small by lia. done.
Qed.

(** A test for the conditions on ranges below the upper half. *)
Definition va_okb (r : MapReq) : bool :=
  (0 <=? mq_va r) && (0 <=? mq_size r) && (mq_size r <=? 2 ^ 40) && (0 <=? mq_lo r) &&
  (mq_va r + mq_size r + page_size <? 2 ^ 64) && (mq_lo r + mq_pages r * page_size <=? 2 ^ 47) && (0 <=? mq_pages r) && (mq_pages r <=? 2 ^ 36).

Lemma va_okb_ok r : va_okb r = true -> va_ok r.
Proof.
  unfold va_okb. rewrite !andb_true_iff, !Z.leb_le, !Z.ltb_lt. intros [[[[[[[H1 H2] H3] H4] H5] H6] H7] H8].
  split_and!; [done|done|lia|done|]. constructor; [split; [done|apply floor_divide]|lia| |].
  - change (2 ^ _) with (2 ^ 36). lia.
  - intros k Hk. apply low_in_half. unfold page. change page_size with 4096 in *. lia.
Qed.

Lemma program0 : program_ok elf0 file0 0x400000 0x403800 top0.
Proof.
  constructor.
  - reflexivity.
  - by exists 1024.
  - unfold file0. cbn [length]. lia.
  - split.
    + intros ph [->|[->|Hn]%elem_of_cons]%elem_of_cons _; [..|by apply elem_of_nil in Hn];
        constructor; try (vm_compute; split; discriminate); vm_compute; discriminate.
    + intros [|[|i]] [|[|j]] ph ph' x Hi Hj _ _ Hx Hx'; cbn in Hi, Hj; simplify_eq; try done;
        unfold in_ph in *; cbn in *; lia.
  - by vm_compute.
  - repeat (apply Forall_cons; split; [apply va_okb_ok; vm_compute; reflexivity|]). constructor.
  - apply no_shared_vpns. apply (bool_decide_unpack _). vm_compute. reflexivity.
Qed.

Abbreviation PCB := (ProcCtrlBlk unit ExcFrame).


(** The program starts; looking at some bytes and pages.  [get_pa] leaves
    the no-execute bit of an entry in the address. *)
Theorem program_starts :
  match with_glacier (W := unit) (F := ExcFrame) elf0 file0 kern0 with
  | Ret (s, Ok p) =>
      vram_map p = [mkVRamMap 0x400000 0x14000 8 (U_ROX flags); mkVRamMap 0x402800 0x16800 0x1000 (U_RWO flags);
                    mkVRamMap (top0 - 0x100000) 0x1b000 0x100000 (U_RWO flags)] /\
      kn_mem s <$> [0x14000; 0x16803; 0x16804; 0x177ff; 0x17800] = [0x90; 4; 0; 0; 0xff] /\
      get_pa (pc_glacier p) 0x400123 (kn_st s) = Ret (Some 0x14000) /\
      get_pa (pc_glacier p) 0x403000 (kn_st s) = Ret (Some (0x17000 + 2 ^ 63)) /\
      get_pa (pc_glacier p) 0x401000 (kn_st s) = Ret None /\ get_pa gk kva (kn_st s) = Ret None
  | _ => False
  end.
Proof. vm_compute. repeat split. Qed.

(** ** Processes *)

(** A process with an empty address space. *)
Definition gp : Glacier := mkGlacier 0x2000 true.
Definition own0 : list OwnedPtr := [mkOwnedPtr 0x4000 0x1000; mkOwnedPtr 0x5000 0x2000].
Definition pcb0 : PCB :=
  mkProc 0 gp (mkKernelStack (mkVirtPageBuf kva kstack_len) 0x8000) own0 [] ExcFrame_new Ready ∅.
Definition kern1 : Kern Pool (list Z) := mkKern empty_machine [] (fun _ => 0) gk.

Lemma root_inv lim r : 0 < lim <= all -> r = 0x1000 \/ r = 0x2000 -> GInv lim (mkGlacier r true) empty_machine {[ [] := r ]}.
Proof.
  intros Hl Hr. constructor; [|split_and!; [vm_compute; discriminate|by exists 16|constructor]]. apply (fresh_tree lim proc_cfg).
  - change page_size with 4096. split; [destruct Hr as [-> | ->]; [by exists 1|by exists 2]|cbn; lia].
  - intros x Hx. unfold in_range in Hx. change page_size with 4096 in Hx. split; [cbn in *; lia|constructor].
  - done.
Qed.

Lemma two0 : two gp gk empty_machine {[ [] := 0x2000 ]} {[ [] := 0x1000 ]} own0.
Proof.
  constructor.
  - apply root_inv; [apply (half_ok proc_cfg)|by right].
  - apply root_inv; [apply proc_all|by left].
  - intros a (q & t & [<- <-]%lookup_singleton_Some & Ha) (q' & t' & [<- <-]%lookup_singleton_Some & Hb).
    unfold in_range in *. change page_size with 4096 in *. lia.
  - intros q a [->|[->|Hn]%elem_of_cons]%elem_of_cons Ha; [..|by apply elem_of_nil in Hn];
      unfold in_range in Ha; cbn [op_ptr op_size] in Ha; (split_and!; [split; [cbn; lia|constructor]|..]);
      intros (q & t & [<- <-]%lookup_singleton_Some & Hb); unfold in_range in Hb; change page_size with 4096 in Hb; lia.
Qed.


(** A file system in memory with the program in it. *)
Definition next {A} (r : outcome (Vfs (W := unit) * result string A)) (st : Vfs) : Vfs :=
  match r with Ret (st, _) => st | _ => st end.
Definition then_ {A} (st : Vfs (W := unit)) (f : Vfs -> outcome (Vfs * result string A)) : Vfs := next (f st) st.
Definition vfs0 : Vfs (W := unit) := Eval vm_compute in
  then_ (then_ (then_ (then_ (then_ (then_ (then_ (mkVfs [] ∅ FID_init ()) vfs_init)
    (vfs_create 10 (str "/mnt") Directory)) (vfs_create 10 (str "/mnt/block0p0") Directory))
    (vfs_create 10 (str "/mnt/block0p0/sbin") Directory)) (vfs_create 10 (str "/bin") Directory))
    (vfs_create 10 aleph_path Regular)) (vfs_write 10 aleph_path file0 0).
Definition sys0 : System Pool (list Z) unit ExcFrame := mkSystem kern0 {[ 1 := pcb0 ]} 1 ∅ ∅ [].

(** Whether the result is [Ok]. *)
Definition is_done {A B} (r : outcome (A * result string B)) : bool :=
  match r with Ret (_, Ok _) => true | _ => false end.
Lemma is_done_Ret {A B} (r : outcome (A * result string B)) : is_done r = true -> exists a b, r = Ret (a, Ok b).
Proof. destruct r as [[a [b|e]]| |]; try done. by exists a, b. Qed.

Lemma loads0 : exists k (p : PCB), ProcCtrlBlk_new 10 vfs0 (VRef 5) (sy_kern sys0) = Ret (k, Ok p).
Proof. apply is_done_Ret. vm_compute. reflexivity. Qed.

Lemma exec_spec_witness :
  exists k p j, (j <= size (sy_procs sys0) + 1)%nat /\ let pid := pid_at (sy_pid_rr sys0) j in
    exec 10 3 vfs0 (VRef 5) sys0 =
      Ret (mkSystem k (<[pid := p]> (sy_procs sys0)) pid (sy_rq sys0) (sy_cpu sys0) (sy_log sys0), Ok pid) /\
    pid_free (sy_procs sys0) pid /\ forall i, (i < j)%nat -> ~ pid_free (sy_procs sys0) (pid_at (sy_pid_rr sys0) i).
Proof.
  destruct loads0 as (k & p & Hnew). exists k, p.
  assert (0 <= sy_pid_rr sys0 < 2 ^ 64) as Hrr by (split; [discriminate|reflexivity]).
  assert (size (sy_procs sys0) + 2 <= 3)%nat as Hn by apply le_n.
  assert (Z.of_nat (size (sy_procs sys0)) + 2 <= 2 ^ 64) as Hb by discriminate.
  exact (exec_spec 10 3 vfs0 (VRef 5) sys0 k p Hnew Hrr Hn Hb).
Defined.

(** The first program is started by name, and ends. *)
Definition init0 : System Pool (list Z) unit ExcFrame := sys_init kern0 ∅.
Definition life (s : System Pool (list Z) unit ExcFrame) : outcome (System Pool (list Z) unit ExcFrame) :=
  '(s, _) ← exec_aleph 10 2 0 vfs0 s;
  if bool_decide (is_Some (sy_rq s !! 0)) then exit_proc 0 0 7 s else Panic.

Lemma life_inv s s2 : life s = Ret s2 ->
  exists s1 r, exec_aleph 10 2 0 vfs0 s = Ret (s1, r) /\ is_Some (sy_rq s1 !! 0) /\ exit_proc 0 0 7 s1 = Ret s2.
Proof.
  unfold life. intros ([s1 r] & H1 & H2)%bind_Ret. case_bool_decide as Hd; [|discriminate H2].
  exists s1, r. exact (conj H1 (conj Hd H2)).
Qed.
Lemma is_Ret {A} (r : outcome A) : match r with Ret _ => true | _ => false end = true -> exists a, r = Ret a.
Proof. destruct r as [a| |]; try done. by exists a. Qed.
Lemma life0 : exists s2, life init0 = Ret s2.
Proof. apply is_Ret. vm_compute. reflexivity. Qed.

Lemma procs_safe_witness :
  exists s1 s2 r, exec_aleph 10 2 0 vfs0 init0 = Ret (s1, r) /\ exit_proc 0 0 7 s1 = Ret s2 /\ procs_ok s1 /\ procs_ok s2.
Proof.
  destruct life0 as [s2 Hl]. destruct (life_inv _ _ Hl) as (s1 & r & H1 & Hd & H2). exists s1, s2, r.
  assert (reachable (F := ExcFrame) 10 2 s1) as R1.
  { apply (reach_step 10 2 init0 s1); [apply reach_init|]. exact (step_exec 10 2 0 vfs0 init0 s1 r eq_refl H1). }
  assert (reachable (F := ExcFrame) 10 2 s2) as R2.
  { apply (reach_step 10 2 s1 s2); [exact R1|]. exact (step_exit 10 2 0 0 7 s1 s2 Hd H2). }
  split; [exact H1|]. split; [exact H2|]. split; [exact (procs_safe 10 2 s1 R1)|exact (procs_safe 10 2 s2 R2)].
Defined.

(** What it leaves: no process, nothing running, what was said. *)
Theorem life_leaves :
  match life init0 with
  | Ret s => sy_procs s = ∅ /\ sy_rq s = ∅ /\ sy_pid_rr s = 1 /\
      sy_log s = [ProcExited 1 7; ScheduleMsg; SchedTimer 1000] /\ kn_heap (sy_kern s) = [kva]
  | _ => False
  end.
Proof. vm_compute. repeat split. Qed.
End ProcDemo.
