(* ===== verification/AcpiDemo.v ===== *)
(** * AcpiDemo: two regions that share a page *)

From S2P Require Import Prelude Kargs Rvm RamUtil Physalloc RvmFacts Glacier GlacierSpec GlacierThms.
From S2P Require Import BlockTable PhysallocSpec PhysallocThms GlacierRange Bytes Memory Pci Acpi ProcDemo.

Module AcpiDemo.
#[local] Existing Instance Demo.demo.
#[local] Existing Instance ProcDemo.frames.
#[local] Existing Instance ProcDemo.flaws.
Abbreviation g := ProcDemo.gk.
Abbreviation St := (AcpiSt ProcDemo.Pool).

(** The last bytes of page 0x5000 and the first of 0x6000; bytes of 0x6000. *)
Definition r1 : PhysicalMapping := mkMapping 0x5ff0 0x5ff0 0x20 0x20.
Definition r2 : PhysicalMapping := mkMapping 0x6100 0x6100 8 8.
Definition a0 : St := mkAcpi ProcDemo.empty_machine ∅.
Definition a1 : St := match map_physical_region g 0x5ff0 0x20 a0 with Ret (s, _) => s | _ => a0 end.
Definition a2 : St := match map_physical_region g 0x6100 8 a1 with Ret (s, _) => s | _ => a1 end.
Definition a3 : St := match unmap_physical_region g r1 a2 with Ret s => s | _ => a2 end.

Lemma acpi_kernel0 : exists τ, GInv (2 ^ bits G_CFG 0) g (ac_st a0) τ.
Proof. eexists. apply ProcDemo.root_inv; [apply ProcDemo.proc_all|by left]. Qed.

Definition returns_ok {X} (r : outcome X) : bool := match r with Ret _ => true | _ => false end.
Lemma map_is (phys size : Z) (s : St) :
  returns_ok (map_physical_region g phys size s) = true ->
  map_physical_region g phys size s =
    Ret (match map_physical_region g phys size s with Ret (s, _) => s | _ => s end, mkMapping phys phys size size).
Proof.
  unfold map_physical_region. destruct (region_pages phys size) as [l| |]; try done. rewrite Ret_bind.
  by destruct (map_pages g l s).
Qed.
Lemma unmap_is (r : PhysicalMapping) (s : St) :
  returns_ok (unmap_physical_region g r s) = true ->
  unmap_physical_region g r s = Ret (match unmap_physical_region g r s with Ret s => s | _ => s end).
Proof. by destruct (unmap_physical_region g r s). Qed.

Lemma steps0 : rtc (acpi_step g) ([], a0) ([r2], a3).
Proof.
  apply (rtc_l _ _ ([r1], a1)).
  { apply (step_map g [] a0 0x5ff0 0x20 a1 r1); [vm_compute; split_and!; (discriminate || reflexivity)|reflexivity|].
    apply map_is. vm_compute. reflexivity. }
  apply (rtc_l _ _ ([r2; r1], a2)).
  { apply (step_map g [r1] a1 0x6100 8 a2 r2); [vm_compute; split_and!; (discriminate || reflexivity)|reflexivity|].
    apply map_is. vm_compute. reflexivity. }
  apply (rtc_l _ _ ([r2], a3)); [|apply rtc_refl].
  apply (step_unmap g [r2] [] a2 r1 a3). apply unmap_is. vm_compute. reflexivity.
Qed.


(** The page that was needed alone is gone, the shared one is left; a page
    that the kernel had mapped itself is gone behind the last region. *)
Definition mapped_before : Machine ProcDemo.Pool :=
  match map_page g 0x5000 0x5000 (K_RWX flags) ProcDemo.empty_machine with Ret (st, _) => st | _ => ProcDemo.empty_machine end.
Theorem acpi_unmaps_kernel :
  get_pa g 0x5000 (ac_st a3) = Ret None /\ get_pa g 0x6000 (ac_st a3) = Ret (Some (0x6000 + 2 ^ 63)) /\
  get_pa g 0x5000 mapped_before = Ret (Some 0x5000) /\
  match map_physical_region g 0x5ff0 8 (mkAcpi mapped_before ∅) with
  | Ret (s, r) => match unmap_physical_region g r s with Ret s => get_pa g 0x5000 (ac_st s) = Ret None | _ => False end
  | _ => False
  end.
Proof. vm_compute. repeat split. Qed.
End AcpiDemo.
