(* ===== verification/Entry.v ===== *)
(** * Entry: the kernel from its entry to its first program (main.rs)

    [ignite] runs where the loader put the kernel: it takes the arguments,
    builds the allocator and the first page tables and moves the kernel to the
    upper half; [spark] goes on there.  Both compose the operations of the
    other files over one state.  The text that is printed is kept with the
    devices, in order; the heap is that of Heap and is not threaded.

    The theorems compose the contracts of the parts: the allocator takes only
    memory that the firmware's map calls free ([firm], which gives the page
    tables their [FrameLaws]), the loops over the map are lists of requests
    ([identity], [ram_reqs]) of which no two share a page, and what is mapped
    when [ignite] jumps ([lit]) and when the devices are looked for
    ([settled]) are exactly such lists. *)

From S2P Require Import Prelude Printk Kargs Rvm RamUtil Physalloc BlockTable PhysallocSpec PhysallocInv PhysallocThms RvmFacts.
From S2P Require Import Glacier RvmRegs GlacierSpec GlacierThms GlacierRange PhysInit Heap GlacierMaps Bytes Memory Elf Flint.
From S2P Require Import Block Vfs Aps Nvme Hw Intc Cpu Device Pci Vga Reloc ImageThms FlintThms RelocThms Amd64 Amd64Exc A64 A64Exc Proc ProcTable.
From S2P Require Import RelocDemo Amd64Demo.
From Stdlib Require Import Ascii.
From stdpp Require Import pretty.
#[local] Open Scope Z_scope.

(** ** The registers of the address translation, of either architecture *)

Inductive Mmu : Type := MmuAmd64 (c : CtrlRegs) | MmuAArch64 (c : TransRegs).
Definition identity_map `{Platform} (g : Glacier) (m : Mmu) : Mmu :=
  match m with
  | MmuAmd64 c => MmuAmd64 (identity_map_amd64 g c)
  | MmuAArch64 c => MmuAArch64 (identity_map_aarch64 g c)
  end.
Definition is_active (g : Glacier) (m : Mmu) : bool :=
  match m with MmuAmd64 c => is_active_amd64 g c | MmuAArch64 c => is_active_aarch64 g c end.

(** ** [ignite] *)

Section Ignite.
Context `{Platform} {Sp D : Type} `{!Hardware D}.
Variable wikisort : (RAMDescriptor -> RAMDescriptor -> comparison) -> list RAMDescriptor -> list RAMDescriptor.

(** The statics [KINFO], [SYSINFO], [KBASE], [PHYS_ALLOC] with the arrays of
    the boot information, [GLACIER], the handler in [KHEAP], [AP_LIST] and
    [SPARK_PTR]; and the machine: words of page tables, bytes, registers. *)
Record Early : Type := mkEarly {
  ea_statics : BootStatics;
  ea_boot : Boot;
  ea_glacier : Glacier;
  ea_khh : KheapHandler Sp;
  ea_aps : ApList;
  ea_spark : Z;
  ea_words : Z -> Z;
  ea_flushed : list Z;
  ea_mem : Mem;
  ea_mmu : Mmu;
  ea_hw : D
}.

Definition early_machine (s : Early) : Machine PhysAlloc := mkMachine (bt_pa (ea_boot s)) (ea_words s) (ea_flushed s).

(** [SYSINFO.write().layout_ptr = ..], [KINFO.write().seg_ptr = ..] *)
Definition set_copies (b : Boot) (s : BootStatics) : BootStatics :=
  let k := KINFO s in let i := SYSINFO s in
  mkStatics (mkKernelInfo (ki_size k) (ki_ep k) (bt_seg_ptr b) (ki_seg_len k) (ki_dyn_ptr k) (ki_dyn_len k))
    (mkSysInfo (bt_layout_ptr b) (si_layout_len i) (si_acpi_ptr i) (si_dtb_ptr i) (si_disk_uuid i)) (KBASE s).

(** [arch::init_serial] *)
Definition init_serial (g : Glacier) (st : Machine PhysAlloc) (d : D) : outcome (Machine PhysAlloc * D) :=
  match target_arch with
  | X86_64 => Ret (st, init_serial_amd64 d)
  | AArch64 => init_serial_aarch64 g st d
  end.

(** [rb] and [spark] are the addresses of [RB_EMBEDDED] and of [spark] in the
    image; [layout] and [segs] are what the pointers of [kargs] point to.  The
    result: the state, the stack pointer and the address of the jump. *)
Definition ignite (rb spark physid : Z) (layout : list RAMDescriptor) (segs : list Segment) (kargs : KargsBlock) (s : Early)
    : outcome (Early * Z * Z) :=
  let statics := set_kargs kargs (ea_statics s) in
  b ← PhysAlloc_init wikisort rb
        (mkBoot (bt_pa (ea_boot s)) layout (si_layout_ptr (SYSINFO statics)) segs (ki_seg_ptr (KINFO statics)));
  let statics := set_copies b statics in
  '(m, g) ← glacier_init (bt_layout b) (mkMachine (bt_pa b) (ea_words s) (ea_flushed s));
  let mmu := identity_map g (ea_mmu s) in
  khh ← init_heap (ki_size (KINFO statics)) (ea_khh s);
  '(m, d) ← init_serial g m (ea_hw s);
  '(r, sp, pc) ← reloc (KernelVm0 := Machine_KernelVm g) (KINFO statics) (bt_segs b) physid spark
        (mkRelocSt m (ea_aps s) (KBASE statics) (ea_spark s) (ea_mem s));
  let m := rl_st r in
  Ret (mkEarly (mkStatics (KINFO statics) (SYSINFO statics) (rl_kbase r))
         (mkBoot (m_fa m) (bt_layout b) (bt_layout_ptr b) (bt_segs b) (bt_seg_ptr b))
         g khh (rl_aps r) (rl_spark r) (m_mem m) (m_flushed m) (rl_mem r) mmu d, sp, pc).
End Ignite.
Arguments Early Sp D : clear implicits.

(** [G_CFG.call_once(|| RvmCfg::detect())]: the configuration that everything
    else runs with; the registers are those that AArch64 reads. *)
Definition detect (a : Arch) (mmfr0 mmfr2 : Z) : outcome RvmCfg :=
  match a with X86_64 => Ret detect_amd64 | AArch64 => detect_aarch64 mmfr0 mmfr2 end.
Definition efi_start `{Build} {Sp D : Type} `{!Hardware D} wikisort (a : Arch) (mmfr0 mmfr2 rb spark physid : Z)
    layout segs kargs (s : Early Sp D) : outcome (Early Sp D * Z * Z) :=
  cfg ← detect a mmfr0 mmfr2;
  ignite (H := Build_Platform _ a cfg) wikisort rb spark physid layout segs kargs s.

(** ** The number of the processor

    On AMD64 the assembly of [arch::phys_id] with the register [out] that the
    compiler chose for the result; [cpuid] gives EAX, EBX, ECX and EDX of a
    leaf. *)

Section PhysId.
Variable cpuid : Z -> Z * Z * Z * Z.

Definition set_cpuid (c : Cpu64) : Cpu64 :=
  let '(eax, ebx, ecx, edx) := cpuid (get_reg RAX c) in set_reg RDX edx (set_reg RCX ecx (set_reg RBX ebx (set_reg RAX eax c))).
Definition phys_id_code (out : reg) (c : Cpu64) : Cpu64 :=
  let c := push (get_reg RAX c) c in
  let c := push (get_reg RBX c) c in
  let c := push (get_reg RCX c) c in
  let c := push (get_reg RDX c) c in
  let c := set_cpuid (set_reg RAX 1 c) in
  let c := set_reg out (get_reg RBX c mod 2 ^ 32) c in
  pop RAX (pop RBX (pop RCX (pop RDX c))).
Definition phys_id_amd64 (out : reg) (c : Cpu64) : Z := Z.shiftr (get_reg out (phys_id_code out c) mod 2 ^ 32) 24.
End PhysId.
Definition phys_id_aarch64 (mpidr : Z) : Z := Z.land mpidr 0xffff.

(** ** The interface to the exceptions

    [arch::exc::init]: on AMD64 the tables and the registers; on AArch64 the
    instructions, with the address of the vectors and the top of the stack in
    the registers that the compiler chose. *)

Class ExcInit (X : Type) : Type := { exc_setup : Z -> Z -> X -> outcome X }.

Definition ExcInit_amd64 (stubs : Z -> Z) (entry tss_addr percpu_addr : Z) : ExcInit (gmap Z CPUDesc * list IdtEnt * Cpu64) := {|
  exc_setup := fun top physid '(descs, idt, c) => exc_init stubs entry tss_addr percpu_addr top physid descs idt c
|}.
Definition ExcInit_aarch64 (exc_vts : Z) (vbar tramp tmp : nat) : ExcInit CpuA64 := {|
  exc_setup := fun top _ c =>
    r ← A64.execA (fun _ => Panic) (exc_init_aarch64 vbar tramp tmp) (xset tramp top (xset vbar exc_vts c));
    match r with Ok c => Ret c | Err _ => Panic end
|}.

(** ** What is printed *)

Fixpoint dec (k : nat) (x : Z) : string :=
  match k with O => EmptyString | S k => (dec k (x / 10) +:+ String (hex_digit (x mod 10)) EmptyString)%string end.
(** [{:.k}] of [x as f64 / 10^k]: below 2^52 the error of the quotient is less
    than half a unit of the last digit. *)
Definition fixed (k : nat) (x : Z) : string :=
  (pretty (x / 10 ^ Z.of_nat k) +:+ "." +:+ dec k (x mod 10 ^ Z.of_nat k))%string.
Definition text (l : list Z) : string := String.concat "" (chr <$> l).

(** ** [spark] *)

Section Spark.
Context `{Platform} {N : Type} `{!Hardware N}.
Abbreviation Wd := (World (A := PhysAlloc) (N := N)).
Context {Tb Tr Nv Xc Ud : Type} `{!Firmware Wd Tb Tr} `{!NvmeDriver Wd Nv} `{!UsbDriver Wd Xc Ud}.
Context {Hp X W F : Type} `{!KernelMem PhysAlloc Hp} `{!ExcInit X} `{!ExcCtxt F} `{!ElfParser}.
Abbreviation DevSt := (DevSt (A := PhysAlloc) (N := N) (T := Tb) (F := Tr) (Nv := Nv) (Xc := Xc) (Ud := Ud)).

(** [PHYS_ALLOC], [GLACIER] and the machine are in the world of the devices. *)
Record SparkSt : Type := mkSparkSt {
  sk_layout : list RAMDescriptor;
  sk_sys : SysInfo;
  sk_aps : ApList;
  sk_dev : DevSt;
  sk_exc : X;
  sk_heap : Hp;
  sk_mem : Mem;
  sk_vfs : Vfs (W := W);
  sk_ints : bool
}.

Definition sk_world (s : SparkSt) : Wd := dv_hw (ds_dev (sk_dev s)).
Definition sk_glacier (s : SparkSt) : Glacier := (sk_world s).1.1.
Definition sk_machine (s : SparkSt) : Machine PhysAlloc := (sk_world s).1.2.
Definition set_dev (s : SparkSt) (d : DevSt) : SparkSt :=
  mkSparkSt (sk_layout s) (sk_sys s) (sk_aps s) d (sk_exc s) (sk_heap s) (sk_mem s) (sk_vfs s) (sk_ints s).
Definition set_devices (s : SparkSt) d : SparkSt :=
  let v := sk_dev s in
  set_dev s (mkDevSt d (PCI_DEVICES v) (ACPI v) (DEVICETREE v) (ds_ic v) (CPU_COUNT v) (ds_px v) (VGA_DEVICE v)).
Definition set_machine (s : SparkSt) (m : Machine PhysAlloc) : SparkSt :=
  let d := ds_dev (sk_dev s) in set_devices s (with_hw d ((sk_glacier s, m), (sk_world s).2) (dv_regs d)).
Definition set_exc (s : SparkSt) (x : X) : SparkSt :=
  mkSparkSt (sk_layout s) (sk_sys s) (sk_aps s) (sk_dev s) x (sk_heap s) (sk_mem s) (sk_vfs s) (sk_ints s).
Definition set_vfs (s : SparkSt) (v : Vfs) : SparkSt :=
  mkSparkSt (sk_layout s) (sk_sys s) (sk_aps s) (sk_dev s) (sk_exc s) (sk_heap s) (sk_mem s) v (sk_ints s).

(** [printk!] and [printlnk!] *)
Definition printk (l : string) (s : SparkSt) : SparkSt := set_devices s (say l (ds_dev (sk_dev s))).
Definition printlnk (l : string) (s : SparkSt) : SparkSt := printk (l +:+ newline) s.

(** Up to [PHYS_ALLOC.reclaim()]; [physid] is [arch::phys_id()]. *)
Definition spark_memory (physid : Z) (s : SparkSt) : outcome SparkSt :=
  st ← remap (sk_glacier s) (sk_layout s) (sk_machine s);
  let s := set_machine s st in
  top ← stack_top (virtid_self (sk_aps s) physid);
  x ← exc_setup top physid (sk_exc s);
  let s := printlnk "The UNIX Time-Sharing System: Eleventh Edition" (set_exc s x) in
  let st := sk_machine s in
  a ← PhysAlloc_reclaim (S (length (pa_blocks (m_fa st)))) (m_fa st);
  Ret (set_machine s (set_fa st a)).

(** The devices and the file systems.  [n] bounds the waits for the interrupt
    controller, [fuel] the reads of FAT files; [edid_at] is what the displays say of themselves; [disks] are
    the block devices of the namespaces.  What [init_filesys] printed before it
    failed is not kept. *)
Variables (fuel n : nat) (edid_at : Z -> list Z) (disks : Z * Z -> BlockDevice W).

Definition spark_devices (physid : Z) (s : SparkSt) : outcome SparkSt :=
  d ← init_device n physid (si_acpi_ptr (sk_sys s)) (si_dtb_ptr (sk_sys s)) edid_at (sk_dev s);
  let s := set_dev s d in
  '(v, r) ← init_filesys fuel (disks <$> BLOCK_DEVICES (ds_dev d)) (sk_vfs s);
  let s := set_vfs s v in
  Ret (match r with Ok out => printk (text out) s | Err _ => s end).

(** The lines on the use of memory; [sp] is [arch::stack_ptr()]. *)
Definition spark_usage (physid sp : Z) (s : SparkSt) : outcome SparkSt :=
  top ← stack_top (virtid_self (sk_aps s) physid);
  stack_usage ← usub 64 top sp;
  let s := printlnk ("Kernel stack usage: " +:+ pretty stack_usage +:+ " / " +:+ pretty stack_size +:+ " bytes") s in
  let s := printlnk ("ID of this AP: " +:+ pretty physid) s in
  let pa := m_fa (sk_machine s) in
  ram_used ← PhysAlloc_filtsize pa (fun b => rb_used b);
  let s := printlnk ("RAM used: " +:+ fixed 6 ram_used +:+ " MB") s in
  ram_consumed ← PhysAlloc_filtsize pa (fun b => negb (bool_decide (rb_ty b = Conv)) || rb_used b);
  let s := printlnk ("RAM consumed: " +:+ fixed 6 ram_consumed +:+ " MB") s in
  ksize ← PhysAlloc_filtsize pa (fun b => bool_decide (rb_ty b = Kernel));
  Ret (printlnk ("Loaded kimg size: " +:+ fixed 3 ksize +:+ " kB") s).

(** The tables of processes are as at the start of the kernel, the processor
    has the kernel's page tables. *)
Definition spark_system (physid top : Z) (s : SparkSt) : System PhysAlloc Hp W F :=
  sys_init (mkKern (sk_machine s) (sk_heap s) (sk_mem s) (sk_glacier s))
    {[ physid := mkProcCpu (root_table (sk_glacier s)) top (sk_ints s) ]}.

(** [loop { arch::halt(); }] *)
Definition halt (physid : Z) (s : System PhysAlloc Hp W F) : System PhysAlloc Hp W F :=
  let c := cpu_of s physid in sy_set_cpu s physid (mkProcCpu (cp_root c) (cp_kstk c) false).

(** The result: the context that is entered and the kernel stack, or nothing
    when the processor halts. *)
Definition spark (physid sp : Z) (s : SparkSt)
    : outcome (SparkSt * System PhysAlloc Hp W F * option (F * Z)) :=
  s ← spark_memory physid s;
  s ← spark_devices physid s;
  s ← spark_usage physid sp s;
  top ← stack_top (virtid_self (sk_aps s) physid);
  '(y, r) ← exec_aleph fuel 2 physid (sk_vfs s) (spark_system physid top s);
  Ret (s, match r with Some _ => y | None => halt physid y end, r).
End Spark.

(** ** The number that CPUID gives, unless a [pop] overwrites it *)

Lemma get_pop r x c : r <> x -> r <> RSP -> get_reg r (pop x c) = get_reg r c.
Proof. intros Hx Hs. unfold pop, get_reg, set_reg. cbn. by rewrite !get_set, !decide_False by congruence. Qed.

Lemma phys_id_ok cpuid out c : out ∉ [RAX; RBX; RCX; RDX; RSP] -> 0 <= (cpuid 1).1.1.2 < 2 ^ 32 ->
  phys_id_amd64 cpuid out c = Z.shiftr (cpuid 1).1.1.2 24.
Proof.
  intros Ho Hb. rewrite !not_elem_of_cons in Ho. destruct Ho as (H1 & H2 & H3 & H4 & H5 & _).
  unfold phys_id_amd64, phys_id_code. cbv zeta. rewrite !get_pop by done. 
  assert (forall r v d, get_reg r (set_reg r v d) = v) as Hs by (intros; unfold get_reg, set_reg; cbn; by rewrite get_set, decide_True).
  rewrite Hs. unfold set_cpuid. rewrite Hs. destruct (cpuid 1) as [[[a b] x] d]. cbn in Hb |- *.
  unfold get_reg, set_reg. cbn. rewrite !get_set, !decide_False, decide_True by done. by rewrite !Z.mod_small by (rewrite ?Z.mod_small; done).
Qed.

(** The compiler may choose RAX, RCX or RDX. *)
Lemma phys_id_popped :
  let cpuid := fun _ => (0x806ea, 0x03100800, 0, 0) in
  phys_id_amd64 cpuid R8 Amd64Demo.cpu0 = 3 /\
  phys_id_amd64 cpuid RAX (set_reg RAX 0x7f000000 Amd64Demo.cpu0) = 0x7f.
Proof. vm_compute. split; reflexivity. Qed.

(** * The memory of the kernel when it has started *)

Lemma hihalf_ok `{Platform} : 16 < va_bits G_CFG <= 64 -> hihalf = Ret (2 ^ 64 - 2 ^ (va_bits G_CFG - 1)).
Proof.
  intros Hv. unfold hihalf. rewrite usub_ok, Ret_bind by lia. unfold ushl.
  destruct (Z.ltb_spec (va_bits G_CFG - 1) 64); [|lia]. f_equal. unfold unot. rewrite Z.shiftl_mul_pow2 by lia.
  set (k := va_bits G_CFG - 1) in *. assert (2 ^ 64 = 2 ^ (64 - k) * 2 ^ k) as Hs by (rewrite <- Z.pow_add_r by lia; f_equal; lia).
  assert (0 < 2 ^ k <= 2 ^ 64) as Hk by (split; [apply Z.pow_pos_nonneg; lia|apply Z.pow_le_mono_r; lia]).
  replace ((2 ^ 64 - 1 - 0) * 2 ^ k) with (2 ^ 64 - 2 ^ k + (2 ^ k - 1) * 2 ^ 64) by lia.
  rewrite Z.mod_add by lia. apply Z.mod_small. lia.
Qed.

(** ** The allocator takes free memory of the firmware's map only *)

Section Firm.
Context `{Platform}.
Hypothesis Hpage : page_size = 4096.
Variable ds : list RAMDescriptor.

Record firm (s : PhysAlloc) : Prop := {
  fm_inv : INV s;
  fm_keep : forall a, boot_map ds a <> Some (Conv, false) -> view s a = boot_map ds a;
  fm_recl : forall a u, view s a = Some (Reclaimable, u) -> boot_map ds a = Some (Reclaimable, u)
}.
(** In use, and taken from that memory. *)
Definition firm_taken (s : PhysAlloc) (a : Z) : Prop :=
  boot_map ds a = Some (Conv, false) /\ view s a <> Some (Conv, false).

Lemma firm_free s a : firm s -> view s a = Some (Conv, false) -> boot_map ds a = Some (Conv, false).
Proof.
  intros Hf Hv. destruct (decide (boot_map ds a = Some (Conv, false))) as [|Hn]; [done|].
  by rewrite <- (fm_keep s Hf a Hn).
Qed.

Lemma firm_upd s s' q x :
  firm s -> INV s' -> x <> (Conv, false) -> x.1 <> Reclaimable ->
  (forall a, in_ptr q a -> view s a = Some (Conv, false)) ->
  (forall a, view s' a = upd (view s) (op_ptr q) (op_size q) x a) ->
  firm s' /\ forall a, firm_taken s' a <-> firm_taken s a \/ in_ptr q a.
Proof.
  intros Hf Hi Hx Hr Hfree Hv. split.
  - constructor; [done| |].
    + intros a Ha. rewrite Hv. unfold upd. rewrite decide_False; [by apply fm_keep|].
      intros Hq. apply Ha. apply (firm_free s); [done|]. by apply Hfree.
    + intros a u. rewrite Hv. unfold upd. case_decide; [intros [= ->]; done|by apply fm_recl].
  - intros a. unfold firm_taken. rewrite Hv. unfold upd. case_decide as Hd.
    + split; [by right|]. intros _. split; [|intros [= ?]; done]. apply (firm_free s); [done|]. by apply Hfree.
    + split; [by left|]. by intros [?|?].
Qed.

(** What a request for memory gets. *)
Record got (s s' : PhysAlloc) (args : AllocParams) (q : OwnedPtr) : Prop := {
  gt_firm : firm s';
  gt_placed : PhysallocThms.placed args q;
  gt_range : range_ok (op_ptr q) (op_size q) /\ 0 < op_size q;
  gt_free : forall a, in_ptr q a -> boot_map ds a = Some (Conv, false) /\ ~ firm_taken s a;
  gt_taken : forall a, firm_taken s' a <-> firm_taken s a \/ in_ptr q a
}.

Lemma firm_alloc s args :
  firm s -> params_ok args -> ap_from_type args = Conv -> ap_as_type args <> Reclaimable -> ap_used args = true ->
  exists s' r, PhysAlloc_alloc s args = Ret (s', r) /\
    match r with
    | None => firm s' /\ forall a, firm_taken s' a <-> firm_taken s a
    | Some q => got s s' args q
    end.
Proof.
  intros Hf Hok Hfrom Hty Hu. destruct (alloc_run Hpage s args (fm_inv s Hf) Hok) as (s' & r & -> & Hr).
  exists s', r. split; [done|]. destruct r as [q|].
  - destruct Hr as [[Hi Hp Hfr Hv _ _] [Hrg Hpos _]]. rewrite Hfrom in Hfr.
    destruct (firm_upd s s' q (ap_as_type args, ap_used args)) as [Hf' Ht']; [done|done|by rewrite Hu|done|done|done|].
    constructor; [done|done|done| |done]. intros a Ha. specialize (Hfr a Ha). split; [by apply (firm_free s)|].
    intros [_ Hn]. done.
  - destruct Hr as [Hi Hv]. assert (forall a, view s' a = view s a) as Hv' by done. split.
    + constructor; [done| |]; intros a; rewrite Hv'; [apply fm_keep, Hf|apply fm_recl, Hf].
    + intros a. unfold firm_taken. by rewrite Hv'.
Qed.

Lemma firm_alloc_law s :
  firm s ->
  exists s' r, PhysAlloc_alloc s table_request = Ret (s', r) /\ firm s' /\
    match r with
    | None => forall x, firm_taken s' x <-> firm_taken s x
    | Some q =>
        (page_size | op_ptr q) /\ 0 <= op_ptr q /\ op_ptr q + page_size <= 2 ^ 60 /\
        (forall x, in_range (op_ptr q) page_size x -> ~ firm_taken s x) /\
        (forall x, firm_taken s' x <-> firm_taken s x \/ in_range (op_ptr q) page_size x)
    end.
Proof.
  intros Hf. destruct (firm_alloc s table_request Hf (table_request_ok Hpage)) as (s' & r & -> & Hr); [done..|].
  exists s', r. split; [done|]. destruct r as [q|]; [|done].
  destruct Hr as [Hf' [Hsz [Hal _]] [(H1 & H2 & H3) _] Hfr Htk].
  change (ap_size table_request) with page_size in Hsz. rewrite szal_page in Hsz. unfold in_ptr in Hfr, Htk. rewrite Hsz in *.
  assert (ap_align table_request = page_size) as Ha by (cbn; pose proof page_size_pos; lia).
  rewrite Ha in Hal. unfold LIM in H3. split_and!; try done. intros x Hx. by apply Hfr.
Qed.

Lemma firm_free_law s p :
  firm s -> 1 <= pa_room s -> 0 <= p -> p + page_size <= 2 ^ 60 ->
  (forall x, in_range p page_size x -> firm_taken s x) ->
  exists s', PhysAlloc_free_raw s p page_size = Ret s' /\ firm s' /\ pa_room s - 1 <= pa_room s' /\
    (forall x, firm_taken s' x <-> firm_taken s x /\ ~ in_range p page_size x).
Proof.
  intros Hf Hroom Hp Hb Htk. pose proof page_size_pos as Hps.
  assert (2 <= slack s) as Hsl.
  { unfold pa_room in Hroom. destruct (Z.leb_spec 2 (slack s)); [done|]. exfalso.
    assert (Z.min (slack s) 62 / 2 < 1); [|lia]. apply Z.div_lt_upper_bound; lia. }
  destruct (free_spec_n Hpage 11 s (mkOwnedPtr p page_size) (fm_inv s Hf)) as (s' & Hr & Hi & Hv & Hs'); [|done|].
  { constructor; simpl; [unfold range_ok, LIM; lia|lia|].
    intros a Ha Hm. apply (Htk a Ha). unfold view. by rewrite decide_True. }
  assert (forall a, view s' a = upd (view s) p page_size (Conv, false) a) as Hv' by exact Hv.
  exists s'. split; [exact Hr|]. clear Hr. split_and!.
  - constructor; [done| |].
    + intros a Ha. rewrite Hv'. unfold upd. rewrite decide_False; [by apply fm_keep|]. intros Hin. by destruct (Htk a Hin).
    + intros a u. rewrite Hv'. unfold upd. case_decide; [done|by apply fm_recl].
  - unfold pa_room. replace (Z.min (slack s) 62 / 2 - 1) with ((Z.min (slack s) 62 + (-1) * 2) / 2)
      by (rewrite Z.div_add by lia; lia). apply Z.div_le_mono; lia.
  - intros x. unfold firm_taken. rewrite Hv'. unfold upd. case_decide; tauto.
Qed.

Definition firm_laws : FrameLaws PhysAlloc := {|
  fa_inv := firm;
  fa_taken := firm_taken;
  fa_room := pa_room;
  fa_alloc_law := firm_alloc_law;
  fa_free_law := firm_free_law
|}.
End Firm.

(** ** The requests, and the pages that they have *)

Definition desc_size (d : RAMDescriptor) : Z := desc_page_count d * 0x1000.
(** Everything that is not reserved is mapped where it is: devices as such,
    the rest with the flags [fl]. *)
Definition identity_req `{Platform} (fl : Z) (d : RAMDescriptor) : option MapReq :=
  let req := mkMapReq (desc_phys_start d) (desc_phys_start d) (desc_size d) in
  if bool_decide (desc_ty d = MMIO) || bool_decide (desc_ty d = MMIOPortSpace) then Some (req (D_RW flags))
  else if bool_decide (desc_ty d = Reserved) then None else Some (req fl).
Definition identity `{Platform} (fl : Z) (ds : list RAMDescriptor) : list MapReq := omap (identity_req fl) ds.
Definition ram_req `{Platform} (d : RAMDescriptor) : option MapReq :=
  if ty_in NON_RAM (desc_ty d) then None
  else Some (mkMapReq (desc_phys_start d) (desc_phys_start d) (desc_size d) (K_RWO flags)).
Definition ram_reqs `{Platform} (ds : list RAMDescriptor) : list MapReq := omap ram_req ds.
(** The page of the serial port's registers. *)
Definition serial_req `{Platform} : MapReq := mkMapReq serial_io UART0_BASE page_size (D_RW flags).

Section Pages.
Context `{Platform}.
Hypothesis Hpage : page_size = 4096.
Abbreviation c := G_CFG.
Hypothesis Hvb : 48 <= va_bits c <= 52.
Abbreviation full := (2 ^ bits c 0).
Definition hh : Z := 2 ^ 64 - 2 ^ (va_bits c - 1).

Lemma cfg_48 : cfg_ok c.
Proof. unfold cfg_ok. lia. Qed.
Lemma full_all : 0 < full <= full.
Proof.
  split; [|done]. pose proof (lv_bounds c cfg_48) as [? _].
  pose proof (bits_bounds c cfg_48 0 ltac:(lia)) as [? _]. apply Z.pow_pos_nonneg; lia.
Qed.
Lemma in_full va : in_lim full va.
Proof. pose proof (lv_bounds c cfg_48) as [? _]. apply (idx_range c cfg_48). lia. Qed.

Lemma shift_12 : BPage_shift (psz c) = 12.
Proof. unfold page_size, BPage_size in Hpage. destruct (psz c); done. Qed.

(** Addresses of the lower and of the upper half, on page boundaries. *)
Definition canon (x : Z) : Prop := (4096 | x) /\ (0 <= x < 2 ^ 47 \/ hh <= x < 2 ^ 64).

Lemma vpn_canon x : canon x -> vpn c x = if x <? 2 ^ 47 then x / 4096 else (x - hh) / 4096 + 2 ^ (va_bits c - 13).
Proof.
  unfold canon, hh, vpn. rewrite shift_12. change (2 ^ 12) with 4096. set (v := va_bits c) in *.
  assert (2 ^ (v - 12) = 2 * 2 ^ (v - 13)) as Hm by (replace (v - 12) with (1 + (v - 13)) by lia; by rewrite Z.pow_add_r by lia).
  assert (2 ^ (v - 1) = 2 ^ (v - 13) * 4096) as Hh by (change 4096 with (2 ^ 12); rewrite <- Z.pow_add_r by lia; f_equal; lia).
  assert (2 ^ 64 = 2 ^ (64 - v) * 2 ^ (v - 12) * 4096) as H64
    by (change 4096 with (2 ^ 12); rewrite <- !Z.pow_add_r by lia; f_equal; lia).
  assert (2 ^ 35 <= 2 ^ (v - 13)) as Hlow by (apply Z.pow_le_mono_r; lia).
  assert (1 <= 2 ^ (64 - v)) as Hb by (apply (Z.pow_le_mono_r 2 0); lia).
  intros [[k ->] [Hx|Hx]].
  - rewrite (proj2 (Z.ltb_lt _ _)) by lia. rewrite Z.div_mul by lia. apply Z.mod_small. lia.
  - destruct (Z.ltb_spec (k * 4096) (2 ^ 47)); [nia|]. rewrite Hh, H64 in Hx |- *. rewrite Z.div_mul by lia.
    set (b := 2 ^ (64 - v)) in *. set (m := 2 ^ (v - 12)) in *. set (h := 2 ^ (v - 13)) in *. clearbody b m h.
    replace (k * 4096 - (b * m * 4096 - h * 4096)) with ((k - b * m + h) * 4096) by lia. rewrite Z.div_mul by lia.
    replace k with (k - b * m + m + (b - 1) * m) at 1 by lia. rewrite Z.mod_add by lia.
    rewrite Z.mod_small by lia. lia.
Qed.

Lemma canon_inj x y : canon x -> canon y -> vpn c x = vpn c y -> x = y.
Proof.
  intros Hx Hy Hv. rewrite !vpn_canon in Hv by done.
  destruct Hx as [[k ->] Hx], Hy as [[l ->] Hy]. unfold hh in *.
  assert (2 ^ (va_bits c - 1) = 2 ^ (va_bits c - 13) * 4096) as Hh by (change 4096 with (2 ^ 12); rewrite <- Z.pow_add_r by lia; f_equal; lia).
  assert (2 ^ 35 <= 2 ^ (va_bits c - 13) <= 2 ^ 39) as Hlow by (split; apply Z.pow_le_mono_r; lia).
  rewrite Hh in *. set (h := 2 ^ (va_bits c - 13)) in *. clearbody h.
  replace (k * 4096 - (2 ^ 64 - h * 4096)) with ((k - 2 ^ 52 + h) * 4096) in Hv by lia.
  replace (l * 4096 - (2 ^ 64 - h * 4096)) with ((l - 2 ^ 52 + h) * 4096) in Hv by lia.
  rewrite !Z.div_mul in Hv by lia. destruct (Z.ltb_spec (k * 4096) (2 ^ 47)), (Z.ltb_spec (l * 4096) (2 ^ 47)); lia.
Qed.

Definition in_pages (r : MapReq) (x : Z) : Prop := mq_lo r <= x < mq_lo r + mq_pages r * page_size.
Definition canon_req (r : MapReq) : Prop := forall x, (4096 | x) -> in_pages r x -> canon x.

Lemma touches_page r va : touches r va -> exists x, (4096 | x) /\ in_pages r x /\ vpn c va = vpn c x.
Proof.
  intros (k & Hk & Hv). exists (page (mq_lo r) k). split_and!; [|unfold in_pages, page|done].
  - unfold page, mq_lo, page_floor. rewrite Hpage, <- Z.mul_add_distr_r. apply Z.divide_factor_r.
  - rewrite Hpage. lia.
Qed.
Lemma page_touches r x : (4096 | x) -> in_pages r x -> touches r x.
Proof.
  intros [k ->] Hx. unfold in_pages in Hx. exists (k - mq_va r / 4096). unfold mq_lo, page_floor, page in *.
  rewrite Hpage in *. split; [lia|]. f_equal. lia.
Qed.

(** Requests without a common page. *)
Definition apart_req (r r' : MapReq) : Prop := forall x, in_pages r x -> ~ in_pages r' x.

Lemma apart_touches r r' va : canon_req r -> canon_req r' -> apart_req r r' -> touches r va -> ~ touches r' va.
Proof.
  intros Hr Hr' Ha Ht Ht'. apply touches_page in Ht as (x & Hx & Hin & Hv), Ht' as (y & Hy & Hin' & Hv').
  assert (x = y) as ->; [|by apply (Ha y)]. apply canon_inj; [by apply Hr|by apply Hr'|congruence].
Qed.

Lemma separate_intro rs rs' :
  Forall canon_req rs -> Forall canon_req rs' -> (forall r r', r ∈ rs -> r' ∈ rs' -> apart_req r r') -> separate rs rs'.
Proof.
  rewrite !Forall_forall. intros Hr Hr' Ha r r' va Hin Hin' _. apply apart_touches; auto.
Qed.

Lemma no_shared_intro r rs :
  canon_req r -> Forall canon_req rs -> (forall r', r' ∈ rs -> apart_req r r') -> no_shared rs -> no_shared (r :: rs).
Proof.
  rewrite Forall_forall. intros Hr Hrs Ha Hn.
  assert (forall j r' va, rs !! j = Some r' -> touches r va -> ~ touches r' va) as Hx.
  { intros j r' va Hj. apply list_elem_of_lookup_2 in Hj. apply apart_touches; auto. }
  intros [|i] [|j] r1 r2 va Hi Hj Hva H1 H2; cbn in Hi, Hj; simplify_eq; [done| | |].
  - by destruct (Hx j r2 va).
  - by destruct (Hx i r1 va).
  - f_equal. by apply (Hn i j r1 r2 va).
Qed.

(** A range whose size is a number of pages of 4 kiB. *)
Lemma pages_bound va size : 0 <= va -> 0 <= size ->
  page_floor va <= va /\ page_floor va + pages_of va size * 4096 <= va + size + 4095 /\ 0 <= pages_of va size /\
  pages_of va size * 4096 <= size + 8190.
Proof.
  intros Hva Hs. unfold page_floor, pages_of. rewrite Hpage.
  pose proof (Z.div_mod va 4096 ltac:(lia)). pose proof (Z.mod_pos_bound va 4096 ltac:(lia)).
  pose proof (Z.div_mod (va + size + 4096 - 1) 4096 ltac:(lia)).
  pose proof (Z.mod_pos_bound (va + size + 4096 - 1) 4096 ltac:(lia)). lia.
Qed.

Lemma pages_aligned va n : (4096 | va) -> page_floor va = va /\ pages_of va (n * 4096) = n.
Proof.
  intros [k ->]. unfold page_floor, pages_of. rewrite Hpage, Z.div_mul by lia. split; [done|].
  replace (k * 4096 + n * 4096 + 4096 - 1) with (4095 + (k + n) * 4096) by lia.
  rewrite Z.div_add by lia. change (4095 / 4096) with 0. lia.
Qed.

Lemma req_ok_intro r :
  0 <= mq_va r -> 0 <= mq_size r <= 2 ^ 47 -> mq_va r + mq_size r + page_size < 2 ^ 64 ->
  0 <= mq_pa r <= 2 ^ 60 -> req_ok full r.
Proof.
  intros Hva Hs Hb Hpa. pose proof (pages_bound (mq_va r) (mq_size r) Hva ltac:(lia)) as (H1 & H2 & H3 & H4).
  constructor.
  - lia.
  - split; [lia|]. unfold mq_frames, mq_pages.
    assert (page_floor (mq_pa r) <= mq_pa r) by (unfold page_floor; rewrite Hpage; pose proof (Z.div_mod (mq_pa r) 4096); pose proof (Z.mod_pos_bound (mq_pa r) 4096); lia).
    rewrite Hpage. lia.
  - unfold mq_lo, mq_pages. constructor.
    + split; [|apply floor_divide]. unfold page_floor. rewrite Hpage. apply Z.mul_nonneg_nonneg; [apply Z.div_pos; lia|lia].
    + rewrite Hpage in *. lia.
    + rewrite shift_12. split; [done|]. assert (2 ^ 36 <= 2 ^ (va_bits c - 12)) by (apply Z.pow_le_mono_r; lia). lia.
    + intros k _. apply in_full.
Qed.

Lemma canon_high va pa size fl : hh <= va -> 0 <= size -> va + size <= 2 ^ 64 -> canon_req (mkMapReq va pa size fl).
Proof.
  intros Hva Hs Hb x [k ->] Hx. split; [apply Z.divide_factor_r|right]. unfold in_pages, mq_lo, mq_pages in Hx. cbn in Hx.
  assert (0 <= hh /\ (4096 | hh)) as [Hh0 [j Hj]].
  { unfold hh. assert (2 ^ (va_bits c - 1) = 2 ^ (va_bits c - 13) * 4096) as Hh by (change 4096 with (2 ^ 12); rewrite <- Z.pow_add_r by lia; f_equal; lia).
    assert (2 ^ (va_bits c - 13) <= 2 ^ 39) by (apply Z.pow_le_mono_r; lia). split; [lia|].
    exists (2 ^ 52 - 2 ^ (va_bits c - 13)). lia. }
  pose proof (pages_bound va size ltac:(lia) Hs) as (H1 & H2 & H3 & H4). rewrite Hpage in *.
  assert (hh <= page_floor va).
  { unfold page_floor. rewrite Hpage, Hj. apply Z.mul_le_mono_nonneg_r; [lia|].
    rewrite <- (Z.div_mul j 4096) by lia. apply Z.div_le_mono; lia. }
  unfold page_floor in *. rewrite Hpage in *. lia.
Qed.
End Pages.

(** ** Identity mappings of the firmware's map *)

Section Identity.
Context `{Platform}.
Hypothesis Hpage : page_size = 4096.
Abbreviation c := G_CFG.
Hypothesis Hvb : 48 <= va_bits c <= 52.
Abbreviation full := (2 ^ bits c 0).

(** An entry of the map: whole pages, below the upper half. *)
Record desc_low (d : RAMDescriptor) : Prop := {
  dl_align : (4096 | desc_phys_start d);
  dl_range : 0 <= desc_phys_start d /\ 0 <= desc_page_count d /\ desc_phys_start d + desc_size d <= 2 ^ 47
}.

Definition at_place (f : RAMDescriptor -> option MapReq) : Prop :=
  forall d r, f d = Some r -> mq_va r = desc_phys_start d /\ mq_pa r = desc_phys_start d /\ mq_size r = desc_size d.

Lemma identity_req_at fl : at_place (identity_req fl).
Proof. intros d r. unfold identity_req. destruct (_ || _); [by intros [= <-]|]. case_bool_decide; [done|by intros [= <-]]. Qed.
Lemma ram_req_at : at_place ram_req.
Proof. intros d r. unfold ram_req. destruct (ty_in _ _); [done|by intros [= <-]]. Qed.

Variable f : RAMDescriptor -> option MapReq.
Hypothesis Hf : at_place f.

Lemma place_pages d r : desc_low d -> f d = Some r -> (forall x, in_pages r x <-> desc_range d x).
Proof.
  intros [Hal [H1 [H2 H3]]] Hr x. destruct (Hf d r Hr) as (Hva & _ & Hsz). unfold in_pages, mq_lo, mq_pages.
  rewrite Hva, Hsz. unfold desc_size. destruct (pages_aligned Hpage (desc_phys_start d) (desc_page_count d) Hal) as [-> ->].
  unfold desc_range, in_range. rewrite Hpage. done.
Qed.

Lemma place_canon d r : desc_low d -> f d = Some r -> canon_req r.
Proof.
  intros Hd Hr x Hx Hin. apply (place_pages d r Hd Hr) in Hin. unfold desc_range, in_range, PAGE_4KIB in Hin.
  destruct Hd as [Hal [H1 [H2 H3]]]. unfold desc_size in H3. split; [done|left; lia].
Qed.

Lemma place_ok d r : desc_low d -> f d = Some r -> req_ok full r.
Proof.
  intros [Hal [H1 [H2 H3]]] Hr. destruct (Hf d r Hr) as (Hva & Hpa & Hsz). unfold desc_size in *.
  apply req_ok_intro; [done|done|lia|lia| |lia]. rewrite Hva, Hsz, Hpage. lia.
Qed.

Lemma places_elem (ds : list RAMDescriptor) r : r ∈ omap f ds -> exists d, d ∈ ds /\ f d = Some r.
Proof. intros Hr. apply list_elem_of_omap in Hr as (d & Hd & Hr). by exists d. Qed.

Lemma places_ok (ds : list RAMDescriptor) : Forall desc_low ds -> Forall (req_ok full) (omap f ds) /\ Forall canon_req (omap f ds).
Proof.
  rewrite !Forall_forall. intros Hds. split; intros r Hr; apply places_elem in Hr as (d & Hd & Hr).
  - by apply (place_ok d); [apply Hds|].
  - by apply (place_canon d); [apply Hds|].
Qed.

Lemma places_apart (ds : list RAMDescriptor) : Forall desc_low ds -> disjoint_map ds -> no_shared (omap f ds).
Proof.
  induction ds as [|d ds IH]; intros Hlow Hdis.
  { intros i j r r' va Hi. cbn in Hi. by destruct i. }
  apply Forall_cons in Hlow as [Hd Hlow]. destruct Hdis as [Hsep Hdis]. specialize (IH Hlow Hdis). cbn [omap list_omap].
  destruct (f d) as [r|] eqn:Hr; [|done]. apply (no_shared_intro Hpage Hvb); [by apply (place_canon d)|by apply places_ok| |done].
  intros r' Hr' x Hx Hx'. apply places_elem in Hr' as (e & He & Hr').
  rewrite Forall_forall in Hsep, Hlow. apply (place_pages d r Hd Hr) in Hx. apply (place_pages e r' (Hlow e He) Hr') in Hx'.
  by apply (Hsep e He x).
Qed.
End Identity.

(** The loops of [init] and [remap] are these requests. *)
Section Loops.
Context `{Platform} {A : Type} `{!FrameAlloc A}.
Abbreviation c := G_CFG.

Lemma size_run d : desc_low d -> umul 64 (desc_page_count d) 0x1000 = Ret (desc_size d).
Proof. intros [_ [H1 [H2 H3]]]. unfold desc_size in *. apply umul_ok. lia. Qed.

Lemma init_each_reqs g ds (st : Machine A) :
  Forall desc_low ds -> init_each g ds st = or_panic (map_reqs g (identity (K_RWX flags) ds) st).
Proof.
  intros Hds. revert st. induction Hds as [|d ds Hd _ IH]; intros st; [done|]. cbn [init_each identity omap list_omap].
  rewrite size_run, Ret_bind by done. unfold identity_req.
  destruct (bool_decide (desc_ty d = MMIO) || bool_decide (desc_ty d = MMIOPortSpace)) eqn:Hm.
  - cbn [map_reqs mq_va mq_pa mq_size mq_fl]. unfold or_panic. destruct (map_range g _ _ _ _ st) as [[st1 [u|e]]| |]; rewrite ?Ret_bind; [apply IH|done..].
  - destruct (bool_decide (desc_ty d = Reserved)); [apply IH|]. cbn [map_reqs mq_va mq_pa mq_size mq_fl]. unfold or_panic.
    destruct (map_range g _ _ _ _ st) as [[st1 [u|e]]| |]; rewrite ?Ret_bind; [apply IH|done..].
Qed.

Lemma remap_reqs g ds (st : Machine A) :
  Forall desc_low ds -> remap g ds st = or_panic (map_reqs g (ram_reqs ds) st).
Proof.
  intros Hds. revert st. induction Hds as [|d ds Hd _ IH]; intros st; [done|]. cbn [remap ram_reqs omap list_omap].
  rewrite size_run, Ret_bind by done. unfold ram_req.
  destruct (ty_in NON_RAM (desc_ty d)); [apply IH|]. cbn [map_reqs mq_va mq_pa mq_size mq_fl]. unfold or_panic.
  destruct (map_range g _ _ _ _ st) as [[st1 [u|e]]| |]; rewrite ?Ret_bind; [apply IH|done..].
Qed.
End Loops.

(** ** [ignite], part by part *)

Section Start.
Context `{Platform}.
Hypothesis Hpage : page_size = 4096.
Abbreviation c := G_CFG.
Hypothesis Hvb : 48 <= va_bits c <= 52.
Abbreviation full := (2 ^ bits c 0).
(** The firmware's map. *)
Variable ds : list RAMDescriptor.
#[local] Instance laws : FrameLaws PhysAlloc := firm_laws Hpage ds.
Implicit Types (st : Machine PhysAlloc) (τ : gmap (list Z) Z).
#[local] Abbreviation GInv := (GInv full).
#[local] Abbreviation cfg := (cfg_48 Hvb).
#[local] Abbreviation lims := (full_all Hvb).

Lemma fa_alloc_is : fa_alloc = PhysAlloc_alloc.
Proof. unfold fa_alloc, PhysAlloc_FrameAlloc. reflexivity. Qed.

Lemma initialised_firm b b' : bt_layout b = ds -> initialised b b' -> firm ds (bt_pa b').
Proof.
  intros <- [Hi _ _ _ _ (Hl & Hs & Hv)]. constructor; [done| |].
  - intros a Ha. rewrite Hv. case_decide as Hd; [by destruct (Hl a Hd)|]. case_decide as Hd'; [by destruct Ha; apply Hs|done].
  - intros a u. rewrite Hv. by do 2 (case_decide; [done|]).
Qed.

Lemma GInv_fa g st τ a :
  GInv g st τ -> firm ds a -> (forall x, firm_taken ds (m_fa st) x -> firm_taken ds a x) -> GInv g (set_fa st a) τ.
Proof.
  intros [HT Hi] Ha Hk. constructor; [|done]. apply (tree_frame full cfg lims st); [done|done|].
  intros x (p & t & Hp & Hx). apply Hk. exact (t_taken _ _ _ _ HT p t x Hp Hx).
Qed.

(** The allocator has no frame for the root, or none for another table. *)
Inductive short_init layout st : Prop :=
  | short_root a : PhysAlloc_alloc (m_fa st) table_request = Ret (a, None) -> short_init layout st
  | short_identity st1 g : Glacier_init st = Ret (st1, g) -> failed_req g (identity (K_RWX flags) layout) st1 Failed2Alloc ->
      short_init layout st.

(** The first tables. *)
Lemma glacier_init_run layout st :
  firm ds (m_fa st) -> Forall desc_low layout -> disjoint_map layout ->
  (glacier_init layout st = Panic /\ short_init layout st) \/
  exists st' g τ, glacier_init layout st = Ret (st', g) /\ GInv g st' τ /\ maps_only (identity (K_RWX flags) layout) st' τ.
Proof.
  intros Hf Hlow Hdis. unfold glacier_init.
  destruct (root_entries (FrameLaws0 := laws) full cfg lims st Hf) as [[-> [f Hn]]|(st1 & g & Hinit & HG & Hz & _)].
  { left. split; [done|]. rewrite fa_alloc_is in Hn. by apply (short_root _ _ f). }
  rewrite Hinit.
  rewrite Ret_bind, init_each_reqs by done.
  destruct (places_ok Hpage Hvb _ (identity_req_at (K_RWX flags)) layout Hlow) as [Hok Hcan].
  destruct (map_reqs_entries full cfg lims g _ st1 _ HG Hok (places_apart Hpage Hvb _ (identity_req_at _) layout Hlow Hdis))
    as (st' & x & τ' & Hrun & HG' & Hx & _).
  fold (identity (K_RWX flags) layout) in *. rewrite Hrun. unfold or_panic. rewrite Ret_bind. destruct x as [u|[]]; [right|left].
  - rewrite Ret_bind. exists st', g, τ'. split_and!; [done|done|].
    rewrite <- (app_nil_l (identity _ _)). apply (maps_only_app [] _ st1 {[ [] := root_table g ]}); [|done|].
    + constructor; [intros r va k Hr; by apply elem_of_nil in Hr|]. intros va _ _.
      apply (fresh_pte full cfg); [done|by apply in_full].
    + intros r r' va Hr. by apply elem_of_nil in Hr.
  - split; [done|]. by eapply short_identity.
Qed.

(** The serial port: on AArch64 one more page, if there is a table for it. *)
Definition serial_reqs (rs : list MapReq) : Prop := rs = [] \/ target_arch = AArch64 /\ rs = [serial_req].

Lemma serial_pages : mq_lo serial_req = 2 ^ 64 - 4096 /\ mq_pages serial_req = 1.
Proof. unfold mq_lo, mq_pages, page_floor, pages_of, serial_req, serial_io. cbn [mq_va mq_size]. rewrite Hpage. by vm_compute. Qed.

Lemma init_serial_run {D : Type} `{!Hardware D} g st τ (d : D) rs :
  GInv g st τ -> maps_only rs st τ -> separate rs [serial_req] ->
  exists st' d' τ' ser, init_serial g st d = Ret (st', d') /\ GInv g st' τ' /\ serial_reqs ser /\ maps_only (rs ++ ser) st' τ'.
Proof.
  intros HG Hm Hsep. unfold init_serial. destruct target_arch eqn:Ha.
  { eexists st, _, τ, []. rewrite app_nil_r. split_and!; [done|done|by left|done]. }
  unfold init_serial_aarch64. assert (serial_io = 2 ^ 64 - 4096) as Hs by (unfold serial_io; rewrite Hpage; reflexivity).
  destruct (map_page_run full cfg lims g st τ serial_io UART0_BASE (D_RW flags_aarch64) HG)
    as (st' & x & τ' & -> & HG' & _ & _ & _ & Hw); [rewrite Hs; lia|by apply in_full|].
  rewrite Ret_bind. unfold reg_write. rewrite Hs, !uadd_ok by lia. rewrite !Ret_bind.
  destruct serial_pages as [Hlo Hpg].
  assert (Hone : forall va, touches serial_req va <-> vpn c va = vpn c serial_io).
  { intros va. unfold touches. rewrite Hlo, Hpg. split.
    - intros (k & Hk & ->). assert (k = 0) as -> by lia. unfold page. by rewrite Z.mul_0_l, Z.add_0_r, Hs.
    - intros Hv. exists 0. split; [lia|]. unfold page. by rewrite Z.mul_0_l, Z.add_0_r, <- Hs. }
  destruct x as [u|e].
  - eexists st', _, τ', [serial_req]. split_and!; [done|done|by right|]. apply (maps_only_app rs _ st τ); [done| |done].
    constructor.
    + intros r va k [->|Hr%elem_of_nil]%elem_of_cons _ Hk Hv; [|done]. rewrite (writes_pte cfg _ _ _ _ _ _ va Hw).
      rewrite Hpg in Hk. assert (k = 0) as -> by lia. rewrite decide_True.
      * unfold page, mq_frames, page_floor, serial_req, page_mask. cbn [mq_pa mq_fl]. unfold flags. rewrite Ha, Hpage.
        reflexivity.
      * apply Hone. exists 0. rewrite Hpg. split; [lia|done].
    + intros va _ Hn. rewrite (writes_pte cfg _ _ _ _ _ _ va Hw), decide_False; [done|]. intros Hv.
      apply (Hn serial_req); [by left|by apply Hone].
  - eexists st', _, τ', []. rewrite app_nil_r. split_and!; [done|done|by left|]. destruct Hm as [Hin Hout].
    constructor; intros; rewrite (writes_pte cfg _ _ _ _ _ _ _ Hw); eauto.
Qed.

(** ** The move to the upper half *)

(** The kernel's image as the loader left it at [B], in memory that the
    firmware's map does not call free; its segments share no page. *)
Record kernel_ok (kinfo : KernelInfo) (segs : list Segment) (B : Z) (m : Mem) img v es : Prop := {
  ko_linked : linked img (ki_size kinfo) (ki_dyn_ptr kinfo) (ki_dyn_len kinfo) v es;
  ko_base : base_ok img (ki_size kinfo) v es hh;
  ko_loaded : loaded img (ki_dyn_ptr kinfo) (ki_dyn_len kinfo) v es B m;
  ko_range : 0 <= B /\ 0 < ki_size kinfo /\ B + ki_size kinfo <= 2 ^ 47;
  ko_segs : Forall (fun seg => 0 <= seg_ptr seg /\ 0 <= seg_len seg /\ seg_ptr seg + seg_len seg <= ki_size kinfo) segs;
  ko_apart : no_shared (seg_req hh 0 <$> segs);
  ko_old : forall x, 0 <= x < ki_size kinfo -> boot_map ds (B + x) <> Some (Conv, false)
}.

(** The stack of processor [vid], above the kernel. *)
Definition stack_of (vid : Z) : Z := gleam_base - per_cpu_data * vid.
Definition stack_fits (kinfo : KernelInfo) (vid : Z) : Prop :=
  0 <= vid /\ hh + ki_size kinfo + 4096 <= stack_of vid - stack_size.

Lemma stack_facts vid : 0 <= vid ->
  stack_size = 0x4000 /\ per_cpu_data = 0x40000 /\ (4096 | stack_of vid) /\ stack_of vid <= 2 ^ 64 - 0x40000.
Proof.
  intros Hv. unfold stack_of, gleam_base. assert (stack_size = 0x4000) as -> by (unfold stack_size; by rewrite Hpage).
  assert (per_cpu_data = 0x40000) as -> by (unfold per_cpu_data; rewrite Hpage; reflexivity).
  split_and!; [done|done| |].
  - change (uwrap_sub 64 0 0x40000) with (2 ^ 64 - 0x40000). exists (2 ^ 52 - 64 - 64 * vid). lia.
  - change (uwrap_sub 64 0 0x40000) with (2 ^ 64 - 0x40000). lia.
Qed.

Lemma hh_facts : 2 ^ 47 <= 2 ^ 64 - hh <= 2 ^ 51.
Proof. unfold hh. split; [replace (2 ^ 64 - _) with (2 ^ (va_bits c - 1)) by lia|replace (2 ^ 64 - _) with (2 ^ (va_bits c - 1)) by lia]; apply Z.pow_le_mono_r; lia. Qed.

Hypothesis Hlow : Forall desc_low ds.

Lemma boot_low a x : boot_map ds a = Some x -> 0 <= a < 2 ^ 47.
Proof.
  intros Ho. apply owner_Some in Ho as (b & Hb & Hba & _). apply list_elem_of_fmap in Hb as (d & -> & Hd).
  rewrite Forall_forall in Hlow. destruct (Hlow d Hd) as [_ (H1 & H2 & H3)].
  unfold in_block, in_range, boot_block, desc_size, PAGE_4KIB in *. cbn in Hba. lia.
Qed.

Section Requests.
Context (kinfo : KernelInfo) (segs : list Segment) (B : Z) (m : Mem) (img : Z -> Z) (v : DynVars) (es : list RelaEntry).
Context (Hk : kernel_ok kinfo segs B m img v es) (vid : Z) (Hstk : stack_fits kinfo vid).
Context (nb stk : Z) (Hnb : 0 <= nb /\ nb + ki_size kinfo <= 2 ^ 60) (Hs : 0 <= stk <= 2 ^ 60).
Abbreviation reqs := (reloc_reqs hh nb (stack_of vid) (mkOwnedPtr stk 0) segs).

Lemma stack_pages x : in_pages (mkMapReq (stack_of vid - stack_size) stk stack_size (K_RWO flags)) x ->
  stack_of vid - stack_size <= x < stack_of vid.
Proof.
  destruct Hstk as [Hv _]. destruct (stack_facts vid Hv) as (Hss & _ & [j Hj] & _).
  unfold in_pages, mq_lo, mq_pages. cbn [mq_va mq_size]. rewrite Hss, Hj.
  destruct (pages_aligned Hpage (j * 4096 - 0x4000) 4) as [H1 H2]; [exists (j - 4); lia|].
  change (4 * 4096) with 0x4000 in H2. rewrite H1, H2, Hpage. lia.
Qed.

Lemma seg_pages seg x : seg ∈ segs -> in_pages (seg_req hh nb seg) x -> hh <= x < hh + ki_size kinfo + 4096.
Proof.
  intros Hseg. pose proof (ko_segs _ _ _ _ _ _ _ Hk) as Hsg. rewrite Forall_forall in Hsg. destruct (Hsg seg Hseg) as (H1 & H2 & H3).
  pose proof hh_facts as Hh. unfold in_pages, mq_lo, mq_pages, seg_req. cbn [mq_va mq_size].
  assert (exists j, hh = j * 4096) as [j Hj].
  { exists (2 ^ 52 - 2 ^ (va_bits c - 13)). unfold hh. rewrite Z.mul_sub_distr_r. change 4096 with (2 ^ 12). rewrite <- !Z.pow_add_r by lia.
    do 2 f_equal; lia. }
  assert (0 <= hh + seg_ptr seg) as Hva by lia.
  pose proof (pages_bound Hpage (hh + seg_ptr seg) (seg_len seg) Hva H2) as (H4 & H5 & H6 & H7). rewrite Hpage.
  intros Hx. split; [|lia]. unfold page_floor in Hx. rewrite Hpage, Hj in Hx. rewrite Hj.
  assert (j <= (j * 4096 + seg_ptr seg) / 4096); [|lia]. apply Z.div_le_lower_bound; lia.
Qed.

Lemma reqs_canon : Forall canon_req reqs.
Proof.
  destruct Hstk as [Hv Hst]. destruct (stack_facts vid Hv) as (Hss & _ & _ & Htop). pose proof hh_facts as Hh.
  destruct (ko_range _ _ _ _ _ _ _ Hk) as (H1 & H2 & H3). constructor.
  - apply canon_high; [done|done|lia|lia|lia].
  - rewrite Forall_fmap, Forall_forall. intros seg Hseg. pose proof (ko_segs _ _ _ _ _ _ _ Hk) as Hsg.
    rewrite Forall_forall in Hsg. destruct (Hsg seg Hseg) as (H4 & H5 & H6). apply canon_high; [done|done|lia|lia|lia].
Qed.

Lemma reqs_fit : Forall (req_ok full) reqs.
Proof.
  destruct Hstk as [Hv Hst]. destruct (stack_facts vid Hv) as (Hss & _ & _ & Htop). pose proof hh_facts as Hh.
  destruct (ko_range _ _ _ _ _ _ _ Hk) as (H1 & H2 & H3). constructor.
  - apply req_ok_intro; [done|done|..]; cbn [mq_va mq_pa mq_size op_ptr]; rewrite ?Hpage; lia.
  - rewrite Forall_fmap, Forall_forall. intros seg Hseg. pose proof (ko_segs _ _ _ _ _ _ _ Hk) as Hsg.
    rewrite Forall_forall in Hsg. destruct (Hsg seg Hseg) as (H4 & H5 & H6).
    apply req_ok_intro; [done|done|..]; cbn [seg_req mq_va mq_pa mq_size]; rewrite ?Hpage; lia.
Qed.

Lemma upper_apart : no_shared reqs.
Proof.
  pose proof reqs_canon as Hc. apply Forall_cons in Hc as [Hc1 Hc2].
  apply (no_shared_intro Hpage Hvb); [done|done| |].
  - intros r' Hr' x Hx Hx'. apply list_elem_of_fmap in Hr' as (seg & -> & Hseg).
    apply stack_pages in Hx. apply (seg_pages seg x Hseg) in Hx'. destruct Hstk as [_ Hst]. lia.
  - intros i j r r' va Hi Hj Hva Ht Ht'. rewrite list_lookup_fmap in Hi, Hj.
    destruct (segs !! i) as [si|] eqn:Hsi; [|done]. destruct (segs !! j) as [sj|] eqn:Hsj; [|done]. cbn in Hi, Hj. simplify_eq.
    apply (ko_apart _ _ _ _ _ _ _ Hk i j (seg_req hh 0 si) (seg_req hh 0 sj) va); [by rewrite list_lookup_fmap, Hsi|by rewrite list_lookup_fmap, Hsj|done..].
Qed.

(** In the upper half, below the page of the serial port. *)
Lemma reqs_high r x : r ∈ reqs -> in_pages r x -> hh <= x < 2 ^ 64 - 4096.
Proof.
  destruct Hstk as [Hv Hst]. destruct (stack_facts vid Hv) as (Hss & _ & _ & Htop).
  destruct (ko_range _ _ _ _ _ _ _ Hk) as (H1 & H2 & H3).
  intros [->|Hr]%elem_of_cons Hx; [apply stack_pages in Hx; lia|].
  apply list_elem_of_fmap in Hr as (seg & -> & Hseg). apply (seg_pages seg x Hseg) in Hx. lia.
Qed.
End Requests.

Definition memory_request (ty : RAMType) (n : Z) : AllocParams := AllocParams_as_type (AllocParams_new n) ty.

(** Memory of an owner: taken from what the firmware calls free, and not a
    page table. *)
Definition owned_by st τ (p : OwnedPtr) : Prop :=
  forall a, in_ptr p a -> boot_map ds a = Some (Conv, false) /\ firm_taken ds (m_fa st) a /\ ~ in_tables τ a.

Lemma owned_evolves st τ st' τ' p : evolves st τ st' τ' -> owned_by st τ p -> owned_by st' τ' p.
Proof.
  intros [_ Ht Hn] Ho a Ha. destruct (Ho a Ha) as (Hb & Hk & Hnt). split_and!; [done|by apply Ht|].
  intros Hin. by destruct (Hn a Hin) as [?|Hx]; [|destruct Hx].
Qed.

Lemma memory_run st τ g rs ty n :
  GInv g st τ -> maps_only rs st τ -> 0 <= n <= 2 ^ 47 -> ty <> Reclaimable ->
  exists a r, PhysAlloc_alloc (m_fa st) (memory_request ty n) = Ret (a, r) /\
    match r with
    | None => True
    | Some q => GInv g (set_fa st a) τ /\ maps_only rs (set_fa st a) τ /\ evolves st τ (set_fa st a) τ /\
        owned_by (set_fa st a) τ q /\ (forall x, in_ptr q x -> ~ firm_taken ds (m_fa st) x) /\
        n <= op_size q /\ 0 <= op_ptr q /\ op_ptr q + op_size q <= 2 ^ 60
    end.
Proof.
  intros HG Hm Hn Hty. pose proof (gi_fa _ _ _ _ HG) as Hf. change (firm ds (m_fa st)) in Hf. pose proof page_size_range as Hps.
  destruct (firm_alloc Hpage ds (m_fa st) (memory_request ty n) Hf) as (a & r & Hrun & Hr); [|done..|].
  { constructor; cbn; [lia|lia|done]. }
  exists a, r. split; [exact Hrun|]. destruct r as [q|].
  - destruct Hr as [Hf' [Hsz _] [[H1 [H2 H3]] _] Hfree Htk]. unfold LIM in H3.
    assert (forall x, firm_taken ds (m_fa st) x -> firm_taken ds a x) as Hkeep by (intros x Hx; apply Htk; by left).
    split_and!; [by apply GInv_fa|by apply (maps_only_ext rs st)| | |intros x Hx; by apply Hfree| |done|done].
    + constructor; [done|intros x Hx _; by apply Hkeep|by left].
    + intros x Hx. destruct (Hfree x Hx) as [Hb Hnt]. split_and!; [done|apply Htk; by right|].
      intros (p & t & Hp & Hin). apply Hnt. exact (t_taken _ _ _ _ (gi_tree _ _ _ _ HG) p t x Hp Hin).
    + rewrite Hsz. cbn. pose proof (szal_spec n ltac:(lia)). lia.
  - done.
Qed.

Lemma alloc_expect_run g st ty n a r :
  PhysAlloc_alloc (m_fa st) (memory_request ty n) = Ret (a, r) ->
  vm_alloc (KernelVm := Machine_KernelVm g) st (AllocParams_as_type (AllocParams_new n) ty) = Ret (set_fa st a, r).
Proof.
  intros Hr. unfold vm_alloc, Machine_KernelVm. rewrite fa_alloc_is. unfold memory_request in Hr. rewrite Hr. by rewrite Ret_bind.
Qed.

(** ** [reloc] on these tables *)

(** No memory for the image, for the stack, or for a table of theirs. *)
Inductive short_move g segs n vid st : Prop :=
  | short_kernel a : PhysAlloc_alloc (m_fa st) (memory_request Kernel n) = Ret (a, None) -> short_move g segs n vid st
  | short_stack a1 nb a : PhysAlloc_alloc (m_fa st) (memory_request Kernel n) = Ret (a1, Some nb) ->
      PhysAlloc_alloc a1 (memory_request KernelData stack_size) = Ret (a, None) -> short_move g segs n vid st
  | short_upper a1 nb a2 stk : PhysAlloc_alloc (m_fa st) (memory_request Kernel n) = Ret (a1, Some nb) ->
      PhysAlloc_alloc a1 (memory_request KernelData stack_size) = Ret (a2, Some stk) ->
      failed_req g (reloc_reqs hh (op_ptr nb) (stack_of vid) stk segs) (set_fa st a2) Failed2Alloc -> short_move g segs n vid st.

Section Move.
Context (kinfo : KernelInfo) (segs : list Segment) (img : Z -> Z) (v : DynVars) (es : list RelaEntry).
Context (g : Glacier) (physid spark : Z) (s : RelocSt (Machine PhysAlloc)) (aps : ApList) (vid : Z).
Context (Hk : kernel_ok kinfo segs (rl_kbase s) (rl_mem s) img v es) (Hstk : stack_fits kinfo vid).
Context (Has : assign (rl_aps s) physid = (aps, vid)) (Hsp : rl_kbase s <= spark < rl_kbase s + ki_size kinfo).

(** The image in the upper half, over the memory [nb]. *)
Record copied (nb : Z) (s' : RelocSt (Machine PhysAlloc)) : Prop := {
  cd_kbase : rl_kbase s' = nb;
  cd_aps : rl_aps s' = aps;
  cd_words : forall e, e ∈ es -> applies e = true -> load 8 (rl_mem s') (nb + re_offset e) = hh + rela_off img v e;
  cd_bytes : forall x, 0 <= x < ki_size kinfo -> ~ some_slot es x -> rl_mem s' (nb + x) = rl_mem s (rl_kbase s + x)
}.

Lemma apart_memory (nb : OwnedPtr) st τ : owned_by st τ nb -> ki_size kinfo <= op_size nb ->
  rl_kbase s + ki_size kinfo <= op_ptr nb \/ op_ptr nb + ki_size kinfo <= rl_kbase s.
Proof.
  intros Ho Hsz. destruct (ko_range _ _ _ _ _ _ _ Hk) as (H1 & H2 & H3).
  destruct (Z.leb_spec (rl_kbase s + ki_size kinfo) (op_ptr nb)); [by left|].
  destruct (Z.leb_spec (op_ptr nb + ki_size kinfo) (rl_kbase s)); [by right|]. exfalso.
  set (x := Z.max (rl_kbase s) (op_ptr nb)). apply (ko_old _ _ _ _ _ _ _ Hk (x - rl_kbase s)); [lia|].
  replace (rl_kbase s + (x - rl_kbase s)) with x by lia. apply Ho. unfold in_ptr, in_range. lia.
Qed.

Lemma move_run τ rs :
  GInv g (rl_st s) τ -> maps_only rs (rl_st s) τ -> Forall canon_req rs ->
  (forall r x, r ∈ rs -> in_pages r x -> x < hh \/ 2 ^ 64 - 4096 <= x) ->
  (reloc (KernelVm0 := Machine_KernelVm g) kinfo segs physid spark s = Panic /\ short_move g segs (ki_size kinfo) vid (rl_st s)) \/
  exists s' τ' nb stk, reloc (KernelVm0 := Machine_KernelVm g) kinfo segs physid spark s = Ret (s', stack_of vid, hh + (spark - rl_kbase s)) /\
    GInv g (rl_st s') τ' /\ maps_only (rs ++ reloc_reqs hh (op_ptr nb) (stack_of vid) stk segs) (rl_st s') τ' /\
    owned_by (rl_st s') τ' nb /\ owned_by (rl_st s') τ' stk /\ (forall x, in_ptr nb x -> ~ in_ptr stk x) /\
    ki_size kinfo <= op_size nb /\ stack_size <= op_size stk /\
    copied (op_ptr nb) s'.
Proof.
  intros HG Hm Hcan Hplace. pose proof hh_facts as Hh. destruct (ko_range _ _ _ _ _ _ _ Hk) as (H1 & H2 & H3).
  pose proof Hstk as [Hv Hst]. destruct (stack_facts vid Hv) as (Hss & Hpc & _ & Htop).
  assert (hihalf = Ret hh) as Hhh by (unfold hh; apply hihalf_ok; lia).
  destruct (memory_run (rl_st s) τ g rs Kernel (ki_size kinfo) HG Hm) as (a1 & r1 & Hr1 & Hx1); [lia|done|].
  pose proof Hr1 as Ha1. apply (alloc_expect_run g) in Hr1. destruct r1 as [nb|].
  2: { left. split; [|by apply (short_kernel _ _ _ _ _ a1)]. unfold reloc, alloc_expect. by rewrite Hhh, Ret_bind, Hr1, Ret_bind. }
  destruct Hx1 as (HG1 & Hm1 & _ & Hnb & _ & Hsz1 & Hp1 & Hb1).
  destruct (memory_run _ τ g rs KernelData stack_size HG1 Hm1) as (a2 & r2 & Hr2 & Hx2); [lia|done|].
  pose proof Hr2 as Ha2. apply (alloc_expect_run g) in Hr2. destruct r2 as [stk|].
  2: { left. split; [|by apply (short_stack _ _ _ _ _ a1 nb a2)]. unfold reloc, alloc_expect. rewrite Hhh, Ret_bind, Hr1, !Ret_bind. cbn [unwrap]. by rewrite !Ret_bind, Hr2. }
  destruct Hx2 as (HG2 & Hm2 & Hev2 & Hsk & Hfr2 & Hsz2 & Hp2 & Hb2).
  assert (forall x, in_ptr nb x -> ~ in_ptr stk x) as Hap by (intros x Hx Hx'; apply (Hfr2 x Hx'); by apply Hnb).
  apply (owned_evolves _ _ _ _ nb Hev2) in Hnb.
  assert (0 <= op_ptr nb /\ op_ptr nb + ki_size kinfo <= 2 ^ 60) as Hn1 by lia.
  assert (0 <= op_ptr stk <= 2 ^ 60) as Hn2 by lia.
  set (st2 := set_fa (set_fa (rl_st s) a1) a2) in *.
  assert (reloc_reqs hh (op_ptr nb) (stack_of vid) stk segs = reloc_reqs hh (op_ptr nb) (stack_of vid) (mkOwnedPtr (op_ptr stk) 0) segs) as Hreq by done.
  destruct (reloc_run full cfg lims g s kinfo segs physid spark hh nb stk (set_fa (rl_st s) a1) st2 τ aps vid img v es)
    as [[Hp Hf]|(s' & τ' & Hrun & Hkb & Haps & HG' & Hev & He & Hw & Hby)]; try done.
  - rewrite Hpc. lia.
  - fold (stack_of vid). lia.
  - fold (stack_of vid). rewrite Hreq. by eapply reqs_fit.
  - fold (stack_of vid). rewrite Hreq. by eapply upper_apart.
  - apply Hk.
  - apply Hk.
  - apply Hk.
  - lia.
  - lia.
  - by apply (apart_memory nb st2 τ).
  - left. split; [done|]. by apply (short_upper _ _ _ _ _ a1 nb a2 stk).
  - right. fold (stack_of vid) in *. exists s', τ', nb, stk. split_and!; try done.
    + apply (maps_only_app rs _ st2 τ); [done|done|]. rewrite Hreq. apply (separate_intro Hpage Hvb); [done|by eapply reqs_canon|].
      intros r r' Hr Hr' x Hx Hx'. apply (Hplace r x Hr) in Hx.
      eapply (reqs_high kinfo segs _ _ img v es Hk vid Hstk) in Hx'; [|exact Hr']. lia.
    + by eapply owned_evolves.
    + by eapply owned_evolves.
Qed.
End Move.

(** ** [ignite] as a whole *)

Lemma identity_low fl L r x : Forall desc_low L -> r ∈ identity fl L -> in_pages r x -> 0 <= x < 2 ^ 47.
Proof.
  intros HL Hr Hx. apply places_elem in Hr as (d & Hd & Hr). rewrite Forall_forall in HL. specialize (HL d Hd).
  apply (place_pages Hpage _ (identity_req_at fl) d r HL Hr) in Hx. destruct HL as [_ (H1 & H2 & H3)].
  unfold desc_range, in_range, desc_size, PAGE_4KIB in *. lia.
Qed.

Lemma serial_page x : in_pages serial_req x -> 2 ^ 64 - 4096 <= x.
Proof. destruct serial_pages as [Hl Hp]. unfold in_pages. rewrite Hl. lia. Qed.
Lemma serial_page_canon : canon_req serial_req.
Proof.
  pose proof hh_facts as Hh. assert (serial_io = 2 ^ 64 - 4096) as Hs by (unfold serial_io; rewrite Hpage; reflexivity).
  apply canon_high; [done|done|lia|rewrite Hpage; lia|rewrite Hpage; lia].
Qed.
Lemma serial_canon ser : serial_reqs ser -> Forall canon_req ser.
Proof. intros [->|[_ ->]]; [by constructor|]. constructor; [apply serial_page_canon|by constructor]. Qed.
Lemma serial_high ser r x : serial_reqs ser -> r ∈ ser -> in_pages r x -> 2 ^ 64 - 4096 <= x.
Proof. intros [->|[_ ->]]; [by intros ?%elem_of_nil|]. intros [->|?%elem_of_nil]%elem_of_cons; [apply serial_page|done]. Qed.

Lemma serial_apart fl L : Forall desc_low L -> separate (identity fl L) [serial_req].
Proof.
  intros HL. apply (separate_intro Hpage Hvb).
  - by apply (places_ok Hpage Hvb _ (identity_req_at _)).
  - constructor; [apply serial_page_canon|by constructor].
  - intros r r' Hr [->|?%elem_of_nil]%elem_of_cons x Hx Hx'; [|done].
    apply (identity_low fl L r x HL Hr) in Hx. apply serial_page in Hx'. lia.
Qed.

(** Below the upper half, or the page of the serial port. *)
Lemma early_place fl L ser r x :
  Forall desc_low L -> serial_reqs ser -> r ∈ identity fl L ++ ser -> in_pages r x -> x < hh \/ 2 ^ 64 - 4096 <= x.
Proof.
  intros HL Hser [Hr|Hr]%elem_of_app Hx; [left|right; by apply (serial_high ser r)].
  apply (identity_low fl L r x HL Hr) in Hx. pose proof hh_facts. lia.
Qed.

Section Ignite.
Context {Sp D : Type} `{!Hardware D}.
Variable wikisort : (RAMDescriptor -> RAMDescriptor -> comparison) -> list RAMDescriptor -> list RAMDescriptor.
Hypothesis sort_perm : forall cmp l, wikisort cmp l ≡ₚ l.
Context (segs : list Segment) (kargs : KargsBlock) (mem0 : Mem) (img : Z -> Z) (v : DynVars) (es : list RelaEntry) (aps : ApList) (vid : Z).
#[local] Abbreviation kinfo := (ka_kernel kargs).

(** The state in which [ignite] jumps: the tables that are loaded have the
    identity mapping, the page of the serial port if any, and the kernel and
    its stack in the upper half, and nothing else; the image is copied and
    linked; nothing of this overlaps. *)
Record lit (e : Early Sp D) τ (ser : list MapReq) (nb stk : OwnedPtr) : Prop := {
  lt_space : GInv (ea_glacier e) (early_machine e) τ;
  lt_active : is_active (ea_glacier e) (ea_mmu e) = true;
  lt_layout : bt_layout (ea_boot e) ≡ₚ ds;
  lt_serial : serial_reqs ser;
  lt_maps : maps_only (identity (K_RWX flags) (bt_layout (ea_boot e)) ++ ser ++ reloc_reqs hh (op_ptr nb) (stack_of vid) stk segs)
              (early_machine e) τ;
  lt_kernel : owned_by (early_machine e) τ nb /\ ki_size kinfo <= op_size nb;
  lt_stack : owned_by (early_machine e) τ stk /\ stack_size <= op_size stk;
  lt_apart : forall a, in_ptr nb a -> ~ in_ptr stk a;
  lt_words : forall x, x ∈ es -> applies x = true -> load 8 (ea_mem e) (op_ptr nb + re_offset x) = hh + rela_off img v x;
  lt_bytes : forall x, 0 <= x < ki_size kinfo -> ~ some_slot es x -> ea_mem e (op_ptr nb + x) = mem0 (ka_kbase kargs + x);
  lt_kbase : KBASE (ea_statics e) = op_ptr nb;
  lt_aps : ea_aps e = aps;
  lt_heap : kh_base (ea_khh e) = aup (ki_size kinfo + hh) page_size
}.

(** What memory is missing when [ignite] does not return: for the first
    tables, or for the move. *)
Inductive short (layout : list RAMDescriptor) (hw : D) st : Prop :=
  | short_first : short_init layout st -> short layout hw st
  | short_then st1 g st2 d : glacier_init layout st = Ret (st1, g) -> init_serial g st1 hw = Ret (st2, d) ->
      short_move g segs (ki_size kinfo) vid st2 -> short layout hw st.

Lemma ignite_run rb spark physid (s : Early Sp D) :
  let b := mkBoot (bt_pa (ea_boot s)) ds (si_layout_ptr (ka_sys kargs)) segs (ki_seg_ptr kinfo) in
  boot_ok b -> mem0 = ea_mem s ->
  kernel_ok kinfo segs (ka_kbase kargs) mem0 img v es -> stack_fits kinfo vid ->
  assign (ea_aps s) physid = (aps, vid) -> ka_kbase kargs <= spark < ka_kbase kargs + ki_size kinfo ->
  exists b', PhysAlloc_init wikisort rb b = Ret b' /\
  ((ignite wikisort rb spark physid ds segs kargs s = Panic /\
    short (bt_layout b') (ea_hw s) (mkMachine (bt_pa b') (ea_words s) (ea_flushed s))) \/
  exists e τ ser nb stk,
    ignite wikisort rb spark physid ds segs kargs s = Ret (e, stack_of vid, hh + (spark - ka_kbase kargs)) /\
    lit e τ ser nb stk).
Proof.
  intros b Hb Hm0 Hk Hstk Has Hsp. unfold ignite. cbn [KINFO SYSINFO KBASE set_kargs]. fold b.
  destruct (boot_map_run wikisort sort_perm Hpage rb b Hb) as (b' & Hinit & Hin). exists b'. split; [done|].
  rewrite Hinit, Ret_bind.
  pose proof (initialised_firm b b' eq_refl Hin) as Hf. pose proof (in_layout b b' Hin) as HL. change (bt_layout b) with ds in HL.
  assert (Forall desc_low (bt_layout b')) as Hlow' by (by rewrite HL).
  pose proof (disjoint_perm _ _ (symmetry HL) (bk_disj b Hb)) as Hdis.
  set (m0 := mkMachine (bt_pa b') (ea_words s) (ea_flushed s)).
  destruct (glacier_init_run (bt_layout b') m0 Hf Hlow' Hdis) as [[-> Ho]|(m1 & g & τ1 & Hg1 & HG1 & Hm1)]; [left; split; [done|by apply short_first]|].
  rewrite Hg1, Ret_bind. pose proof hh_facts as Hh. pose proof (ko_range _ _ _ _ _ _ _ Hk) as (H1 & H2 & H3).
  pose proof Hstk as [Hv Hst]. destruct (stack_facts vid Hv) as (Hss & _ & _ & Htop).
  unfold init_heap. cbn [KINFO set_copies set_kargs ki_size].
  assert (hihalf = Ret hh) as -> by (unfold hh; apply hihalf_ok; lia). rewrite Ret_bind, uadd_ok, Ret_bind by lia.
  rewrite align_up_ok by (rewrite ?Hpage; lia). rewrite !Ret_bind.
  destruct (init_serial_run g m1 τ1 (ea_hw s) _ HG1 Hm1) as (m2 & d & τ2 & ser & Hser1 & HG2 & Hser & Hm2).
  { by apply serial_apart. }
  rewrite Hser1, Ret_bind.
  set (kinfo' := mkKernelInfo (ki_size kinfo) (ki_ep kinfo) (bt_seg_ptr b') (ki_seg_len kinfo) (ki_dyn_ptr kinfo) (ki_dyn_len kinfo)).
  assert (kernel_ok kinfo' segs (ka_kbase kargs) mem0 img v es) as Hk' by (destruct Hk; by constructor).
  rewrite (in_segs b b' Hin). change (bt_segs b) with segs. cbn [KINFO SYSINFO KBASE set_copies set_kargs].
  set (r0 := mkRelocSt m2 (ea_aps s) (ka_kbase kargs) (ea_spark s) (ea_mem s)).
  destruct (move_run kinfo' segs img v es g physid spark r0 aps vid ltac:(by rewrite Hm0 in Hk') Hstk Has Hsp τ2 (identity (K_RWX flags) (bt_layout b') ++ ser))
    as [[Hp Hs]|(r & τ & nb & stk & Hrun & HG & Hm & Hnb & Hstk' & Hnn & Hn1 & Hn2 & Hc)]; try done.
  { apply Forall_app. split; [by apply (places_ok Hpage Hvb _ (identity_req_at _))|by apply serial_canon]. }
  { intros r x. by apply early_place. }
  - left. split; [|exact (short_then _ _ _ _ _ _ _ Hg1 Hser1 Hs)]. by rewrite Hp.
  - right. rewrite Hrun, Ret_bind. destruct Hc as [Hkb Hap Hw Hby]. eexists _, τ, ser, nb, stk. split; [reflexivity|].
    destruct (rl_st r) as [f w fl] eqn:Hr. rewrite <- app_assoc in Hm.
    constructor; cbn [ea_glacier ea_mmu ea_boot bt_layout ea_mem ea_statics KBASE ea_aps ea_khh kh_base KheapHandler_set_base]; try done.
    + destruct (ea_mmu s); cbn; apply Z.eqb_refl.
    + intros x Hx Hn. rewrite Hm0. by apply Hby.
Qed.

End Ignite.
(** ** [remap] on these tables: the identity mapping loses the right to execute *)

Lemma ram_same fl d r : ram_req d = Some r -> identity_req fl d = Some (mkMapReq (mq_va r) (mq_pa r) (mq_size r) fl).
Proof.
  unfold ram_req, identity_req, ty_in, NON_RAM. destruct (desc_ty d); cbn; by intros [= <-].
Qed.
Lemma identity_ram fl d r : identity_req fl d = Some r ->
  ram_req d = Some (mkMapReq (mq_va r) (mq_pa r) (mq_size r) (K_RWO flags)) /\ mq_fl r = fl \/
  ram_req d = None /\ mq_fl r = D_RW flags /\ forall fl', identity_req fl' d = Some r.
Proof.
  unfold ram_req, identity_req, ty_in, NON_RAM. destruct (desc_ty d); cbn; intros [= <-]; auto.
Qed.
Lemma identity_ex fl fl' d r : identity_req fl d = Some r -> exists r', identity_req fl' d = Some r' /\
  mq_va r' = mq_va r /\ mq_pa r' = mq_pa r /\ mq_size r' = mq_size r.
Proof. unfold identity_req. destruct (desc_ty d); cbn; intros [= <-]; eauto. Qed.

Lemma flags_nonzero : K_RWX flags <> 0 /\ K_RWO flags <> 0 /\ D_RW flags <> 0.
Proof. unfold flags. by destruct target_arch. Qed.

Lemma page_in r k x : 0 <= k < mq_pages r -> x = page (mq_lo r) k -> touches r x.
Proof. intros Hk ->. by exists k. Qed.

Lemma ram_present L os st τ : maps_only (identity (K_RWX flags) L ++ os) st τ -> Forall desc_low L ->
  Forall (has_pages st τ) (ram_reqs L).
Proof.
  intros [Hin _] HL. rewrite Forall_forall. intros r Hr k Hk. apply places_elem in Hr as (d & Hd & Hr).
  pose proof (ram_same (K_RWX flags) d r Hr) as Hi.
  assert (0 <= page (mq_lo r) k < 2 ^ 47) as Hb.
  { rewrite Forall_forall in HL. specialize (HL d Hd). assert (desc_range d (page (mq_lo r) k)) as Hx.
    { apply (place_pages Hpage _ ram_req_at d r HL Hr). unfold in_pages, page. pose proof page_size_pos. nia. }
    destruct HL as [_ (H1 & H2 & H3)]. unfold desc_range, in_range, desc_size, PAGE_4KIB in *. lia. }
  rewrite (Hin (mkMapReq (mq_va r) (mq_pa r) (mq_size r) (K_RWX flags)) (page (mq_lo r) k) k); [|
    apply elem_of_app; left; apply list_elem_of_omap; by exists d|lia|done|done].
  cbn [mq_fl]. intros He. apply Z.lor_eq_0_iff in He as [_ He]. by destruct flags_nonzero.
Qed.

(** The requests [os] are for other pages. *)
Lemma remap_run g st τ L os :
  GInv g st τ -> Forall desc_low L -> disjoint_map L -> separate os (ram_reqs L) ->
  maps_only (identity (K_RWX flags) L ++ os) st τ ->
  exists st' τ', remap g L st = Ret st' /\ m_fa st' = m_fa st /\ GInv g st' τ' /\ evolves st τ st' τ' /\
    maps_only (identity (K_RWO flags) L ++ os) st' τ'.
Proof.
  intros HG HL Hdis Hsep Hm. rewrite remap_reqs by done.
  destruct (places_ok Hpage Hvb _ ram_req_at L HL) as [Hok Hcan].
  destruct (map_reqs_present full cfg lims g _ st τ HG Hok (places_apart Hpage Hvb _ ram_req_at L HL Hdis) (ram_present L os st τ Hm HL))
    as (st' & τ' & Hrun & Hf & HG' & He & Hev). fold (ram_reqs L) in *. rewrite Hrun. unfold or_panic. rewrite Ret_bind.
  exists st', τ'. split_and!; try done. apply (maps_only_update (identity (K_RWX flags) L ++ os) (ram_reqs L) _ st τ); [done|done| | |].
  - intros r [Hr|Hr]%elem_of_app.
    + pose proof Hr as Hr0. apply places_elem in Hr as (d & Hd & Hr). destruct (identity_ram _ d r Hr) as [[Hram Hfl]|(Hram & _ & Hany)].
      * left. apply list_elem_of_omap. exists d. split; [done|]. rewrite Hram. f_equal. by destruct r; cbn in *; subst.
      * right. split; [apply elem_of_app; left; apply list_elem_of_omap; by exists d|].
        apply (separate_intro Hpage Hvb); [|done|].
        { constructor; [|by constructor]. rewrite Forall_forall in HL. by apply (place_canon Hpage _ (identity_req_at (K_RWO flags)) d); [apply HL|]. }
        intros r1 r' [->|?%elem_of_nil]%elem_of_cons Hr' x Hx Hx'; [|done]. apply places_elem in Hr' as (d' & Hd' & Hr').
        rewrite Forall_forall in HL. apply (place_pages Hpage _ (identity_req_at _) d r (HL d Hd) Hr) in Hx.
        apply (place_pages Hpage _ ram_req_at d' r' (HL d' Hd') Hr') in Hx'.
        assert (d = d') as -> by (by apply (disjoint_unique L d d' x)). congruence.
    + right. split; [apply elem_of_app; by right|]. intros r1 r' va [->|?%elem_of_nil]%elem_of_cons; [by apply Hsep|done].
  - intros r Hr. apply places_elem in Hr as (d & Hd & Hr). apply elem_of_app. left. apply list_elem_of_omap. exists d. split; [done|].
    rewrite (ram_same (K_RWO flags) d r Hr). f_equal. unfold ram_req in Hr. destruct (ty_in _ _); [done|]. by injection Hr as <-.
  - intros r va [Hr|Hr]%elem_of_app Ht; [|exists r; split; [apply elem_of_app; by right|done]].
    apply places_elem in Hr as (d & Hd & Hr). destruct (identity_ex _ (K_RWO flags) d r Hr) as (r' & Hr' & Hva & Hpa & Hsz).
    exists r'. split; [apply elem_of_app; left; apply list_elem_of_omap; by exists d|].
    unfold touches, mq_lo, mq_pages in *. by rewrite Hva, Hsz.
Qed.

(** ** What the tables grant *)

(** No page that the kernel may write and execute, none that a program may
    read or write. *)
Definition sealed (e : Z) : Prop :=
  let gr := grant_of target_arch e in
  ~ (rw (g_kernel gr) = true /\ rx (g_kernel gr) = true) /\ rr (g_user gr) = false /\ rw (g_user gr) = false.
Definition all_sealed st τ : Prop := forall va, 0 <= va < 2 ^ 64 -> valid (pte st τ va) = true -> sealed (pte st τ va).

Lemma sealed_flags : sealed (K_ROO flags) /\ sealed (K_ROX flags) /\ sealed (K_RWO flags) /\ sealed (D_RW flags).
Proof. unfold sealed, flags. destruct target_arch; vm_compute; split_and!; try done; by intros [? ?]. Qed.

Lemma sealed_frame pa fl : frame_bits pa -> sealed fl -> sealed (Z.lor pa fl).
Proof. intros Hp. unfold sealed. by rewrite grant_of_frame. Qed.

(** A request of such pages, below 2^48. *)
Definition seals (r : MapReq) : Prop :=
  sealed (mq_fl r) /\ 0 <= mq_va r /\ 0 <= mq_size r /\ 0 <= mq_pa r /\ mq_pa r + mq_size r <= 2 ^ 47.

Lemma seals_page r k : seals r -> 0 <= k < mq_pages r -> sealed (Z.lor (page (mq_frames r) k) (mq_fl r)).
Proof.
  intros (Hs & Hva & Hsz & Hpa & Hb) Hk. apply sealed_frame; [|done].
  pose proof (pages_bound Hpage (mq_va r) (mq_size r) Hva Hsz) as (H1 & H2 & H3 & H4). unfold mq_pages in Hk.
  exists (mq_pa r / 4096 + k). unfold page, mq_frames, page_floor. rewrite Hpage, Z.shiftl_mul_pow2 by lia. change (2 ^ 12) with 4096.
  split; [|lia]. pose proof (Z.div_mod (mq_pa r) 4096 ltac:(lia)). pose proof (Z.mod_pos_bound (mq_pa r) 4096 ltac:(lia)). lia.
Qed.

Lemma maps_sealed rs st τ : maps_only rs st τ -> Forall seals rs -> all_sealed st τ.
Proof.
  intros [Hin Hout] Hs va Hva Hv. destruct (decide (Exists (fun r => vpn c va ∈ vpns r) rs)) as [He|He].
  - apply Exists_exists in He as (r & Hr & Ht). apply elem_vpns in Ht as (k & Hk & Hvk). rewrite (Hin r va k) by done.
    rewrite Forall_forall in Hs. by apply seals_page; [apply Hs|].
  - rewrite Hout in Hv; [by rewrite valid_0 in Hv|done|]. intros r Hr Ht. apply He, Exists_exists. exists r.
    split; [done|by apply elem_vpns].
Qed.

Lemma identity_seals L : Forall desc_low L -> Forall seals (identity (K_RWO flags) L).
Proof.
  rewrite !Forall_forall. intros HL r Hr. apply places_elem in Hr as (d & Hd & Hr). destruct (HL d Hd) as [_ (H1 & H2 & H3)].
  destruct (identity_req_at _ d r Hr) as (Hva & Hpa & Hsz). destruct sealed_flags as (_ & _ & Hw & Hdev). unfold seals.
  rewrite Hva, Hpa, Hsz. unfold desc_size in *. split_and!; try lia.
  by destruct (identity_ram _ d r Hr) as [[_ ->]|(_ & -> & _)].
Qed.

Lemma serial_seals ser : serial_reqs ser -> Forall seals ser.
Proof.
  assert (serial_io = 2 ^ 64 - 4096) as Hs by (unfold serial_io; rewrite Hpage; reflexivity).
  intros [->|[_ ->]]; [by constructor|]. constructor; [|by constructor]. destruct sealed_flags as (_ & _ & _ & Hdev).
  unfold seals, serial_req. cbn [mq_fl mq_va mq_size mq_pa]. rewrite Hs, Hpage. by split_and!.
Qed.

(** The last byte of owned memory is in the firmware's map. *)
Lemma owned_low st τ p n : owned_by st τ p -> 0 < n <= op_size p -> 0 <= op_ptr p /\ op_ptr p + n <= 2 ^ 47.
Proof.
  intros Ho Hn. destruct (Ho (op_ptr p)) as (Hb & _); [unfold in_ptr, in_range; lia|].
  destruct (Ho (op_ptr p + n - 1)) as (Hb' & _); [unfold in_ptr, in_range; lia|].
  apply boot_low in Hb, Hb'. lia.
Qed.

Lemma upper_seals kinfo segs B m img v es vid nb stk st τ :
  kernel_ok kinfo segs B m img v es -> stack_fits kinfo vid -> Forall (fun seg => seg_flags seg <> 7) segs ->
  owned_by st τ nb -> ki_size kinfo <= op_size nb -> owned_by st τ stk -> stack_size <= op_size stk ->
  Forall seals (reloc_reqs hh (op_ptr nb) (stack_of vid) stk segs).
Proof.
  intros Hk [Hv Hst] Hx Hnb Hn Hsk Hs. destruct (stack_facts vid Hv) as (Hss & _). pose proof hh_facts as Hh.
  destruct (ko_range _ _ _ _ _ _ _ Hk) as (H1 & H2 & H3). destruct sealed_flags as (Hro & Hrx & Hrw & _).
  pose proof (owned_low st τ nb (ki_size kinfo) Hnb ltac:(lia)) as Hb1.
  pose proof (owned_low st τ stk stack_size Hsk ltac:(split; [lia|exact Hs])) as Hb2.
  constructor; [unfold seals; cbn [mq_fl mq_va mq_size mq_pa]; split_and!; [done|lia..]|].
  rewrite Forall_fmap, !Forall_forall in *. intros seg Hseg. pose proof (ko_segs _ _ _ _ _ _ _ Hk) as Hsg.
  rewrite Forall_forall in Hsg. destruct (Hsg seg Hseg) as (H4 & H5 & H6). specialize (Hx seg Hseg).
  unfold seals, seg_req. cbn [compose mq_fl mq_va mq_size mq_pa]. split_and!; [|lia..]. unfold seg_kflags.
  do 3 (destruct (_ =? _); [done|]). by destruct (Z.eqb_spec (seg_flags seg) 7).
Qed.

(** ** [spark] *)

(** Memory that the firmware's map calls free and that is in use stays in
    use, so the tables are as good for the allocator as a whole. *)
Lemma reclaim_frames g st τ :
  GInv g st τ ->
  exists f, PhysAlloc_reclaim (S (length (pa_blocks (m_fa st)))) (m_fa st) = Ret f /\
    (forall a, view f a = reclaimed (view (m_fa st) a)) /\
    (forall a, firm_taken ds (m_fa st) a -> pa_taken f a) /\
    GlacierThms.GInv (FrameLaws0 := PhysAlloc_FrameLaws Hpage) full g (set_fa st f) τ.
Proof.
  intros [HT Hfa]. change (firm ds (m_fa st)) in Hfa.
  destruct (reclaim_spec Hpage (m_fa st) (fm_inv ds _ Hfa)) as (f & -> & Hf & Hv).
  assert (forall a, firm_taken ds (m_fa st) a -> pa_taken f a) as Hk.
  { intros a [Hb Hn]. unfold pa_taken. rewrite Hv. unfold reclaimed. destruct (view (m_fa st) a) as [[ty u]|] eqn:Ho; [|done].
    unfold is_recl. cbn [fst]. case_bool_decide as Hr; [|done]. subst ty. by rewrite (fm_recl ds _ Hfa a u Ho) in Hb. }
  exists f. split_and!; [done|done|done|]. constructor; [|exact Hf]. destruct HT as [H1 H2 H3 H4 H5 H6 H7]. constructor; try done.
  intros p t a Hp Ha. apply Hk. by apply (H3 p t a).
Qed.

(** What is mapped in the upper half is not RAM's identity mapping. *)
Lemma upper_separate kinfo segs B m img v es vid nb stk ser L :
  kernel_ok kinfo segs B m img v es -> stack_fits kinfo vid -> serial_reqs ser -> Forall desc_low L ->
  separate (ser ++ reloc_reqs hh (op_ptr nb) (stack_of vid) stk segs) (ram_reqs L).
Proof.
  intros Hk Hstk Hser HL. pose proof hh_facts as Hh.
  change (reloc_reqs hh (op_ptr nb) (stack_of vid) stk segs) with (reloc_reqs hh (op_ptr nb) (stack_of vid) (mkOwnedPtr (op_ptr stk) 0) segs).
  apply (separate_intro Hpage Hvb).
  - apply Forall_app. split; [by apply serial_canon|]. by eapply reqs_canon.
  - by apply (places_ok Hpage Hvb _ ram_req_at).
  - intros r r' Hr Hr' x Hx Hx'. apply places_elem in Hr' as (d & Hd & Hr'). rewrite Forall_forall in HL. specialize (HL d Hd).
    apply (place_pages Hpage _ ram_req_at d r' HL Hr') in Hx'. destruct HL as [_ (H4 & H5 & H6)].
    unfold desc_range, in_range, desc_size, PAGE_4KIB in *.
    apply elem_of_app in Hr as [Hr|Hr]; [apply (serial_high ser r x Hser Hr) in Hx; lia|].
    eapply (reqs_high kinfo segs _ _ img v es Hk vid Hstk) in Hx; [|exact Hr]. lia.
Qed.

Lemma stack_top_ok kinfo vid : stack_fits kinfo vid -> 0 < ki_size kinfo -> stack_top vid = Ret (stack_of vid).
Proof.
  intros [Hv Hst] Hk. destruct (stack_facts vid Hv) as (Hss & Hpc & _ & Htop). pose proof hh_facts as Hh. unfold stack_top, stack_of in *.
  assert (gleam_base = 2 ^ 64 - 0x40000) as Hg by (unfold gleam_base; rewrite Hpc; reflexivity).
  rewrite umul_ok, Ret_bind by lia. rewrite usub_ok by lia. f_equal. lia.
Qed.

Section SparkMemory.
Context {Sp D N : Type} `{!Hardware D} `{!Hardware N} {Tb Tr Nv Xc Ud Hp X W : Type} `{!ExcInit X}.
Context (segs : list Segment) (kargs : KargsBlock) (mem0 : Mem) (img : Z -> Z) (v : DynVars) (es : list RelaEntry) (aps : ApList) (vid : Z).
Abbreviation SparkSt := (SparkSt (N := N) (Tb := Tb) (Tr := Tr) (Nv := Nv) (Xc := Xc) (Ud := Ud) (Hp := Hp) (X := X) (W := W)).

(** [spark] takes the state that [ignite] left. *)
Record takes_over (e : Early Sp D) (s : SparkSt) : Prop := {
  to_machine : sk_machine s = early_machine e;
  to_glacier : sk_glacier s = ea_glacier e;
  to_layout : sk_layout s = bt_layout (ea_boot e);
  to_aps : sk_aps s = ea_aps e
}.

(** The state in which the devices are looked for: the loader's memory is
    free, the kernel's is not; no page is writable and executable. *)
Record settled (s s' : SparkSt) τ (ser : list MapReq) (nb stk : OwnedPtr) : Prop := {
  st_space : GlacierThms.GInv (FrameLaws0 := PhysAlloc_FrameLaws Hpage) full (sk_glacier s) (sk_machine s') τ;
  st_maps : maps_only (identity (K_RWO flags) (sk_layout s) ++ ser ++ reloc_reqs hh (op_ptr nb) (stack_of vid) stk segs)
              (sk_machine s') τ;
  st_sealed : all_sealed (sk_machine s') τ;
  st_view : forall a, view (m_fa (sk_machine s')) a = reclaimed (view (m_fa (sk_machine s)) a);
  st_loader : forall a u, boot_map ds a = Some (Reclaimable, u) -> view (m_fa (sk_machine s')) a = Some (Conv, false);
  st_firmware : forall a ty, boot_map ds a = Some (ty, false) -> ty <> Reclaimable -> ty <> Conv ->
      view (m_fa (sk_machine s')) a = Some (ty, false);
  st_kept : forall a, in_ptr nb a \/ in_ptr stk a \/ in_tables τ a -> view (m_fa (sk_machine s')) a <> Some (Conv, false)
}.

Lemma spark_memory_run (e : Early Sp D) τ ser nb stk (s : SparkSt) physid x :
  lit segs kargs mem0 img v es aps vid e τ ser nb stk -> takes_over e s ->
  disjoint_map ds -> kernel_ok (ka_kernel kargs) segs (ka_kbase kargs) mem0 img v es -> stack_fits (ka_kernel kargs) vid ->
  Forall (fun seg => seg_flags seg <> 7) segs ->
  virtid_self aps physid = vid -> exc_setup (stack_of vid) physid (sk_exc s) = Ret x ->
  exists s' τ', spark_memory physid s = Ret s' /\ settled s s' τ' ser nb stk /\ sk_exc s' = x /\ sk_glacier s' = sk_glacier s /\
    sk_layout s' = sk_layout s /\ sk_aps s' = sk_aps s.
Proof.
  intros [HG _ HL Hser Hm [Hnb Hnsz] [Hsk Hssz] _ _ _ _ Haps _] [Em Eg El Ea] Hdis Hk Hstk Hx Hvid Hexc.
  rewrite <- Em, <- Eg, <- El in *. rewrite <- Ea in Haps.
  assert (Forall desc_low (sk_layout s)) as Hlow' by (by rewrite HL).
  pose proof (disjoint_perm _ _ (symmetry HL) Hdis) as Hdis'.
  pose proof Hstk as [Hv Hst]. destruct (stack_facts vid Hv) as (Hss & Hpc & _ & Htop). pose proof hh_facts as Hh.
  destruct (ko_range _ _ _ _ _ _ _ Hk) as (H1 & H2 & H3).
  destruct (remap_run (sk_glacier s) (sk_machine s) τ (sk_layout s) _ HG Hlow' Hdis'
    (upper_separate _ _ _ _ _ _ _ _ nb stk ser _ Hk Hstk Hser Hlow') Hm) as (st1 & τ1 & Hrun & Hf1 & HG1 & Hev & Hm1).
  unfold spark_memory. rewrite Hrun, Ret_bind. cbn [sk_aps sk_exc set_machine set_devices set_dev].
  rewrite Haps, Hvid, (stack_top_ok _ _ Hstk H2), Ret_bind, Hexc, Ret_bind.
  match goal with |- context [printlnk ?l ?t] => set (s1 := printlnk l t) end.
  assert (sk_machine s1 = st1) as Hs1 by done. rewrite Hs1.
  destruct (reclaim_frames (sk_glacier s) st1 τ1 HG1) as (f & -> & Hvw & Hkeep & HG2). rewrite Ret_bind.
  exists (set_machine s1 (set_fa st1 f)), τ1. split_and!; try done.
  pose proof (gi_fa _ _ _ _ HG) as Hfirm. change (firm ds (m_fa (sk_machine s))) in Hfirm. rewrite Hf1 in Hvw, Hkeep.
  change (sk_machine (set_machine s1 (set_fa st1 f))) with (set_fa st1 f).
  constructor; change (sk_machine (set_machine s1 (set_fa st1 f))) with (set_fa st1 f); cbn [m_fa set_fa].
  - done.
  - by apply (maps_only_ext _ st1).
  - apply (maps_sealed (identity (K_RWO flags) (sk_layout s) ++ ser ++ reloc_reqs hh (op_ptr nb) (stack_of vid) stk segs));
      [by apply (maps_only_ext _ st1)|]. apply Forall_app. split; [by apply identity_seals|].
    apply Forall_app. split; [by apply serial_seals|]. by eapply upper_seals.
  - done.
  - intros a u Hb. rewrite Hvw, (fm_keep ds _ Hfirm a) by (by rewrite Hb). by rewrite Hb.
  - intros a ty Hb Hr Hc. rewrite Hvw, (fm_keep ds _ Hfirm a) by (rewrite Hb; by intros [= ->]). rewrite Hb.
    unfold reclaimed, is_recl. cbn [fst]. by rewrite bool_decide_false.
  - intros a [Ha|[Ha|Ha]]; apply Hkeep; [by apply Hnb|by apply Hsk|]. destruct Ha as (p & t & Hpt & Hin). rewrite <- Hf1.
    exact (t_taken _ _ _ _ (gi_tree _ _ _ _ HG1) p t a Hpt Hin).
Qed.

End SparkMemory.
End Start.
Arguments lit {H} Hpage ds {Sp D}.
Arguments settled {H} Hpage ds {N Tb Tr Nv Xc Ud Hp X W}.

(** The first program starts in a state of the tables of processes from which
    everything holds that ProcTable shows. *)
Lemma spark_first `{Platform} {N : Type} `{!Hardware N} {Tb Tr Nv Xc Ud : Type}
    `{!Firmware (World (A := PhysAlloc) (N := N)) Tb Tr} `{!NvmeDriver (World (A := PhysAlloc) (N := N)) Nv}
    `{!UsbDriver (World (A := PhysAlloc) (N := N)) Xc Ud} {Hp X W F : Type} `{!KernelMem PhysAlloc Hp} `{!ExcInit X} `{!ExcCtxt F} `{!ElfParser}
    fuel n edid_at disks physid sp s s' (y : System PhysAlloc Hp W F) f :
  spark (N := N) (Tb := Tb) (Tr := Tr) (Nv := Nv) (Xc := Xc) (Ud := Ud) (X := X) fuel n edid_at disks physid sp s = Ret (s', y, Some f) ->
  reachable fuel 2 y.
Proof.
  unfold spark. intros Hx. apply bind_Ret in Hx as (s1 & _ & Hx). apply bind_Ret in Hx as (s2 & _ & Hx).
  apply bind_Ret in Hx as (s3 & _ & Hx). apply bind_Ret in Hx as (top & _ & Hx).
  apply bind_Ret in Hx as ([y1 r] & Hy & Hx). injection Hx as <- <- ->. cbn.
  eapply reach_step; [apply reach_init|]. by eapply step_exec.
Qed.

(** ** A machine of 64 MiB, and the kernel of RelocDemo *)

Module EntryDemo.
#[local] Existing Instance Demo.demo.
#[local] Existing Instance SerialDemo.port.

(** Memory below 1 MiB, what the loader took with the image, free memory. *)
Definition ds0 : list RAMDescriptor :=
  [mkRAMDescriptor Conv 0x1000 0 2 0; mkRAMDescriptor LoaderData 0x100000 0 4 0; mkRAMDescriptor Conv 0x800000 0 0x20 0;
   mkRAMDescriptor MMIO 0xfec00000 0 1 0].
Definition kargs0 : KargsBlock := mkKargs RelocDemo.kinfo0 (mkSysInfo 0x103000 4 0 0 (replicate 16 0)) 0x101000.
Definition early0 : Early Z SerialDemo.Port :=
  mkEarly BootStatics_init (mkBoot PhysAlloc_empty [] 0 [] 0) (mkGlacier 0 false) (mkKheapHandler 0 0) ApList_new 0
    (fun _ => 0) [] RelocDemo.booted (MmuAmd64 (mkCtrl 0 0 0 0)) ([], false).
Definition aps0 : ApList := (assign ApList_new 0).1.

Definition lit_now : outcome (Early Z SerialDemo.Port * Z * Z) :=
  ignite InitDemo.sort_by 0x101800 0x101904 0 ds0 RelocDemo.segs0 kargs0 early0.
Lemma lit_returns : match lit_now with Ret (_, sp, pc) => (sp, pc) | _ => (0, 0) end = (0xfffffffffffc0000, 0xffff800000000904).
Proof. vm_compute. reflexivity. Qed.

Lemma low0 : Forall desc_low ds0.
Proof. repeat (apply Forall_cons_2); try apply Forall_nil_2; constructor; [by exists 1|by vm_compute|by exists 0x100|by vm_compute|by exists 0x800|by vm_compute|by exists 0xfec00|by vm_compute]. Qed.
Lemma apart0 : disjoint_map ds0.
Proof.
  unfold ds0. cbn. split_and!; repeat (apply Forall_cons_2); try apply Forall_nil_2; try done.
  all: intros a; unfold desc_range, in_range; cbn; change PAGE_4KIB with 4096; lia.
Qed.
Lemma boot0_ok : boot_ok (mkBoot PhysAlloc_empty ds0 0x103000 RelocDemo.segs0 0x103000).
Proof.
  constructor; [done| |apply apart0|done|done|].
  - cbn. repeat (apply Forall_cons_2); try apply Forall_nil_2; by vm_compute.
  - exists 0x800000, 0x820000. split; [|by vm_compute]. split; [by exists 0x800|].
    exists (mkRAMDescriptor Conv 0x800000 0 0x20 0). split_and!; try done. do 2 right. by left.
Qed.
Lemma vb0 : 48 <= va_bits G_CFG <= 52.
Proof. done. Qed.

Lemma kernel0_ok : kernel_ok ds0 RelocDemo.kinfo0 RelocDemo.segs0 0x101000 RelocDemo.booted RelocDemo.img RelocDemo.v0 RelocDemo.es0.
Proof.
  constructor; [apply RelocDemo.linked0|apply RelocDemo.base0; vm_compute; done|apply RelocDemo.loaded0|by vm_compute| | |].
  - repeat (apply Forall_cons_2); try apply Forall_nil_2; by vm_compute.
  - apply no_shared_vpns. apply (bool_decide_unpack _). vm_compute. exact I.
  - intros x Hx. change (0 <= x < 0x2000) in Hx.
    rewrite (boot_map_in ds0 (mkRAMDescriptor LoaderData 0x100000 0 4 0) (0x101000 + x)); [done|apply apart0|right; by left|].
    unfold desc_range, in_range. cbn. change PAGE_4KIB with 4096. lia.
Qed.
Lemma stack0 : stack_fits RelocDemo.kinfo0 0.
Proof. by vm_compute. Qed.


#[local] Instance exc : ExcInit (gmap Z CPUDesc * list IdtEnt * Cpu64) :=
  ExcInit_amd64 (fun v => 0xffff800000001000 + 16 * v) 0xffff800000003000 0xffff800000004000 Amd64Demo.percpu.
Definition exc0 : gmap Z CPUDesc * list IdtEnt * Cpu64 := (∅, replicate 256 IdtEnt_new, Amd64Demo.cpu0).
Definition exc1 : gmap Z CPUDesc * list IdtEnt * Cpu64 :=
  match exc_setup 0xfffffffffffc0000 0 exc0 with Ret x => x | _ => exc0 end.
Lemma exc1_is : exc_setup 0xfffffffffffc0000 0 exc0 = Ret exc1.
Proof.
  assert (match exc_setup 0xfffffffffffc0000 0 exc0 with Ret _ => true | _ => false end = true) as Hr by (vm_compute; reflexivity).
  unfold exc1. by destruct (exc_setup _ _ _).
Qed.
Definition spark0 (e : Early Z SerialDemo.Port) :
    SparkSt (N := SerialDemo.Port) (Tb := unit) (Tr := unit) (Nv := unit) (Xc := unit) (Ud := unit) (Hp := unit) (W := unit) :=
  mkSparkSt (bt_layout (ea_boot e)) (SYSINFO (ea_statics e)) (ea_aps e)
    (mkDevSt (mkDevices ((ea_glacier e, early_machine e), ea_hw e) (fun _ => 0) ∅ [] [] [] []) [] None None (mkIc (ea_hw e) 0 None None None 0 0) 0 (fun _ => 0) None)
    exc0 tt (ea_mem e) (mkVfs [] ∅ 0 tt) false.

End EntryDemo.
